(** * SPIN sales coach: the frontend's scoring, parsing and settings logic

    A shallow embedding of the TypeScript sources of the sales-coach
    frontend (the API client, the representatives, assessment, prompt-template
    and evaluation pages, the transcript viewer) together with the properties
    its specification states about them.

    Conventions of the embedding.
    - A JavaScript string is the list of its UTF-16 code units ([list N]).
    - A JavaScript number that the code only adds, divides by a constant and
      compares is an exact rational ([Q]); the scores themselves are integers
      ([Z]).  A sum of seven small integers and one division are correctly
      rounded in IEEE doubles and rounding is monotone, so comparisons with
      the representable thresholds of the code agree with the exact ones.
    - Code that can throw returns a [completion]: [Normal v] or [Throw e].
    - Handlers that call the backend return the list of HTTP requests they
      issue next to their new component state. *)

From Stdlib Require Import ZArith NArith QArith List String Ascii Bool Lia.
From Stdlib Require Import Sorting.Sorted Sorting.Permutation.
From Stdlib Require Import QArith.Qround QArith.Qabs.
From Stdlib Require Lqa.
From Stdlib Require Import Reals Lra.
Import ListNotations.


(* ================================================================== *)
(** * Part I.  The embedding                                            *)
(* ================================================================== *)

(** ** JavaScript values, strings and exceptions *)

Module JS.

(** A string is a sequence of UTF-16 code units. *)
Definition jsstring := list N.

(** A literal of the source, given by its ASCII text. *)
Definition lit (s : string) : jsstring :=
  List.map N_of_ascii (list_ascii_of_string s).

Fixpoint str_eqb (a b : jsstring) : bool :=
  match a, b with
  | [], [] => true
  | x :: a', y :: b' => N.eqb x y && str_eqb a' b'
  | _, _ => false
  end.

(** [WhiteSpace] and [LineTerminator] code points of ECMAScript: the set
    removed by [String.prototype.trim] and matched by the class [\s]. *)
Definition isWhiteSpace (c : N) : bool :=
  (N.eqb c 9 || N.eqb c 10 || N.eqb c 11 || N.eqb c 12 || N.eqb c 13
   || N.eqb c 32 || N.eqb c 160 || N.eqb c 5760
   || (N.leb 8192 c && N.leb c 8202)
   || N.eqb c 8232 || N.eqb c 8233 || N.eqb c 8239 || N.eqb c 8287
   || N.eqb c 12288 || N.eqb c 65279)%bool.

(** [LineTerminator]: LF, CR, U+2028, U+2029. *)
Definition isLineTerminator (c : N) : bool :=
  (N.eqb c 10 || N.eqb c 13 || N.eqb c 8232 || N.eqb c 8233)%bool.

Fixpoint trimStart (s : jsstring) : jsstring :=
  match s with
  | c :: s' => if isWhiteSpace c then trimStart s' else s
  | [] => []
  end.

Definition trimEnd (s : jsstring) : jsstring := rev (trimStart (rev s)).

(** [s.trim()] *)
Definition trim (s : jsstring) : jsstring := trimEnd (trimStart s).

Fixpoint startsWith (p s : jsstring) : bool :=
  match p, s with
  | [], _ => true
  | x :: p', y :: s' => N.eqb x y && startsWith p' s'
  | _ :: _, [] => false
  end.

(** [s.includes(p)] *)
Fixpoint includes (s p : jsstring) : bool :=
  startsWith p s ||
  match s with
  | [] => false
  | _ :: s' => includes s' p
  end.

(** [s.split(sep)] for the one-code-unit separator [sep]; the result is
    never empty ([""] splits into [[""]]). *)
Fixpoint split (sep : N) (s : jsstring) : list jsstring :=
  match s with
  | [] => [[]]
  | c :: s' =>
      if N.eqb c sep then [] :: split sep s'
      else match split sep s' with
           | l :: ls => (c :: l) :: ls
           | [] => [[c]]
           end
  end.

(** [s.toLowerCase()] on code units up to U+00FF (ASCII and Latin-1
    capitals move by 32, the multiplication sign U+00D7 stays); the model
    leaves code units above U+00FF as they are. *)
Definition lowerUnit (c : N) : N :=
  if (N.leb 65 c && N.leb c 90)%bool then (c + 32)%N
  else if (N.leb 192 c && N.leb c 222 && negb (N.eqb c 215))%bool
       then (c + 32)%N
       else c.

Definition toLowerCase (s : jsstring) : jsstring := List.map lowerUnit s.

(** Exceptions the embedded code can meet; all are instances of [Error]
    and carry a message. *)
Inductive error : Type :=
| SyntaxError (message : jsstring)
| TypeError (message : jsstring)
| Error (message : jsstring).

(** [e.message] *)
Definition message (e : error) : jsstring :=
  match e with
  | SyntaxError m | TypeError m | Error m => m
  end.

Inductive completion (A : Type) : Type :=
| Normal (a : A)
| Throw (e : error).
Arguments Normal {A} a.
Arguments Throw {A} e.

Definition bind {A B} (c : completion A) (f : A -> completion B)
  : completion B :=
  match c with
  | Normal a => f a
  | Throw e => Throw e
  end.

(** [try { body } catch { handler }] *)
Definition try_catch {A} (body : completion A) (handler : completion A)
  : completion A :=
  match body with
  | Normal a => Normal a
  | Throw _ => handler
  end.

(** [arr.map(f)] where [f] may throw: elements are visited in order and
    the first exception ends the loop. *)
Fixpoint mapM {A B} (f : A -> completion B) (l : list A)
  : completion (list B) :=
  match l with
  | [] => Normal []
  | x :: l' =>
      bind (f x) (fun y => bind (mapM f l') (fun ys => Normal (y :: ys)))
  end.

(** The values [JSON.parse] can produce, and [undefined].  A number is
    kept as the exact decimal [mant * 10 ^ exp] of its literal; the double
    it denotes is the rounding of that decimal. *)
#[warnings="-register-all"] Inductive value : Type :=
| VUndefined
| VNull
| VBool (b : bool)
| VNum (mant exp : Z)
| VStr (s : jsstring)
| VArr (items : list value)
| VObj (props : list (jsstring * value)).

(** The literal [mant * 10 ^ exp] rounds to the double zero exactly when
    its magnitude is at most [2 ^ -1075], half the least subnormal. *)
Definition numIsZero (mant exp : Z) : bool :=
  if Z.eqb mant 0 then true
  else if Z.leb 0 exp then false
  else Z.leb (Z.abs mant * 2 ^ 1075) (10 ^ (- exp)).

(** [ToBoolean] *)
Definition truthy (v : value) : bool :=
  match v with
  | VUndefined | VNull => false
  | VBool b => b
  | VNum m e => negb (numIsZero m e)
  | VStr s => match s with [] => false | _ => true end
  | VArr _ | VObj _ => true
  end.

(** [a || b] *)
Definition or_else (a b : value) : value := if truthy a then a else b.

(** The own property [k] of an object literal; a later duplicate key
    wins, as in [JSON.parse] and [JSON.stringify]. *)
Fixpoint lookup (k : jsstring) (props : list (jsstring * value))
  : option value :=
  match props with
  | [] => None
  | (k', v) :: rest =>
      match lookup k rest with
      | Some v' => Some v'
      | None => if str_eqb k k' then Some v else None
      end
  end.

(** [v.k] for a key [k] that no built-in prototype defines: a
    [TypeError] on [null] and [undefined] (the message is the engine's, no
    embedded code reads it), the own property of an object, [undefined]
    otherwise. *)
Definition get (v : value) (k : jsstring) : completion value :=
  match v with
  | VUndefined | VNull =>
      Throw (TypeError (lit "Cannot read properties of null"))
  | VObj props =>
      match lookup k props with
      | Some x => Normal x
      | None => Normal VUndefined
      end
  | _ => Normal VUndefined
  end.

(** [v.toLowerCase()]: only strings have the method; calling the missing
    method of another value is a [TypeError]. *)
Definition callToLowerCase (v : value) : completion jsstring :=
  match v with
  | VStr s => Normal (toLowerCase s)
  | _ => Throw (TypeError (lit "toLowerCase is not a function"))
  end.

End JS.

Notation "x <- c ;; k" := (JS.bind c (fun x => k))
  (at level 61, c at next level, right associativity).

(** ** src/frontend/src/types/representatives.ts *)

Module AssessmentScores.
Record t : Type := mk {
  situation : Z;
  problem : Z;
  implication : Z;
  need_payoff : Z;
  flow : Z;
  tone : Z;
  engagement : Z
}.
End AssessmentScores.

Module AssessmentCoaching.
Record t : Type := mk {
  summary : JS.jsstring;
  wins : list JS.jsstring;
  gaps : list JS.jsstring;
  next_actions : list JS.jsstring
}.
End AssessmentCoaching.

Module Assessment.
Record t : Type := mk {
  id : Z;
  transcript_id : Z;
  scores : AssessmentScores.t;
  coaching : AssessmentCoaching.t;
  model_name : JS.jsstring;
  prompt_version : JS.jsstring;
  latency_ms : option Z;
  created_at : JS.jsstring
}.
End Assessment.

Module Representative.
Record t : Type := mk {
  id : JS.jsstring;
  email : JS.jsstring;
  full_name : JS.jsstring;
  department : option JS.jsstring;
  is_active : bool;
  hire_date : option JS.jsstring;
  created_at : JS.jsstring
}.
End Representative.

Module Transcript.
Record t : Type := mk {
  id : Z;
  representative_id : option JS.jsstring;
  buyer_id : option JS.jsstring;
  metadata : option (list (JS.jsstring * JS.value));
  transcript : JS.jsstring;
  created_at : JS.jsstring
}.
End Transcript.

(** ** The composite SPIN score (three copies in the sources) *)

Module TranscriptsTable.
Import AssessmentScores.

(** [calculateCompositeScore] of the transcripts table. *)
Definition calculateCompositeScore (scores : AssessmentScores.t) : Q :=
  inject_Z (situation scores + problem scores + implication scores
            + need_payoff scores + flow scores + tone scores
            + engagement scores) / 7.
End TranscriptsTable.

Module AssessmentHeader.
Import AssessmentScores.

(** [calculateCompositeScore] of the assessment header. *)
Definition calculateCompositeScore (scores : AssessmentScores.t) : Q :=
  inject_Z (situation scores + problem scores + implication scores
            + need_payoff scores + flow scores + tone scores
            + engagement scores) / 7.
End AssessmentHeader.

(** ** Dates

    [new Date(s).getTime()] depends on the engine's date parser; the pages
    are embedded over it.  [None] stands for [NaN], the time value of an
    invalid date. *)

Module JSDate.
Local Open Scope Z_scope.

Definition parser := JS.jsstring -> option Z.

(** [a - b] on time values; [NaN] is absorbing. *)
Definition sub (a b : option Z) : option Z :=
  match a, b with
  | Some x, Some y => Some (x - y)
  | _, _ => None
  end.

(** [Math.max(a, b)] *)
Definition max (a b : option Z) : option Z :=
  match a, b with
  | Some x, Some y => Some (Z.max x y)
  | _, _ => None
  end.

Definition digit (c : N) : option Z :=
  if (N.leb 48 c && N.leb c 57)%bool then Some (Z.of_N c - 48) else None.

Fixpoint digits (acc : Z) (s : JS.jsstring) : option Z :=
  match s with
  | [] => Some acc
  | c :: s' =>
      match digit c with
      | Some d => digits (10 * acc + d) s'
      | None => None
      end
  end.

(** Days from 1970-01-01 to the civil date [y-m-d] of the proleptic
    Gregorian calendar. *)
Definition daysFromCivil (y m d : Z) : Z :=
  let y' := if m <=? 2 then y - 1 else y in
  let era := y' / 400 in
  let yoe := y' - era * 400 in
  let mp := (m + 9) mod 12 in
  let doy := (153 * mp + 2) / 5 + d - 1 in
  let doe := yoe * 365 + yoe / 4 - yoe / 100 + doy in
  era * 146097 + doe - 719468.

(** One instance of [parser]: the date-time string format
    [YYYY-MM-DDTHH:mm:ssZ] that every engine reads as UTC; everything
    else is an invalid date here. *)
Definition isoUtc : parser := fun s =>
  match s with
  | [y1; y2; y3; y4; 45; m1; m2; 45; d1; d2; 84;
     h1; h2; 58; n1; n2; 58; s1; s2; 90]%N =>
      match digits 0 [y1; y2; y3; y4], digits 0 [m1; m2], digits 0 [d1; d2],
            digits 0 [h1; h2], digits 0 [n1; n2], digits 0 [s1; s2] with
      | Some y, Some m, Some d, Some h, Some n, Some sec =>
          if ((1 <=? m) && (m <=? 12) && (1 <=? d) && (d <=? 31)
              && (h <=? 23) && (n <=? 59) && (sec <=? 59))%bool
          then Some ((((daysFromCivil y m d * 24 + h) * 60 + n) * 60 + sec)
                     * 1000)
          else None
      | _, _, _, _, _, _ => None
      end
  | _ => None
  end.

(** The decimal digits of [n], at least [width] of them. *)
Fixpoint pad (width : nat) (n : Z) : JS.jsstring :=
  match width with
  | O => []
  | S w => pad w (n / 10) ++ [Z.to_N (48 + n mod 10)]
  end.

(** The civil date of a day number (days since 1970-01-01). *)
Definition civilFromDays (z : Z) : Z * Z * Z :=
  let z := z + 719468 in
  let era := z / 146097 in
  let doe := z - era * 146097 in
  let yoe := (doe - doe / 1460 + doe / 36524 - doe / 146096) / 365 in
  let doy := doe - (365 * yoe + yoe / 4 - yoe / 100) in
  let mp := (5 * doy + 2) / 153 in
  let d := doy - (153 * mp + 2) / 5 + 1 in
  let m := if mp <? 10 then mp + 3 else mp - 9 in
  let y := yoe + era * 400 + (if m <=? 2 then 1 else 0) in
  (y, m, d).

(** [new Date(ms).toISOString()] for a time value in the years 0000 to
    9999: [YYYY-MM-DDTHH:mm:ss.sssZ]. *)
Definition toISOString (ms : Z) : JS.jsstring :=
  let day := ms / 86400000 in
  let rest := ms mod 86400000 in
  let '(y, m, d) := civilFromDays day in
  pad 4 y ++ [45%N] ++ pad 2 m ++ [45%N] ++ pad 2 d ++ [84%N]
  ++ pad 2 (rest / 3600000) ++ [58%N]
  ++ pad 2 (rest / 60000 mod 60) ++ [58%N]
  ++ pad 2 (rest / 1000 mod 60) ++ [46%N]
  ++ pad 3 (rest mod 1000) ++ [90%N].

End JSDate.

(** ** Arrays *)

Module JSArray.
Local Open Scope Z_scope.

Section Sort.
Context {A : Type}.

(** The comparator's result as [sort] reads it: [NaN] counts as [+0]. *)
Definition sortCompare (cmp : A -> A -> option Z) (a b : A) : Z :=
  match cmp a b with
  | Some v => v
  | None => 0
  end.

Fixpoint insert (cmp : A -> A -> option Z) (x : A) (l : list A) : list A :=
  match l with
  | [] => [x]
  | y :: l' =>
      if sortCompare cmp x y <=? 0 then x :: l else y :: insert cmp x l'
  end.

(** [arr.sort(cmp)].  The specification of the language fixes the result
    for a consistent comparator: the stable sorted arrangement, which is
    what a stable insertion sort computes. *)
Fixpoint sort (cmp : A -> A -> option Z) (l : list A) : list A :=
  match l with
  | [] => []
  | x :: l' => insert cmp x (sort cmp l')
  end.

End Sort.

End JSArray.

(** ** src/frontend/src/components/representatives/UploadTranscriptDialog.tsx
       (the score shown after an upload) *)

Module UploadScore.
Import AssessmentScores.

(** [calculateAverageScore] *)
Definition calculateAverageScore (scores : AssessmentScores.t) : Q :=
  inject_Z (situation scores + problem scores + implication scores
            + need_payoff scores + flow scores + tone scores
            + engagement scores) / 7.
End UploadScore.

(** ** src/frontend/src/app/(main)/representatives/page.tsx *)

Module RepresentativeRow.
Record t : Type := mk {
  id : JS.jsstring;
  fullName : JS.jsstring;
  email : JS.jsstring;
  department : option JS.jsstring;
  isActive : bool;
  hireDate : option JS.jsstring;
  createdAt : JS.jsstring;
  transcriptCount : nat;
  lastTranscriptAt : option JS.jsstring;
  avgSpinScore : option Q;
  queueCount : nat
}.
End RepresentativeRow.

Module RepresentativesPage.
Import AssessmentScores.

(** Threshold for determining if a transcript should be in the queue. *)
Definition QUEUE_THRESHOLD : Q := 3.

Definition calculateCompositeScore (scores : AssessmentScores.t) : Q :=
  inject_Z (situation scores + problem scores + implication scores
            + need_payoff scores + flow scores + tone scores
            + engagement scores) / 7.

(** [a < b] on numbers. *)
Definition Qltb (a b : Q) : bool := negb (Qle_bool b a).

(** [t.representative_id === rep.id] *)
Definition sameRep (rid : option JS.jsstring) (id : JS.jsstring) : bool :=
  match rid with
  | Some r => JS.str_eqb r id
  | None => false
  end.

Section Aggregation.
(** The engine's date parser and [Date.prototype.toISOString]. *)
Variable getTime : JSDate.parser.
Variable toISOString : Z -> JS.jsstring.

Definition repTranscriptsOf (transcripts : list Transcript.t)
  (rep : Representative.t) : list Transcript.t :=
  filter (fun t => sameRep (Transcript.representative_id t)
                           (Representative.id rep)) transcripts.

Definition repAssessmentsOf (repTranscripts : list Transcript.t)
  (assessments : list Assessment.t) : list Assessment.t :=
  filter (fun a => existsb (fun t => Z.eqb (Transcript.id t)
                                         (Assessment.transcript_id a))
                           repTranscripts) assessments.

(** One row of [aggregatedData]. *)
Definition aggregateRow (transcripts : list Transcript.t)
  (assessments : list Assessment.t) (rep : Representative.t)
  : RepresentativeRow.t :=
  let repTranscripts := repTranscriptsOf transcripts rep in
  let repAssessments := repAssessmentsOf repTranscripts assessments in
  let avgSpinScore :=
    match repAssessments with
    | [] => None
    | _ :: _ =>
        let total :=
          fold_left (fun sum a =>
                       sum + calculateCompositeScore (Assessment.scores a))
                    repAssessments 0 in
        Some (total / inject_Z (Z.of_nat (List.length repAssessments)))
    end in
  let queueCount :=
    List.length (filter (fun a =>
                      Qltb (calculateCompositeScore (Assessment.scores a))
                           QUEUE_THRESHOLD) repAssessments) in
  let lastTranscriptAt :=
    match repTranscripts with
    | [] => None
    | _ :: _ =>
        fold_left JSDate.max
          (map (fun t => getTime (Transcript.created_at t)) repTranscripts)
          (Some 0%Z)
    end in
  {| RepresentativeRow.id := Representative.id rep;
     RepresentativeRow.fullName := Representative.full_name rep;
     RepresentativeRow.email := Representative.email rep;
     RepresentativeRow.department := Representative.department rep;
     RepresentativeRow.isActive := Representative.is_active rep;
     RepresentativeRow.hireDate := Representative.hire_date rep;
     RepresentativeRow.createdAt := Representative.created_at rep;
     RepresentativeRow.transcriptCount := List.length repTranscripts;
     RepresentativeRow.lastTranscriptAt :=
       match lastTranscriptAt with
       | Some ts => if Z.eqb ts 0 then None else Some (toISOString ts)
       | None => None
       end;
     RepresentativeRow.avgSpinScore := avgSpinScore;
     RepresentativeRow.queueCount := queueCount |}.

Definition aggregatedData (representatives : list Representative.t)
  (transcripts : list Transcript.t) (assessments : list Assessment.t)
  : list RepresentativeRow.t :=
  map (aggregateRow transcripts assessments) representatives.

End Aggregation.
End RepresentativesPage.

(** ** src/frontend/src/app/(main)/transcripts/[id]/assessment/page.tsx *)

Module AssessmentDetailPage.

Section Latest.
Variable getTime : JSDate.parser.

(** The comparator of [fetchData]:
    [new Date(b.created_at).getTime() - new Date(a.created_at).getTime()] *)
Definition byCreatedAtDesc (a b : Assessment.t) : option Z :=
  JSDate.sub (getTime (Assessment.created_at b))
             (getTime (Assessment.created_at a)).

(** The assessment [fetchData] stores with [setAssessment]; [None] when
    the list is empty and the state keeps its initial [null]. *)
Definition displayedAssessment (assessments : list Assessment.t)
  : option Assessment.t :=
  if (0 <? List.length assessments)%nat
  then nth_error (JSArray.sort byCreatedAtDesc assessments) 0
  else None.

End Latest.
End AssessmentDetailPage.

(** ** TypeScript interfaces

    The declared shape of the JSON values that cross the HTTP boundary.
    A value has an interface type when every required property is present
    with its type; further properties are allowed, as in TypeScript. *)

Module TS.
Import JS.

#[warnings="-register-all"] Inductive ty : Type :=
| TString
| TNumber
| TBoolean
| TNull
| TAny
| TLit (s : jsstring)
| TUnion (a b : ty)
| TArray (a : ty)
| TRecord (a : ty)
| TObject (fields : list (jsstring * bool * ty)).

Definition isUndefined (v : value) : bool :=
  match v with VUndefined => true | _ => false end.

Fixpoint has_type (t : ty) (v : value) {struct t} : bool :=
  match t with
  | TString => match v with VStr _ => true | _ => false end
  | TNumber => match v with VNum _ _ => true | _ => false end
  | TBoolean => match v with VBool _ => true | _ => false end
  | TNull => match v with VNull => true | _ => false end
  | TAny => true
  | TLit s => match v with VStr s' => str_eqb s s' | _ => false end
  | TUnion a b => has_type a v || has_type b v
  | TArray a =>
      match v with
      | VArr items => forallb (has_type a) items
      | _ => false
      end
  | TRecord a =>
      match v with
      | VObj props => forallb (fun kv => has_type a (snd kv)) props
      | _ => false
      end
  | TObject fields =>
      match v with
      | VObj props =>
          (fix check (fs : list (jsstring * bool * ty)) : bool :=
             match fs with
             | [] => true
             | (k, optional, tf) :: fs' =>
                 match lookup k props with
                 | Some x => has_type tf x || (optional && isUndefined x)
                 | None => optional
                 end && check fs'
             end) fields
      | _ => false
      end
  end.

(** A required property [k : t] and an optional property [k?: t]. *)
Definition req (k : string) (t : ty) : jsstring * bool * ty :=
  (lit k, false, t).
Definition opt (k : string) (t : ty) : jsstring * bool * ty :=
  (lit k, true, t).

(** The names of the properties of an object value. *)
Definition keys (v : value) : list jsstring :=
  match v with
  | VObj props => map fst props
  | _ => []
  end.

(** [v.k], [None] when [v] has no own property [k]. *)
Definition field (v : value) (k : string) : option value :=
  match v with
  | VObj props => lookup (lit k) props
  | _ => None
  end.

(** types/representatives.ts *)
Definition AssessmentScores : ty :=
  TObject [req "situation" TNumber; req "problem" TNumber;
           req "implication" TNumber; req "need_payoff" TNumber;
           req "flow" TNumber; req "tone" TNumber;
           req "engagement" TNumber].

Definition AssessmentCoaching : ty :=
  TObject [req "summary" TString; req "wins" (TArray TString);
           req "gaps" (TArray TString);
           req "next_actions" (TArray TString)].

(** lib/api.ts *)
Definition AssessRequest : ty :=
  TObject [req "transcript" TString; req "metadata" (TRecord TString)].

Definition AssessResponse : ty :=
  TObject [req "assessment_id" TNumber; req "scores" AssessmentScores;
           req "coaching" AssessmentCoaching].

Definition PromptTemplate : ty :=
  TObject [req "id" TString; req "organization_id" TString;
           req "name" TString; req "version" TString;
           req "system_prompt" TString; req "user_template" TString;
           req "is_active" TBoolean; req "created_at" TString;
           req "updated_at" TString].

Definition PromptTemplateCreate : ty :=
  TObject [req "name" TString; opt "version" TString;
           req "system_prompt" TString; req "user_template" TString;
           opt "is_active" TBoolean].

Definition PromptTemplateUpdate : ty :=
  TObject [opt "name" TString; opt "version" TString;
           opt "system_prompt" TString; opt "user_template" TString;
           opt "is_active" TBoolean].

Definition EvaluationDataset : ty :=
  TObject [req "id" TString; req "organization_id" TString;
           req "name" TString; req "description" (TUnion TString TNull);
           req "source_type"
             (TUnion (TLit (lit "csv"))
                     (TUnion (TLit (lit "langsmith"))
                             (TLit (lit "database"))));
           req "source_path" (TUnion TString TNull);
           req "num_examples" TNumber;
           opt "langsmith_dataset_name" TString;
           opt "langsmith_dataset_id" TString;
           req "created_at" TString; req "updated_at" TString].

Definition EvaluationDatasetUpdate : ty :=
  TObject [opt "name" TString; opt "description" TString;
           opt "source_path" TString].

End TS.

(** ** HTTP and the asynchronous handlers *)

Module Http.
Import JS.

Inductive method : Type := GET | POST | PATCH | DELETE.

(** A [File]: its name and its text. *)
Record File : Type := mkFile { fileName : jsstring; fileText : jsstring }.

Inductive formValue : Type :=
| FormText (s : jsstring)
| FormFile (f : File).

(** What a request carries: nothing, the JSON text of a value (kept as the
    tree that text denotes), or multipart form data. *)
Inductive body : Type :=
| NoBody
| JsonBody (tree : value)
| FormBody (fields : list (jsstring * formValue)).

Record Request : Type := mkRequest {
  url : jsstring;
  verb : method;
  headers : list (jsstring * jsstring);
  payload : body;
  credentials : jsstring
}.

(** A response: [ok], [statusText], the result of [text()] and of
    [json()] (which throws on a body that is not JSON). *)
Record Response : Type := mkResponse {
  ok : bool;
  statusText : jsstring;
  text : jsstring;
  json : completion value
}.

(** The backend as the frontend meets it: the answer to a request may
    depend on the requests made before it, and a request that gets no
    answer (a network failure) makes [fetch] reject. *)
Definition server := list Request -> Request -> completion Response.

(** An asynchronous computation: it runs against a server, appends the
    requests it makes to the log and completes normally or throws. *)
Definition io (A : Type) : Type :=
  server -> list Request -> completion A * list Request.

Definition ret {A} (a : A) : io A := fun _ log => (Normal a, log).

Definition throw {A} (e : error) : io A := fun _ log => (Throw e, log).

Definition iobind {A B} (c : io A) (k : A -> io B) : io B :=
  fun srv log =>
    match c srv log with
    | (Normal a, log') => k a srv log'
    | (Throw e, log') => (Throw e, log')
    end.

(** [await fetch(...)] *)
Definition fetch (r : Request) : io Response :=
  fun srv log => (srv log r, log ++ [r]).

(** [await response.json()] *)
Definition readJson (r : Response) : io value :=
  fun _ log => (json r, log).

(** [try { body } catch (e) { handler(e) }] *)
Definition tryCatch {A} (c : io A) (handler : error -> io A) : io A :=
  fun srv log =>
    match c srv log with
    | (Normal a, log') => (Normal a, log')
    | (Throw e, log') => handler e srv log'
    end.

(** [await Promise.all([a, b])]: both computations are started, the
    result is a rejection as soon as one of them rejects. *)
Definition promiseAll2 {A B} (a : io A) (b : io B) : io (A * B) :=
  fun srv log =>
    let '(ra, log1) := a srv log in
    let '(rb, log2) := b srv log1 in
    match ra, rb with
    | Normal x, Normal y => (Normal (x, y), log2)
    | Throw e, _ => (Throw e, log2)
    | _, Throw e => (Throw e, log2)
    end.

(** Run a handler from an empty request log. *)
Definition run {A} (c : io A) (srv : server)
  : completion A * list Request := c srv [].

(** The requests a handler makes. *)
Definition requests {A} (c : io A) (srv : server) : list Request :=
  snd (run c srv).

End Http.

(** Statements about the requests of a handler. *)

Module HttpLog.
Import Http.

(** [emits P c]: whatever the server answers, [c] only appends requests
    that satisfy [P] to the log. *)
Definition emits {A} (P : Request -> Prop) (c : io A) : Prop :=
  forall srv log, exists new,
    snd (c srv log) = log ++ new /\ Forall P new.

(** A read: a GET without a body. *)
Definition isRead (r : Request) : Prop := verb r = GET /\ payload r = NoBody.

End HttpLog.

Notation "x <~ c ;; k" := (Http.iobind c (fun x => k))
  (at level 61, c at next level, right associativity).

(** ** JSON *)

Module JSON.
Import JS.
Local Open Scope N_scope.

(** JSON white space: space, tab, line feed, carriage return. *)
Definition isWs (c : N) : bool :=
  (c =? 32) || (c =? 9) || (c =? 10) || (c =? 13).

Fixpoint skipWs (s : jsstring) : jsstring :=
  match s with
  | c :: s' => if isWs c then skipWs s' else s
  | [] => []
  end.

Definition isDigit (c : N) : bool := (48 <=? c) && (c <=? 57).

Definition hexValue (c : N) : option N :=
  if (48 <=? c) && (c <=? 57) then Some (c - 48)
  else if (97 <=? c) && (c <=? 102) then Some (c - 87)
  else if (65 <=? c) && (c <=? 70) then Some (c - 55)
  else None.

Definition hex4 (a b c d : N) : option N :=
  match hexValue a, hexValue b, hexValue c, hexValue d with
  | Some x, Some y, Some z, Some w => Some (((x * 16 + y) * 16 + z) * 16 + w)
  | _, _, _, _ => None
  end.

(** The characters of a string literal after its opening quote, up to
    the closing quote: escapes are decoded, raw control characters are
    rejected. *)
Fixpoint parseChars (s : jsstring) (acc : jsstring)
  : option (jsstring * jsstring) :=
  match s with
  | [] => None
  | c :: s' =>
      if c =? 34 then Some (rev acc, s')
      else if c =? 92 then
        match s' with
        | [] => None
        | e :: s'' =>
            if e =? 34 then parseChars s'' (34 :: acc)
            else if e =? 92 then parseChars s'' (92 :: acc)
            else if e =? 47 then parseChars s'' (47 :: acc)
            else if e =? 98 then parseChars s'' (8 :: acc)
            else if e =? 102 then parseChars s'' (12 :: acc)
            else if e =? 110 then parseChars s'' (10 :: acc)
            else if e =? 114 then parseChars s'' (13 :: acc)
            else if e =? 116 then parseChars s'' (9 :: acc)
            else if e =? 117 then
              match s'' with
              | h1 :: h2 :: h3 :: h4 :: s5 =>
                  match hex4 h1 h2 h3 h4 with
                  | Some u => parseChars s5 (u :: acc)
                  | None => None
                  end
              | _ => None
              end
            else None
        end
      else if c <? 32 then None
      else parseChars s' (c :: acc)
  end.

(** A run of digits: the digits read onto [acc], their count, the rest. *)
Fixpoint parseDigits (s : jsstring) (acc : Z) (count : Z)
  : Z * Z * jsstring :=
  match s with
  | c :: s' =>
      if isDigit c
      then parseDigits s' (10 * acc + (Z.of_N c - 48))%Z (count + 1)%Z
      else (acc, count, s)
  | [] => (acc, count, s)
  end.

(** The optional fraction and exponent that follow the integer digits
    [int] of a number. *)
Definition parseFracExp (negative : bool) (int : Z) (s : jsstring)
  : option (value * jsstring) :=
  let sign (m : Z) : Z := if negative then (- m)%Z else m in
  let withFrac :=
    match s with
    | 46 :: s1 =>
        match parseDigits s1 int 0 with
        | (m, n, s2) => if (n =? 0)%Z then None else Some (m, n, s2)
        end
    | _ => Some (int, 0%Z, s)
    end in
  match withFrac with
  | None => None
  | Some (m, n, s2) =>
      match s2 with
      | e :: s3 =>
          if (e =? 101) || (e =? 69) then
            let '(neg, s4) :=
              match s3 with
              | 45 :: s4 => (true, s4)
              | 43 :: s4 => (false, s4)
              | _ => (false, s3)
              end in
            match parseDigits s4 0 0 with
            | (x, k, s5) =>
                if (k =? 0)%Z then None
                else Some (VNum (sign m)
                                ((if neg then - x else x) - n)%Z, s5)
            end
          else Some (VNum (sign m) (- n)%Z, s2)
      | [] => Some (VNum (sign m) (- n)%Z, s2)
      end
  end.

(** A number: an optional minus, [0] or a digit run that does not start
    with [0], then the optional fraction and exponent. *)
Definition parseNumber (s : jsstring) : option (value * jsstring) :=
  let '(negative, s1) :=
    match s with
    | 45 :: s1 => (true, s1)
    | _ => (false, s)
    end in
  match s1 with
  | c :: s2 =>
      if c =? 48 then parseFracExp negative 0 s2
      else if isDigit c then
        match parseDigits s1 0 0 with
        | (int, _, s3) => parseFracExp negative int s3
        end
      else None
  | [] => None
  end.

Inductive outcome : Type :=
| Parsed (v : value) (rest : jsstring)
| Invalid
| OutOfFuel.

(** One JSON value, then the elements of an array after its first
    bracket, then the members of an object after its first brace.  The
    fuel bounds the number of nested calls. *)
Fixpoint parseValue (fuel : nat) (s : jsstring) : outcome :=
  match fuel with
  | O => OutOfFuel
  | S f =>
      match skipWs s with
      | [] => Invalid
      | c :: r =>
          if c =? 34 then
            match parseChars r [] with
            | Some (str, r') => Parsed (VStr str) r'
            | None => Invalid
            end
          else if c =? 91 then
            match skipWs r with
            | x :: r' =>
                if x =? 93 then Parsed (VArr []) r'
                else parseElements f r []
            | [] => parseElements f r []
            end
          else if c =? 123 then
            match skipWs r with
            | x :: r' =>
                if x =? 125 then Parsed (VObj []) r'
                else parseMembers f r []
            | [] => parseMembers f r []
            end
          else if c =? 116 then
            if startsWith (lit "rue") r
            then Parsed (VBool true) (skipn 3 r) else Invalid
          else if c =? 102 then
            if startsWith (lit "alse") r
            then Parsed (VBool false) (skipn 4 r) else Invalid
          else if c =? 110 then
            if startsWith (lit "ull") r
            then Parsed VNull (skipn 3 r) else Invalid
          else
            match parseNumber (c :: r) with
            | Some (v, r') => Parsed v r'
            | None => Invalid
            end
      end
  end

with parseElements (fuel : nat) (s : jsstring) (acc : list value)
  : outcome :=
  match fuel with
  | O => OutOfFuel
  | S f =>
      match parseValue f s with
      | Parsed v r =>
          match skipWs r with
          | x :: r' =>
              if x =? 44 then parseElements f r' (v :: acc)
              else if x =? 93 then Parsed (VArr (rev (v :: acc))) r'
              else Invalid
          | [] => Invalid
          end
      | Invalid => Invalid
      | OutOfFuel => OutOfFuel
      end
  end

with parseMembers (fuel : nat) (s : jsstring)
  (acc : list (jsstring * value)) : outcome :=
  match fuel with
  | O => OutOfFuel
  | S f =>
      match skipWs s with
      | q :: r =>
          if q =? 34 then
            match parseChars r [] with
            | Some (k, r1) =>
                match skipWs r1 with
                | colon :: r2 =>
                    if colon =? 58 then
                      match parseValue f r2 with
                      | Parsed v r3 =>
                          match skipWs r3 with
                          | x :: r4 =>
                              if x =? 44
                              then parseMembers f r4 ((k, v) :: acc)
                              else if x =? 125
                              then Parsed (VObj (rev ((k, v) :: acc))) r4
                              else Invalid
                          | [] => Invalid
                          end
                      | Invalid => Invalid
                      | OutOfFuel => OutOfFuel
                      end
                    else Invalid
                | [] => Invalid
                end
            | None => Invalid
            end
          else Invalid
      | [] => Invalid
      end
  end.

(** Fuel that suffices for a text: see [parseValue_fuel]. *)
Definition fuelFor (text : jsstring) : nat := 2 * List.length text + 1.

(** [JSON.parse(text)]: one value with nothing but white space after
    it; anything else is a [SyntaxError] (the message is the engine's). *)
Definition parse (text : jsstring) : completion value :=
  match parseValue (fuelFor text) text with
  | Parsed v rest =>
      match skipWs rest with
      | [] => Normal v
      | _ => Throw (SyntaxError (lit "Unexpected token in JSON"))
      end
  | _ => Throw (SyntaxError (lit "Unexpected token in JSON"))
  end.

(** [JSON.stringify], kept as the tree its text denotes, on the object
    literals the API client sends: properties whose value is [undefined]
    are left out, array elements that are [undefined] become [null]. *)

Fixpoint stringify (v : value) : value :=
  match v with
  | VArr items =>
      VArr (map (fun x => match x with
                          | VUndefined => VNull
                          | _ => stringify x
                          end) items)
  | VObj props =>
      VObj ((fix go (ps : list (jsstring * value)) :=
               match ps with
               | [] => []
               | (k, VUndefined) :: ps' => go ps'
               | (k, x) :: ps' => (k, stringify x) :: go ps'
               end) props)
  | _ => v
  end.

End JSON.

(** ** Regular expressions

    A backtracking matcher for the constructs the sources use: anchors,
    character classes, sequence, ordered alternation, greedy [*] and [+] on
    a class, and capturing groups.  A continuation receives the position,
    the rest of the input and the captures; returning [None] makes the
    matcher backtrack. *)

Module RegExp.
Import JS.

Definition charset := N -> bool.

Inductive regex : Type :=
| Bol
| Eol
| Chr (p : charset)
| Seq (a b : regex)
| Alt (a b : regex)
| Star (p : charset)
| Plus (p : charset)
| Group (n : nat) (r : regex).

(** The captures of a match, the latest first. *)
Definition captures := list (nat * jsstring).

Definition cont := nat -> jsstring -> captures -> option captures.

(** Greedy repetition of a class: the longest run first, then shorter
    ones. *)
Fixpoint starLoop (p : charset) (pos : nat) (s : jsstring)
  (caps : captures) (k : cont) : option captures :=
  match s with
  | c :: s' =>
      if p c
      then match starLoop p (S pos) s' caps k with
           | Some r => Some r
           | None => k pos s caps
           end
      else k pos s caps
  | [] => k pos s caps
  end.

Fixpoint run (r : regex) (pos : nat) (s : jsstring) (caps : captures)
  (k : cont) : option captures :=
  match r with
  | Bol => if Nat.eqb pos 0 then k pos s caps else None
  | Eol => match s with [] => k pos s caps | _ :: _ => None end
  | Chr p =>
      match s with
      | c :: s' => if p c then k (S pos) s' caps else None
      | [] => None
      end
  | Seq a b => run a pos s caps (fun pos' s' caps' => run b pos' s' caps' k)
  | Alt a b =>
      match run a pos s caps k with
      | Some res => Some res
      | None => run b pos s caps k
      end
  | Star p => starLoop p pos s caps k
  | Plus p =>
      match s with
      | c :: s' => if p c then starLoop p (S pos) s' caps k else None
      | [] => None
      end
  | Group n body =>
      run body pos s caps
          (fun pos' s' caps' =>
             k pos' s' ((n, firstn (pos' - pos) s) :: caps'))
  end.

(** The first match at or after position [pos]; group 0 is the whole
    match. *)
Fixpoint execFrom (r : regex) (pos : nat) (s : jsstring)
  : option captures :=
  match run r pos s []
            (fun pos' _ caps => Some ((0%nat, firstn (pos' - pos) s) :: caps))
  with
  | Some caps => Some caps
  | None =>
      match s with
      | [] => None
      | _ :: s' => execFrom r (S pos) s'
      end
  end.

(** [s.match(r)] for a regular expression without flags: [None] is
    [null]. *)
Definition exec (r : regex) (s : jsstring) : option captures :=
  execFrom r 0 s.

(** [match[n]]; [None] is [undefined]. *)
Fixpoint group (n : nat) (caps : captures) : option jsstring :=
  match caps with
  | [] => None
  | (n', text) :: rest => if Nat.eqb n n' then Some text else group n rest
  end.

(** The longest prefix of [s] in the class [p], and what follows it. *)
Fixpoint span (p : charset) (s : jsstring) : jsstring * jsstring :=
  match s with
  | c :: s' =>
      if p c then (c :: fst (span p s'), snd (span p s')) else ([], s)
  | [] => ([], [])
  end.

Definition only (c : N) : charset := fun x => N.eqb x c.
Definition except (c : N) : charset := fun x => negb (N.eqb x c).

(** [.] without the [s] flag: anything but a line terminator. *)
Definition dot : charset := fun x => negb (isLineTerminator x).

End RegExp.

(** ** src/frontend/src/components/assessments/TranscriptViewer.tsx *)

Module TranscriptViewer.
Import JS RegExp.

(** [ParsedMessage].  The interface declares [speaker] and [text] as
    strings; the messages built from JSON carry whatever values the JSON
    held, so the record is kept generic in the type of the two. *)
Record ParsedMessage (T : Type) : Type := mkMessage {
  speaker : T;
  text : T;
  isRep : bool
}.
Arguments mkMessage {T} speaker text isRep.
Arguments speaker {T} p.
Arguments text {T} p.
Arguments isRep {T} p.

(** [a || b] where evaluating [b] may throw. *)
Definition orElse (a : value) (b : completion value) : completion value :=
  if truthy a then Normal a else b.

(** The callback of [parsed.map]: one message from one element. *)
Definition itemToMessage (item : value)
  : completion (ParsedMessage value) :=
  sid <- get item (lit "speaker_id") ;;
  sp <- orElse sid (get item (lit "speaker")) ;;
  let speaker := or_else sp (VStr (lit "Unknown")) in
  tx <- get item (lit "text") ;;
  tc <- orElse tx (get item (lit "content")) ;;
  let text := or_else tc (VStr []) in
  sid' <- get item (lit "speaker_id") ;;
  sp' <- orElse sid' (get item (lit "speaker")) ;;
  lower <- callToLowerCase (or_else sp' (VStr [])) ;;
  Normal (mkMessage speaker text (includes lower (lit "rep"))).

(** [/^(?:\[([^\]]+)\]|([^:]+):)\s*(.+)$/] *)
Definition tagPattern : regex :=
  Seq Bol
      (Seq (Alt (Seq (Chr (only 91))
                     (Seq (Group 1 (Plus (except 93))) (Chr (only 93))))
                (Seq (Group 2 (Plus (except 58))) (Chr (only 58))))
           (Seq (Star isWhiteSpace)
                (Seq (Group 3 (Plus dot)) Eol))).

(** [a || b] on strings that may be [undefined]. *)
Definition orStr (a : option jsstring) (b : jsstring) : jsstring :=
  match a with
  | Some (c :: s) => c :: s
  | _ => b
  end.

(** [messages[messages.length - 1].text += " " + extra] *)
Fixpoint appendToLast (extra : jsstring)
  (messages : list (ParsedMessage jsstring))
  : list (ParsedMessage jsstring) :=
  match messages with
  | [] => []
  | [m] => [mkMessage (speaker m) (text m ++ lit " " ++ extra) (isRep m)]
  | m :: rest => m :: appendToLast extra rest
  end.

(** The body of the loop over the lines. *)
Definition step (messages : list (ParsedMessage jsstring))
  (line : jsstring) : list (ParsedMessage jsstring) :=
  match exec tagPattern line with
  | Some caps =>
      let speaker :=
        trim (orStr (group 1 caps) (orStr (group 2 caps) [])) in
      let text := trim (orStr (group 3 caps) []) in
      let isRep :=
        includes (toLowerCase speaker) (lit "rep")
        || includes (toLowerCase speaker) (lit "sales") in
      messages ++ [mkMessage speaker text isRep]
  | None =>
      match trim line with
      | [] => messages
      | c :: t =>
          match messages with
          | _ :: _ => appendToLast (c :: t) messages
          | [] => [mkMessage (lit "Unknown") (c :: t) false]
          end
      end
  end.

(** [raw.split("\n").filter((line) => line.trim())] *)
Definition nonBlankLines (raw : jsstring) : list jsstring :=
  filter (fun line => match trim line with [] => false | _ => true end)
         (split 10 raw).

(** The plain-text format: the loop over the non-blank lines. *)
Definition parseLines (raw : jsstring) : list (ParsedMessage jsstring) :=
  fold_left step (nonBlankLines raw) [].

Definition asValues (m : ParsedMessage jsstring) : ParsedMessage value :=
  mkMessage (VStr (speaker m)) (VStr (text m)) (isRep m).

(** The [try] block: its result is [Some] when it returns from the
    function and [None] when it falls through to the text format. *)
Definition tryJson (raw : jsstring)
  : completion (option (list (ParsedMessage value))) :=
  parsed <- JSON.parse raw ;;
  match parsed with
  | VArr items =>
      messages <- mapM itemToMessage items ;;
      Normal (Some messages)
  | _ => Normal None
  end.

(** [parseTranscript(raw)] *)
Definition parseTranscript (raw : jsstring)
  : completion (list (ParsedMessage value)) :=
  attempt <- try_catch (tryJson raw) (Normal None) ;;
  match attempt with
  | Some messages => Normal messages
  | None => Normal (map asValues (parseLines raw))
  end.

End TranscriptViewer.

(** ** src/frontend/src/lib/api.ts *)

Module Api.
Import JS Http.

(** The build-time environment. *)
Record Env : Type := mkEnv { NEXT_PUBLIC_API_BASE : option jsstring }.

(** A token ([string | null | undefined]); the empty string is falsy. *)
Definition tokenTruthy (token : option jsstring) : bool :=
  match token with
  | Some (_ :: _) => true
  | _ => false
  end.

Definition API_BASE (env : Env) : jsstring :=
  match NEXT_PUBLIC_API_BASE env with
  | Some (c :: s) => c :: s
  | _ => lit "http://localhost:8000"
  end.

(** The [RequestInit] the client passes: a method and a body. *)
Record Init : Type := mkInit { initMethod : option method; initBody : body }.

Definition noInit : Init := {| initMethod := None; initBody := NoBody |}.

(** [headers[k] = v] *)
Fixpoint setHeader (k v : jsstring) (hs : list (jsstring * jsstring))
  : list (jsstring * jsstring) :=
  match hs with
  | [] => [(k, v)]
  | (k', v') :: hs' =>
      if str_eqb k k' then (k, v) :: hs' else (k', v') :: setHeader k v hs'
  end.

(** [apiFetch(path, opts, token)] *)
Definition apiFetch (env : Env) (path : jsstring) (opts : Init)
  (token : option jsstring) : io Response :=
  let headers := [(lit "Content-Type", lit "application/json")] in
  let headers :=
    match token with
    | Some t =>
        if tokenTruthy token
        then setHeader (lit "Authorization") (lit "Bearer " ++ t) headers
        else headers
    | None => headers
    end in
  let url :=
    if startsWith (lit "http") path || startsWith (lit "/api") path
    then path
    else API_BASE env ++ path in
  fetch {| url := url;
           verb := match initMethod opts with Some m => m | None => GET end;
           headers := headers;
           payload := initBody opts;
           credentials := lit "include" |}.

(** [errorText || response.statusText] *)
Definition textOrStatus (r : Response) : jsstring :=
  match text r with
  | [] => statusText r
  | t => t
  end.

(** The common tail of the mutating calls. *)
Definition jsonOrThrow (r : Response) : io value :=
  if ok r then readJson r else throw (Error (textOrStatus r)).

(** [assessTranscript(data, token)] *)
Definition assessTranscript (env : Env) (data : value)
  (token : option jsstring) : io value :=
  response <~ apiFetch env (lit "/assess")
                {| initMethod := Some POST;
                   initBody := JsonBody (JSON.stringify data) |} token ;;
  if ok response then readJson response
  else throw (Error (lit "Failed to assess transcript: "
                     ++ textOrStatus response)).

(** [fetchPromptTemplates(token)] *)
Definition fetchPromptTemplates (env : Env) (token : option jsstring)
  : io value :=
  response <~ apiFetch env (lit "/prompt-templates") noInit token ;;
  if ok response then readJson response
  else throw (Error (lit "Failed to fetch prompt templates: "
                     ++ statusText response)).

(** [fetchPromptTemplateDefaults(token)] *)
Definition fetchPromptTemplateDefaults (env : Env)
  (token : option jsstring) : io value :=
  response <~ apiFetch env (lit "/prompt-templates/defaults") noInit token ;;
  if ok response then readJson response
  else throw (Error (lit "Failed to fetch defaults: "
                     ++ statusText response)).

(** [createPromptTemplate(data, token)] *)
Definition createPromptTemplate (env : Env) (data : value)
  (token : option jsstring) : io value :=
  response <~ apiFetch env (lit "/prompt-templates")
                {| initMethod := Some POST;
                   initBody := JsonBody (JSON.stringify data) |} token ;;
  jsonOrThrow response.

(** [updatePromptTemplate(id, data, token)] *)
Definition updatePromptTemplate (env : Env) (id : jsstring) (data : value)
  (token : option jsstring) : io value :=
  response <~ apiFetch env (lit "/prompt-templates/" ++ id)
                {| initMethod := Some PATCH;
                   initBody := JsonBody (JSON.stringify data) |} token ;;
  jsonOrThrow response.

(** [activatePromptTemplate(id, token)] *)
Definition activatePromptTemplate (env : Env) (id : jsstring)
  (token : option jsstring) : io value :=
  response <~ apiFetch env (lit "/prompt-templates/" ++ id ++ lit "/activate")
                {| initMethod := Some POST; initBody := NoBody |} token ;;
  jsonOrThrow response.

(** [deletePromptTemplate(id, token)] *)
Definition deletePromptTemplate (env : Env) (id : jsstring)
  (token : option jsstring) : io unit :=
  response <~ apiFetch env (lit "/prompt-templates/" ++ id)
                {| initMethod := Some DELETE; initBody := NoBody |} token ;;
  if ok response then ret tt else throw (Error (textOrStatus response)).

(** [fetchEvaluationDatasets(token)] *)
Definition fetchEvaluationDatasets (env : Env) (token : option jsstring)
  : io value :=
  response <~ apiFetch env (lit "/evaluations/datasets") noInit token ;;
  if ok response then readJson response
  else throw (Error (lit "Failed to fetch datasets: "
                     ++ statusText response)).

(** [EvaluationDatasetCreate] *)
Record EvaluationDatasetCreate : Type := mkDatasetCreate {
  createName : jsstring;
  createDescription : option jsstring;
  createFile : option File
}.

(** [createEvaluationDataset(data, token)]: a multipart upload that does
    not go through [apiFetch].  A missing file ([null]) is appended to the
    form as the text [null]. *)
Definition createEvaluationDataset (env : Env)
  (data : EvaluationDatasetCreate) (token : option jsstring) : io value :=
  let form := [(lit "name", FormText (createName data))] in
  let form :=
    match createDescription data with
    | Some (c :: d) => form ++ [(lit "description", FormText (c :: d))]
    | _ => form
    end in
  let form :=
    form ++ [(lit "file",
              match createFile data with
              | Some f => FormFile f
              | None => FormText (lit "null")
              end)] in
  let headers :=
    match token with
    | Some t =>
        if tokenTruthy token
        then [(lit "Authorization", lit "Bearer " ++ t)]
        else []
    | None => []
    end in
  response <~ fetch {| url := API_BASE env ++ lit "/evaluations/datasets";
                       verb := POST;
                       headers := headers;
                       payload := FormBody form;
                       credentials := lit "include" |} ;;
  jsonOrThrow response.

(** [updateEvaluationDataset(id, data, token)] *)
Definition updateEvaluationDataset (env : Env) (id : jsstring)
  (data : value) (token : option jsstring) : io value :=
  response <~ apiFetch env (lit "/evaluations/datasets/" ++ id)
                {| initMethod := Some PATCH;
                   initBody := JsonBody (JSON.stringify data) |} token ;;
  jsonOrThrow response.

End Api.

(** ** src/frontend/src/components/representatives/UploadTranscriptDialog.tsx *)

Module UploadTranscriptDialog.
Import JS Http.

Inductive UploadState : Type := idle | uploading | success | error.

(** The component's state, with the props and the auth context the submit
    handler reads. *)
Record State : Type := mkState {
  state : UploadState;
  errorText : option jsstring;
  file : option File;
  buyerId : jsstring;
  assessmentResult : option value;
  representativeId : jsstring;
  accessToken : option jsstring
}.

Definition setError (e : option jsstring) (st : State) : State :=
  {| state := state st; errorText := e; file := file st;
     buyerId := buyerId st; assessmentResult := assessmentResult st;
     representativeId := representativeId st;
     accessToken := accessToken st |}.

Definition setState (u : UploadState) (st : State) : State :=
  {| state := u; errorText := errorText st; file := file st;
     buyerId := buyerId st; assessmentResult := assessmentResult st;
     representativeId := representativeId st;
     accessToken := accessToken st |}.

Definition setAssessmentResult (r : option value) (st : State) : State :=
  {| state := state st; errorText := errorText st; file := file st;
     buyerId := buyerId st; assessmentResult := r;
     representativeId := representativeId st;
     accessToken := accessToken st |}.

(** The [metadata] object of [handleSubmit]. *)
Definition metadataOf (st : State) : value :=
  VObj ([(lit "representative_id", VStr (representativeId st))]
        ++ match trim (buyerId st) with
           | [] => []
           | b => [(lit "buyer_id", VStr b)]
           end).

(** The [AssessRequest] of [handleSubmit]: [{ transcript, metadata }]. *)
Definition requestData (st : State) (transcript : jsstring) : value :=
  VObj [(lit "transcript", VStr transcript);
        (lit "metadata", metadataOf st)].

(** [handleSubmit] *)
Definition handleSubmit (env : Api.Env) (st : State) : io State :=
  let st := setError None st in
  match file st with
  | None => ret (setError (Some (lit "Please select a file to upload")) st)
  | Some f =>
      if negb (Api.tokenTruthy (accessToken st))
      then ret (setError
                  (Some (lit "You must be signed in to upload transcripts"))
                  st)
      else
        let st := setState uploading st in
        tryCatch
          (let transcript := fileText f in
           match trim transcript with
           | [] => throw (Error (lit "File is empty"))
           | _ =>
               result <~ Api.assessTranscript env (requestData st transcript)
                           (accessToken st) ;;
               ret (setState success (setAssessmentResult (Some result) st))
           end)
          (fun err => ret (setError (Some (message err)) (setState error st)))
  end.

End UploadTranscriptDialog.

(** ** src/frontend/src/app/settings/prompt-templates/page.tsx *)

Module PromptTemplate.
Record t : Type := mk {
  id : JS.jsstring;
  organization_id : JS.jsstring;
  name : JS.jsstring;
  version : JS.jsstring;
  system_prompt : JS.jsstring;
  user_template : JS.jsstring;
  is_active : bool;
  created_at : JS.jsstring;
  updated_at : JS.jsstring
}.
End PromptTemplate.

Module PromptTemplatesPage.
Import JS Http.

(** The page with its editor dialog: the auth context, the dialog's
    props ([open], [template]) and the dialog's own state. *)
Record State : Type := mkState {
  accessToken : option jsstring;
  templates : list value;
  defaults : option value;
  pageLoading : bool;
  pageError : option jsstring;
  isEditorOpen : bool;
  editingTemplate : option PromptTemplate.t;
  name : jsstring;
  version : jsstring;
  systemPrompt : jsstring;
  userTemplate : jsstring;
  isLoading : bool;
  error : option jsstring
}.

Definition setDialog (loading : bool) (err : option jsstring) (st : State)
  : State :=
  {| accessToken := accessToken st; templates := templates st;
     defaults := defaults st; pageLoading := pageLoading st;
     pageError := pageError st; isEditorOpen := isEditorOpen st;
     editingTemplate := editingTemplate st; name := name st;
     version := version st; systemPrompt := systemPrompt st;
     userTemplate := userTemplate st; isLoading := loading; error := err |}.

Definition setEditorOpen (o : bool) (st : State) : State :=
  {| accessToken := accessToken st; templates := templates st;
     defaults := defaults st; pageLoading := pageLoading st;
     pageError := pageError st; isEditorOpen := o;
     editingTemplate := editingTemplate st; name := name st;
     version := version st; systemPrompt := systemPrompt st;
     userTemplate := userTemplate st; isLoading := isLoading st;
     error := error st |}.

Definition setPage (ts : list value) (ds : option value) (loading : bool)
  (err : option jsstring) (st : State) : State :=
  {| accessToken := accessToken st; templates := ts; defaults := ds;
     pageLoading := loading; pageError := err;
     isEditorOpen := isEditorOpen st;
     editingTemplate := editingTemplate st; name := name st;
     version := version st; systemPrompt := systemPrompt st;
     userTemplate := userTemplate st; isLoading := isLoading st;
     error := error st |}.

(** The elements of a response declared as an array. *)
Definition asArray (v : value) : list value :=
  match v with
  | VArr items => items
  | _ => []
  end.

(** [loadTemplates] *)
Definition loadTemplates (env : Api.Env) (st : State) : io State :=
  if negb (Api.tokenTruthy (accessToken st)) then ret st
  else
    let st := setPage (templates st) (defaults st) true (pageError st) st in
    st' <~ tryCatch
             (both <~ promiseAll2
                        (Api.fetchPromptTemplates env (accessToken st))
                        (Api.fetchPromptTemplateDefaults env
                                                         (accessToken st)) ;;
              ret (setPage (asArray (fst both)) (Some (snd both))
                           true None st))
             (fun e => ret (setPage (templates st) (defaults st) true
                                    (Some (message e)) st)) ;;
    ret (setPage (templates st') (defaults st') false (pageError st') st').

(** The page's [handleSave(data, id)], the dialog's [onSave]. *)
Definition pageHandleSave (env : Api.Env) (data : value)
  (id : option jsstring) (st : State) : io State :=
  if negb (Api.tokenTruthy (accessToken st)) then ret st
  else
    _ <~ match id with
         | Some (c :: i) =>
             Api.updatePromptTemplate env (c :: i) data (accessToken st)
         | _ => Api.createPromptTemplate env data (accessToken st)
         end ;;
    loadTemplates env st.

(** The [PromptTemplateCreate] the dialog builds. *)
Definition templateData (st : State) : value :=
  VObj [(lit "name", VStr (trim (name st)));
        (lit "version", VStr match trim (version st) with
                             | [] => lit "v1"
                             | v => v
                             end);
        (lit "system_prompt", VStr (systemPrompt st));
        (lit "user_template", VStr (userTemplate st))].

Definition isBlank (s : jsstring) : bool :=
  match trim s with [] => true | _ => false end.

(** The dialog's [handleSave]. *)
Definition handleSave (env : Api.Env) (st : State) : io State :=
  if isBlank (name st)
  then ret (setDialog (isLoading st) (Some (lit "Name is required")) st)
  else if isBlank (systemPrompt st)
  then ret (setDialog (isLoading st)
                      (Some (lit "System prompt is required")) st)
  else if isBlank (userTemplate st)
  then ret (setDialog (isLoading st)
                      (Some (lit "User template is required")) st)
  else if negb (includes (userTemplate st) (lit "{transcript}"))
  then ret (setDialog (isLoading st)
              (Some (lit "User template must contain {transcript} placeholder"))
              st)
  else
    let st := setDialog true None st in
    st' <~ tryCatch
             (st1 <~ pageHandleSave env (templateData st)
                       (option_map PromptTemplate.id (editingTemplate st))
                       st ;;
              ret (setEditorOpen false st1))
             (fun e => ret (setDialog true (Some (message e)) st)) ;;
    ret (setDialog false (error st') st').

(** [handleActivate(id)] of the page. *)
Definition handleActivate (env : Api.Env) (id : jsstring) (st : State)
  : io State :=
  if negb (Api.tokenTruthy (accessToken st)) then ret st
  else
    _ <~ Api.activatePromptTemplate env id (accessToken st) ;;
    loadTemplates env st.

(** [t.is_active] read from a template as the page received it. *)
Definition isActive (t : value) : bool :=
  match TS.field t "is_active" with
  | Some v => truthy v
  | None => false
  end.

(** [templates.find((t) => t.is_active)] *)
Definition activeTemplate (templates : list value) : option value :=
  find isActive templates.

(** What the overview card shows for the active template. *)
Inductive Readiness : Type := Ready | SetupRequired.

Definition readiness (templates : list value) : Readiness :=
  match activeTemplate templates with
  | Some _ => Ready
  | None => SetupRequired
  end.

(** The template card renders the Activate button only for an
    administrator and a template that is not active. *)
Definition showsActivate (isAdmin : bool) (t : value) : bool :=
  isAdmin && negb (isActive t).

(** The Delete button needs, besides, more than one template. *)
Definition showsDelete (isAdmin : bool) (templates : list value)
  (t : value) : bool :=
  isAdmin && (1 <? List.length templates)%nat && negb (isActive t).

End PromptTemplatesPage.

(** ** src/frontend/src/app/settings/evaluations/page.tsx *)

Module EvaluationDataset.
Record t : Type := mk {
  id : JS.jsstring;
  organization_id : JS.jsstring;
  name : JS.jsstring;
  description : option JS.jsstring;
  source_type : JS.jsstring;
  source_path : option JS.jsstring;
  num_examples : Z;
  created_at : JS.jsstring;
  updated_at : JS.jsstring
}.
End EvaluationDataset.

Module EvaluationsPage.
Import JS Http.

(** The page with its dataset editor dialog. *)
Record State : Type := mkState {
  accessToken : option jsstring;
  datasets : list value;
  templates : list value;
  pageLoading : bool;
  pageError : option jsstring;
  isEditorOpen : bool;
  editingDataset : option EvaluationDataset.t;
  name : jsstring;
  description : jsstring;
  file : option File;
  isLoading : bool;
  error : option jsstring
}.

Definition setDialog (loading : bool) (err : option jsstring) (st : State)
  : State :=
  {| accessToken := accessToken st; datasets := datasets st;
     templates := templates st; pageLoading := pageLoading st;
     pageError := pageError st; isEditorOpen := isEditorOpen st;
     editingDataset := editingDataset st; name := name st;
     description := description st; file := file st;
     isLoading := loading; error := err |}.

Definition setEditorOpen (o : bool) (st : State) : State :=
  {| accessToken := accessToken st; datasets := datasets st;
     templates := templates st; pageLoading := pageLoading st;
     pageError := pageError st; isEditorOpen := o;
     editingDataset := editingDataset st; name := name st;
     description := description st; file := file st;
     isLoading := isLoading st; error := error st |}.

Definition setPage (ds ts : list value) (loading : bool)
  (err : option jsstring) (st : State) : State :=
  {| accessToken := accessToken st; datasets := ds; templates := ts;
     pageLoading := loading; pageError := err;
     isEditorOpen := isEditorOpen st;
     editingDataset := editingDataset st; name := name st;
     description := description st; file := file st;
     isLoading := isLoading st; error := error st |}.

(** [loadData] *)
Definition loadData (env : Api.Env) (st : State) : io State :=
  if negb (Api.tokenTruthy (accessToken st)) then ret st
  else
    let st := setPage (datasets st) (templates st) true (pageError st) st in
    st' <~ tryCatch
             (both <~ promiseAll2
                        (Api.fetchEvaluationDatasets env (accessToken st))
                        (Api.fetchPromptTemplates env (accessToken st)) ;;
              ret (setPage (PromptTemplatesPage.asArray (fst both))
                           (PromptTemplatesPage.asArray (snd both))
                           true None st))
             (fun e => ret (setPage (datasets st) (templates st) true
                                    (Some (message e)) st)) ;;
    ret (setPage (datasets st') (templates st') false (pageError st') st').

(** The page's [handleSave(data, id)]: when editing, only the name and
    the description are updated (the file cannot be changed). *)
Definition pageHandleSave (env : Api.Env)
  (data : Api.EvaluationDatasetCreate) (id : option jsstring) (st : State)
  : io State :=
  if negb (Api.tokenTruthy (accessToken st)) then ret st
  else
    _ <~ match id with
         | Some (c :: i) =>
             Api.updateEvaluationDataset env (c :: i)
               (VObj [(lit "name", VStr (Api.createName data));
                      (lit "description",
                       match Api.createDescription data with
                       | Some d => VStr d
                       | None => VUndefined
                       end)])
               (accessToken st)
         | _ => Api.createEvaluationDataset env data (accessToken st)
         end ;;
    loadData env st.

(** The dialog's [handleSave]. *)
Definition handleSave (env : Api.Env) (st : State) : io State :=
  let isEditing :=
    match editingDataset st with Some _ => true | None => false end in
  if PromptTemplatesPage.isBlank (name st)
  then ret (setDialog (isLoading st) (Some (lit "Name is required")) st)
  else if negb isEditing
          && match file st with None => true | Some _ => false end
  then ret (setDialog (isLoading st)
                      (Some (lit "Please select a CSV file")) st)
  else
    let st := setDialog true None st in
    st' <~ tryCatch
             (st1 <~ pageHandleSave env
                       {| Api.createName := trim (name st);
                          Api.createDescription :=
                            match trim (description st) with
                            | [] => None
                            | d => Some d
                            end;
                          Api.createFile := file st |}
                       (option_map EvaluationDataset.id (editingDataset st))
                       st ;;
              ret (setEditorOpen false st1))
             (fun e => ret (setDialog true (Some (message e)) st)) ;;
    ret (setDialog false (error st') st').

End EvaluationsPage.

(** ** The backend, as far as the properties need it

    The Python services behind the HTTP boundary are not part of the
    frontend sources; the three operations below follow the system
    specification. *)

Module Renderer.
Import JS.

Definition placeholder : jsstring := lit "{transcript}".

Fixpoint substitute (transcript s : jsstring) : jsstring :=
  if startsWith placeholder s
  then transcript ++ skipn (List.length placeholder) s
  else match s with
       | [] => []
       | c :: s' => c :: substitute transcript s'
       end.

Inductive result : Type :=
| Rendered (system_prompt user_prompt : jsstring)
| TemplateError.

(** Modelled from the spec: the PromptRenderer is missing from the
    sources.  It is a pure substitution of the transcript into the
    placeholder of the user template, and it fails with [TemplateError]
    when the placeholder is absent. *)
Definition render (system_prompt user_template transcript : jsstring)
  : result :=
  if includes user_template placeholder
  then Rendered system_prompt (substitute transcript user_template)
  else TemplateError.

End Renderer.

Module Backend.
Import JS.

(** One example of a gold dataset: a transcript and its ground truth. *)
Record Example : Type := mkExample {
  exampleId : jsstring;
  exampleTranscript : jsstring;
  groundTruth : AssessmentScores.t
}.

Record StoredDataset : Type := mkStored {
  meta : EvaluationDataset.t;
  examples : list Example
}.

Definition stringField (body : value) (k : string) : option jsstring :=
  match TS.field body k with
  | Some (VStr s) => Some s
  | _ => None
  end.

(** Modelled from the spec: the handler of [PATCH /evaluations/datasets/id]
    is missing from the sources.  It applies the properties present in the
    [EvaluationDatasetUpdate] it receives ([name], [description],
    [source_path]); the examples are fixed at creation time. *)
Definition patchDataset (body : value) (d : StoredDataset)
  : StoredDataset :=
  let m := meta d in
  {| meta :=
       {| EvaluationDataset.id := EvaluationDataset.id m;
          EvaluationDataset.organization_id :=
            EvaluationDataset.organization_id m;
          EvaluationDataset.name :=
            match stringField body "name" with
            | Some n => n
            | None => EvaluationDataset.name m
            end;
          EvaluationDataset.description :=
            match stringField body "description" with
            | Some x => Some x
            | None => EvaluationDataset.description m
            end;
          EvaluationDataset.source_type := EvaluationDataset.source_type m;
          EvaluationDataset.source_path :=
            match stringField body "source_path" with
            | Some p => Some p
            | None => EvaluationDataset.source_path m
            end;
          EvaluationDataset.num_examples :=
            EvaluationDataset.num_examples m;
          EvaluationDataset.created_at := EvaluationDataset.created_at m;
          EvaluationDataset.updated_at := EvaluationDataset.updated_at m |};
     examples := examples d |}.

Definition setActive (b : bool) (t : PromptTemplate.t) : PromptTemplate.t :=
  {| PromptTemplate.id := PromptTemplate.id t;
     PromptTemplate.organization_id := PromptTemplate.organization_id t;
     PromptTemplate.name := PromptTemplate.name t;
     PromptTemplate.version := PromptTemplate.version t;
     PromptTemplate.system_prompt := PromptTemplate.system_prompt t;
     PromptTemplate.user_template := PromptTemplate.user_template t;
     PromptTemplate.is_active := b;
     PromptTemplate.created_at := PromptTemplate.created_at t;
     PromptTemplate.updated_at := PromptTemplate.updated_at t |}.

Definition findTemplate (id : jsstring) (store : list PromptTemplate.t)
  : option PromptTemplate.t :=
  find (fun t => str_eqb (PromptTemplate.id t) id) store.

(** The toggle of an activation on one template: within the tenant
    [org] the template [id] becomes active and every other one inactive;
    the templates of other tenants are left alone. *)
Definition toggle (org id : jsstring) (t : PromptTemplate.t)
  : PromptTemplate.t :=
  if str_eqb (PromptTemplate.organization_id t) org
  then setActive (str_eqb (PromptTemplate.id t) id) t
  else t.

(** Modelled from the spec: the handler of
    [POST /prompt-templates/id/activate] is missing from the sources.
    Activation is one atomic toggle: the template becomes active and the
    other templates of its tenant become inactive; an unknown id changes
    nothing. *)
Definition activate (id : jsstring) (store : list PromptTemplate.t)
  : list PromptTemplate.t :=
  match findTemplate id store with
  | None => store
  | Some target =>
      map (toggle (PromptTemplate.organization_id target) id) store
  end.

(** The requests of the template routes the client calls: a template to
    create, with the id and the dates the backend assigns and the
    [is_active] the request asks for; the properties an update carries;
    an activation; a deletion. *)
Inductive operation : Type :=
| Create (t : PromptTemplate.t)
| Update (id : jsstring)
         (name version system_prompt user_template : option jsstring)
         (is_active : option bool)
| Activate (id : jsstring)
| Delete (id : jsstring).

Definition orKeep (new : option jsstring) (old : jsstring) : jsstring :=
  match new with
  | Some s => s
  | None => old
  end.

Definition edit (name version system_prompt user_template : option jsstring)
  (t : PromptTemplate.t) : PromptTemplate.t :=
  {| PromptTemplate.id := PromptTemplate.id t;
     PromptTemplate.organization_id := PromptTemplate.organization_id t;
     PromptTemplate.name := orKeep name (PromptTemplate.name t);
     PromptTemplate.version := orKeep version (PromptTemplate.version t);
     PromptTemplate.system_prompt :=
       orKeep system_prompt (PromptTemplate.system_prompt t);
     PromptTemplate.user_template :=
       orKeep user_template (PromptTemplate.user_template t);
     PromptTemplate.is_active := PromptTemplate.is_active t;
     PromptTemplate.created_at := PromptTemplate.created_at t;
     PromptTemplate.updated_at := PromptTemplate.updated_at t |}.

(** [f] applied to the template [id], the others left alone. *)
Definition onTemplate (id : jsstring)
  (f : PromptTemplate.t -> PromptTemplate.t) (store : list PromptTemplate.t)
  : list PromptTemplate.t :=
  map (fun t => if str_eqb (PromptTemplate.id t) id then f t else t) store.

(** Modelled from the spec: the handlers of the template routes are
    missing from the sources.  Templates are created and edited by
    operators, and the activation is a single-writer toggle: no other
    operation makes a template active.  A template is created inactive,
    under an id that no stored template has, and a create or an update
    that asks for an active template goes through the toggle; an update
    that asks for an inactive one clears the flag of that template; a
    deletion removes the template. *)
Definition perform (op : operation) (store : list PromptTemplate.t)
  : list PromptTemplate.t :=
  match op with
  | Create t =>
      match findTemplate (PromptTemplate.id t) store with
      | Some _ => store
      | None =>
          let store' := store ++ [setActive false t] in
          if PromptTemplate.is_active t
          then activate (PromptTemplate.id t) store'
          else store'
      end
  | Update id name version system_prompt user_template is_active =>
      let store' :=
        onTemplate id (edit name version system_prompt user_template)
                   store in
      match is_active with
      | Some true => activate id store'
      | Some false => onTemplate id (setActive false) store'
      | None => store'
      end
  | Activate id => activate id store
  | Delete id =>
      filter (fun t => negb (str_eqb (PromptTemplate.id t) id)) store
  end.

(** The stores the operations lead to from the empty store. *)
Inductive reachable : list PromptTemplate.t -> Prop :=
| reachable_empty : reachable []
| reachable_apply (op : operation) (store : list PromptTemplate.t) :
    reachable store -> reachable (perform op store).

(** The active templates of a tenant. *)
Definition activeOf (org : jsstring) (store : list PromptTemplate.t)
  : list PromptTemplate.t :=
  filter (fun t => str_eqb (PromptTemplate.organization_id t) org
                   && PromptTemplate.is_active t) store.

(** The ids of the templates that [store'] no longer has active. *)
Definition deactivated (store store' : list PromptTemplate.t)
  : list jsstring :=
  map PromptTemplate.id
      (filter (fun t =>
                 PromptTemplate.is_active t
                 && negb (existsb
                            (fun t' =>
                               str_eqb (PromptTemplate.id t')
                                       (PromptTemplate.id t)
                               && PromptTemplate.is_active t')
                            store'))
              store).

End Backend.

(** ** The metrics engine *)

Module Metrics.
Local Open Scope Z_scope.

Definition sumZ (l : list Z) : Z := fold_right Z.add 0 l.

Fixpoint products (xs ys : list Z) : list Z :=
  match xs, ys with
  | x :: xs', y :: ys' => x * y :: products xs' ys'
  | _, _ => []
  end.

Definition count (l : list Z) : Z := Z.of_nat (List.length l).

(** [n * sum (x * y) - sum x * sum y]: the covariance of the two arrays,
    scaled by the square of their length. *)
Definition scaledCovariance (xs ys : list Z) : Z :=
  count xs * sumZ (products xs ys) - sumZ xs * sumZ ys.

(** The variance of an array scaled by the square of its length. *)
Definition scaledVariance (xs : list Z) : Z := scaledCovariance xs xs.

(** What a computation on numbers yields: a real number, or what IEEE
    754 arithmetic yields where a division has a zero divisor, which is an
    infinity or, zero divided by zero, no number at all. *)
Inductive number : Type :=
| Finite (r : R)
| Infinity (negative : bool)
| NaN.

Definition divide (a b : R) : number :=
  if Req_dec_T b 0
  then if Req_dec_T a 0 then NaN
       else Infinity (if Rlt_dec a 0 then true else false)
  else Finite (a / b).

Inductive result : Type :=
| MetricInputError
| Metric (r : number).

(** The standard Pearson coefficient: the covariance of the two arrays
    divided by the product of their standard deviations. *)
Definition coefficient (predictions truths : list Z) : number :=
  divide (IZR (scaledCovariance predictions truths))
         (sqrt (IZR (scaledVariance predictions * scaledVariance truths))).

(** Modelled from the spec: the MetricsEngine is missing from the
    sources.  Linear correlation is the standard Pearson coefficient of the
    predictions and the ground truths; it rejects empty and mismatched
    inputs and is defined as 0 when one of the two arrays has zero
    variance, which guards the division. *)
Definition pearson_r (predictions truths : list Z) : result :=
  if negb (Nat.eqb (List.length predictions) (List.length truths))
     || Nat.eqb (List.length predictions) 0
  then MetricInputError
  else if (scaledVariance predictions =? 0) || (scaledVariance truths =? 0)
  then Metric (Finite 0)
  else Metric (coefficient predictions truths).

End Metrics.

(** ** Notions the properties are stated with *)

Module Spec.
Import AssessmentScores.

(** The seven dimension scores of an assessment, in the order of the
    scoring rubric. *)
Definition dimensionScores (s : AssessmentScores.t) : list Z :=
  [situation s; problem s; implication s; need_payoff s;
   flow s; tone s; engagement s].

(** Arithmetic mean of a list of integers. *)
Definition mean (l : list Z) : Q :=
  inject_Z (fold_right Z.add 0%Z l) / inject_Z (Z.of_nat (List.length l)).

(** The score map of the end-to-end scenario. *)
Definition scenarioScores : AssessmentScores.t :=
  {| situation := 4; problem := 3; implication := 4; need_payoff := 3;
     flow := 4; tone := 4; engagement := 3 |}.

(** The variance of a list of integers: the mean squared deviation from
    the mean. *)
Definition sqdev (m : Q) (l : list Z) : Q :=
  fold_right Qplus 0 (map (fun x => (inject_Z x - m) * (inject_Z x - m)) l).

Definition variance (l : list Z) : Q :=
  sqdev (mean l) l / inject_Z (Z.of_nat (List.length l)).

(** The scoring request as the interface contract words it. *)
Definition ScoringRequest : TS.ty :=
  TS.TObject [TS.req "transcript_text" TS.TString;
              TS.req "tenant_id" TS.TString;
              TS.req "metadata" (TS.TRecord TS.TString)].

(** A request that persists a prompt template: a JSON body whose
    [user_template] holds the placeholder. *)
Definition persistsRenderable (r : Http.Request) : Prop :=
  exists body sys tpl,
    Http.payload r = Http.JsonBody body
    /\ TS.field body "system_prompt" = Some (JS.VStr sys)
    /\ TS.field body "user_template" = Some (JS.VStr tpl)
    /\ JS.includes tpl Renderer.placeholder = true.

(** Two stored datasets that differ at most in their name and their
    description. *)
Definition sameButNameAndDescription (d d' : Backend.StoredDataset)
  : Prop :=
  Backend.examples d' = Backend.examples d
  /\ EvaluationDataset.id (Backend.meta d')
     = EvaluationDataset.id (Backend.meta d)
  /\ EvaluationDataset.organization_id (Backend.meta d')
     = EvaluationDataset.organization_id (Backend.meta d)
  /\ EvaluationDataset.source_type (Backend.meta d')
     = EvaluationDataset.source_type (Backend.meta d)
  /\ EvaluationDataset.source_path (Backend.meta d')
     = EvaluationDataset.source_path (Backend.meta d)
  /\ EvaluationDataset.num_examples (Backend.meta d')
     = EvaluationDataset.num_examples (Backend.meta d)
  /\ EvaluationDataset.created_at (Backend.meta d')
     = EvaluationDataset.created_at (Backend.meta d)
  /\ EvaluationDataset.updated_at (Backend.meta d')
     = EvaluationDataset.updated_at (Backend.meta d).

(** The one write an edit of the dataset [d] may send: a PATCH of that
    dataset whose JSON body names no property besides [name] and
    [description], and which the backend applies without touching anything
    else. *)
Definition renamesDataset (env : Api.Env) (d : EvaluationDataset.t)
  (r : Http.Request) : Prop :=
  Http.verb r = Http.PATCH
  /\ Http.url r = Api.API_BASE env ++ JS.lit "/evaluations/datasets/"
                  ++ EvaluationDataset.id d
  /\ exists body,
       Http.payload r = Http.JsonBody body
       /\ (forall k, In k (TS.keys body) ->
                     k = JS.lit "name" \/ k = JS.lit "description")
       /\ forall stored,
            sameButNameAndDescription stored
                                      (Backend.patchDataset body stored).

(** The one write an activation sends: a POST to the template's
    [activate] route, without a body. *)
Definition activates (env : Api.Env) (id : JS.jsstring) (r : Http.Request)
  : Prop :=
  Http.verb r = Http.POST
  /\ Http.url r = Api.API_BASE env ++ JS.lit "/prompt-templates/" ++ id
                  ++ JS.lit "/activate"
  /\ Http.payload r = Http.NoBody.

(** No tenant has two active templates. *)
Definition atMostOneActive (store : list PromptTemplate.t) : Prop :=
  forall org, (List.length (Backend.activeOf org store) <= 1)%nat.

(** [cut c s]: the text before the first [c] of [s] and the text after
    it. *)
Fixpoint cut (c : N) (s : JS.jsstring)
  : option (JS.jsstring * JS.jsstring) :=
  match s with
  | [] => None
  | x :: s' =>
      if N.eqb x c then Some ([], s')
      else match cut c s' with
           | Some (a, b) => Some (x :: a, b)
           | None => None
           end
  end.

(** The text of a tagged line, from what follows the tag: the part after
    the leading white space when it is not empty and holds no line
    terminator; the last white-space character when only white space
    follows the tag and that character is no line terminator. *)
Definition tagText (r : JS.jsstring) : option JS.jsstring :=
  match JS.trimStart r with
  | c :: t =>
      if forallb RegExp.dot (c :: t) then Some (c :: t) else None
  | [] =>
      match rev r with
      | c :: _ => if RegExp.dot c then Some [c] else None
      | [] => None
      end
  end.

(** A line tagged [[Speaker] text]. *)
Definition bracketTag (line : JS.jsstring)
  : option (JS.jsstring * JS.jsstring) :=
  match line with
  | 91%N :: rest =>
      match cut 93 rest with
      | Some (c :: who, after) =>
          match tagText after with
          | Some t => Some (c :: who, t)
          | None => None
          end
      | _ => None
      end
  | _ => None
  end.

(** A line tagged [Speaker: text]. *)
Definition colonTag (line : JS.jsstring)
  : option (JS.jsstring * JS.jsstring) :=
  match cut 58 line with
  | Some (c :: who, after) =>
      match tagText after with
      | Some t => Some (c :: who, t)
      | None => None
      end
  | _ => None
  end.

(** The speaker and the text of a tagged line, before trimming; [None]
    for a line without a tag. *)
Definition tagOf (line : JS.jsstring)
  : option (JS.jsstring * JS.jsstring) :=
  match bracketTag line with
  | Some r => Some r
  | None => colonTag line
  end.

(** Whether a line carries a tag. *)
Definition tagged (line : JS.jsstring) : bool :=
  match tagOf line with
  | Some _ => true
  | None => false
  end.

(** A speaker name that marks the representative: in lower case it
    contains [rep] or [sales]. *)
Definition repLike (who : JS.jsstring) : bool :=
  JS.includes (JS.toLowerCase who) (JS.lit "rep")
  || JS.includes (JS.toLowerCase who) (JS.lit "sales").

(** [item.k] on an element that is neither [null] nor [undefined]. *)
Definition prop (item : JS.value) (k : string) : JS.value :=
  match item with
  | JS.VObj props =>
      match JS.lookup (JS.lit k) props with
      | Some x => x
      | None => JS.VUndefined
      end
  | _ => JS.VUndefined
  end.

(** [item.speaker_id || item.speaker] *)
Definition rawSpeaker (item : JS.value) : JS.value :=
  JS.or_else (prop item "speaker_id") (prop item "speaker").

(** The elements of a JSON array from which a message can be built: not
    [null], and with a speaker that is a string or falsy. *)
Definition convertible (item : JS.value) : bool :=
  match item with
  | JS.VNull | JS.VUndefined => false
  | _ =>
      match rawSpeaker item with
      | JS.VStr _ => true
      | v => negb (JS.truthy v)
      end
  end.

(** An assessment is attached to a representative when one of the
    representative's transcripts carries its [transcript_id]. *)
Definition attached (transcripts : list Transcript.t)
  (rep : Representative.t) (a : Assessment.t) : Prop :=
  exists t, In t transcripts
            /\ Transcript.representative_id t = Some (Representative.id rep)
            /\ Transcript.id t = Assessment.transcript_id a.

(** The time value of an assessment's [created_at]. *)
Definition createdAt (getTime : JSDate.parser) (a : Assessment.t)
  : option Z := getTime (Assessment.created_at a).

Definition validDates (getTime : JSDate.parser) (l : list Assessment.t)
  : Prop :=
  forall a, In a l -> createdAt getTime a <> None.

(** [a] is one of [l] and at least as late as every assessment of [l]. *)
Definition latestOf (getTime : JSDate.parser) (l : list Assessment.t)
  (a : Assessment.t) : Prop :=
  In a l
  /\ exists ta, createdAt getTime a = Some ta
       /\ forall b, In b l ->
            exists tb, createdAt getTime b = Some tb /\ (tb <= ta)%Z.

(** [a] was created no earlier than [b]. *)
Definition notEarlier (getTime : JSDate.parser) (a b : Assessment.t)
  : Prop :=
  exists ta tb, createdAt getTime a = Some ta
                /\ createdAt getTime b = Some tb /\ (tb <= ta)%Z.

End Spec.

(** ** Concrete data used by the examples *)

Module Examples.
Import JS Http.

Definition env : Api.Env := {| Api.NEXT_PUBLIC_API_BASE := None |}.

(** The model response of the end-to-end scenario, with the identifier the
    service assigns. *)
Definition scenarioResponse : value :=
  VObj [(lit "assessment_id", VNum 1 0);
        (lit "scores",
         VObj [(lit "situation", VNum 4 0); (lit "problem", VNum 3 0);
               (lit "implication", VNum 4 0); (lit "need_payoff", VNum 3 0);
               (lit "flow", VNum 4 0); (lit "tone", VNum 4 0);
               (lit "engagement", VNum 3 0)]);
        (lit "coaching",
         VObj [(lit "summary", VStr (lit "ok")); (lit "wins", VArr []);
               (lit "gaps", VArr []); (lit "next_actions", VArr [])])].

(** A backend that answers every request with the scenario's body. *)
Definition scenarioServer : server := fun _ _ =>
  Normal {| ok := true; statusText := lit "OK"; text := [];
            json := Normal scenarioResponse |}.

(** The upload dialog with the scenario's transcript selected. *)
Definition uploadState : UploadTranscriptDialog.State :=
  {| UploadTranscriptDialog.state := UploadTranscriptDialog.idle;
     UploadTranscriptDialog.errorText := None;
     UploadTranscriptDialog.file :=
       Some {| fileName := lit "call.txt";
               fileText := lit "Rep: Hi. Buyer: Hello." |};
     UploadTranscriptDialog.buyerId := [];
     UploadTranscriptDialog.assessmentResult := None;
     UploadTranscriptDialog.representativeId := lit "rep-1";
     UploadTranscriptDialog.accessToken := Some (lit "token") |}.

(** The request the scenario's upload sends. *)
Definition uploadRequest : Request :=
  {| url := lit "http://localhost:8000/assess";
     verb := POST;
     headers := [(lit "Content-Type", lit "application/json");
                 (lit "Authorization", lit "Bearer token")];
     payload :=
       JsonBody
         (VObj [(lit "transcript", VStr (lit "Rep: Hi. Buyer: Hello."));
                (lit "metadata", VObj [(lit "representative_id",
                                        VStr (lit "rep-1"))])]);
     credentials := lit "include" |}.

(** The request body the scenario's upload sends. *)
Definition uploadBody : value :=
  VObj [(lit "transcript", VStr (lit "Rep: Hi. Buyer: Hello."));
        (lit "metadata", VObj [(lit "representative_id",
                                VStr (lit "rep-1"))])].

(** The template editor with a user template that lacks the
    placeholder. *)
Definition editorWithoutPlaceholder : PromptTemplatesPage.State :=
  {| PromptTemplatesPage.accessToken := Some (lit "token");
     PromptTemplatesPage.templates := [];
     PromptTemplatesPage.defaults := None;
     PromptTemplatesPage.pageLoading := false;
     PromptTemplatesPage.pageError := None;
     PromptTemplatesPage.isEditorOpen := true;
     PromptTemplatesPage.editingTemplate := None;
     PromptTemplatesPage.name := lit "Custom Template";
     PromptTemplatesPage.version := lit "v1";
     PromptTemplatesPage.systemPrompt := lit "You are a sales coach.";
     PromptTemplatesPage.userTemplate := lit "Score this call.";
     PromptTemplatesPage.isLoading := false;
     PromptTemplatesPage.error := None |}.

(** The same editor with the placeholder in place. *)
Definition editorWithPlaceholder : PromptTemplatesPage.State :=
  {| PromptTemplatesPage.accessToken := Some (lit "token");
     PromptTemplatesPage.templates := [];
     PromptTemplatesPage.defaults := None;
     PromptTemplatesPage.pageLoading := false;
     PromptTemplatesPage.pageError := None;
     PromptTemplatesPage.isEditorOpen := true;
     PromptTemplatesPage.editingTemplate := None;
     PromptTemplatesPage.name := lit "Custom Template";
     PromptTemplatesPage.version := lit "v1";
     PromptTemplatesPage.systemPrompt := lit "You are a sales coach.";
     PromptTemplatesPage.userTemplate := lit "Score: {transcript}";
     PromptTemplatesPage.isLoading := false;
     PromptTemplatesPage.error := None |}.

Definition editorBody : value :=
  VObj [(lit "name", VStr (lit "Custom Template"));
        (lit "version", VStr (lit "v1"));
        (lit "system_prompt", VStr (lit "You are a sales coach."));
        (lit "user_template", VStr (lit "Score: {transcript}"))].

Definition createTemplateRequest : Request :=
  {| url := lit "http://localhost:8000/prompt-templates";
     verb := POST;
     headers := [(lit "Content-Type", lit "application/json");
                 (lit "Authorization", lit "Bearer token")];
     payload := JsonBody editorBody;
     credentials := lit "include" |}.

(** A dataset and the editor opened on it with a new name. *)
Definition dataset : EvaluationDataset.t :=
  {| EvaluationDataset.id := lit "ds-1";
     EvaluationDataset.organization_id := lit "org-1";
     EvaluationDataset.name := lit "Gold set";
     EvaluationDataset.description := None;
     EvaluationDataset.source_type := lit "csv";
     EvaluationDataset.source_path := Some (lit "/data/gold.csv");
     EvaluationDataset.num_examples := 3;
     EvaluationDataset.created_at := lit "2025-11-06T12:30:00Z";
     EvaluationDataset.updated_at := lit "2025-11-06T12:30:00Z" |}.

Definition datasetEditor : EvaluationsPage.State :=
  {| EvaluationsPage.accessToken := Some (lit "token");
     EvaluationsPage.datasets := [];
     EvaluationsPage.templates := [];
     EvaluationsPage.pageLoading := false;
     EvaluationsPage.pageError := None;
     EvaluationsPage.isEditorOpen := true;
     EvaluationsPage.editingDataset := Some dataset;
     EvaluationsPage.name := lit "Q4 gold set";
     EvaluationsPage.description := [];
     EvaluationsPage.file := None;
     EvaluationsPage.isLoading := false;
     EvaluationsPage.error := None |}.

Definition renameRequest : Request :=
  {| url := lit "http://localhost:8000/evaluations/datasets/ds-1";
     verb := PATCH;
     headers := [(lit "Content-Type", lit "application/json");
                 (lit "Authorization", lit "Bearer token")];
     payload := JsonBody (VObj [(lit "name", VStr (lit "Q4 gold set"))]);
     credentials := lit "include" |}.

(** Three templates of one tenant. *)
Definition template (id : string) (active : bool) : PromptTemplate.t :=
  {| PromptTemplate.id := lit id;
     PromptTemplate.organization_id := lit "org-1";
     PromptTemplate.name := lit id;
     PromptTemplate.version := lit "v1";
     PromptTemplate.system_prompt := lit "You are a sales coach.";
     PromptTemplate.user_template := lit "Score: {transcript}";
     PromptTemplate.is_active := active;
     PromptTemplate.created_at := lit "2025-11-06T12:30:00Z";
     PromptTemplate.updated_at := lit "2025-11-06T12:30:00Z" |}.

(** Before the first activation: none of the three is active. *)
Definition freshStore : list PromptTemplate.t :=
  [template "t1" false; template "t2" false; template "t3" false].

(** In steady state: the first of the three is active. *)
Definition steadyStore : list PromptTemplate.t :=
  [template "t1" true; template "t2" false; template "t3" false].

(** Arrays for the correlation: constant predictions. *)
Definition constantPredictions : list Z := [3; 3; 3]%Z.
Definition someTruths : list Z := [2; 4; 3]%Z.

(** One representative with one transcript that was assessed twice: first
    with a low score, later with a high one. *)
Definition rep : Representative.t :=
  {| Representative.id := lit "rep-1";
     Representative.email := lit "rep@example.com";
     Representative.full_name := lit "Rep One";
     Representative.department := None;
     Representative.is_active := true;
     Representative.hire_date := None;
     Representative.created_at := lit "2025-01-01T00:00:00Z" |}.

Definition call : Transcript.t :=
  {| Transcript.id := 1;
     Transcript.representative_id := Some (lit "rep-1");
     Transcript.buyer_id := None;
     Transcript.metadata := None;
     Transcript.transcript := lit "Rep: Hi. Buyer: Hello.";
     Transcript.created_at := lit "2025-11-06T12:00:00Z" |}.

Definition assessmentOf (id : Z) (score : Z) (created : string)
  : Assessment.t :=
  {| Assessment.id := id;
     Assessment.transcript_id := 1;
     Assessment.scores :=
       {| AssessmentScores.situation := score;
          AssessmentScores.problem := score;
          AssessmentScores.implication := score;
          AssessmentScores.need_payoff := score;
          AssessmentScores.flow := score;
          AssessmentScores.tone := score;
          AssessmentScores.engagement := score |};
     Assessment.coaching :=
       {| AssessmentCoaching.summary := lit "ok";
          AssessmentCoaching.wins := [];
          AssessmentCoaching.gaps := [];
          AssessmentCoaching.next_actions := [] |};
     Assessment.model_name := lit "gpt-4o-mini";
     Assessment.prompt_version := lit "v1";
     Assessment.latency_ms := None;
     Assessment.created_at := lit created |}.

Definition firstAssessment : Assessment.t :=
  assessmentOf 10 2 "2025-11-06T12:30:00Z".

Definition secondAssessment : Assessment.t :=
  assessmentOf 11 4 "2025-11-07T09:00:00Z".

Definition thirdAssessment : Assessment.t :=
  assessmentOf 12 2 "2025-11-06T18:00:00Z".

(** Which of the example assessments count for the queue of [rep]. *)
Definition lowForRep (r : Representative.t) (a : Assessment.t) : bool :=
  str_eqb (Representative.id r) (lit "rep-1")
  && Z.eqb (Assessment.transcript_id a) 1
  && RepresentativesPage.Qltb
       (Spec.mean (Spec.dimensionScores (Assessment.scores a))) 3.

(** A string literal of a JSON text. *)
Definition quoted (s : string) : jsstring := [34%N] ++ lit s ++ [34%N].

(** A structured transcript: a JSON array with one message. *)
Definition jsonTranscript : jsstring :=
  lit "[{" ++ quoted "speaker" ++ lit ":" ++ quoted "Sales Rep" ++ lit ","
  ++ quoted "text" ++ lit ":" ++ quoted "Hi" ++ lit "}]".

Definition jsonItems : list value :=
  [VObj [(lit "speaker", VStr (lit "Sales Rep"));
         (lit "text", VStr (lit "Hi"))]].

(** A plain-text transcript of two lines, the second without a tag. *)
Definition plainTranscript : jsstring :=
  lit "Rep: Hi." ++ [10%N] ++ lit "How are you?".

End Examples.

(* ================================================================== *)
(** * Part I, continued.  The tables, cards and dialogs around the
      scoring code                                                      *)
(* ================================================================== *)

(** ** [Map] and [Set]

    Both keep their entries in insertion order; setting a key that is
    present replaces the value in place, adding an element that is present
    changes nothing. *)

Module JSMap.
Local Open Scope Z_scope.

Section Map.
Context {V : Type}.

(** [m.set(k, v)] for number keys. *)
Fixpoint set (k : Z) (v : V) (m : list (Z * V)) : list (Z * V) :=
  match m with
  | [] => [(k, v)]
  | (k', v') :: m' =>
      if k =? k' then (k, v) :: m' else (k', v') :: set k v m'
  end.

(** [new Map(entries)] *)
Definition ofEntries (entries : list (Z * V)) : list (Z * V) :=
  fold_left (fun m e => set (fst e) (snd e) m) entries [].

(** [m.get(k)]; [None] is [undefined]. *)
Fixpoint get (k : Z) (m : list (Z * V)) : option V :=
  match m with
  | [] => None
  | (k', v) :: m' => if k =? k' then Some v else get k m'
  end.

(** [m.has(k)] *)
Definition has (k : Z) (m : list (Z * V)) : bool :=
  match get k m with
  | Some _ => true
  | None => false
  end.

End Map.
End JSMap.

Module JSSet.

Section Elements.
Context {K : Type}.
Variable eqb : K -> K -> bool.

(** [s.has(k)] *)
Definition has (k : K) (s : list K) : bool := existsb (eqb k) s.

(** [s.add(k)] *)
Definition add (k : K) (s : list K) : list K :=
  if has k s then s else s ++ [k].

(** [new Set(elements)] *)
Definition ofList (l : list K) : list K :=
  fold_left (fun s k => add k s) l [].

End Elements.
End JSSet.

(** ** src/frontend/src/components/representatives/TranscriptsTable.tsx
       (the rows, the status filter, the score column) *)

Module TranscriptRow.
Import JS.

Inductive Status : Type := completed | pending.

(** The string a status is in the source. *)
Definition statusText (s : Status) : jsstring :=
  match s with
  | completed => lit "completed"
  | pending => lit "pending"
  end.

Record t : Type := mk {
  id : Z;
  buyerId : jsstring;
  createdAt : jsstring;
  spinScore : option Q;
  status : Status;
  transcript : Transcript.t;
  assessment : option Assessment.t
}.
End TranscriptRow.

Module TranscriptsTableData.
Import JS.

(** [tableData] *)
Definition tableData (transcripts : list Transcript.t)
  (assessments : list Assessment.t) : list TranscriptRow.t :=
  let assessmentMap :=
    JSMap.ofEntries
      (map (fun a => (Assessment.transcript_id a, a)) assessments) in
  map (fun t =>
         let assessment := JSMap.get (Transcript.id t) assessmentMap in
         {| TranscriptRow.id := Transcript.id t;
            TranscriptRow.buyerId :=
              TranscriptViewer.orStr (Transcript.buyer_id t) (lit "Unknown");
            TranscriptRow.createdAt := Transcript.created_at t;
            TranscriptRow.spinScore :=
              match assessment with
              | Some a =>
                  Some (TranscriptsTable.calculateCompositeScore
                          (Assessment.scores a))
              | None => None
              end;
            TranscriptRow.status :=
              match assessment with
              | Some _ => TranscriptRow.completed
              | None => TranscriptRow.pending
              end;
            TranscriptRow.transcript := t;
            TranscriptRow.assessment := assessment |})
      transcripts.

(** [filteredData] for the status filter [statusFilter]. *)
Definition filteredData (statusFilter : jsstring)
  (rows : list TranscriptRow.t) : list TranscriptRow.t :=
  if str_eqb statusFilter (lit "all") then rows
  else filter (fun row =>
                 str_eqb (TranscriptRow.statusText (TranscriptRow.status row))
                         statusFilter) rows.

(** [getScoreColor]; [None] is [null]. *)
Definition getScoreColor (score : option Q) : jsstring :=
  match score with
  | None => lit "text-slate-500"
  | Some s =>
      if Qle_bool (7 # 2) s then lit "text-emerald-400"
      else if Qle_bool 3 s then lit "text-amber-300"
      else lit "text-rose-400"
  end.

(** [getScoreBgColor] *)
Definition getScoreBgColor (score : option Q) : jsstring :=
  match score with
  | None => lit "bg-slate-800"
  | Some s =>
      if Qle_bool (7 # 2) s then lit "bg-emerald-900/40"
      else if Qle_bool 3 s then lit "bg-amber-900/40"
      else lit "bg-rose-900/40"
  end.

(** The [sortingFn] of the score column, on the two cell values. *)
Definition sortingFn (a b : option Q) : Q :=
  match a, b with
  | None, None => 0
  | None, Some _ => 1
  | Some _, None => - (1)
  | Some x, Some y => x - y
  end.

End TranscriptsTableData.

(** ** src/frontend/src/components/assessments/OverallScoreCard.tsx *)

Module OverallScoreCard.
Import JS AssessmentScores.

Definition calculateCompositeScore (scores : AssessmentScores.t) : Q :=
  inject_Z (situation scores + problem scores + implication scores
            + need_payoff scores + flow scores + tone scores
            + engagement scores) / 7.

Definition getScoreColor (score : Q) : jsstring :=
  if Qle_bool 4 score then lit "text-emerald-400"
  else if Qle_bool 3 score then lit "text-amber-400"
  else lit "text-rose-400".

Definition getScoreBgColor (score : Q) : jsstring :=
  if Qle_bool 4 score then lit "bg-emerald-500/20"
  else if Qle_bool 3 score then lit "bg-amber-500/20"
  else lit "bg-rose-500/20".

End OverallScoreCard.

(** ** src/frontend/src/components/assessments/SpinScoresChart.tsx *)

Module SpinScoresChart.
Import JS.

Definition getBarColor (score : Q) : jsstring :=
  if Qle_bool 4 score then lit "#34d399"
  else if Qle_bool 3 score then lit "#fbbf24"
  else lit "#f87171".

Definition getSemanticLabel (score : Q) : jsstring :=
  if Qle_bool 4 score then lit "Good"
  else if Qle_bool 3 score then lit "Average"
  else if Qle_bool 2 score then lit "Below average"
  else lit "Poor".

Definition getLabelColor (score : Q) : jsstring :=
  if Qle_bool 4 score then lit "text-emerald-400"
  else if Qle_bool 3 score then lit "text-amber-400"
  else lit "text-rose-400".

End SpinScoresChart.

(** ** src/frontend/src/components/assessments/QualityScoresRow.tsx *)

Module QualityScoresRow.
Import JS.

Definition getSemanticLabel (score : Q) : jsstring :=
  if Qle_bool 4 score then lit "Good"
  else if Qle_bool 3 score then lit "Average"
  else if Qle_bool 2 score then lit "Below average"
  else lit "Poor".

Definition getScoreColor (score : Q) : jsstring :=
  if Qle_bool 4 score then lit "text-emerald-400"
  else if Qle_bool 3 score then lit "text-amber-400"
  else lit "text-rose-400".

Definition getScoreBgColor (score : Q) : jsstring :=
  if Qle_bool 4 score then lit "bg-emerald-500/10 border-emerald-500/20"
  else if Qle_bool 3 score then lit "bg-amber-500/10 border-amber-500/20"
  else lit "bg-rose-500/10 border-rose-500/20".

End QualityScoresRow.

(** ** Numbers as text

    [x.toFixed(2)] is the decimal [n / 100] nearest to [x], the larger [n]
    on a tie, computed on the magnitude with the sign put back; from
    [10 ^ 21] on it is the number's own text.  [parseFloat] reads the
    decimal back. *)

Module JSNumber.

Definition nearestHundredths (y : Q) : Z := Qfloor (y * 100 + (1 # 2)).

(** [parseFloat(x.toFixed(2))] *)
Definition parseFloatToFixed2 (x : Q) : Q :=
  if Qle_bool (inject_Z (10 ^ 21)) (Qabs x) then x
  else if Qle_bool 0 x then inject_Z (nearestHundredths x) / 100
       else - (inject_Z (nearestHundredths (- x)) / 100).

End JSNumber.

(** ** src/frontend/src/components/representatives/RepDetailTabs.tsx *)

Module RepDetailTabs.
Import JS AssessmentScores.

Definition calculateCompositeScore (scores : AssessmentScores.t) : Q :=
  inject_Z (situation scores + problem scores + implication scores
            + need_payoff scores + flow scores + tone scores
            + engagement scores) / 7.

(** [repAssessments] *)
Definition repAssessments (transcripts : list Transcript.t)
  (assessments : list Assessment.t) : list Assessment.t :=
  let transcriptIds := JSSet.ofList Z.eqb (map Transcript.id transcripts) in
  filter (fun a => JSSet.has Z.eqb (Assessment.transcript_id a)
                             transcriptIds) assessments.

Record Metrics : Type := mkMetrics {
  totalConversations : nat;
  avgSpinScore : option Q;
  lastConversationDate : option jsstring;
  completedCount : nat;
  pendingCount : Z
}.

Record ChartPoint : Type := mkPoint {
  date : jsstring;
  title : jsstring;
  formattedDate : jsstring;
  spinScore : Q
}.

Record Conversation : Type := mkConversation {
  id : Z;
  buyerId : jsstring;
  conversationDate : jsstring;
  score : option Q;
  status : TranscriptRow.Status
}.

(** [Math.max(...times)] of a list that is not empty; the maximum of no
    number is [-Infinity], which is no time value either. *)
Definition maxOf (times : list (option Z)) : option Z :=
  match times with
  | [] => None
  | t :: ts => fold_left JSDate.max ts t
  end.

Section Tabs.
(** The engine's date parser, and [toLocaleDateString("en-US", ...)] with
    the three sets of options the component uses, as functions of the time
    value ([None] is the invalid date). *)
Variable getTime : JSDate.parser.
Variable formatLong : option Z -> jsstring.
Variable formatShort : option Z -> jsstring.
Variable formatWithTime : option Z -> jsstring.

(** [metrics] *)
Definition metrics (transcripts : list Transcript.t)
  (repAssessments : list Assessment.t) : Metrics :=
  {| totalConversations := List.length transcripts;
     avgSpinScore :=
       match repAssessments with
       | [] => None
       | _ :: _ =>
           let total :=
             fold_left (fun sum a =>
                          sum + calculateCompositeScore (Assessment.scores a))
                       repAssessments 0 in
           Some (total / inject_Z (Z.of_nat (List.length repAssessments)))
       end;
     lastConversationDate :=
       match transcripts with
       | [] => None
       | _ :: _ =>
           Some (formatLong
                   (maxOf (map (fun t => getTime (Transcript.created_at t))
                               transcripts)))
       end;
     completedCount := List.length repAssessments;
     pendingCount :=
       (Z.of_nat (List.length transcripts)
        - Z.of_nat (List.length repAssessments))%Z |}.

(** The comparators of the two sorts. *)
Definition byCreatedAtAsc (a b : Transcript.t) : option Z :=
  JSDate.sub (getTime (Transcript.created_at a))
             (getTime (Transcript.created_at b)).

Definition byCreatedAtDesc (a b : Transcript.t) : option Z :=
  JSDate.sub (getTime (Transcript.created_at b))
             (getTime (Transcript.created_at a)).

(** The callback of [chartData]'s [map]; [assessmentMap.get(t.id)!] is
    [undefined] for a transcript without an entry, and reading its
    [scores] throws. *)
Definition chartPoint (assessmentMap : list (Z * Assessment.t))
  (t : Transcript.t) : completion ChartPoint :=
  match JSMap.get (Transcript.id t) assessmentMap with
  | None => Throw (TypeError (lit "Cannot read properties of undefined"))
  | Some assessment =>
      let score := calculateCompositeScore (Assessment.scores assessment) in
      let d := getTime (Transcript.created_at t) in
      Normal {| date := formatShort d;
                title := lit "Conversation with "
                         ++ TranscriptViewer.orStr (Transcript.buyer_id t)
                                                   (lit "Unknown");
                formattedDate := formatLong d;
                spinScore := JSNumber.parseFloatToFixed2 score |}
  end.

(** [chartData] *)
Definition chartData (transcripts : list Transcript.t)
  (repAssessments : list Assessment.t) : completion (list ChartPoint) :=
  let assessmentMap :=
    JSMap.ofEntries
      (map (fun a => (Assessment.transcript_id a, a)) repAssessments) in
  let transcriptsWithAssessments :=
    JSArray.sort byCreatedAtAsc
      (filter (fun t => JSMap.has (Transcript.id t) assessmentMap)
              transcripts) in
  mapM (chartPoint assessmentMap) transcriptsWithAssessments.

(** The transcripts [recentConversations] lists:
    [[...transcripts].sort(...).slice(0, 5)] *)
Definition recentTranscripts (transcripts : list Transcript.t)
  : list Transcript.t :=
  firstn 5 (JSArray.sort byCreatedAtDesc transcripts).

(** [recentConversations] *)
Definition recentConversations (transcripts : list Transcript.t)
  (repAssessments : list Assessment.t) : list Conversation :=
  let assessmentMap :=
    JSMap.ofEntries
      (map (fun a => (Assessment.transcript_id a, a)) repAssessments) in
  map (fun t =>
         let assessment := JSMap.get (Transcript.id t) assessmentMap in
         {| id := Transcript.id t;
            buyerId :=
              TranscriptViewer.orStr (Transcript.buyer_id t) (lit "Unknown");
            conversationDate :=
              formatWithTime (getTime (Transcript.created_at t));
            score :=
              match assessment with
              | Some a => Some (calculateCompositeScore (Assessment.scores a))
              | None => None
              end;
            status :=
              match assessment with
              | Some _ => TranscriptRow.completed
              | None => TranscriptRow.pending
              end |})
      (recentTranscripts transcripts).

End Tabs.
End RepDetailTabs.

(** ** Notions the properties below are stated with *)

Module Notions.
Local Open Scope Z_scope.

(** The last assessment of a list that belongs to transcript [k]. *)
Definition lastListed (k : Z) (assessments : list Assessment.t)
  : option Assessment.t :=
  find (fun a => Assessment.transcript_id a =? k) (rev assessments).

(** Whether some assessment of the list belongs to transcript [k]. *)
Definition assessed (assessments : list Assessment.t) (k : Z) : bool :=
  existsb (fun a => Assessment.transcript_id a =? k) assessments.

(** The time value of a transcript's [created_at]. *)
Definition time (getTime : JSDate.parser) (t : Transcript.t) : option Z :=
  getTime (Transcript.created_at t).

(** The time value of a transcript, [0] for an invalid date. *)
Definition timeKey (getTime : JSDate.parser) (t : Transcript.t) : Z :=
  match time getTime t with
  | Some x => x
  | None => 0
  end.

(** Every transcript of the list has a date the engine can parse. *)
Definition datedTranscripts (getTime : JSDate.parser)
  (l : list Transcript.t) : Prop :=
  Forall (fun t => time getTime t <> None) l.

(** [a] is not later than [b]. *)
Definition notLater (getTime : JSDate.parser) (a b : Transcript.t) : Prop :=
  match time getTime a, time getTime b with
  | Some x, Some y => x <= y
  | _, _ => False
  end.

(** [v.k] for a value [v] that is not [null] or [undefined]. *)
Definition member (v : JS.value) (k : JS.jsstring) : JS.value :=
  match v with
  | JS.VObj props =>
      match JS.lookup k props with
      | Some x => x
      | None => JS.VUndefined
      end
  | _ => JS.VUndefined
  end.

(** Whether transcript [t] belongs to one of the representatives. *)
Definition assigned (representatives : list Representative.t)
  (t : Transcript.t) : bool :=
  existsb (fun rep => RepresentativesPage.sameRep
                        (Transcript.representative_id t)
                        (Representative.id rep)) representatives.

End Notions.

(** ** Sample data *)

Module Samples.
Import JS.

Definition callOf (id : Z) (rep : string) (created : string)
  : Transcript.t :=
  {| Transcript.id := id;
     Transcript.representative_id := Some (lit rep);
     Transcript.buyer_id := None;
     Transcript.metadata := None;
     Transcript.transcript := lit "Rep: Hi. Buyer: Hello.";
     Transcript.created_at := lit created |}.

Definition assessmentFor (id transcript score : Z) (created : string)
  : Assessment.t :=
  {| Assessment.id := id;
     Assessment.transcript_id := transcript;
     Assessment.scores :=
       {| AssessmentScores.situation := score;
          AssessmentScores.problem := score;
          AssessmentScores.implication := score;
          AssessmentScores.need_payoff := score;
          AssessmentScores.flow := score;
          AssessmentScores.tone := score;
          AssessmentScores.engagement := score |};
     Assessment.coaching :=
       {| AssessmentCoaching.summary := lit "ok";
          AssessmentCoaching.wins := [];
          AssessmentCoaching.gaps := [];
          AssessmentCoaching.next_actions := [] |};
     Assessment.model_name := lit "gpt-4o-mini";
     Assessment.prompt_version := lit "v1";
     Assessment.latency_ms := None;
     Assessment.created_at := lit created |}.

(** Three conversations of one representative, the second one first. *)
Definition calls : list Transcript.t :=
  [callOf 2 "rep-1" "2025-11-08T09:00:00Z";
   callOf 1 "rep-1" "2025-11-06T12:00:00Z";
   callOf 3 "rep-1" "2025-11-09T15:30:00Z"].

(** One assessment for the first and one for the third conversation. *)
Definition assessments : list Assessment.t :=
  [assessmentFor 10 1 2 "2025-11-06T12:30:00Z";
   assessmentFor 11 3 4 "2025-11-09T16:00:00Z"].

(** A team of two representatives, and its conversations: the three of
    the first, one of the second, and one that names nobody of the team. *)
Definition secondRep : Representative.t :=
  {| Representative.id := lit "rep-2";
     Representative.email := lit "second@example.com";
     Representative.full_name := lit "Rep Two";
     Representative.department := None;
     Representative.is_active := true;
     Representative.hire_date := None;
     Representative.created_at := lit "2025-01-02T00:00:00Z" |}.

Definition team : list Representative.t := [Examples.rep; secondRep].

Definition teamCalls : list Transcript.t :=
  calls ++ [callOf 4 "rep-2" "2025-11-10T10:00:00Z";
            callOf 5 "rep-9" "2025-11-11T10:00:00Z"].

(** How the samples print a date. *)
Definition printDate (time : option Z) : jsstring :=
  match time with
  | Some ms => JSDate.toISOString ms
  | None => lit "Invalid Date"
  end.

End Samples.

(** ** src/frontend/src/app/(main)/representatives/page.tsx
       (the department list and the filters) *)

Module RepresentativesFilters.
Import JS.

(** [a < b] on strings: the order of the code units. *)
Fixpoint strLt (a b : jsstring) : bool :=
  match a, b with
  | _, [] => false
  | [], _ :: _ => true
  | x :: a', y :: b' =>
      if N.ltb x y then true
      else if N.ltb y x then false
      else strLt a' b'
  end.

(** The comparison [sort()] makes without a comparator. *)
Definition defaultCompare (a b : jsstring) : option Z :=
  if strLt a b then Some (-1)%Z
  else if strLt b a then Some 1%Z
  else Some 0%Z.

(** [departments] *)
Definition departments (representatives : list Representative.t)
  : list jsstring :=
  let deptSet :=
    fold_left (fun s rep =>
                 match Representative.department rep with
                 | Some (c :: d) => JSSet.add str_eqb (c :: d) s
                 | _ => s
                 end) representatives [] in
  JSArray.sort defaultCompare deptSet.

(** A [DateRange]: each end is absent or a [Date], which holds a time
    value or is invalid. *)
Record DateRange : Type := mkRange {
  from : option (option Z);
  to : option (option Z)
}.

Record FilterState : Type := mkFilters {
  search : jsstring;
  department : option jsstring;
  status : jsstring;
  hireDateRange : option DateRange
}.

(** [a < b] on dates; a comparison with an invalid date is false. *)
Definition dateLt (a b : option Z) : bool :=
  match a, b with
  | Some x, Some y => Z.ltb x y
  | _, _ => false
  end.

Section Filter.
(** The engine's date parser, and [setHours(23, 59, 59, 999)] in the
    browser's time zone as a function of the time value. *)
Variable getTime : JSDate.parser.
Variable endOfDay : option Z -> option Z.

(** The callback of [aggregatedData.filter]. *)
Definition keeps (filters : FilterState) (row : RepresentativeRow.t)
  : bool :=
  if match search filters with
     | [] => false
     | _ :: _ =>
         let searchLower := toLowerCase (search filters) in
         negb (includes (toLowerCase (RepresentativeRow.fullName row))
                        searchLower
               || includes (toLowerCase (RepresentativeRow.email row))
                           searchLower)
     end
  then false
  else if match department filters with
          | Some (c :: d) =>
              negb match RepresentativeRow.department row with
                   | Some r => str_eqb r (c :: d)
                   | None => false
                   end
          | _ => false
          end
  then false
  else if str_eqb (status filters) (lit "active")
          && negb (RepresentativeRow.isActive row)
  then false
  else if str_eqb (status filters) (lit "inactive")
          && RepresentativeRow.isActive row
  then false
  else if match hireDateRange filters with
          | Some range =>
              match from range, RepresentativeRow.hireDate row with
              | Some fromDate, Some (c :: h) =>
                  dateLt (getTime (c :: h)) fromDate
              | _, _ => false
              end
          | None => false
          end
  then false
  else if match hireDateRange filters with
          | Some range =>
              match to range, RepresentativeRow.hireDate row with
              | Some toDate, Some (c :: h) =>
                  dateLt (endOfDay toDate) (getTime (c :: h))
              | _, _ => false
              end
          | None => false
          end
  then false
  else true.

(** [filteredData] *)
Definition filteredData (filters : FilterState)
  (aggregatedData : list RepresentativeRow.t) : list RepresentativeRow.t :=
  filter (keeps filters) aggregatedData.

End Filter.

(** The filters the page starts with. *)
Definition initialFilters : FilterState :=
  {| search := []; department := None; status := lit "all";
     hireDateRange := None |}.

Definition withStatus (s : jsstring) (filters : FilterState) : FilterState :=
  {| search := search filters; department := department filters;
     status := s; hireDateRange := hireDateRange filters |}.

End RepresentativesFilters.

(** ** src/frontend/src/components/assessments/TranscriptViewer.tsx
       (the speaker filter and the search) *)

Module TranscriptSearch.
Import JS TranscriptViewer.

(** [arr.filter(f)] where [f] may throw. *)
Fixpoint filterM {A} (f : A -> completion bool) (l : list A)
  : completion (list A) :=
  match l with
  | [] => Normal []
  | x :: l' =>
      b <- f x ;;
      rest <- filterM f l' ;;
      Normal (if b then x :: rest else rest)
  end.

Inductive Filter : Type := all | rep | customer.

Section Search.
(** [String.prototype.toLowerCase], by the engine. *)
Variable toLowerCase : jsstring -> jsstring.

(** [v.toLowerCase()]: only strings have the method; calling the missing
    method of another value is a [TypeError]. *)
Definition lowerCased (v : value) : completion jsstring :=
  match v with
  | VStr s => Normal (toLowerCase s)
  | _ => Throw (TypeError (lit "toLowerCase is not a function"))
  end.

(** [filteredMessages] *)
Definition filteredMessages (filter : Filter) (searchQuery : jsstring)
  (messages : list (ParsedMessage value))
  : completion (list (ParsedMessage value)) :=
  let filtered :=
    match filter with
    | rep => List.filter (fun m => isRep m) messages
    | customer => List.filter (fun m => negb (isRep m)) messages
    | all => messages
    end in
  match trim searchQuery with
  | [] => Normal filtered
  | _ :: _ =>
      let query := toLowerCase searchQuery in
      filterM (fun m =>
                 lower <- lowerCased (text m) ;;
                 Normal (includes lower query)) filtered
  end.

End Search.
End TranscriptSearch.

(** ** src/frontend/src/lib/api.ts (the overview transformations) *)

Module OverviewTransforms.
Import JS.

(** [dimensionOrder]: the keys of the response and their labels. *)
Definition dimensionOrder : list (jsstring * jsstring) :=
  [(lit "situation", lit "Situation");
   (lit "problem", lit "Problem");
   (lit "implication", lit "Implication");
   (lit "need_payoff", lit "Need-payoff");
   (lit "flow", lit "Flow");
   (lit "tone", lit "Tone");
   (lit "engagement", lit "Engagement")].

(** One [SpinRadarData]. *)
Definition radarPoint (dimension : jsstring) (v : value) : value :=
  VObj [(lit "dimension", VStr dimension); (lit "value", v)].

(** [d.value] of a [radarPoint]. *)
Definition pointValue (d : value) : value :=
  match d with
  | VObj [_; (_, v)] => v
  | _ => VUndefined
  end.

(** [formatDimensionAverages] *)
Definition formatDimensionAverages (averages : value)
  : completion (list value) :=
  points <- mapM (fun entry =>
                    v <- get averages (fst entry) ;;
                    Normal (radarPoint (snd entry) (or_else v (VNum 0 0))))
                 dimensionOrder ;;
  Normal (filter (fun d => negb (TS.isUndefined (pointValue d))) points).

(** [Object.keys(v).length > 0] for a value that is not [null] or
    [undefined]: an object with a property, an array with an element, a
    string with a code unit. *)
Definition hasKeys (v : value) : bool :=
  match v with
  | VObj (_ :: _) | VArr (_ :: _) | VStr (_ :: _) => true
  | _ => false
  end.

(** [...(v && { k: v })] *)
Definition spreadIfTruthy (k : string) (v : value)
  : list (jsstring * value) :=
  if truthy v then [(lit k, v)] else [].

(** [transformOverviewStatistics] *)
Definition transformOverviewStatistics (data : value) : completion value :=
  averages <- get data (lit "dimension_averages") ;;
  dimensionAverages <-
    (if truthy averages && hasKeys averages
     then points <- formatDimensionAverages averages ;;
          Normal (VArr points)
     else Normal VUndefined) ;;
  total <- get data (lit "total_conversations") ;;
  avg <- get data (lit "avg_composite_score") ;;
  above <- get data (lit "percentage_above_target") ;;
  weakest <- get data (lit "weakest_dimension") ;;
  deltaConversations <- get data (lit "delta_conversations") ;;
  deltaScore <- get data (lit "delta_score") ;;
  deltaPercentage <- get data (lit "delta_percentage") ;;
  Normal (VObj ([(lit "totalConversations", total);
                 (lit "avgCompositeScore", avg);
                 (lit "percentageAboveTarget", above);
                 (lit "weakestDimension", weakest);
                 (lit "dimensionAverages", dimensionAverages)]
                ++ spreadIfTruthy "deltaConversations" deltaConversations
                ++ spreadIfTruthy "deltaScore" deltaScore
                ++ spreadIfTruthy "deltaPercentage" deltaPercentage)).

End OverviewTransforms.

(** ** [URLSearchParams]

    The serializer of [application/x-www-form-urlencoded]: a string is
    read as scalar values (a surrogate without its partner becomes U+FFFD),
    encoded in UTF-8, and every byte outside [*-._0-9A-Za-z] is written
    [%XX], the space as [+]. *)

Module UrlEncoded.
Import JS.
Local Open Scope N_scope.

Definition isHighSurrogate (c : N) : bool := (55296 <=? c) && (c <=? 56319).
Definition isLowSurrogate (c : N) : bool := (56320 <=? c) && (c <=? 57343).

Fixpoint scalarValues (s : jsstring) : list N :=
  match s with
  | [] => []
  | h :: rest =>
      if isHighSurrogate h
      then match rest with
           | l :: rest' =>
               if isLowSurrogate l
               then (65536 + (h - 55296) * 1024 + (l - 56320))
                    :: scalarValues rest'
               else 65533 :: scalarValues rest
           | [] => [65533]
           end
      else if isLowSurrogate h then 65533 :: scalarValues rest
           else h :: scalarValues rest
  end.

Definition utf8 (c : N) : list N :=
  if c <? 128 then [c]
  else if c <? 2048 then [192 + c / 64; 128 + c mod 64]
  else if c <? 65536
       then [224 + c / 4096; 128 + (c / 64) mod 64; 128 + c mod 64]
       else [240 + c / 262144; 128 + (c / 4096) mod 64;
             128 + (c / 64) mod 64; 128 + c mod 64].

Definition hexDigit (d : N) : N := if d <? 10 then 48 + d else 55 + d.

(** The bytes the serializer leaves as they are. *)
Definition isPlain (b : N) : bool :=
  (b =? 42) || (b =? 45) || (b =? 46) || (b =? 95)
  || ((48 <=? b) && (b <=? 57)) || ((65 <=? b) && (b <=? 90))
  || ((97 <=? b) && (b <=? 122)).

Definition encodeByte (b : N) : jsstring :=
  if isPlain b then [b]
  else if b =? 32 then [43]
  else [37; hexDigit (b / 16); hexDigit (b mod 16)].

Definition encode (s : jsstring) : jsstring :=
  flat_map (fun c => flat_map encodeByte (utf8 c)) (scalarValues s).

(** [params.toString()] of parameters set in this order. *)
Fixpoint serialize (params : list (jsstring * jsstring)) : jsstring :=
  match params with
  | [] => []
  | [(k, v)] => encode k ++ [61] ++ encode v
  | (k, v) :: rest => encode k ++ [61] ++ encode v ++ [38] ++ serialize rest
  end.

End UrlEncoded.

(** ** src/frontend/src/lib/api.ts (the other calls of the pages)

    A number that a call only prints into the path is passed as its
    text. *)

Module ApiCalls.
Import JS Http Api.

(** [`${path}${params.toString() ? `?${params.toString()}` : ''}`] *)
Definition withQuery (path : jsstring) (params : list (jsstring * jsstring))
  : jsstring :=
  match UrlEncoded.serialize params with
  | [] => path
  | q => path ++ lit "?" ++ q
  end.

(** The common shape of the reads: the JSON body of an [ok] response, an
    [Error] naming the status text otherwise. *)
Definition getJson (env : Env) (path : jsstring) (failure : string)
  (token : option jsstring) : io value :=
  response <~ apiFetch env path noInit token ;;
  if ok response then readJson response
  else throw (Error (lit failure ++ statusText response)).

(** [fetchRepresentatives(token)] *)
Definition fetchRepresentatives (env : Env) (token : option jsstring)
  : io value :=
  getJson env (lit "/representatives")
          "Failed to fetch representatives: " token.

(** [fetchRepresentativeById(id, token)] *)
Definition fetchRepresentativeById (env : Env) (id : jsstring)
  (token : option jsstring) : io value :=
  getJson env (lit "/representatives/" ++ id)
          "Failed to fetch representative: " token.

(** [fetchTranscripts(representativeId, token)] *)
Definition fetchTranscripts (env : Env) (representativeId : option jsstring)
  (token : option jsstring) : io value :=
  let params :=
    match representativeId with
    | Some (c :: id) => [(lit "representative_id", c :: id)]
    | _ => []
    end in
  getJson env (withQuery (lit "/transcripts") params)
          "Failed to fetch transcripts: " token.

(** [fetchAssessments(transcriptId, token)] *)
Definition fetchAssessments (env : Env) (transcriptId : option jsstring)
  (token : option jsstring) : io value :=
  let params :=
    match transcriptId with
    | Some id => [(lit "transcript_id", id)]
    | None => []
    end in
  getJson env (withQuery (lit "/assess") params)
          "Failed to fetch assessments: " token.

(** [fetchTranscriptById(id, token)] *)
Definition fetchTranscriptById (env : Env) (id : jsstring)
  (token : option jsstring) : io value :=
  getJson env (lit "/transcripts/" ++ id)
          "Failed to fetch transcript: " token.

(** [fetchAssessmentsByTranscript(transcriptId, token)] *)
Definition fetchAssessmentsByTranscript (env : Env) (transcriptId : jsstring)
  (token : option jsstring) : io value :=
  getJson env (lit "/assess/by-transcript/" ++ transcriptId)
          "Failed to fetch assessments: " token.

(** [fetchTemplateEvaluations(templateId, token)] *)
Definition fetchTemplateEvaluations (env : Env) (templateId : jsstring)
  (token : option jsstring) : io value :=
  getJson env (lit "/evaluations/templates/" ++ templateId ++ lit "/runs")
          "Failed to fetch evaluations: " token.

(** [deleteEvaluationDataset(id, token)] *)
Definition deleteEvaluationDataset (env : Env) (id : jsstring)
  (token : option jsstring) : io unit :=
  response <~ apiFetch env (lit "/evaluations/datasets/" ++ id)
                {| initMethod := Some DELETE; initBody := NoBody |} token ;;
  if ok response then ret tt else throw (Error (textOrStatus response)).

(** [runEvaluation(data, token)] *)
Definition runEvaluation (env : Env) (data : value)
  (token : option jsstring) : io value :=
  response <~ apiFetch env (lit "/evaluations/run")
                {| initMethod := Some POST;
                   initBody := JsonBody (JSON.stringify data) |} token ;;
  jsonOrThrow response.

(** [previewPromptTemplate(data, token)] *)
Definition previewPromptTemplate (env : Env) (data : value)
  (token : option jsstring) : io value :=
  response <~ apiFetch env (lit "/prompt-templates/preview")
                {| initMethod := Some POST;
                   initBody := JsonBody (JSON.stringify data) |} token ;;
  jsonOrThrow response.

End ApiCalls.

(** ** Notions about the calls of the client *)

Module Calls.
Import JS Http.

(** The value of the header [k] of a request. *)
Fixpoint header (k : jsstring) (hs : list (jsstring * jsstring))
  : option jsstring :=
  match hs with
  | [] => None
  | (k', v) :: hs' => if str_eqb k k' then Some v else header k hs'
  end.

(** The request includes the cookies and carries the bearer token when
    there is a token that is not empty, and no [Authorization] header
    otherwise. *)
Definition authorized (token : option jsstring) (r : Request) : Prop :=
  credentials r = lit "include"
  /\ header (lit "Authorization") (headers r)
     = match token with
       | Some (c :: t) => Some (lit "Bearer " ++ c :: t)
       | _ => None
       end.

(** [c] makes exactly one request, to [target] with the method [m], an
    authorized one, whatever the server answers; it completes normally
    exactly when the answer is [ok] and has a JSON body, with that
    body. *)
Definition oneCall (m : method) (target : jsstring)
  (token : option jsstring) (c : io value) : Prop :=
  forall srv log,
  exists r,
    snd (c srv log) = log ++ [r]
    /\ verb r = m /\ url r = target /\ authorized token r
    /\ forall v, fst (c srv log) = Normal v <->
         exists response,
           srv log r = Normal response
           /\ ok response = true /\ json response = Normal v.

(** The same for a call that returns nothing: it completes normally
    exactly when the answer is [ok]. *)
Definition oneCommand (m : method) (target : jsstring)
  (token : option jsstring) (c : io unit) : Prop :=
  forall srv log,
  exists r,
    snd (c srv log) = log ++ [r]
    /\ verb r = m /\ url r = target /\ authorized token r
    /\ (fst (c srv log) = Normal tt <->
        exists response, srv log r = Normal response /\ ok response = true).

(** What follows the request in a call: nothing is sent, and a normal
    completion is the JSON body of an [ok] response. *)
Definition ending (k : Response -> io value) : Prop :=
  forall response srv log,
    snd (k response srv log) = log
    /\ forall v, fst (k response srv log) = Normal v <->
         ok response = true /\ json response = Normal v.

(** What a read whose failure is replaced by an empty list yields for
    the answer to its request. *)
Definition settled (answer : completion Response) : value :=
  match answer with
  | Normal response =>
      if ok response
      then match json response with
           | Normal v => v
           | Throw _ => VArr []
           end
      else VArr []
  | Throw _ => VArr []
  end.

(** The results of such reads for the requests [rs], made in this order
    after the requests [log]. *)
Fixpoint collected (srv : server) (log rs : list Request) : list value :=
  match rs with
  | [] => []
  | r :: rs' => settled (srv log r) :: collected srv (log ++ [r]) rs'
  end.

(** The run [run] names the dataset [id]. *)
Definition inDataset (id : jsstring) (run : value) : bool :=
  match Notions.member run (lit "dataset_id") with
  | VStr s => str_eqb s id
  | _ => false
  end.

End Calls.

(** ** src/frontend/src/app/settings/evaluations/page.tsx
       (the editor's file input and the list of runs) *)

Module DatasetEditor.
Import JS Http EvaluationsPage.

(** [s.endsWith(suffix)] *)
Definition endsWith (suffix s : jsstring) : bool :=
  startsWith (rev suffix) (rev s).

Definition setFile (f : option File) (err : option jsstring) (st : State)
  : State :=
  {| accessToken := accessToken st; datasets := datasets st;
     templates := templates st; pageLoading := pageLoading st;
     pageError := pageError st; isEditorOpen := isEditorOpen st;
     editingDataset := editingDataset st; name := name st;
     description := description st; file := f;
     isLoading := isLoading st; error := err |}.

(** [handleFileChange], on the first file of the input if there is one. *)
Definition handleFileChange (selectedFile : option File) (st : State)
  : State :=
  match selectedFile with
  | None => st
  | Some f =>
      if negb (endsWith (lit ".csv") (fileName f))
      then setFile None (Some (lit "File must be a CSV")) st
      else setFile (Some f) None st
  end.

(** The page's [handleCreate] ([None]) or [handleEdit] ([Some dataset])
    followed by the effect the dialog runs when it opens. *)
Definition onOpen (dataset : option EvaluationDataset.t) (st : State)
  : State :=
  {| accessToken := accessToken st; datasets := datasets st;
     templates := templates st; pageLoading := pageLoading st;
     pageError := pageError st; isEditorOpen := true;
     editingDataset := dataset;
     name := match dataset with
             | Some d => EvaluationDataset.name d
             | None => []
             end;
     description := match dataset with
                    | Some d =>
                        match EvaluationDataset.description d with
                        | Some (c :: t) => c :: t
                        | _ => []
                        end
                    | None => []
                    end;
     file := None;
     isLoading := isLoading st; error := None |}.

Definition setName (n : jsstring) (st : State) : State :=
  {| accessToken := accessToken st; datasets := datasets st;
     templates := templates st; pageLoading := pageLoading st;
     pageError := pageError st; isEditorOpen := isEditorOpen st;
     editingDataset := editingDataset st; name := n;
     description := description st; file := file st;
     isLoading := isLoading st; error := error st |}.

Definition setDescription (d : jsstring) (st : State) : State :=
  {| accessToken := accessToken st; datasets := datasets st;
     templates := templates st; pageLoading := pageLoading st;
     pageError := pageError st; isEditorOpen := isEditorOpen st;
     editingDataset := editingDataset st; name := name st;
     description := d; file := file st;
     isLoading := isLoading st; error := error st |}.

(** What the user can do in the open dialog before saving. *)
Inductive Edit : Type :=
| TypeName (n : jsstring)
| TypeDescription (d : jsstring)
| ChooseFile (selectedFile : option File).

Definition edit (st : State) (e : Edit) : State :=
  match e with
  | TypeName n => setName n st
  | TypeDescription d => setDescription d st
  | ChooseFile f => handleFileChange f st
  end.

(** The editor holds no file, or one whose name ends in [.csv]. *)
Definition csvOnly (st : State) : Prop :=
  match file st with
  | Some f => endsWith (lit ".csv") (fileName f) = true
  | None => True
  end.

(** The upload of a new dataset: a multipart POST to the datasets route
    with the file [f] under the name [n], and no [Content-Type] header. *)
Definition uploads (env : Api.Env) (n : jsstring) (f : File) (r : Request)
  : Prop :=
  verb r = POST
  /\ url r = Api.API_BASE env ++ lit "/evaluations/datasets"
  /\ (forall v, ~ In (lit "Content-Type", v) (headers r))
  /\ exists form,
       payload r = FormBody form
       /\ In (lit "name", FormText n) form
       /\ In (lit "file", FormFile f) form.

End DatasetEditor.

Module EvaluationRunsDialog.
Import JS Http.

Record State : Type := mkState {
  runs : list value;
  isLoading : bool;
  error : option jsstring
}.

(** [await Promise.all(promises)] for promises created in the order of
    the list: every call is started, the result is a rejection as soon as
    one of them rejects. *)
Fixpoint promiseAll {B} (calls : list (io B)) : io (list B) :=
  fun srv log =>
    match calls with
    | [] => (Normal [], log)
    | c :: calls' =>
        let '(r, log1) := c srv log in
        let '(rs, log2) := promiseAll calls' srv log1 in
        (match r, rs with
         | Normal x, Normal xs => Normal (x :: xs)
         | Throw e, _ => Throw e
         | _, Throw e => Throw e
         end, log2)
    end.

(** [allRuns.flat()] *)
Definition flat (l : list value) : list value :=
  flat_map (fun v => match v with VArr items => items | _ => [v] end) l.

(** [run.dataset_id === id] *)
Definition ofDataset (id : jsstring) (run : value) : completion bool :=
  d <- get run (lit "dataset_id") ;;
  Normal match d with
         | VStr s => str_eqb s id
         | _ => false
         end.

Section Runs.
(** [new Date(v).getTime()] for a value [v], by the engine. *)
Variable timeOfValue : value -> option Z.

(** The comparator of the runs, which are objects when it is called. *)
Definition byCreatedAtDesc (a b : value) : option Z :=
  JSDate.sub (timeOfValue (Notions.member b (lit "created_at")))
             (timeOfValue (Notions.member a (lit "created_at"))).

(** [loadRuns], with the props of the dialog: the dataset, the templates
    and the token. *)
Definition loadRuns (env : Api.Env) (dataset : option EvaluationDataset.t)
  (templates : list PromptTemplate.t) (accessToken : option jsstring)
  (st : State) : io State :=
  match dataset with
  | None => ret st
  | Some d =>
      if negb (Api.tokenTruthy accessToken) then ret st
      else
        let st := {| runs := runs st; isLoading := true; error := None |} in
        st' <~ tryCatch
                 (allRuns <~ promiseAll
                               (map (fun t =>
                                       tryCatch
                                         (ApiCalls.fetchTemplateEvaluations
                                            env (PromptTemplate.id t)
                                            accessToken)
                                         (fun _ => ret (VArr [])))
                                    templates) ;;
                  match TranscriptSearch.filterM
                          (ofDataset (EvaluationDataset.id d))
                          (flat allRuns) with
                  | Normal datasetRuns =>
                      ret {| runs := JSArray.sort byCreatedAtDesc datasetRuns;
                             isLoading := isLoading st; error := error st |}
                  | Throw e => throw e
                  end)
                 (fun e => ret {| runs := runs st; isLoading := isLoading st;
                                  error := Some (message e) |}) ;;
        ret {| runs := runs st'; isLoading := false; error := error st' |}
  end.

End Runs.
End EvaluationRunsDialog.

(** ** src/frontend/src/app/auth/AuthContext.tsx

    The cookies of [js-cookie] are a store of named cookies.  The access
    token the refresh route returns is whatever the JSON holds, so the
    token of the state is a value; [toText] is the engine's conversion of
    a value that is not a string to a string.  [setAuth] does not wait for
    the [fetchUser] it starts: the request goes out at once, and the model
    lets the call settle before the caller goes on. *)

Module AuthContext.
Import JS Http.

Record Cookie : Type := mkCookie {
  content : jsstring;
  expiresDays : Q;
  sameSite : jsstring;
  secure : bool
}.

Record State : Type := mkState {
  accessToken : value;
  email : option jsstring;
  user : value;
  isLoading : bool;
  cookies : list (jsstring * Cookie)
}.

Definition ACCESS_TOKEN_COOKIE : jsstring := lit "access_token".
Definition EMAIL_COOKIE : jsstring := lit "user_email".

(** [Cookies.remove(name)] *)
Definition cookieRemove (name : jsstring) (jar : list (jsstring * Cookie))
  : list (jsstring * Cookie) :=
  filter (fun entry => negb (str_eqb (fst entry) name)) jar.

(** [Cookies.set(name, value, attributes)] *)
Definition cookieSet (name : jsstring) (c : Cookie)
  (jar : list (jsstring * Cookie)) : list (jsstring * Cookie) :=
  cookieRemove name jar ++ [(name, c)].

(** [Cookies.get(name)] *)
Definition cookieGet (name : jsstring) (jar : list (jsstring * Cookie))
  : option jsstring :=
  match find (fun entry => str_eqb (fst entry) name) jar with
  | Some entry => Some (content (snd entry))
  | None => None
  end.

(** [isAuthenticated] *)
Definition isAuthenticated (st : State) : bool :=
  truthy (accessToken st)
  && match email st with Some (_ :: _) => true | _ => false end.

(** [clearAuth] *)
Definition clearAuth (st : State) : State :=
  {| accessToken := VNull; email := None; user := VNull;
     isLoading := isLoading st;
     cookies := cookieRemove EMAIL_COOKIE
                  (cookieRemove ACCESS_TOKEN_COOKIE (cookies st)) |}.

Definition setUser (u : value) (st : State) : State :=
  {| accessToken := accessToken st; email := email st; user := u;
     isLoading := isLoading st; cookies := cookies st |}.

Definition setIsLoading (b : bool) (st : State) : State :=
  {| accessToken := accessToken st; email := email st; user := user st;
     isLoading := b; cookies := cookies st |}.

Section Auth.
Variable toText : value -> jsstring.
(** [process.env.NODE_ENV === 'production'] *)
Variable production : bool.

(** A value in a template literal or a cookie. *)
Definition textOf (v : value) : jsstring :=
  match v with
  | VStr s => s
  | _ => toText v
  end.

(** [apiFetch(path, opts, token)] for a token that is any value. *)
Definition apiFetchAs (env : Api.Env) (path : jsstring) (opts : Api.Init)
  (token : value) : io Response :=
  let headers := [(lit "Content-Type", lit "application/json")] in
  let headers :=
    if truthy token
    then Api.setHeader (lit "Authorization") (lit "Bearer " ++ textOf token)
                       headers
    else headers in
  let url :=
    if startsWith (lit "http") path || startsWith (lit "/api") path
    then path
    else Api.API_BASE env ++ path in
  fetch {| url := url;
           verb := match Api.initMethod opts with
                   | Some m => m
                   | None => GET
                   end;
           headers := headers;
           payload := Api.initBody opts;
           credentials := lit "include" |}.

(** [fetchUser(token)]: the user data or [null], and the state. *)
Definition fetchUser (env : Api.Env) (token : value) (st : State)
  : io (value * State) :=
  tryCatch
    (response <~ apiFetchAs env (lit "/auth/me") Api.noInit token ;;
     if ok response
     then userData <~ readJson response ;;
          ret (userData, setUser userData st)
     else ret (VNull, st))
    (fun _ => ret (VNull, st)).

Definition accessCookie (token : value) : Cookie :=
  {| content := textOf token; expiresDays := 1 # 96;
     sameSite := lit "lax"; secure := production |}.

Definition emailCookie (userEmail : jsstring) : Cookie :=
  {| content := userEmail; expiresDays := 7;
     sameSite := lit "lax"; secure := production |}.

(** [setAuth(token, userEmail)] *)
Definition setAuth (env : Api.Env) (token : value) (userEmail : jsstring)
  (st : State) : io State :=
  let st :=
    {| accessToken := token; email := Some userEmail; user := user st;
       isLoading := isLoading st;
       cookies := cookieSet EMAIL_COOKIE (emailCookie userEmail)
                    (cookieSet ACCESS_TOKEN_COOKIE (accessCookie token)
                               (cookies st)) |} in
  settled <~ fetchUser env token st ;;
  ret (snd settled).

(** [refresh()]: whether it succeeded, and the state. *)
Definition refresh (env : Api.Env) (st : State) : io (bool * State) :=
  tryCatch
    (response <~ Api.apiFetch env (lit "/api/auth/refresh")
                   {| Api.initMethod := Some POST; Api.initBody := NoBody |}
                   None ;;
     if negb (ok response) then ret (false, clearAuth st)
     else
       data <~ readJson response ;;
       match get data (lit "access_token") with
       | Throw e => throw e
       | Normal access_token =>
           match email st with
           | Some (c :: e) =>
               st' <~ setAuth env access_token (c :: e) st ;;
               ret (true, st')
           | _ =>
               ret (true,
                    {| accessToken := access_token; email := email st;
                       user := user st; isLoading := isLoading st;
                       cookies := cookieSet ACCESS_TOKEN_COOKIE
                                    (accessCookie access_token)
                                    (cookies st) |})
           end
       end)
    (fun _ => ret (false, clearAuth st)).

(** [logout()] *)
Definition logout (env : Api.Env) (st : State) : io State :=
  _ <~ tryCatch
         (_ <~ Api.apiFetch env (lit "/api/auth/logout")
                 {| Api.initMethod := Some POST; Api.initBody := NoBody |}
                 None ;;
          ret tt)
         (fun _ => ret tt) ;;
  ret (clearAuth st).

(** The state of the provider when it mounts, with the cookies of the
    browser. *)
Definition initial (jar : list (jsstring * Cookie)) : State :=
  {| accessToken := VNull; email := None; user := VNull; isLoading := true;
     cookies := jar |}.

(** The effect of the provider when it mounts; [refresh] is the one of the
    first render. *)
Definition onMount (env : Api.Env) (jar : list (jsstring * Cookie))
  : io State :=
  let st := initial jar in
  match cookieGet ACCESS_TOKEN_COOKIE jar, cookieGet EMAIL_COOKIE jar with
  | Some (c :: storedToken), Some (c' :: storedEmail) =>
      let st :=
        {| accessToken := VStr (c :: storedToken);
           email := Some (c' :: storedEmail); user := user st;
           isLoading := isLoading st; cookies := cookies st |} in
      settled <~ fetchUser env (VStr (c :: storedToken)) st ;;
      ret (setIsLoading false (snd settled))
  | _, _ =>
      settled <~ refresh env st ;;
      ret (setIsLoading false (snd settled))
  end.

End Auth.
End AuthContext.

(** ** src/unnamed/part_006 (the user profile)

    [toUpperCase] is the engine's. *)

Module UserProfile.
Import JS.

(** [s.split(/\s+/)]: [cur] holds the part being read, reversed, and
    [inSeparator] tells whether the last unit read was white space. *)
Fixpoint splitOn (s cur : jsstring) (inSeparator : bool) : list jsstring :=
  match s with
  | [] => [rev cur]
  | c :: s' =>
      if isWhiteSpace c
      then if inSeparator then splitOn s' cur true
           else rev cur :: splitOn s' [] true
      else splitOn s' (c :: cur) false
  end.

Definition splitWhiteSpace (s : jsstring) : list jsstring :=
  splitOn s [] false.

(** [a + b] for two results of indexing a string, each a unit or
    [undefined]; the sum of two [undefined] is a number, which has no
    [toUpperCase]. *)
Definition plus (a b : option N) : completion jsstring :=
  match a, b with
  | Some x, Some y => Normal [x; y]
  | Some x, None => Normal (x :: lit "undefined")
  | None, Some y => Normal (lit "undefined" ++ [y])
  | None, None => Throw (TypeError (lit "toUpperCase is not a function"))
  end.

Section Initials.
Variable toUpperCase : jsstring -> jsstring.

(** [getUserInitials(fullName, email)] *)
Definition getUserInitials (fullName : option jsstring) (email : jsstring)
  : completion jsstring :=
  match fullName with
  | Some (c :: n) =>
      let fullName := c :: n in
      match trim fullName with
      | _ :: _ =>
          let parts := splitWhiteSpace (trim fullName) in
          if (2 <=? List.length parts)%nat
          then s <- plus (hd_error (nth 0 parts []))
                         (hd_error (last parts [])) ;;
               Normal (toUpperCase s)
          else Normal (toUpperCase (firstn 2 fullName))
      | [] => Normal (toUpperCase (firstn 2 email))
      end
  | _ => Normal (toUpperCase (firstn 2 email))
  end.

End Initials.

(** [getDisplayName(fullName, email)] *)
Definition getDisplayName (fullName : option jsstring) (email : jsstring)
  : jsstring :=
  match fullName with
  | Some (c :: n) =>
      match trim (c :: n) with
      | _ :: _ => c :: n
      | [] => email
      end
  | _ => email
  end.

End UserProfile.

(* ================================================================== *)
(** * Part II.  Properties                                              *)
(* ================================================================== *)

(** ** Strings *)

Section StringFacts.
Import JS.

Lemma str_eqb_eq (a b : jsstring) : str_eqb a b = true <-> a = b.
Proof.
  revert b; induction a as [|x a IH]; intros [|y b]; simpl; split;
    try congruence; try reflexivity.
  - intros H. apply andb_prop in H as [H1 H2].
    apply N.eqb_eq in H1. apply IH in H2. congruence.
  - intros H. injection H as -> ->.
    rewrite N.eqb_refl. simpl. now apply IH.
Qed.

Lemma str_eqb_refl (a : jsstring) : str_eqb a a = true.
Proof. now apply str_eqb_eq. Qed.

End StringFacts.

(** ** The composite score *)

Section Composite.
Import AssessmentScores.

Lemma mean_dimensionScores (s : AssessmentScores.t) :
  Spec.mean (Spec.dimensionScores s)
  == inject_Z (situation s + problem s + implication s + need_payoff s
               + flow s + tone s + engagement s) / 7.
Proof.
  unfold Spec.mean, Spec.dimensionScores. simpl fold_right.
  simpl List.length.
  replace (situation s + (problem s + (implication s + (need_payoff s
           + (flow s + (tone s + (engagement s + 0)))))))%Z
    with (situation s + problem s + implication s + need_payoff s
          + flow s + tone s + engagement s)%Z by ring.
  reflexivity.
Qed.

(** C1.  Each of the three composite-score functions of the frontend
    returns the arithmetic mean of the seven dimension scores, and on the
    score map of the end-to-end scenario (4, 3, 4, 3, 4, 4, 3) that mean is
    25/7, which lies between 3.57 and 3.58. *)
Theorem composite_score_is_mean :
  (forall s : AssessmentScores.t,
      TranscriptsTable.calculateCompositeScore s
        == Spec.mean (Spec.dimensionScores s)
      /\ AssessmentHeader.calculateCompositeScore s
        == Spec.mean (Spec.dimensionScores s)
      /\ UploadScore.calculateAverageScore s
        == Spec.mean (Spec.dimensionScores s))
  /\ TranscriptsTable.calculateCompositeScore Spec.scenarioScores == 25 # 7
  /\ AssessmentHeader.calculateCompositeScore Spec.scenarioScores == 25 # 7
  /\ UploadScore.calculateAverageScore Spec.scenarioScores == 25 # 7
  /\ 357 # 100 < 25 # 7 < 358 # 100.
Proof.
  split.
  - intros s. rewrite mean_dimensionScores.
    unfold TranscriptsTable.calculateCompositeScore,
      AssessmentHeader.calculateCompositeScore,
      UploadScore.calculateAverageScore.
    repeat split; reflexivity.
  - repeat split; reflexivity.
Qed.

End Composite.

(** ** The coaching-queue count *)

Section QueueCount.
Import RepresentativesPage.

Lemma sameRep_spec (rid : option JS.jsstring) (id : JS.jsstring) :
  sameRep rid id = true <-> rid = Some id.
Proof.
  destruct rid as [r|]; simpl.
  - rewrite str_eqb_eq. split; congruence.
  - split; congruence.
Qed.

Lemma Qltb_spec (a b : Q) : Qltb a b = true <-> a < b.
Proof.
  unfold Qltb. rewrite negb_true_iff.
  destruct (Qle_bool b a) eqn:E.
  - apply Qle_bool_iff in E. split; [discriminate|].
    intros H. exfalso. now apply (Qlt_not_le a b).
  - split; [intros _|reflexivity].
    apply Qnot_le_lt. intros H. apply Qle_bool_iff in H. congruence.
Qed.

Lemma repAssessments_attached transcripts rep a :
  existsb (fun t => Z.eqb (Transcript.id t) (Assessment.transcript_id a))
          (repTranscriptsOf transcripts rep) = true
  <-> Spec.attached transcripts rep a.
Proof.
  unfold Spec.attached, repTranscriptsOf. rewrite existsb_exists. split.
  - intros (t & Hin & Hid). apply filter_In in Hin as [Hin Hrep].
    exists t. repeat split; trivial.
    + now apply sameRep_spec.
    + now apply Z.eqb_eq.
  - intros (t & Hin & Hrep & Hid). exists t. split.
    + apply filter_In. split; trivial. now apply sameRep_spec.
    + now apply Z.eqb_eq.
Qed.

Lemma filter_filter {A} (f g : A -> bool) (l : list A) :
  filter f (filter g l) = filter (fun x => g x && f x) l.
Proof.
  induction l as [|x l IH]; simpl; trivial.
  destruct (g x); simpl; [destruct (f x)|]; now rewrite IH.
Qed.

Lemma queueCount_aggregateRow getTime toISOString transcripts assessments rep :
  RepresentativeRow.queueCount
    (aggregateRow getTime toISOString transcripts assessments rep)
  = List.length
      (filter (fun a =>
                 existsb (fun t => Z.eqb (Transcript.id t)
                                         (Assessment.transcript_id a))
                         (repTranscriptsOf transcripts rep)
                 && Qltb (calculateCompositeScore (Assessment.scores a))
                         QUEUE_THRESHOLD)
              assessments).
Proof.
  unfold aggregateRow. simpl. unfold repAssessmentsOf.
  now rewrite filter_filter.
Qed.

(** C9.  For every representative, the queue count of its row in the
    representatives table is the number of assessments, among all the
    assessments the page loaded, that are attached to one of the
    representative's transcripts and whose mean dimension score is strictly
    below 3; each assessment counts, whatever other assessments its
    transcript has. *)
Theorem queueCount_counts_every_low_assessment
  (getTime : JSDate.parser) (toISOString : Z -> JS.jsstring)
  (representatives : list Representative.t)
  (transcripts : list Transcript.t) (assessments : list Assessment.t)
  (low : Representative.t -> Assessment.t -> bool)
  (Hlow : forall rep a, low rep a = true <->
            Spec.attached transcripts rep a
            /\ Spec.mean (Spec.dimensionScores (Assessment.scores a)) < 3) :
  map RepresentativeRow.queueCount
      (aggregatedData getTime toISOString
                      representatives transcripts assessments)
  = map (fun rep => List.length (filter (low rep) assessments))
        representatives.
Proof.
  unfold aggregatedData. rewrite map_map. apply map_ext. intros rep.
  rewrite queueCount_aggregateRow. f_equal. apply filter_ext.
  intros a. apply eq_true_iff_eq. rewrite Hlow, andb_true_iff.
  rewrite repAssessments_attached, Qltb_spec.
  unfold calculateCompositeScore, QUEUE_THRESHOLD.
  rewrite mean_dimensionScores. reflexivity.
Qed.

End QueueCount.

(** ** Sorting and the displayed assessment *)

Section SortFacts.
Context {A : Type}.
Variable cmp : A -> A -> option Z.
Local Open Scope Z_scope.

Lemma insert_perm (x : A) (l : list A) :
  Permutation (JSArray.insert cmp x l) (x :: l).
Proof.
  induction l as [|z l IH]; simpl; [reflexivity|].
  destruct (JSArray.sortCompare cmp x z <=? 0); [reflexivity|].
  rewrite IH. apply perm_swap.
Qed.

Lemma sort_perm (l : list A) : Permutation (JSArray.sort cmp l) l.
Proof.
  induction l as [|x l IH]; simpl; [reflexivity|].
  rewrite insert_perm. now constructor.
Qed.

End SortFacts.

Section DisplayedAssessment.
Import AssessmentDetailPage.
Variable getTime : JSDate.parser.
Local Open Scope Z_scope.

Lemma validDates_time (l : list Assessment.t) (a : Assessment.t) :
  Spec.validDates getTime l -> In a l ->
  exists t, Spec.createdAt getTime a = Some t.
Proof.
  intros Hvalid Hin. specialize (Hvalid a Hin).
  destruct (Spec.createdAt getTime a); [eauto|congruence].
Qed.

Lemma sortCompare_valid (a b : Assessment.t) (ta tb : Z) :
  Spec.createdAt getTime a = Some ta ->
  Spec.createdAt getTime b = Some tb ->
  JSArray.sortCompare (byCreatedAtDesc getTime) a b = tb - ta.
Proof.
  unfold JSArray.sortCompare, byCreatedAtDesc, Spec.createdAt.
  now intros -> ->.
Qed.

Lemma insert_descending (x : Assessment.t) (l : list Assessment.t) :
  Spec.validDates getTime (x :: l) ->
  StronglySorted (Spec.notEarlier getTime) l ->
  StronglySorted (Spec.notEarlier getTime)
                 (JSArray.insert (byCreatedAtDesc getTime) x l).
Proof.
  intros Hvalid Hsorted.
  destruct (validDates_time _ x Hvalid (or_introl eq_refl)) as [tx Hx].
  induction Hsorted as [|y l Hs IH Hall]; simpl.
  - constructor; constructor.
  - destruct (validDates_time _ y Hvalid) as [ty Hy]; [simpl; auto|].
    rewrite (sortCompare_valid _ _ _ _ Hx Hy).
    destruct (ty - tx <=? 0) eqn:E.
    + apply Z.leb_le in E. constructor; [now constructor|].
      assert (Hxy : Spec.notEarlier getTime x y).
      { exists tx, ty. repeat split; trivial. lia. }
      constructor; trivial.
      rewrite Forall_forall in *. intros b Hb.
      destruct (Hall b Hb) as (ty' & tb & Hy' & Hb' & Hle).
      exists tx, tb. repeat split; trivial.
      assert (ty' = ty) by congruence. lia.
    + apply Z.leb_gt in E. constructor.
      * apply IH. intros a [<-|Ha]; apply Hvalid; simpl; auto.
      * rewrite Forall_forall in *. intros b Hb.
        apply (Permutation_in _ (insert_perm (byCreatedAtDesc getTime) x l)) in Hb.
        destruct Hb as [<-|Hb]; [|now apply Hall].
        exists ty, tx. repeat split; trivial. lia.
Qed.

Lemma sort_descending (l : list Assessment.t) :
  Spec.validDates getTime l ->
  StronglySorted (Spec.notEarlier getTime)
                 (JSArray.sort (byCreatedAtDesc getTime) l).
Proof.
  induction l as [|x l IH]; intros Hvalid; simpl; [constructor|].
  apply insert_descending.
  - intros a [<-|Ha]; [apply Hvalid; now left|].
    apply Hvalid. right.
    now apply (Permutation_in _ (sort_perm (byCreatedAtDesc getTime) l)).
  - apply IH. intros a Ha. apply Hvalid. now right.
Qed.

(** C8.  When the list of assessments returned for the transcript is not
    empty (and every [created_at] is a valid date), the page displays the
    first element of the list sorted by [created_at] descending, and that
    element has the maximum [created_at] among all the assessments
    returned: it is the latest one. *)
Theorem displayed_assessment_is_latest (assessments : list Assessment.t)
  (Hnonempty : assessments <> [])
  (Hvalid : Spec.validDates getTime assessments) :
  exists sorted a,
    Permutation sorted assessments
    /\ StronglySorted (Spec.notEarlier getTime) sorted
    /\ nth_error sorted 0 = Some a
    /\ displayedAssessment getTime assessments = Some a
    /\ Spec.latestOf getTime assessments a.
Proof.
  set (sorted := JSArray.sort (byCreatedAtDesc getTime) assessments).
  assert (Hperm : Permutation sorted assessments) by apply sort_perm.
  assert (Hdesc : StronglySorted (Spec.notEarlier getTime) sorted)
    by now apply sort_descending.
  destruct sorted as [|a rest] eqn:Es.
  { apply Permutation_nil in Hperm. congruence. }
  exists (a :: rest), a. repeat split; trivial.
  - unfold displayedAssessment.
    destruct assessments as [|x l]; [congruence|].
    simpl List.length. simpl Nat.ltb. cbv iota. fold sorted.
    now rewrite Es.
  - apply (Permutation_in _ Hperm). now left.
  - destruct (validDates_time _ a Hvalid) as [ta Ha].
    { apply (Permutation_in _ Hperm). now left. }
    exists ta. split; trivial. intros b Hb.
    apply (Permutation_in _ (Permutation_sym Hperm)) in Hb.
    destruct Hb as [<-|Hb]; [exists ta; split; [trivial|lia]|].
    apply StronglySorted_inv in Hdesc as [_ Hall].
    rewrite Forall_forall in Hall.
    destruct (Hall b Hb) as (ta' & tb & Ha' & Hb' & Hle).
    exists tb. split; trivial. assert (ta' = ta) by congruence. lia.
Qed.

End DisplayedAssessment.

(** ** Linear correlation *)

Section Pearson.
Import Metrics.

Lemma products_self (l : list Z) :
  sumZ (products l l) = fold_right Z.add 0%Z (map (fun x => x * x)%Z l).
Proof.
  unfold sumZ. induction l as [|x l IH]; simpl; [reflexivity|]. now rewrite IH.
Qed.

(** Sum of squared deviations from any centre [m]. *)
Lemma sqdev_expand (m : Q) (l : list Z) :
  Spec.sqdev m l
  == inject_Z (sumZ (products l l)) - (2 # 1) * m * inject_Z (sumZ l)
     + inject_Z (count l) * m * m.
Proof.
  unfold Spec.sqdev, count, sumZ. induction l as [|x l IH].
  - simpl. ring.
  - cbn [map fold_right products List.length]. rewrite IH.
    rewrite Nat2Z.inj_succ. unfold Z.succ.
    rewrite !inject_Z_plus, inject_Z_mult. ring.
Qed.

Lemma count_pos (l : list Z) : l <> [] -> (0 < count l)%Z.
Proof. destruct l; [congruence|]. intros _. unfold count. simpl. lia. Qed.

(** The scaled variance of the engine is the variance times the square of
    the length. *)
Lemma scaledVariance_variance (l : list Z) :
  l <> [] ->
  inject_Z (scaledVariance l)
  == inject_Z (count l) * inject_Z (count l) * Spec.variance l.
Proof.
  intros Hne. pose proof (count_pos _ Hne) as Hpos.
  assert (Hn : ~ inject_Z (count l) == 0).
  { intros H. apply (Qeq_bool_iff _ _) in H. revert H.
    unfold Qeq_bool, inject_Z. simpl. rewrite Z.mul_1_r.
    intros H. apply Z.eqb_eq in H. lia. }
  unfold Spec.variance.
  rewrite sqdev_expand. unfold Spec.mean. fold (sumZ l). fold (count l).
  unfold scaledVariance, scaledCovariance.
  unfold Zminus. rewrite inject_Z_plus, inject_Z_opp, !inject_Z_mult.
  field. exact Hn.
Qed.

Lemma zero_variance_scaled (l : list Z) :
  l <> [] -> Spec.variance l == 0 -> scaledVariance l = 0%Z.
Proof.
  intros Hne H0. pose proof (scaledVariance_variance _ Hne) as H.
  rewrite H0, Qmult_0_r in H.
  unfold Qeq, inject_Z in H. simpl in H. lia.
Qed.

Lemma sqdev_nonneg (m : Q) (l : list Z) : 0 <= Spec.sqdev m l.
Proof.
  unfold Spec.sqdev. induction l as [|x l IH]; simpl; [apply Qle_refl|].
  apply (Qle_trans _ (0 + 0)); [apply Qle_refl|].
  apply Qplus_le_compat; trivial.
  set (d := inject_Z x - m).
  destruct (Qlt_le_dec d 0) as [Hneg|Hpos].
  - setoid_replace (d * d) with ((- d) * (- d)) by ring.
    apply Qmult_le_0_compat; apply (Qopp_le_compat d 0), Qlt_le_weak, Hneg.
  - now apply Qmult_le_0_compat.
Qed.

Lemma scaledVariance_nonneg (l : list Z) : (0 <= scaledVariance l)%Z.
Proof.
  destruct l as [|x l]; [unfold scaledVariance, scaledCovariance; simpl; lia|].
  assert (Hne : x :: l <> []) by congruence.
  pose proof (scaledVariance_variance _ Hne) as H.
  pose proof (count_pos _ Hne) as Hpos.
  assert (H0 : 0 <= inject_Z (scaledVariance (x :: l))).
  { rewrite H. unfold Spec.variance. fold (count (x :: l)).
    apply Qmult_le_0_compat.
    - apply Qmult_le_0_compat; unfold Qle, inject_Z; simpl; lia.
    - apply Qle_shift_div_l; [unfold Qlt, inject_Z; simpl; lia|].
      rewrite Qmult_0_l. apply sqdev_nonneg. }
  unfold Qle, inject_Z in H0. simpl in H0. lia.
Qed.

(** Outside the guard the divisor of the coefficient is positive. *)
Lemma pearson_divisor_positive (predictions truths : list Z) :
  scaledVariance predictions <> 0%Z -> scaledVariance truths <> 0%Z ->
  (0 < sqrt (IZR (scaledVariance predictions * scaledVariance truths)))%R.
Proof.
  intros Hp Ht.
  pose proof (scaledVariance_nonneg predictions).
  pose proof (scaledVariance_nonneg truths).
  apply sqrt_lt_R0. apply IZR_lt. nia.
Qed.

Lemma divide_finite (a b : R) : b <> 0%R -> divide a b = Finite (a / b).
Proof. intros Hb. unfold divide. destruct (Req_dec_T b 0); tauto. Qed.

Lemma divide_zero_by_zero : divide 0 0 = NaN.
Proof.
  unfold divide. destruct (Req_dec_T 0 0) as [_|H]; [reflexivity|].
  now contradiction H.
Qed.

(** The coefficient of the scale with itself is 1, with its reverse -1. *)
Lemma pearson_identity_and_reverse :
  pearson_r [1; 2; 3; 4; 5]%Z [1; 2; 3; 4; 5]%Z = Metric (Finite 1)
  /\ pearson_r [1; 2; 3; 4; 5]%Z [5; 4; 3; 2; 1]%Z = Metric (Finite (-1)).
Proof.
  assert (Hs : sqrt 2500 = 50%R).
  { replace 2500%R with (50 * 50)%R by lra. apply sqrt_square. lra. }
  unfold pearson_r, coefficient. simpl.
  change (scaledCovariance [1; 2; 3; 4; 5] [1; 2; 3; 4; 5])%Z with 50%Z.
  change (scaledCovariance [1; 2; 3; 4; 5] [5; 4; 3; 2; 1])%Z with (-50)%Z.
  rewrite Hs, !divide_finite by lra.
  split; do 2 f_equal; lra.
Qed.

(** An array without variance is constant. *)
Lemma sqdev_zero (m : Q) (l : list Z) :
  Spec.sqdev m l == 0 -> Forall (fun x => inject_Z x == m) l.
Proof.
  unfold Spec.sqdev. induction l as [|x l IH]; [constructor|].
  cbn [map fold_right]. intros H.
  pose proof (sqdev_nonneg m l) as Hl. unfold Spec.sqdev in Hl.
  set (d := inject_Z x - m) in *.
  assert (Hd : 0 <= d * d).
  { destruct (Qlt_le_dec d 0) as [Hneg|Hpos].
    - setoid_replace (d * d) with ((- d) * (- d)) by ring.
      apply Qmult_le_0_compat; apply (Qopp_le_compat d 0), Qlt_le_weak, Hneg.
    - now apply Qmult_le_0_compat. }
  assert (Hdd : d * d == 0) by Lqa.lra.
  assert (Hrest : fold_right Qplus 0
                    (map (fun x => (inject_Z x - m) * (inject_Z x - m)) l)
                  == 0) by Lqa.lra.
  constructor; [|exact (IH Hrest)].
  apply Qmult_integral in Hdd. subst d. destruct Hdd; Lqa.lra.
Qed.

Lemma zero_variance_constant (l : list Z) :
  l <> [] -> Spec.variance l == 0 ->
  Forall (fun x => inject_Z x == Spec.mean l) l.
Proof.
  intros Hne H. apply sqdev_zero. unfold Spec.variance in H.
  pose proof (count_pos _ Hne) as Hpos. unfold count in Hpos.
  assert (Hn : ~ inject_Z (Z.of_nat (List.length l)) == 0).
  { unfold Qeq, inject_Z. simpl. lia. }
  apply (Qmult_inj_r _ _ (/ inject_Z (Z.of_nat (List.length l)))).
  - intros H0. apply Hn.
    rewrite <- (Qinv_involutive (inject_Z (Z.of_nat (List.length l)))).
    rewrite H0. reflexivity.
  - rewrite Qmult_0_l. exact H.
Qed.

(** The covariance of a constant array with any array is zero. *)
Lemma constant_sums (m : Q) (xs : list Z) :
  Forall (fun x => inject_Z x == m) xs ->
  forall ys, List.length xs = List.length ys ->
  inject_Z (sumZ (products xs ys)) == m * inject_Z (sumZ ys)
  /\ inject_Z (sumZ xs) == m * inject_Z (count xs).
Proof.
  unfold sumZ, count. induction 1 as [|x xs Hx Hxs IH]; intros ys Hlen.
  - destruct ys; [|discriminate]. simpl. split; ring.
  - destruct ys as [|y ys]; [discriminate|].
    injection Hlen as Hlen. destruct (IH ys Hlen) as [IH1 IH2].
    cbn [products fold_right List.length].
    rewrite Nat2Z.inj_succ. unfold Z.succ.
    rewrite !inject_Z_plus, inject_Z_mult, IH1, IH2, Hx.
    split; ring.
Qed.

Lemma products_comm (xs ys : list Z) : products xs ys = products ys xs.
Proof.
  revert ys. induction xs as [|x xs IH]; intros [|y ys]; simpl; trivial.
  now rewrite IH, Z.mul_comm.
Qed.

Lemma scaledCovariance_comm (xs ys : list Z) :
  List.length xs = List.length ys ->
  scaledCovariance xs ys = scaledCovariance ys xs.
Proof.
  intros Hlen. unfold scaledCovariance, count.
  rewrite Hlen, (products_comm xs ys). ring.
Qed.

Lemma constant_covariance (xs ys : list Z) :
  xs <> [] -> List.length xs = List.length ys ->
  Spec.variance xs == 0 -> scaledCovariance xs ys = 0%Z.
Proof.
  intros Hne Hlen H0.
  destruct (constant_sums _ _ (zero_variance_constant _ Hne H0) ys Hlen)
    as [H1 H2].
  assert (H : inject_Z (scaledCovariance xs ys) == 0).
  { unfold scaledCovariance. unfold Zminus.
    rewrite inject_Z_plus, inject_Z_opp, !inject_Z_mult, H1, H2. ring. }
  unfold Qeq, inject_Z in H. simpl in H. lia.
Qed.

(** On every valid input the engine yields a number. *)
Lemma pearson_is_a_number (predictions truths : list Z) :
  List.length predictions = List.length truths -> predictions <> [] ->
  exists r, pearson_r predictions truths = Metric (Finite r).
Proof.
  intros Hlen Hne. unfold pearson_r.
  rewrite Hlen, Nat.eqb_refl. cbn [negb orb].
  destruct truths as [|y ys];
    [destruct predictions; [congruence|discriminate]|].
  cbn [List.length Nat.eqb].
  destruct (scaledVariance predictions =? 0)%Z eqn:Ep;
    [eexists; reflexivity|].
  destruct (scaledVariance (y :: ys) =? 0)%Z eqn:Et;
    [eexists; reflexivity|].
  cbn [orb]. unfold coefficient.
  apply Z.eqb_neq in Ep. apply Z.eqb_neq in Et.
  pose proof (pearson_divisor_positive _ _ Ep Et) as Hpos.
  rewrite divide_finite by lra. eexists. reflexivity.
Qed.

(** C7.  For every pair of non-empty arrays of equal length, if the
    predictions or the ground truths have zero variance, the Pearson
    correlation of the engine is the number 0.  On every such input the
    standard coefficient itself is zero divided by zero, which is not a
    number: the engine does not perform that division. *)
Theorem pearson_zero_variance_is_zero (predictions truths : list Z)
  (Hlen : List.length predictions = List.length truths)
  (Hne : predictions <> [])
  (Hzero : Spec.variance predictions == 0 \/ Spec.variance truths == 0) :
  pearson_r predictions truths = Metric (Finite 0)
  /\ coefficient predictions truths = NaN.
Proof.
  assert (Hne' : truths <> []).
  { destruct truths; [|congruence]. destruct predictions; [congruence|].
    discriminate. }
  split.
  - unfold pearson_r.
    rewrite Hlen, Nat.eqb_refl. simpl negb.
    destruct truths as [|y ys]; [congruence|].
    cbn [List.length Nat.eqb orb].
    destruct Hzero as [H|H]; apply zero_variance_scaled in H; trivial;
      rewrite H; simpl; [reflexivity|].
    now rewrite orb_true_r.
  - unfold coefficient.
    assert (Hcov : scaledCovariance predictions truths = 0%Z).
    { destruct Hzero as [H|H].
      - now apply constant_covariance.
      - rewrite scaledCovariance_comm by exact Hlen.
        now apply constant_covariance. }
    assert (Hvar : (scaledVariance predictions * scaledVariance truths = 0)%Z).
    { destruct Hzero as [H|H]; apply zero_variance_scaled in H; trivial;
        rewrite H; lia. }
    rewrite Hcov, Hvar, sqrt_0. apply divide_zero_by_zero.
Qed.

End Pearson.

(** ** The scoring request *)

Section ScoringRequest.
Import JS Http UploadTranscriptDialog.

Lemma apiFetch_request env path opts token srv log :
  exists r, Api.apiFetch env path opts token srv log
            = (srv log r, log ++ [r])
            /\ payload r = Api.initBody opts
            /\ verb r = match Api.initMethod opts with
                        | Some m => m
                        | None => GET
                        end
            /\ url r = (if startsWith (lit "http") path
                           || startsWith (lit "/api") path
                        then path else Api.API_BASE env ++ path).
Proof.
  unfold Api.apiFetch, fetch. eexists. split; [reflexivity|].
  simpl. auto.
Qed.

(** What [assessTranscript] does: one POST to [/assess] carrying the
    data, and on an [ok] response the JSON body of that response. *)
Lemma assessTranscript_run env data token srv log :
  exists r,
    verb r = POST
    /\ url r = Api.API_BASE env ++ lit "/assess"
    /\ payload r = JsonBody (JSON.stringify data)
    /\ Api.assessTranscript env data token srv log
       = (match srv log r with
          | Normal response =>
              if ok response then json response
              else Throw (Error (lit "Failed to assess transcript: "
                                 ++ Api.textOrStatus response))
          | Throw e => Throw e
          end,
          log ++ [r]).
Proof.
  unfold Api.assessTranscript, iobind.
  destruct (apiFetch_request env (lit "/assess")
              {| Api.initMethod := Some POST;
                 Api.initBody := JsonBody (JSON.stringify data) |}
              token srv log) as (r & Hrun & Hp & Hv & Hu).
  exists r. rewrite Hrun. repeat split; trivial.
  destruct (srv log r) as [response|e]; [|reflexivity].
  destruct (ok response); reflexivity.
Qed.

Lemma requestData_shape st transcript :
  JSON.stringify (requestData st transcript) = requestData st transcript
  /\ TS.keys (requestData st transcript) = [lit "transcript"; lit "metadata"]
  /\ TS.has_type TS.AssessRequest (requestData st transcript) = true
  /\ TS.field (requestData st transcript) "transcript"
     = Some (VStr transcript)
  /\ TS.field (requestData st transcript) "transcript_text" = None
  /\ TS.field (requestData st transcript) "tenant_id" = None.
Proof.
  unfold requestData, metadataOf.
  destruct (trim (buyerId st)); repeat split; reflexivity.
Qed.

(** What a value of type [AssessResponse] consists of. *)
Lemma assessResponse_fields (v : value) :
  TS.has_type TS.AssessResponse v = true ->
  exists id scores coaching,
    TS.field v "assessment_id" = Some id
    /\ TS.has_type TS.TNumber id = true
    /\ TS.field v "scores" = Some scores
    /\ TS.has_type TS.AssessmentScores scores = true
    /\ TS.field v "coaching" = Some coaching
    /\ TS.has_type TS.AssessmentCoaching coaching = true.
Proof.
  destruct v as [| | | | | |props]; try discriminate.
  unfold TS.AssessResponse, TS.field.
  cbn [TS.has_type TS.req fst snd].
  destruct (lookup (lit "assessment_id") props) as [id|]; [|discriminate].
  destruct (lookup (lit "scores") props) as [scores|];
    [|rewrite andb_false_r; discriminate].
  destruct (lookup (lit "coaching") props) as [coaching|];
    [|rewrite !andb_false_r; discriminate].
  rewrite !orb_false_r, andb_true_r. intros H.
  apply andb_prop in H as [H1 H]. apply andb_prop in H as [H2 H3].
  exists id, scores, coaching. repeat split; trivial.
Qed.

(** The one request of [handleSubmit], when it sends one: the file is
    selected and not blank, the token is not empty, and the request is
    the POST of the dialog's data with that token. *)
Lemma handleSubmit_request env st srv r :
  In r (requests (handleSubmit env st) srv) ->
  exists f token,
    file st = Some f /\ accessToken st = Some token /\ token <> []
    /\ trim (fileText f) <> []
    /\ requests (handleSubmit env st) srv = [r]
    /\ r = {| url := Api.API_BASE env ++ lit "/assess";
              verb := POST;
              headers := [(lit "Content-Type", lit "application/json");
                          (lit "Authorization", lit "Bearer " ++ token)];
              payload :=
                JsonBody (requestData (setState uploading (setError None st))
                                      (fileText f));
              credentials := lit "include" |}.
Proof.
  unfold requests, run, handleSubmit.
  cbn [file setError accessToken].
  destruct (file st) as [f|]; [|intros []].
  destruct (accessToken st) as [[|c token]|] eqn:Etoken;
    cbn [Api.tokenTruthy negb]; try (intros []).
  unfold tryCatch.
  destruct (trim (fileText f)) as [|x t] eqn:Et; [intros []|].
  unfold iobind, Api.assessTranscript, iobind, Api.apiFetch, fetch.
  cbn [accessToken setState setError Api.tokenTruthy Api.initMethod
       Api.initBody].
  rewrite Etoken.
  rewrite (proj1 (requestData_shape _ _)).
  intros Hin.
  exists f, (c :: token).
  split; [reflexivity|]. split; [reflexivity|]. split; [discriminate|].
  split; [rewrite Et; discriminate|].
  revert Hin.
  destruct (srv [] _) as [response|e];
    [destruct (ok response); [unfold readJson; destruct (json response)|]|];
    cbn; (intros [<-|[]]; split; reflexivity).
Qed.




End ScoringRequest.

(** ** Request logs of asynchronous handlers *)

Section Emits.
Import JS Http HttpLog.

Lemma emits_ret {A} P (a : A) : emits P (ret a).
Proof. intros srv log. exists []. now rewrite app_nil_r. Qed.

Lemma emits_throw {A} P e : emits P (@throw A e).
Proof. intros srv log. exists []. now rewrite app_nil_r. Qed.

Lemma emits_readJson P r : emits P (readJson r).
Proof. intros srv log. exists []. now rewrite app_nil_r. Qed.

Lemma emits_fetch (P : Request -> Prop) r : P r -> emits P (fetch r).
Proof. intros H srv log. exists [r]. split; [reflexivity|]. now constructor. Qed.

Lemma emits_bind {A B} P (c : io A) (k : A -> io B) :
  emits P c -> (forall a, emits P (k a)) -> emits P (iobind c k).
Proof.
  intros Hc Hk srv log. unfold iobind.
  destruct (Hc srv log) as (n1 & E1 & F1).
  destruct (c srv log) as [[a|e] log1]; simpl in E1; subst log1.
  - destruct (Hk a srv (log ++ n1)) as (n2 & E2 & F2).
    exists (n1 ++ n2). rewrite E2, app_assoc. split; trivial.
    now apply Forall_app.
  - exists n1. now split.
Qed.

Lemma emits_tryCatch {A} P (c : io A) (h : error -> io A) :
  emits P c -> (forall e, emits P (h e)) -> emits P (tryCatch c h).
Proof.
  intros Hc Hh srv log. unfold tryCatch.
  destruct (Hc srv log) as (n1 & E1 & F1).
  destruct (c srv log) as [[a|e] log1]; simpl in E1; subst log1.
  - exists n1. now split.
  - destruct (Hh e srv (log ++ n1)) as (n2 & E2 & F2).
    exists (n1 ++ n2). rewrite E2, app_assoc. split; trivial.
    now apply Forall_app.
Qed.

Lemma emits_promiseAll2 {A B} P (a : io A) (b : io B) :
  emits P a -> emits P b -> emits P (promiseAll2 a b).
Proof.
  intros Ha Hb srv log. unfold promiseAll2.
  destruct (Ha srv log) as (n1 & E1 & F1).
  destruct (a srv log) as [ra log1]; simpl in E1; subst log1.
  destruct (Hb srv (log ++ n1)) as (n2 & E2 & F2).
  destruct (b srv (log ++ n1)) as [rb log2]; simpl in E2; subst log2.
  exists (n1 ++ n2). split; [|now apply Forall_app].
  rewrite app_assoc. destruct ra, rb; reflexivity.
Qed.

Lemma emits_if {A} P (b : bool) (c1 c2 : io A) :
  emits P c1 -> emits P c2 -> emits P (if b then c1 else c2).
Proof. now destruct b. Qed.

Lemma emits_weaken {A} (P Q : Request -> Prop) (c : io A) :
  (forall r, P r -> Q r) -> emits P c -> emits Q c.
Proof.
  intros HPQ Hc srv log. destruct (Hc srv log) as (n & E & F).
  exists n. split; trivial. revert F. apply Forall_impl. exact HPQ.
Qed.

Lemma emits_requests {A} P (c : io A) srv r :
  emits P c -> In r (requests c srv) -> P r.
Proof.
  intros Hc Hin. unfold requests, run in Hin.
  destruct (Hc srv []) as (n & E & F). rewrite E in Hin. simpl in Hin.
  rewrite Forall_forall in F. now apply F.
Qed.

Lemma emits_apiFetch P env path opts token :
  (forall r, verb r = match Api.initMethod opts with
                      | Some m => m
                      | None => GET
                      end ->
             payload r = Api.initBody opts ->
             url r = (if startsWith (lit "http") path
                         || startsWith (lit "/api") path
                      then path else Api.API_BASE env ++ path) ->
             P r) ->
  emits P (Api.apiFetch env path opts token).
Proof.
  intros H. unfold Api.apiFetch. apply emits_fetch. now apply H.
Qed.

Lemma emits_jsonOrThrow P r : emits P (Api.jsonOrThrow r).
Proof.
  unfold Api.jsonOrThrow. apply emits_if; [apply emits_readJson|apply emits_throw].
Qed.

Lemma emits_fetchPromptTemplates P env token :
  (forall r, isRead r -> P r) ->
  emits P (Api.fetchPromptTemplates env token).
Proof.
  intros H. unfold Api.fetchPromptTemplates. apply emits_bind.
  - apply emits_apiFetch. intros r Hv Hp _. apply H. now split.
  - intros a. apply emits_if; [apply emits_readJson|apply emits_throw].
Qed.

Lemma emits_fetchPromptTemplateDefaults P env token :
  (forall r, isRead r -> P r) ->
  emits P (Api.fetchPromptTemplateDefaults env token).
Proof.
  intros H. unfold Api.fetchPromptTemplateDefaults. apply emits_bind.
  - apply emits_apiFetch. intros r Hv Hp _. apply H. now split.
  - intros a. apply emits_if; [apply emits_readJson|apply emits_throw].
Qed.

Lemma emits_fetchEvaluationDatasets P env token :
  (forall r, isRead r -> P r) ->
  emits P (Api.fetchEvaluationDatasets env token).
Proof.
  intros H. unfold Api.fetchEvaluationDatasets. apply emits_bind.
  - apply emits_apiFetch. intros r Hv Hp _. apply H. now split.
  - intros a. apply emits_if; [apply emits_readJson|apply emits_throw].
Qed.

Lemma emits_loadTemplates P env st :
  (forall r, isRead r -> P r) ->
  emits P (PromptTemplatesPage.loadTemplates env st).
Proof.
  intros H. unfold PromptTemplatesPage.loadTemplates.
  apply emits_if; [apply emits_ret|].
  apply emits_bind; [|intros; apply emits_ret].
  apply emits_tryCatch; [|intros; apply emits_ret].
  apply emits_bind; [|intros; apply emits_ret].
  apply emits_promiseAll2.
  - now apply emits_fetchPromptTemplates.
  - now apply emits_fetchPromptTemplateDefaults.
Qed.

Lemma emits_loadData P env st :
  (forall r, isRead r -> P r) ->
  emits P (EvaluationsPage.loadData env st).
Proof.
  intros H. unfold EvaluationsPage.loadData.
  apply emits_if; [apply emits_ret|].
  apply emits_bind; [|intros; apply emits_ret].
  apply emits_tryCatch; [|intros; apply emits_ret].
  apply emits_bind; [|intros; apply emits_ret].
  apply emits_promiseAll2.
  - now apply emits_fetchEvaluationDatasets.
  - now apply emits_fetchPromptTemplates.
Qed.

End Emits.

(** ** Saving a prompt template *)

Section SaveTemplate.
Import JS Http HttpLog PromptTemplatesPage.

Lemma templateData_renderable (st : State) :
  includes (userTemplate st) (lit "{transcript}") = true ->
  exists sys tpl,
    TS.field (JSON.stringify (templateData st)) "system_prompt"
    = Some (VStr sys)
    /\ TS.field (JSON.stringify (templateData st)) "user_template"
       = Some (VStr tpl)
    /\ includes tpl Renderer.placeholder = true.
Proof.
  intros H. exists (systemPrompt st), (userTemplate st).
  unfold templateData. repeat split; trivial.
Qed.

Lemma emits_pageHandleSave env data id st :
  (exists sys tpl,
      TS.field (JSON.stringify data) "system_prompt" = Some (VStr sys)
      /\ TS.field (JSON.stringify data) "user_template" = Some (VStr tpl)
      /\ includes tpl Renderer.placeholder = true) ->
  emits (fun r => isRead r \/ Spec.persistsRenderable r)
        (pageHandleSave env data id st).
Proof.
  intros (sys & tpl & Hs & Ht & Hi). unfold pageHandleSave.
  apply emits_if; [apply emits_ret|].
  assert (Hp : forall r, payload r = JsonBody (JSON.stringify data) ->
                         isRead r \/ Spec.persistsRenderable r).
  { intros r Hr. right. exists (JSON.stringify data), sys, tpl. auto. }
  apply emits_bind; [|intros; apply emits_loadTemplates; auto].
  destruct id as [[|c i]|];
    [unfold Api.createPromptTemplate
    |unfold Api.updatePromptTemplate
    |unfold Api.createPromptTemplate];
    (apply emits_bind; [|intros; apply emits_jsonOrThrow]);
    apply emits_apiFetch; intros r _ Hr _; now apply Hp.
Qed.

(** The dialog's [handleSave] only reads, or persists a template whose
    user template holds the placeholder. *)
Lemma emits_handleSave env st :
  emits (fun r => isRead r \/ Spec.persistsRenderable r) (handleSave env st).
Proof.
  unfold handleSave.
  do 3 (apply emits_if; [apply emits_ret|]).
  destruct (includes (userTemplate st) (lit "{transcript}")) eqn:Hi;
    [|apply emits_ret].
  cbn [negb].
  apply emits_bind; [|intros; apply emits_ret].
  apply emits_tryCatch; [|intros; apply emits_ret].
  apply emits_bind; [|intros; apply emits_ret].
  apply emits_pageHandleSave. now apply templateData_renderable.
Qed.

(** C3.  Whenever the user template lacks the [{transcript}]
    placeholder, saving from the editor reports an error, leaves the dialog
    open and sends nothing to the backend.  The check sits in the save
    handler: every template the editor does send for persistence holds the
    placeholder, so rendering it never fails with [TemplateError]. *)
Theorem save_requires_placeholder :
  (forall env st srv,
      includes (userTemplate st) (lit "{transcript}") = false ->
      exists st' msg,
        run (handleSave env st) srv = (Normal st', [])
        /\ error st' = Some msg
        /\ isEditorOpen st' = isEditorOpen st
        /\ templates st' = templates st)
  /\ (forall env st srv r body,
        In r (requests (handleSave env st) srv) ->
        payload r = JsonBody body ->
        exists sys tpl,
          TS.field body "system_prompt" = Some (VStr sys)
          /\ TS.field body "user_template" = Some (VStr tpl)
          /\ forall transcript,
               Renderer.render sys tpl transcript <> Renderer.TemplateError).
Proof.
  split.
  - intros env st srv Hno. unfold run, handleSave.
    destruct (isBlank (name st)); [do 2 eexists; repeat split|].
    destruct (isBlank (systemPrompt st)); [do 2 eexists; repeat split|].
    destruct (isBlank (userTemplate st)); [do 2 eexists; repeat split|].
    rewrite Hno. do 2 eexists; repeat split.
  - intros env st srv r body Hin Hbody.
    destruct (emits_requests _ _ srv r (emits_handleSave env st) Hin)
      as [[_ Hread]|(body' & sys & tpl & Hp & Hs & Ht & Hi)];
      [congruence|].
    assert (body' = body) by congruence. subst body'.
    exists sys, tpl. repeat split; trivial.
    intros transcript. unfold Renderer.render. rewrite Hi. discriminate.
Qed.

End SaveTemplate.

(** ** Editing an evaluation dataset *)

Section EditDataset.
Import JS Http HttpLog EvaluationsPage.

Lemma edit_body_keys (n : jsstring) (descr : option jsstring) (k : jsstring) :
  In k (TS.keys
          (JSON.stringify
             (VObj [(lit "name", VStr n);
                    (lit "description",
                     match descr with
                     | Some x => VStr x
                     | None => VUndefined
                     end)]))) ->
  k = lit "name" \/ k = lit "description".
Proof.
  destruct descr as [x|]; simpl.
  - intros [<-|[<-|[]]]; auto.
  - intros [<-|[]]; auto.
Qed.

Lemma edit_body_frame (n : jsstring) (descr : option jsstring)
  (stored : Backend.StoredDataset) :
  Spec.sameButNameAndDescription
    stored
    (Backend.patchDataset
       (JSON.stringify
          (VObj [(lit "name", VStr n);
                 (lit "description",
                  match descr with
                  | Some x => VStr x
                  | None => VUndefined
                  end)]))
       stored).
Proof. destruct descr as [x|]; repeat split. Qed.

Lemma emits_edit env data d st :
  EvaluationDataset.id d <> [] ->
  emits (fun r => isRead r \/ Spec.renamesDataset env d r)
        (pageHandleSave env data (Some (EvaluationDataset.id d)) st).
Proof.
  intros Hid. unfold pageHandleSave.
  apply emits_if; [apply emits_ret|].
  apply emits_bind; [|intros; apply emits_loadData; auto].
  destruct (EvaluationDataset.id d) as [|c i] eqn:E; [congruence|].
  unfold Api.updateEvaluationDataset.
  apply emits_bind; [|intros; apply emits_jsonOrThrow].
  apply emits_apiFetch. intros r Hv Hp Hu. right.
  unfold Spec.renamesDataset. rewrite E.
  split; [exact Hv|]. split; [rewrite Hu; reflexivity|].
  eexists. split; [exact Hp|].
  split; [intros k; apply edit_body_keys|intros stored; apply edit_body_frame].
Qed.

(** C5.  Saving the editor of an existing dataset sends, besides reads,
    only a PATCH of that dataset whose body names [name] and (when it is
    not blank) [description]; no file and no [source_path] go out, and the
    backend's update leaves the examples and every other property of the
    dataset as they were. *)
Theorem dataset_edit_changes_only_name_and_description
  (env : Api.Env) (st : State) (srv : server) (d : EvaluationDataset.t)
  (Hedit : editingDataset st = Some d)
  (Hid : EvaluationDataset.id d <> []) :
  forall r, In r (requests (handleSave env st) srv) ->
            isRead r \/ Spec.renamesDataset env d r.
Proof.
  intros r.
  apply (emits_requests (fun r => isRead r \/ Spec.renamesDataset env d r)).
  unfold handleSave.
  apply emits_if; [apply emits_ret|].
  apply emits_if; [apply emits_ret|].
  apply emits_bind; [|intros; apply emits_ret].
  apply emits_tryCatch; [|intros; apply emits_ret].
  apply emits_bind; [|intros; apply emits_ret].
  cbn [editingDataset setDialog]. rewrite Hedit. cbn [option_map].
  now apply emits_edit.
Qed.

End EditDataset.

(** ** Activating a prompt template *)

Lemma existsb_map_ext {A B} (f : A -> B) (p : B -> bool) (q : A -> bool)
  (l : list A) :
  (forall x, p (f x) = q x) -> existsb p (map f l) = existsb q l.
Proof.
  intros H. induction l as [|x l IH]; simpl; trivial. now rewrite H, IH.
Qed.

(** The page's [handleActivate] sends one activation and then only
    reads: the deactivation of the previous template is left to the
    backend's toggle. *)
Lemma emits_handleActivate env id st :
  HttpLog.emits (fun r => HttpLog.isRead r \/ Spec.activates env id r)
                (PromptTemplatesPage.handleActivate env id st).
Proof.
  unfold PromptTemplatesPage.handleActivate.
  apply emits_if; [apply emits_ret|].
  apply emits_bind; [|intros; apply emits_loadTemplates; auto].
  unfold Api.activatePromptTemplate.
  apply emits_bind; [|intros; apply emits_jsonOrThrow].
  apply emits_apiFetch. intros r Hv Hp Hu. right.
  split; [exact Hv|]. split; [rewrite Hu; reflexivity|exact Hp].
Qed.

Section Activation.
Import JS Backend.

Variable store : list PromptTemplate.t.
Hypothesis Hids : NoDup (map PromptTemplate.id store).

Lemma same_id_same_template (t t' : PromptTemplate.t) :
  In t store -> In t' store ->
  PromptTemplate.id t = PromptTemplate.id t' -> t = t'.
Proof.
  clear -Hids. induction store as [|x l IH]; [intros []|].
  simpl in Hids. apply NoDup_cons_iff in Hids as [Hx Hl].
  intros [<-|Ht] [<-|Ht'] E; trivial.
  - exfalso. apply Hx. rewrite E. now apply in_map.
  - exfalso. apply Hx. rewrite <- E. now apply in_map.
  - now apply IH.
Qed.

Lemma findTemplate_spec (id : jsstring) (target : PromptTemplate.t) :
  findTemplate id store = Some target ->
  In target store /\ PromptTemplate.id target = id.
Proof.
  intros H. apply find_some in H as [Hin Hid].
  split; trivial. now apply str_eqb_eq.
Qed.

(** Among the stored templates, only [t] has the id of [t]. *)
Lemma existsb_same_id (g : PromptTemplate.t -> bool) (t : PromptTemplate.t) :
  In t store ->
  existsb (fun t' => str_eqb (PromptTemplate.id t') (PromptTemplate.id t)
                     && g t') store
  = g t.
Proof.
  intros Hin. destruct (g t) eqn:Hg.
  - apply existsb_exists. exists t. rewrite str_eqb_refl, Hg. auto.
  - apply not_true_is_false. intros H.
    apply existsb_exists in H as (t' & Hin' & H).
    apply andb_prop in H as [Hid Hg']. apply str_eqb_eq in Hid.
    rewrite (same_id_same_template _ _ Hin' Hin Hid) in Hg'. congruence.
Qed.

Lemma filter_same_id (t : PromptTemplate.t) :
  In t store ->
  filter (fun t' => str_eqb (PromptTemplate.id t') (PromptTemplate.id t))
         store = [t].
Proof.
  clear -Hids. induction store as [|x l IH]; [intros []|].
  simpl in Hids. apply NoDup_cons_iff in Hids as [Hx Hl].
  assert (Hnone : forall y, ~ In (PromptTemplate.id y) (map PromptTemplate.id l) ->
            filter (fun t' => str_eqb (PromptTemplate.id t')
                                      (PromptTemplate.id y)) l = []).
  { intros y Hy. clear -Hy. induction l as [|z l IHl]; trivial. simpl.
    destruct (str_eqb (PromptTemplate.id z) (PromptTemplate.id y)) eqn:E.
    - apply str_eqb_eq in E. exfalso. apply Hy. left. exact E.
    - apply IHl. intros H. apply Hy. now right. }
  intros [<-|Hin]; simpl.
  - rewrite str_eqb_refl. f_equal. now apply Hnone.
  - destruct (str_eqb (PromptTemplate.id x) (PromptTemplate.id t)) eqn:E.
    + apply str_eqb_eq in E. exfalso. apply Hx. rewrite E. now apply in_map.
    + now apply IH.
Qed.

Section Toggle.
Variable id : jsstring.
Variable target : PromptTemplate.t.
Hypothesis Hfound : findTemplate id store = Some target.

Local Abbreviation org := (PromptTemplate.organization_id target).
Local Abbreviation toggle := (Backend.toggle (PromptTemplate.organization_id target) id).

Lemma activate_toggle : activate id store = map toggle store.
Proof. unfold activate. now rewrite Hfound. Qed.

Lemma toggle_org (t : PromptTemplate.t) :
  PromptTemplate.organization_id (toggle t)
  = PromptTemplate.organization_id t.
Proof.
  unfold toggle. now destruct (str_eqb (PromptTemplate.organization_id t) org).
Qed.

Lemma toggle_id (t : PromptTemplate.t) :
  PromptTemplate.id (toggle t) = PromptTemplate.id t.
Proof.
  unfold toggle. now destruct (str_eqb (PromptTemplate.organization_id t) org).
Qed.

Lemma filter_map_toggle (p q : PromptTemplate.t -> bool) :
  (forall t, In t store -> p (toggle t) = q t) ->
  filter p (map toggle store) = map toggle (filter q store).
Proof.
  clear. induction store as [|x l IH]; intros H; simpl; trivial.
  rewrite (H x) by now left. destruct (q x); simpl;
    rewrite IH; trivial; intros t Ht; apply H; now right.
Qed.

(** After the activation the tenant's active templates are the target,
    and nothing else. *)
Lemma active_after_activate :
  activeOf org (activate id store) = [setActive true target].
Proof.
  destruct (findTemplate_spec _ _ Hfound) as [Hin Hid].
  rewrite activate_toggle. unfold activeOf.
  rewrite (filter_map_toggle _
             (fun t => str_eqb (PromptTemplate.id t)
                               (PromptTemplate.id target))).
  - rewrite (filter_same_id _ Hin). simpl. unfold toggle. fold org.
    now rewrite str_eqb_refl, Hid, str_eqb_refl.
  - intros t Ht. rewrite toggle_org. unfold toggle.
    destruct (str_eqb (PromptTemplate.organization_id t) org) eqn:E; simpl.
    + now rewrite Hid.
    + symmetry. apply not_true_is_false. intros H. apply str_eqb_eq in H.
      rewrite (same_id_same_template _ _ Ht Hin H) in E. unfold org in E.
      now rewrite str_eqb_refl in E.
Qed.

(** The other tenants keep their active templates. *)
Lemma active_elsewhere (org' : jsstring) :
  org' <> org ->
  activeOf org' (activate id store) = activeOf org' store.
Proof.
  intros Hne. rewrite activate_toggle. unfold activeOf.
  rewrite (filter_map_toggle _
             (fun t => str_eqb (PromptTemplate.organization_id t) org'
                       && PromptTemplate.is_active t)).
  - rewrite <- (map_id (filter _ store)) at 2. apply map_ext_in.
    intros t Ht. apply filter_In in Ht as [_ Ht].
    apply andb_prop in Ht as [Ho _]. apply str_eqb_eq in Ho.
    unfold toggle. destruct (str_eqb (PromptTemplate.organization_id t) org) eqn:E;
      trivial.
    apply str_eqb_eq in E. congruence.
  - intros t Ht. rewrite toggle_org. unfold toggle.
    destruct (str_eqb (PromptTemplate.organization_id t) org) eqn:E; trivial.
    apply str_eqb_eq in E.
    destruct (str_eqb (PromptTemplate.organization_id t) org') eqn:E';
      trivial.
    apply str_eqb_eq in E'. congruence.
Qed.

(** The templates an activation deactivates are the ones that were active
    for the tenant. *)
Lemma deactivated_by_activate :
  PromptTemplate.is_active target = false ->
  deactivated store (activate id store)
  = map PromptTemplate.id (activeOf org store).
Proof.
  intros Hinactive. destruct (findTemplate_spec _ _ Hfound) as [Hin Hid].
  unfold deactivated, activeOf. f_equal. apply filter_ext_in.
  intros t Ht. rewrite activate_toggle.
  rewrite (existsb_map_ext toggle _
             (fun t' => str_eqb (PromptTemplate.id t') (PromptTemplate.id t)
                        && PromptTemplate.is_active (toggle t')))
    by (intros t'; now rewrite toggle_id).
  rewrite (existsb_same_id (fun t' => PromptTemplate.is_active (toggle t')) _ Ht).
  unfold toggle.
  destruct (str_eqb (PromptTemplate.organization_id t) org) eqn:E; simpl.
  - destruct (str_eqb (PromptTemplate.id t) id) eqn:Ei; simpl.
    + apply str_eqb_eq in Ei. rewrite <- Hid in Ei.
      rewrite (same_id_same_template _ _ Ht Hin Ei), Hinactive. reflexivity.
    + now rewrite andb_true_r.
  - now rewrite andb_negb_r.
Qed.

End Toggle.

(** The toggle on a store without two active templates for a
    tenant. *)
Lemma toggle_of_an_inactive_template
  (id : jsstring) (target : PromptTemplate.t)
  (Hinv : Spec.atMostOneActive store)
  (Hfound : findTemplate id store = Some target)
  (Hinactive : PromptTemplate.is_active target = false) :
  let org := PromptTemplate.organization_id target in
  activeOf org (activate id store) = [setActive true target]
  /\ deactivated store (activate id store)
     = map PromptTemplate.id (activeOf org store)
  /\ (List.length (deactivated store (activate id store)) <= 1)%nat
  /\ (activeOf org store = [] ->
      deactivated store (activate id store) = [])
  /\ (forall org', org' <> org ->
                   activeOf org' (activate id store) = activeOf org' store).
Proof.
  intros org.
  pose proof (active_after_activate _ _ Hfound) as Hafter.
  pose proof (deactivated_by_activate _ _ Hfound Hinactive) as Hde.
  fold org in Hafter, Hde.
  split; [exact Hafter|]. split; [exact Hde|].
  split; [rewrite Hde, length_map; apply Hinv|].
  split; [intros H; now rewrite Hde, H|].
  intros org' Hne; now apply (active_elsewhere _ _ Hfound).
Qed.

(** An activation keeps the bound of one active template per tenant,
    whatever the template it names. *)
Lemma activate_keeps_bound (id : jsstring) :
  Spec.atMostOneActive store -> Spec.atMostOneActive (activate id store).
Proof.
  intros Hinv. destruct (findTemplate id store) as [target|] eqn:Hfound.
  - intros org'.
    destruct (str_eqb org' (PromptTemplate.organization_id target)) eqn:E.
    + apply str_eqb_eq in E. subst org'.
      rewrite (active_after_activate _ _ Hfound). simpl. lia.
    + rewrite (active_elsewhere _ _ Hfound); [apply Hinv|].
      intros ->. now rewrite str_eqb_refl in E.
  - unfold activate. now rewrite Hfound.
Qed.

End Activation.

(** ** The stores the operations lead to *)

Section TemplateStore.
Import JS Backend.

Lemma activate_ids (id : jsstring) (store : list PromptTemplate.t) :
  map PromptTemplate.id (activate id store) = map PromptTemplate.id store.
Proof.
  unfold activate. destruct (findTemplate id store) as [target|];
    [|reflexivity].
  rewrite map_map. apply map_ext. intros t. unfold toggle.
  now destruct (str_eqb (PromptTemplate.organization_id t)
                        (PromptTemplate.organization_id target)).
Qed.

Lemma onTemplate_ids id f (store : list PromptTemplate.t) :
  (forall t, PromptTemplate.id (f t) = PromptTemplate.id t) ->
  map PromptTemplate.id (onTemplate id f store)
  = map PromptTemplate.id store.
Proof.
  intros Hf. unfold onTemplate. rewrite map_map. apply map_ext.
  intros t. destruct (str_eqb (PromptTemplate.id t) id); trivial.
Qed.

(** An operation on single templates that activates none does not add
    to the active templates of a tenant. *)
Lemma onTemplate_active id f org (store : list PromptTemplate.t) :
  (forall t, PromptTemplate.organization_id (f t)
             = PromptTemplate.organization_id t) ->
  (forall t, PromptTemplate.is_active (f t) = true ->
             PromptTemplate.is_active t = true) ->
  (List.length (activeOf org (onTemplate id f store))
   <= List.length (activeOf org store))%nat.
Proof.
  intros Horg Hact. unfold activeOf, onTemplate.
  induction store as [|t l IH]; [apply Nat.le_refl|].
  cbn [map filter].
  destruct (str_eqb (PromptTemplate.id t) id).
  - rewrite Horg.
    destruct (str_eqb (PromptTemplate.organization_id t) org);
      cbn [andb]; [|exact IH].
    destruct (PromptTemplate.is_active (f t)) eqn:E.
    + rewrite (Hact _ E). cbn [List.length]. lia.
    + destruct (PromptTemplate.is_active t); cbn [List.length]; lia.
  - destruct (str_eqb (PromptTemplate.organization_id t) org
              && PromptTemplate.is_active t); cbn [List.length]; lia.
Qed.

Lemma findTemplate_none id (store : list PromptTemplate.t) :
  findTemplate id store = None -> ~ In id (map PromptTemplate.id store).
Proof.
  intros Hnone Hin. apply in_map_iff in Hin as (t & Hid & Hin).
  apply (find_none _ _ Hnone) in Hin.
  rewrite Hid, str_eqb_refl in Hin. discriminate.
Qed.

Lemma delete_ids id (store : list PromptTemplate.t) :
  NoDup (map PromptTemplate.id store) ->
  NoDup (map PromptTemplate.id
           (filter (fun t => negb (str_eqb (PromptTemplate.id t) id))
                   store)).
Proof.
  induction store as [|t l IH]; [trivial|].
  cbn [map filter]. intros H. apply NoDup_cons_iff in H as [Ht Hl].
  destruct (negb (str_eqb (PromptTemplate.id t) id)); [|now apply IH].
  cbn [map]. constructor; [|now apply IH].
  intros Hin. apply Ht. apply in_map_iff in Hin as (t' & Hid & Hin).
  apply filter_In in Hin as [Hin _]. rewrite <- Hid. now apply in_map.
Qed.

Lemma delete_active id org (store : list PromptTemplate.t) :
  (List.length
     (activeOf org
        (filter (fun t => negb (str_eqb (PromptTemplate.id t) id)) store))
   <= List.length (activeOf org store))%nat.
Proof.
  unfold activeOf. induction store as [|t l IH]; [apply Nat.le_refl|].
  cbn [filter].
  destruct (negb (str_eqb (PromptTemplate.id t) id)); cbn [filter];
    destruct (str_eqb (PromptTemplate.organization_id t) org
              && PromptTemplate.is_active t); cbn [List.length]; lia.
Qed.

(** Every store the operations lead to holds each id once and at most one
    active template per tenant. *)
Lemma reachable_invariant (store : list PromptTemplate.t) :
  reachable store ->
  NoDup (map PromptTemplate.id store) /\ Spec.atMostOneActive store.
Proof.
  induction 1 as [|op store _ [Hids Hinv]].
  - split; [constructor|]. intros org. cbn. lia.
  - destruct op as [t|id n v s u a|id|id]; cbn [perform].
    + destruct (findTemplate (PromptTemplate.id t) store) eqn:Hfind;
        [now split|].
      assert (Hids' : NoDup (map PromptTemplate.id
                               (store ++ [setActive false t]))).
      { rewrite map_app. cbn [map setActive PromptTemplate.id].
        apply NoDup_app; [exact Hids|repeat constructor; intros []|].
        intros x Hx [<-|[]]. exact (findTemplate_none _ _ Hfind Hx). }
      assert (Hinv' : Spec.atMostOneActive (store ++ [setActive false t])).
      { intros org. unfold activeOf. rewrite filter_app.
        cbn [filter setActive PromptTemplate.is_active].
        rewrite andb_false_r, app_nil_r. apply Hinv. }
      destruct (PromptTemplate.is_active t); [|now split].
      split; [now rewrite activate_ids|].
      now apply activate_keeps_bound.
    + assert (Hids' : NoDup (map PromptTemplate.id
                               (onTemplate id (edit n v s u) store))).
      { now rewrite onTemplate_ids. }
      assert (Hinv' : Spec.atMostOneActive
                        (onTemplate id (edit n v s u) store)).
      { intros org.
        apply (Nat.le_trans _ (List.length (activeOf org store)));
          [|apply Hinv].
        apply onTemplate_active; trivial. }
      destruct a as [[|]|]; [| |now split].
      * split; [now rewrite activate_ids|].
        now apply activate_keeps_bound.
      * split; [now rewrite onTemplate_ids|].
        intros org.
        apply (Nat.le_trans _ (List.length
                 (activeOf org (onTemplate id (edit n v s u) store))));
          [|apply Hinv'].
        apply onTemplate_active; trivial. discriminate.
    + split; [now rewrite activate_ids|].
      now apply activate_keeps_bound.
    + split; [now apply delete_ids|].
      intros org.
      apply (Nat.le_trans _ (List.length (activeOf org store)));
        [apply delete_active|apply Hinv].
Qed.


End TemplateStore.

(** ** The JSON parser always has fuel enough *)

Section JsonFuel.
Import JS JSON.

Lemma skipWs_length s : (List.length (skipWs s) <= List.length s)%nat.
Proof.
  induction s as [|c s IH]; simpl; [lia|].
  destruct (isWs c); simpl; lia.
Qed.

Lemma parseChars_length s acc str r :
  parseChars s acc = Some (str, r) -> (List.length r < List.length s)%nat.
Proof.
  remember (List.length s) as n eqn:Hn. revert s acc Hn.
  induction n as [n IH] using lt_wf_ind. intros s acc Hn.
  destruct s as [|c s]; [discriminate|]. cbn [parseChars].
  destruct (c =? 34)%N; [intros [= _ <-]; simpl in *; lia|].
  destruct (c =? 92)%N.
  - destruct s as [|e s]; [discriminate|].
    assert (Hrec : forall acc', parseChars s acc' = Some (str, r) ->
                                (List.length r < n)%nat).
    { intros acc' H. apply (IH (List.length s)) in H; simpl in *; lia. }
    repeat (match goal with
            | |- (if ?b then _ else _) = _ -> _ =>
                destruct b; [apply Hrec|]
            end).
    destruct (e =? 117)%N; [|discriminate].
    destruct s as [|h1 [|h2 [|h3 [|h4 s5]]]]; try discriminate.
    destruct (hex4 h1 h2 h3 h4); [|discriminate].
    intros H. apply (IH (List.length s5)) in H; simpl in *; lia.
  - destruct (c <? 32)%N; [discriminate|].
    intros H. apply (IH (List.length s)) in H; simpl in *; lia.
Qed.

Lemma parseDigits_length s acc count m n r :
  parseDigits s acc count = (m, n, r) ->
  (List.length r <= List.length s)%nat.
Proof.
  revert acc count. induction s as [|c s IH]; intros acc count; simpl.
  - intros [= _ _ <-]. simpl. lia.
  - destruct (isDigit c).
    + intros H. apply IH in H. lia.
    + intros [= _ _ <-]. simpl. lia.
Qed.

Lemma parseFracExp_length negative int s v r :
  parseFracExp negative int s = Some (v, r) ->
  (List.length r <= List.length s)%nat.
Proof.
  unfold parseFracExp.
  assert (Hfrac :
    forall m n s2,
      match s with
      | 46%N :: s1 =>
          let '(m, n, s2) := parseDigits s1 int 0 in
          if (n =? 0)%Z then None else Some (m, n, s2)
      | _ => Some (int, 0%Z, s)
      end = Some (m, n, s2) ->
      (List.length s2 <= List.length s)%nat).
  { intros m n s2. destruct s as [|c s1]; [intros [= _ _ <-]; lia|].
    destruct (N.eq_dec c 46) as [->|Hne].
    - destruct (parseDigits s1 int 0) as [[m' n'] s2'] eqn:E.
      destruct (n' =? 0)%Z; [discriminate|]. intros [= _ _ <-].
      apply parseDigits_length in E. simpl. lia.
    - destruct c as [|p]; [intros [= _ _ <-]; lia|].
      repeat (destruct p as [p|p|]; try (intros [= _ _ <-]; simpl; lia)).
      congruence. }
  destruct (match s with
            | 46%N :: s1 =>
                let '(m, n, s2) := parseDigits s1 int 0 in
                if (n =? 0)%Z then None else Some (m, n, s2)
            | _ => Some (int, 0%Z, s)
            end) as [[[m n] s2]|] eqn:E; [|discriminate].
  specialize (Hfrac m n s2 eq_refl).
  destruct s2 as [|e s3]; [intros [= _ <-]; simpl in *; lia|].
  destruct ((e =? 101)%N || (e =? 69)%N); [|intros [= _ <-]; exact Hfrac].
  destruct (match s3 with
            | 45%N :: s4 => (true, s4)
            | 43%N :: s4 => (false, s4)
            | _ => (false, s3)
            end) as [neg s4] eqn:Es.
  assert (Hs4 : (List.length s4 <= List.length s3)%nat).
  { destruct s3 as [|c s3']; [injection Es as _ <-; lia|].
    destruct c as [|p]; [injection Es as _ <-; lia|].
    repeat (destruct p as [p|p|];
            try (injection Es as _ <-; simpl; lia)). }
  destruct (parseDigits s4 0 0) as [[x k] s5] eqn:Ed.
  destruct (k =? 0)%Z; [discriminate|]. intros [= _ <-].
  apply parseDigits_length in Ed. simpl in *. lia.
Qed.

Lemma parseNumber_length s v r :
  parseNumber s = Some (v, r) -> (List.length r < List.length s)%nat.
Proof.
  unfold parseNumber.
  destruct (match s with
            | 45%N :: s1 => (true, s1)
            | _ => (false, s)
            end) as [negative s1] eqn:Es.
  assert (Hs1 : (List.length s1 <= List.length s)%nat).
  { destruct s as [|c s']; [injection Es as _ <-; lia|].
    destruct c as [|p]; [injection Es as _ <-; lia|].
    repeat (destruct p as [p|p|];
            try (injection Es as _ <-; simpl; lia)). }
  destruct s1 as [|c s2]; [discriminate|].
  destruct (c =? 48)%N.
  - intros H. apply parseFracExp_length in H. simpl in *. lia.
  - destruct (isDigit c) eqn:Hd; [|discriminate].
    destruct (parseDigits (c :: s2) 0 0) as [[int n] s3] eqn:Ed.
    intros H. apply parseFracExp_length in H.
    simpl in Ed. rewrite Hd in Ed. apply parseDigits_length in Ed.
    simpl in *. lia.
Qed.

Lemma skipn_length_le {A} n (l : list A) :
  (List.length (skipn n l) <= List.length l)%nat.
Proof. rewrite length_skipn. lia. Qed.

(** With fuel beyond twice the length of the input the three parsers
    never run out of fuel, and what they leave is shorter than what they
    were given. *)
Lemma parse_fuel (fuel : nat) :
  (forall s, (2 * List.length s + 1 <= fuel)%nat ->
             parseValue fuel s <> OutOfFuel
             /\ forall v r, parseValue fuel s = Parsed v r ->
                            (List.length r < List.length s)%nat)
  /\ (forall s acc, (2 * List.length s + 2 <= fuel)%nat ->
                    parseElements fuel s acc <> OutOfFuel
                    /\ forall v r, parseElements fuel s acc = Parsed v r ->
                                   (List.length r < List.length s)%nat)
  /\ (forall s acc, (2 * List.length s + 2 <= fuel)%nat ->
                    parseMembers fuel s acc <> OutOfFuel
                    /\ forall v r, parseMembers fuel s acc = Parsed v r ->
                                   (List.length r < List.length s)%nat).
Proof.
  induction fuel as [|f (IHv & IHe & IHm)].
  - repeat split; intros; lia.
  - split; [|split].
    + intros s Hf. cbn [parseValue].
      pose proof (skipWs_length s) as Hws.
      destruct (skipWs s) as [|c r]; [split; [discriminate|discriminate]|].
      simpl in Hws.
      destruct (c =? 34)%N.
      { destruct (parseChars r []) as [[str r']|] eqn:E;
          [|split; discriminate].
        apply parseChars_length in E.
        split; [discriminate|]. intros v r0 [= _ <-]. lia. }
      destruct (c =? 91)%N.
      { pose proof (skipWs_length r) as Hr.
        assert (He : parseElements f r [] <> OutOfFuel
                     /\ forall v r0, parseElements f r [] = Parsed v r0 ->
                                     (List.length r0 < List.length s)%nat).
        { destruct (IHe r []) as [H1 H2]; [lia|]. split; trivial.
          intros v r0 H. apply H2 in H. lia. }
        destruct (skipWs r) as [|x r']; [exact He|].
        destruct (x =? 93)%N; [|exact He].
        split; [discriminate|]. intros v r0 [= _ <-]. simpl in Hr. lia. }
      destruct (c =? 123)%N.
      { pose proof (skipWs_length r) as Hr.
        assert (He : parseMembers f r [] <> OutOfFuel
                     /\ forall v r0, parseMembers f r [] = Parsed v r0 ->
                                     (List.length r0 < List.length s)%nat).
        { destruct (IHm r []) as [H1 H2]; [lia|]. split; trivial.
          intros v r0 H. apply H2 in H. lia. }
        destruct (skipWs r) as [|x r']; [exact He|].
        destruct (x =? 125)%N; [|exact He].
        split; [discriminate|]. intros v r0 [= _ <-]. simpl in Hr. lia. }
      destruct (c =? 116)%N.
      { destruct (startsWith (lit "rue") r); split; try discriminate.
        intros v r0 H. assert (r0 = skipn 3 r) by congruence. subst r0.
        pose proof (skipn_length_le 3 r). lia. }
      destruct (c =? 102)%N.
      { destruct (startsWith (lit "alse") r); split; try discriminate.
        intros v r0 H. assert (r0 = skipn 4 r) by congruence. subst r0.
        pose proof (skipn_length_le 4 r). lia. }
      destruct (c =? 110)%N.
      { destruct (startsWith (lit "ull") r); split; try discriminate.
        intros v r0 H. assert (r0 = skipn 3 r) by congruence. subst r0.
        pose proof (skipn_length_le 3 r). lia. }
      destruct (parseNumber (c :: r)) as [[v r']|] eqn:E;
        [|split; discriminate].
      apply parseNumber_length in E. simpl in E.
      split; [discriminate|]. intros v0 r0 [= _ <-]. lia.
    + intros s acc Hf. cbn [parseElements].
      destruct (IHv s) as [Hv1 Hv2]; [lia|].
      destruct (parseValue f s) as [v r| |] eqn:E;
        [|split; discriminate|congruence].
      specialize (Hv2 v r eq_refl).
      pose proof (skipWs_length r) as Hr.
      destruct (skipWs r) as [|x r']; [split; discriminate|].
      simpl in Hr.
      destruct (x =? 44)%N.
      { destruct (IHe r' (v :: acc)) as [H1 H2]; [lia|]. split; trivial.
        intros v0 r0 H. apply H2 in H. lia. }
      destruct (x =? 93)%N; [|split; discriminate].
      split; [discriminate|]. intros v0 r0 [= _ <-]. lia.
    + intros s acc Hf. cbn [parseMembers].
      pose proof (skipWs_length s) as Hws.
      destruct (skipWs s) as [|q r]; [split; discriminate|].
      simpl in Hws.
      destruct (q =? 34)%N; [|split; discriminate].
      destruct (parseChars r []) as [[k r1]|] eqn:Ek;
        [|split; discriminate].
      apply parseChars_length in Ek.
      pose proof (skipWs_length r1) as Hr1.
      destruct (skipWs r1) as [|colon r2]; [split; discriminate|].
      simpl in Hr1.
      destruct (colon =? 58)%N; [|split; discriminate].
      destruct (IHv r2) as [Hv1 Hv2]; [lia|].
      destruct (parseValue f r2) as [v r3| |] eqn:E;
        [|split; discriminate|congruence].
      specialize (Hv2 v r3 eq_refl).
      pose proof (skipWs_length r3) as Hr3.
      destruct (skipWs r3) as [|x r4]; [split; discriminate|].
      simpl in Hr3.
      destruct (x =? 44)%N.
      { destruct (IHm r4 ((k, v) :: acc)) as [H1 H2]; [lia|].
        split; trivial. intros v0 r0 H. apply H2 in H. lia. }
      destruct (x =? 125)%N; [|split; discriminate].
      split; [discriminate|]. intros v0 r0 [= _ <-]. lia.
Qed.

(** [JSON.parse] never stops for lack of fuel: its [SyntaxError] always
    stands for a text that is not JSON. *)
Lemma parse_has_fuel (text : jsstring) :
  parseValue (fuelFor text) text <> OutOfFuel.
Proof.
  apply (proj1 (parse_fuel (fuelFor text))). unfold fuelFor. lia.
Qed.

End JsonFuel.

(** ** The tag pattern of the transcript viewer *)

Section TagPattern.
Import JS RegExp.

Lemma span_app p s : fst (span p s) ++ snd (span p s) = s.
Proof.
  induction s as [|c s IH]; simpl; trivial.
  destruct (p c); simpl; [now rewrite IH|trivial].
Qed.

Lemma span_all p s :
  snd (span p s) = [] <-> forallb p s = true.
Proof.
  induction s as [|c s IH]; simpl; [tauto|].
  destruct (p c); simpl; [exact IH|]. split; discriminate.
Qed.

Lemma span_all_fst p s : forallb p s = true -> fst (span p s) = s.
Proof.
  intros H. pose proof (span_app p s) as E.
  apply span_all in H. rewrite H, app_nil_r in E. exact E.
Qed.

(** A greedy class followed by something that cannot start with the
    class never backtracks with success: only the longest run counts. *)
Lemma starLoop_committed p pos s caps (k : cont) :
  (forall pos' c s' caps', p c = true -> k pos' (c :: s') caps' = None) ->
  starLoop p pos s caps k
  = k (pos + List.length (fst (span p s)))%nat (snd (span p s)) caps.
Proof.
  intros Hk. revert pos. induction s as [|c s IH]; intros pos; simpl.
  - now rewrite Nat.add_0_r.
  - destruct (p c) eqn:Hp; simpl.
    + rewrite IH, (Hk pos c s caps Hp).
      rewrite Nat.add_succ_r. simpl.
      now destruct (k _ _ _).
    + now rewrite Nat.add_0_r.
Qed.

Lemma firstn_prefix (a b : jsstring) (pos : nat) :
  firstn (pos + List.length a - pos) (a ++ b) = a.
Proof.
  replace (pos + List.length a - pos)%nat with (List.length a + 0)%nat by lia.
  rewrite firstn_app_2. simpl. apply app_nil_r.
Qed.

(** [(.+)$]: the rest of the input, when it is not empty and holds no
    line terminator. *)
Lemma run_text_to_end n pos s caps (k : cont) :
  run (Seq (Group n (Plus dot)) Eol) pos s caps k
  = match s with
    | [] => None
    | _ :: _ =>
        if forallb dot s
        then k (pos + List.length s)%nat [] ((n, s) :: caps)
        else None
    end.
Proof.
  destruct s as [|c s]; [reflexivity|].
  cbn [run forallb]. destruct (dot c) eqn:Hc; [|reflexivity].
  rewrite starLoop_committed.
  2:{ intros pos' c' s' caps' _. reflexivity. }
  cbn [andb]. destruct (forallb dot s) eqn:Hall.
  - pose proof (proj2 (span_all dot s) Hall) as Hs. rewrite Hs.
    rewrite (span_all_fst _ _ Hall).
    replace (S pos + List.length s - pos)%nat
      with (List.length (c :: s)) by (cbn [List.length]; lia).
    rewrite firstn_all. simpl List.length.
    now rewrite Nat.add_succ_r.
  - destruct (snd (span dot s)) eqn:Hs; [|reflexivity].
    apply span_all in Hs. congruence.
Qed.

Lemma cut_span c s :
  match Spec.cut c s with
  | Some (a, b) => span (except c) s = (a, c :: b)
  | None => snd (span (except c) s) = []
  end.
Proof.
  induction s as [|x s IH]; simpl; trivial.
  replace (except c x) with (negb (N.eqb x c)) by reflexivity.
  destruct (N.eqb x c) eqn:E; simpl.
  - apply N.eqb_eq in E. now subst.
  - destruct (Spec.cut c s) as [[a b]|].
    + now rewrite IH.
    + exact IH.
Qed.

(** [([^c]+)c]: the text before the first [c], when it is not empty. *)
Lemma run_until n c pos s caps (k : cont) :
  run (Seq (Group n (Plus (except c))) (Chr (only c))) pos s caps k
  = match Spec.cut c s with
    | Some (x :: a, b) =>
        k (pos + List.length (x :: a) + 1)%nat b ((n, x :: a) :: caps)
    | _ => None
    end.
Proof.
  destruct s as [|x s]; [reflexivity|].
  cbn [run]. pose proof (cut_span c (x :: s)) as Hcut.
  cbn [Spec.cut span] in *.
  replace (except c x) with (negb (N.eqb x c)) in * by reflexivity.
  destruct (N.eqb x c) eqn:E; [reflexivity|]. cbn [negb] in *.
  rewrite starLoop_committed.
  2:{ intros pos' c' s' caps' Hc. cbn. unfold only, except in *.
      destruct (N.eqb c' c); [discriminate|reflexivity]. }
  destruct (Spec.cut c s) as [[a b]|].
  - injection Hcut as Ha Hb. rewrite Hb. cbn [run]. unfold only.
    rewrite N.eqb_refl, Ha.
    replace (S pos + List.length a - pos)%nat
      with (List.length (x :: a) + 0)%nat by (cbn [List.length]; lia).
    pose proof (span_app (except c) s) as Happ. rewrite Ha, Hb in Happ.
    rewrite <- Happ.
    change (x :: a ++ c :: b) with ((x :: a) ++ c :: b).
    rewrite firstn_app_2. simpl firstn. rewrite app_nil_r.
    f_equal. simpl. lia.
  - cbn [snd] in Hcut. rewrite Hcut. reflexivity.
Qed.

Lemma forallb_trimStart p s :
  forallb p s = true -> forallb p (trimStart s) = true.
Proof.
  induction s as [|c s IH]; simpl; trivial.
  intros H. apply andb_prop in H as [Hc Hs].
  destruct (isWhiteSpace c); [now apply IH|].
  simpl. now rewrite Hc, Hs.
Qed.

Lemma tagText_ws_some c s t :
  isWhiteSpace c = true -> Spec.tagText s = Some t ->
  Spec.tagText (c :: s) = Some t.
Proof.
  unfold Spec.tagText. intros Hc. cbn [trimStart]. rewrite Hc.
  destruct (trimStart s); trivial.
  cbn [rev]. destruct (rev s) as [|l r]; [discriminate|]. trivial.
Qed.

Lemma tagText_ws_none c s :
  isWhiteSpace c = true -> Spec.tagText s = None ->
  Spec.tagText (c :: s)
  = if forallb dot (c :: s) then Some (c :: s) else None.
Proof.
  unfold Spec.tagText. intros Hc. cbn [trimStart]. rewrite Hc.
  destruct (trimStart s) as [|x t] eqn:Et.
  - cbn [rev]. destruct (rev s) as [|l r] eqn:Er.
    + assert (s = []) by (apply (f_equal (@rev N)) in Er;
                          now rewrite rev_involutive in Er).
      subst s. intros _. simpl. now destruct (dot c).
    + cbn [app]. destruct (dot l) eqn:Hl; [discriminate|]. intros _.
      assert (Hin : In l s) by (apply in_rev; rewrite Er; now left).
      destruct (forallb dot (c :: s)) eqn:Hall; trivial.
      simpl in Hall. apply andb_prop in Hall as [_ Hall].
      rewrite forallb_forall in Hall. rewrite (Hall l Hin) in Hl.
      discriminate.
  - destruct (forallb dot (x :: t)) eqn:Hxt; [discriminate|]. intros _.
    destruct (forallb dot (c :: s)) eqn:Hall; trivial.
    simpl in Hall. apply andb_prop in Hall as [_ Hall].
    apply forallb_trimStart in Hall. rewrite Et in Hall. congruence.
Qed.

Lemma tagText_other c s :
  isWhiteSpace c = false ->
  Spec.tagText (c :: s)
  = if forallb dot (c :: s) then Some (c :: s) else None.
Proof.
  unfold Spec.tagText. intros Hc. cbn [trimStart]. now rewrite Hc.
Qed.

Lemma starLoop_tag_text pos s caps (k textToEnd : cont) :
  (forall pos' s' caps', k pos' s' caps' <> None) ->
  (forall pos' s' caps',
      textToEnd pos' s' caps'
      = match s' with
        | [] => None
        | _ :: _ =>
            if forallb dot s'
            then k (pos' + List.length s')%nat [] ((3%nat, s') :: caps')
            else None
        end) ->
  starLoop isWhiteSpace pos s caps textToEnd
  = match Spec.tagText s with
    | Some t => k (pos + List.length s)%nat [] ((3%nat, t) :: caps)
    | None => None
    end.
Proof.
  intros Hk Hto. revert pos.
  induction s as [|c s IH]; intros pos.
  - cbn [starLoop]. now rewrite Hto.
  - cbn [starLoop]. rewrite (Hto pos (c :: s) caps).
    destruct (isWhiteSpace c) eqn:Hc.
    + rewrite IH. destruct (Spec.tagText s) as [t|] eqn:Et.
      * rewrite (tagText_ws_some _ _ _ Hc Et).
        cbn [List.length]. rewrite Nat.add_succ_r. cbn [Nat.add].
        destruct (k _ _ _) eqn:E; [reflexivity|]. now apply Hk in E.
      * rewrite (tagText_ws_none _ _ Hc Et).
        now destruct (forallb dot (c :: s)).
    + rewrite (tagText_other _ _ Hc).
      now destruct (forallb dot (c :: s)).
Qed.

(** The tail of the pattern, white space and then the text up to the end
    of the line, in front of a continuation that accepts: the text of the
    tag as [tagText] gives it. *)
Lemma run_tag_text pos s caps (k : cont) :
  (forall pos' s' caps', k pos' s' caps' <> None) ->
  run (Seq (Star isWhiteSpace) (Seq (Group 3 (Plus dot)) Eol)) pos s caps k
  = match Spec.tagText s with
    | Some t => k (pos + List.length s)%nat [] ((3%nat, t) :: caps)
    | None => None
    end.
Proof.
  intros Hk.
  change (run (Seq (Star isWhiteSpace) (Seq (Group 3 (Plus dot)) Eol))
              pos s caps k)
    with (starLoop isWhiteSpace pos s caps
            (fun pos' s' caps' =>
               run (Seq (Group 3 (Plus dot)) Eol) pos' s' caps' k)).
  apply starLoop_tag_text; trivial.
  intros pos' s' caps'. apply run_text_to_end.
Qed.

Lemma tagText_nonempty s t : Spec.tagText s = Some t -> t <> [].
Proof.
  unfold Spec.tagText. destruct (trimStart s) as [|c r].
  - destruct (rev s) as [|c r]; [discriminate|].
    destruct (dot c); [|discriminate]. intros [= <-]. discriminate.
  - destruct (forallb dot (c :: r)); [|discriminate].
    intros [= <-]. discriminate.
Qed.

(** The pattern is anchored: it matches at the start of the line or not
    at all. *)
Lemma execFrom_anchored pos s :
  execFrom TranscriptViewer.tagPattern (S pos) s = None.
Proof.
  revert pos. induction s as [|c s IH]; intros pos; cbn [execFrom].
  - reflexivity.
  - change (run TranscriptViewer.tagPattern (S pos) (c :: s) [] _)
      with (@None captures).
    apply IH.
Qed.

Lemma execFrom_tail_none (line : jsstring) :
  match line with
  | [] => None
  | _ :: s' => execFrom TranscriptViewer.tagPattern 1 s'
  end = None.
Proof. destruct line; [reflexivity|apply execFrom_anchored]. Qed.

Lemma bracketTag_nonempty line who what :
  Spec.bracketTag line = Some (who, what) -> who <> [] /\ what <> [].
Proof.
  unfold Spec.bracketTag. destruct line as [|c rest]; [discriminate|].
  destruct (N.eq_dec c 91) as [->|Hne].
  - destruct (Spec.cut 93 rest) as [[[|x a] b]|]; try discriminate.
    destruct (Spec.tagText b) eqn:Et; [|discriminate].
    intros [= <- <-]. split; [discriminate|now apply (tagText_nonempty b)].
  - intros H. exfalso. apply Hne.
    destruct c as [|p]; [discriminate|].
    repeat (destruct p as [p|p|]; try discriminate). reflexivity.
Qed.

Lemma bracketTag_other c rest :
  N.eqb c 91 = false -> Spec.bracketTag (c :: rest) = None.
Proof.
  intros H. unfold Spec.bracketTag.
  destruct c as [|p]; [reflexivity|].
  repeat (destruct p as [p|p|]; try reflexivity). discriminate.
Qed.

Lemma exec_unfold (r : regex) (s : jsstring) :
  exec r s
  = match run r 0 s []
              (fun pos' _ caps => Some ((0%nat, firstn (pos' - 0) s) :: caps))
    with
    | Some caps => Some caps
    | None =>
        match s with
        | [] => None
        | _ :: s' => execFrom r 1 s'
        end
    end.
Proof. destruct s; reflexivity. Qed.

(** What the tag pattern matches: the lines [tagOf] recognises, with the
    speaker in group 1 or 2 and the text in group 3. *)
Lemma exec_tagPattern (line : jsstring) :
  match Spec.tagOf line with
  | Some (who, what) =>
      exists caps,
        exec TranscriptViewer.tagPattern line = Some caps
        /\ TranscriptViewer.orStr (group 1 caps)
                                  (TranscriptViewer.orStr (group 2 caps) [])
           = who
        /\ TranscriptViewer.orStr (group 3 caps) [] = what
  | None => exec TranscriptViewer.tagPattern line = None
  end.
Proof.
  rewrite exec_unfold.
  set (k0 := fun (pos' : nat) (_ : jsstring) (caps : captures) =>
               Some ((0%nat, firstn (pos' - 0) line) :: caps)).
  assert (Hk0 : forall pos' s' caps', k0 pos' s' caps' <> None)
    by (intros; discriminate).
  set (tail := Seq (Star isWhiteSpace) (Seq (Group 3 (Plus dot)) Eol)).
  set (kt := fun pos' s' caps' => run tail pos' s' caps' k0).
  assert (Hrun :
    run TranscriptViewer.tagPattern 0 line [] k0
    = match run (Seq (Chr (only 91))
                     (Seq (Group 1 (Plus (except 93))) (Chr (only 93))))
                0 line [] kt with
      | Some res => Some res
      | None => run (Seq (Group 2 (Plus (except 58))) (Chr (only 58)))
                    0 line [] kt
      end) by reflexivity.
  rewrite Hrun. clear Hrun.
  assert (Hbracket :
    run (Seq (Chr (only 91))
             (Seq (Group 1 (Plus (except 93))) (Chr (only 93))))
        0 line [] kt
    = match Spec.bracketTag line with
      | Some (who, what) =>
          k0 (List.length line) [] [(3%nat, what); (1%nat, who)]
      | None => None
      end).
  { destruct line as [|c rest]; [reflexivity|].
    change (run (Seq (Chr (only 91))
                     (Seq (Group 1 (Plus (except 93))) (Chr (only 93))))
                0 (c :: rest) [] kt)
      with (if N.eqb c 91
            then run (Seq (Group 1 (Plus (except 93))) (Chr (only 93)))
                     1 rest [] kt
            else None).
    destruct (N.eqb c 91) eqn:Ec.
    - apply N.eqb_eq in Ec. subst c. rewrite run_until.
      unfold Spec.bracketTag.
      destruct (Spec.cut 93 rest) as [[[|x a] b]|] eqn:Ecut; trivial.
      unfold kt. rewrite (run_tag_text _ _ _ _ Hk0).
      destruct (Spec.tagText b) as [t|]; trivial.
      pose proof (cut_span 93 rest) as Hs. rewrite Ecut in Hs.
      pose proof (span_app (except 93) rest) as Happ. rewrite Hs in Happ.
      cbn [fst snd] in Happ. rewrite <- Happ.
      unfold k0. do 2 f_equal. f_equal. f_equal.
      cbn [List.length]. rewrite length_app. cbn [List.length]. lia.
    - now rewrite bracketTag_other. }
  rewrite Hbracket. unfold Spec.tagOf.
  destruct (Spec.bracketTag line) as [[who what]|] eqn:Eb.
  - unfold k0. eexists. split; [reflexivity|].
    destruct (bracketTag_nonempty _ _ _ Eb) as [Hwho Hwhat].
    cbn. destruct who; [congruence|]. destruct what; [congruence|]. auto.
  - rewrite run_until. unfold Spec.colonTag.
    destruct (Spec.cut 58 line) as [[[|x a] b]|] eqn:Ecut;
      try apply execFrom_tail_none.
    unfold kt. rewrite (run_tag_text _ _ _ _ Hk0).
    destruct (Spec.tagText b) as [t|] eqn:Et.
    + unfold k0. eexists. split; [reflexivity|].
      pose proof (tagText_nonempty _ _ Et). cbn.
      destruct t; [congruence|]. auto.
    + apply execFrom_tail_none.
Qed.

End TagPattern.

(** ** Parsing a transcript *)

Section ParseTranscript.
Import JS RegExp TranscriptViewer.

Lemma value_null_dec (item : value) :
  {item = VNull} + {item = VUndefined}
  + {item <> VNull /\ item <> VUndefined}.
Proof.
  destruct item; auto; right; split; discriminate.
Qed.

Lemma get_prop (item : value) (k : string) :
  item <> VNull -> item <> VUndefined ->
  get item (lit k) = Normal (Spec.prop item k).
Proof.
  intros Hn Hu. destruct item; try congruence; try reflexivity.
  unfold get, Spec.prop. now destruct (lookup (lit k) props).
Qed.

Lemma orElse_normal (a b : value) :
  orElse a (Normal b) = Normal (or_else a b).
Proof. unfold orElse, or_else. now destruct (truthy a). Qed.

(** The callback on an element that is neither [null] nor [undefined]:
    only the call of [toLowerCase] can throw. *)
Lemma itemToMessage_object (item : value) :
  item <> VNull -> item <> VUndefined ->
  itemToMessage item
  = (lower <- callToLowerCase (or_else (Spec.rawSpeaker item) (VStr [])) ;;
     Normal (mkMessage
               (or_else (Spec.rawSpeaker item) (VStr (lit "Unknown")))
               (or_else (or_else (Spec.prop item "text")
                                 (Spec.prop item "content"))
                        (VStr []))
               (includes lower (lit "rep")))).
Proof.
  intros Hn Hu. unfold itemToMessage.
  rewrite !(get_prop _ _ Hn Hu). cbn [bind].
  rewrite !orElse_normal. reflexivity.
Qed.

(** A message can be built from an element exactly when the element is
    convertible. *)
Lemma itemToMessage_convertible (item : value) :
  if Spec.convertible item
  then exists m, itemToMessage item = Normal m
  else exists e, itemToMessage item = Throw e.
Proof.
  destruct (value_null_dec item) as [[->| ->]|[Hn Hu]];
    [simpl; eexists; reflexivity..|].
  rewrite (itemToMessage_object _ Hn Hu).
  assert (Hc : Spec.convertible item
               = match Spec.rawSpeaker item with
                 | VStr _ => true
                 | v => negb (truthy v)
                 end) by (destruct item; try reflexivity; congruence).
  rewrite Hc.
  destruct (Spec.rawSpeaker item) as [| |[|]|m e| [|c s] | |];
    unfold or_else; cbn [truthy];
    try destruct (numIsZero m e);
    cbn [negb bind callToLowerCase]; eexists; reflexivity.
Qed.

Lemma mapM_convertible (items : list value) :
  if forallb Spec.convertible items
  then exists ms, mapM itemToMessage items = Normal ms
                  /\ List.length ms = List.length items
  else exists e, mapM itemToMessage items = Throw e.
Proof.
  induction items as [|item items IH]; simpl.
  - exists []. auto.
  - pose proof (itemToMessage_convertible item) as Hitem.
    destruct (Spec.convertible item); simpl.
    + destruct Hitem as [m Hm]. rewrite Hm. simpl.
      destruct (forallb Spec.convertible items).
      * destruct IH as (ms & Hms & Hlen). rewrite Hms. simpl.
        exists (m :: ms). simpl. auto.
      * destruct IH as (e & He). rewrite He. simpl. eauto.
    + destruct Hitem as [e He]. rewrite He. simpl. eauto.
Qed.

(** The loop body on a tagged line: one more message. *)
Lemma step_tagged messages line who what :
  Spec.tagOf line = Some (who, what) ->
  step messages line
  = messages ++ [mkMessage (trim who) (trim what) (Spec.repLike (trim who))].
Proof.
  intros Htag. pose proof (exec_tagPattern line) as Hexec.
  rewrite Htag in Hexec. destruct Hexec as (caps & Hexec & Hwho & Hwhat).
  unfold step. rewrite Hexec, Hwho, Hwhat. reflexivity.
Qed.

(** The loop body on a line without a tag. *)
Lemma step_untagged messages line :
  Spec.tagOf line = None ->
  step messages line
  = match trim line with
    | [] => messages
    | c :: t =>
        match messages with
        | _ :: _ => appendToLast (c :: t) messages
        | [] => [mkMessage (lit "Unknown") (c :: t) false]
        end
    end.
Proof.
  intros Htag. pose proof (exec_tagPattern line) as Hexec.
  rewrite Htag in Hexec. unfold step. now rewrite Hexec.
Qed.

Lemma appendToLast_snoc extra init (last : ParsedMessage jsstring) :
  appendToLast extra (init ++ [last])
  = init ++ [mkMessage (speaker last) (text last ++ lit " " ++ extra)
                       (isRep last)].
Proof.
  induction init as [|m init IH]; [reflexivity|].
  cbn [app appendToLast]. rewrite IH.
  destruct (init ++ [last]) eqn:E; [|reflexivity].
  now destruct init.
Qed.

Lemma appendToLast_length extra messages :
  List.length (appendToLast extra messages) = List.length messages.
Proof.
  induction messages as [|m [|m' rest] IH]; trivial.
  change (appendToLast extra (m :: m' :: rest))
    with (m :: appendToLast extra (m' :: rest)).
  simpl List.length in *. now rewrite IH.
Qed.

Lemma appendToLast_Forall (P : ParsedMessage jsstring -> Prop) extra messages :
  (forall m t, P m -> P (mkMessage (speaker m) t (isRep m))) ->
  Forall P messages -> Forall P (appendToLast extra messages).
Proof.
  intros HP. induction messages as [|m [|m' rest] IH]; intros H.
  - constructor.
  - constructor; [|constructor]. apply HP. now inversion H.
  - change (appendToLast extra (m :: m' :: rest))
      with (m :: appendToLast extra (m' :: rest)).
    inversion H as [|? ? Hm Hrest]. subst. constructor; auto.
Qed.

(** Every message of the loop has its flag set from its speaker. *)
Lemma step_isRep messages line :
  Forall (fun m => isRep m = Spec.repLike (speaker m)) messages ->
  Forall (fun m => isRep m = Spec.repLike (speaker m)) (step messages line).
Proof.
  intros H. destruct (Spec.tagOf line) as [[who what]|] eqn:Htag.
  - rewrite (step_tagged _ _ _ _ Htag). apply Forall_app. split; trivial.
    constructor; [reflexivity|constructor].
  - rewrite (step_untagged _ _ Htag).
    destruct (trim line) as [|c t]; trivial.
    destruct messages as [|m rest].
    + constructor; [reflexivity|constructor].
    + apply appendToLast_Forall; trivial.
Qed.

Lemma fold_step_isRep lines messages :
  Forall (fun m => isRep m = Spec.repLike (speaker m)) messages ->
  Forall (fun m => isRep m = Spec.repLike (speaker m))
         (fold_left step lines messages).
Proof.
  revert messages. induction lines as [|l lines IH]; intros messages H;
    [exact H|].
  simpl. apply IH. now apply step_isRep.
Qed.

Lemma nonBlankLines_nonblank raw line :
  In line (nonBlankLines raw) -> trim line <> [].
Proof.
  unfold nonBlankLines. intros H. apply filter_In in H as [_ H].
  destruct (trim line); [discriminate|discriminate].
Qed.

(** One message per tagged line, and one more when the first line has
    no tag. *)
Lemma fold_step_length lines messages :
  (forall line, In line lines -> trim line <> []) ->
  List.length (fold_left step lines messages)
  = (List.length messages + List.length (filter Spec.tagged lines)
     + match messages, lines with
       | [], l :: _ => if Spec.tagged l then 0 else 1
       | _, _ => 0
       end)%nat.
Proof.
  revert messages. induction lines as [|l lines IH]; intros messages Hnb.
  - simpl. destruct messages; lia.
  - cbn [fold_left filter]. rewrite IH by (intros; apply Hnb; now right).
    destruct (Spec.tagOf l) as [[who what]|] eqn:Htag.
    + assert (Ht : Spec.tagged l = true)
        by (unfold Spec.tagged; now rewrite Htag).
      rewrite Ht, (step_tagged _ _ _ _ Htag), length_app.
      cbn [List.length].
      destruct (messages ++ [_]) eqn:E; [now destruct messages|].
      destruct messages; lia.
    + assert (Ht : Spec.tagged l = false)
        by (unfold Spec.tagged; now rewrite Htag).
      rewrite Ht, (step_untagged _ _ Htag).
      destruct (trim l) as [|c t] eqn:Et;
        [exfalso; apply (Hnb l); [now left|exact Et]|].
      destruct messages as [|m rest]; [simpl; lia|].
      rewrite appendToLast_length.
      destruct (appendToLast (c :: t) (m :: rest)) eqn:E.
      * apply (f_equal (@List.length _)) in E.
        rewrite appendToLast_length in E. discriminate.
      * simpl. lia.
Qed.

(** C10 (amended).  [parseTranscript] returns a list of messages for
    every input and never throws.  When the input parses as a JSON array
    all of whose elements are convertible (no element is [null], every
    speaker is a string or falsy) it yields one message per element; in
    every other case it reads the input line by line.  There, a non-blank
    line that the tag pattern matches yields one message whose flag is true
    exactly when the lowercased speaker contains [rep] or [sales]; a line
    without a tag is appended to the text of the preceding message, or
    starts a message of the speaker [Unknown] when none precedes it. *)
Theorem parseTranscript_total :
  (forall raw, exists messages, parseTranscript raw = Normal messages)
  /\ (forall raw items,
        JSON.parse raw = Normal (VArr items) ->
        forallb Spec.convertible items = true ->
        exists messages,
          parseTranscript raw = Normal messages
          /\ mapM itemToMessage items = Normal messages
          /\ List.length messages = List.length items)
  /\ (forall raw,
        (forall items, JSON.parse raw = Normal (VArr items) ->
                       forallb Spec.convertible items = false) ->
        parseTranscript raw = Normal (map asValues (parseLines raw)))
  /\ (forall messages line who what,
        Spec.tagOf line = Some (who, what) ->
        step messages line
        = messages ++ [mkMessage (trim who) (trim what)
                                 (Spec.repLike (trim who))])
  /\ (forall init last line,
        Spec.tagOf line = None -> trim line <> [] ->
        step (init ++ [last]) line
        = init ++ [mkMessage (speaker last)
                             (text last ++ lit " " ++ trim line)
                             (isRep last)])
  /\ (forall line,
        Spec.tagOf line = None -> trim line <> [] ->
        step [] line = [mkMessage (lit "Unknown") (trim line) false])
  /\ (forall raw m,
        In m (parseLines raw) -> isRep m = Spec.repLike (speaker m))
  /\ (forall raw,
        List.length (parseLines raw)
        = (List.length (filter Spec.tagged (nonBlankLines raw))
           + match nonBlankLines raw with
             | l :: _ => if Spec.tagged l then 0 else 1
             | [] => 0
             end)%nat).
Proof.
  split; [|split; [|split; [|split; [|split; [|split; [|split]]]]]].
  - intros raw. unfold parseTranscript.
    destruct (try_catch (tryJson raw) (Normal None)) as [[ms|]|e] eqn:E;
      cbn [bind]; eauto.
    unfold try_catch in E. destruct (tryJson raw); discriminate.
  - intros raw items Hparse Hconv.
    pose proof (mapM_convertible items) as H. rewrite Hconv in H.
    destruct H as (ms & Hms & Hlen). exists ms.
    unfold parseTranscript, tryJson. rewrite Hparse. cbn [bind].
    rewrite Hms. cbn. auto.
  - intros raw Hnot. unfold parseTranscript, tryJson.
    destruct (JSON.parse raw) as [v|e] eqn:Hparse; [|reflexivity].
    cbn [bind]. destruct v; try reflexivity.
    pose proof (mapM_convertible items) as H.
    rewrite (Hnot items eq_refl) in H. destruct H as [e He].
    rewrite He. reflexivity.
  - exact step_tagged.
  - intros init last line Htag Hnb.
    rewrite (step_untagged _ _ Htag).
    destruct (trim line) as [|c t]; [congruence|].
    rewrite <- appendToLast_snoc. now destruct (init ++ [last]) eqn:E;
      [destruct init|].
  - intros line Htag Hnb. rewrite (step_untagged _ _ Htag).
    now destruct (trim line).
  - intros raw m Hin. unfold parseLines in Hin.
    pose proof (fold_step_isRep (nonBlankLines raw) [] (Forall_nil _)) as H.
    rewrite Forall_forall in H. now apply H.
  - intros raw. unfold parseLines.
    rewrite fold_step_length by apply nonBlankLines_nonblank.
    reflexivity.
Qed.

End ParseTranscript.

(** ** The properties at concrete inputs *)

Section Instances.
Import JS Http HttpLog.

(** Saving the editor whose user template lacks the placeholder. *)
Lemma save_requires_placeholder_witness :
  includes (PromptTemplatesPage.userTemplate Examples.editorWithoutPlaceholder)
           (lit "{transcript}") = false
  /\ exists st' msg,
       run (PromptTemplatesPage.handleSave Examples.env
              Examples.editorWithoutPlaceholder) Examples.scenarioServer
       = (Normal st', [])
       /\ PromptTemplatesPage.error st' = Some msg
       /\ PromptTemplatesPage.isEditorOpen st'
          = PromptTemplatesPage.isEditorOpen Examples.editorWithoutPlaceholder
       /\ PromptTemplatesPage.templates st'
          = PromptTemplatesPage.templates Examples.editorWithoutPlaceholder.
Proof.
  assert (H : includes (PromptTemplatesPage.userTemplate
                          Examples.editorWithoutPlaceholder)
                       (lit "{transcript}") = false)
    by (vm_compute; reflexivity).
  split; [exact H|].
  exact (proj1 save_requires_placeholder Examples.env
               Examples.editorWithoutPlaceholder Examples.scenarioServer H).
Defined.

(** With the placeholder in place the editor does persist the template. *)
Lemma save_with_placeholder_persists :
  hd_error (requests (PromptTemplatesPage.handleSave Examples.env
                        Examples.editorWithPlaceholder)
                     Examples.scenarioServer)
  = Some Examples.createTemplateRequest.
Proof. vm_compute. reflexivity. Qed.

(** Renaming the example dataset. *)
Lemma dataset_edit_witness :
  EvaluationsPage.editingDataset Examples.datasetEditor
  = Some Examples.dataset
  /\ EvaluationDataset.id Examples.dataset <> []
  /\ In Examples.renameRequest
        (requests (EvaluationsPage.handleSave Examples.env
                     Examples.datasetEditor) Examples.scenarioServer)
  /\ (isRead Examples.renameRequest
      \/ Spec.renamesDataset Examples.env Examples.dataset
                             Examples.renameRequest).
Proof.
  assert (H1 : EvaluationsPage.editingDataset Examples.datasetEditor
               = Some Examples.dataset) by reflexivity.
  assert (H2 : EvaluationDataset.id Examples.dataset <> [])
    by (vm_compute; discriminate).
  assert (H3 : In Examples.renameRequest
                  (requests (EvaluationsPage.handleSave Examples.env
                               Examples.datasetEditor)
                            Examples.scenarioServer))
    by (vm_compute; left; reflexivity).
  split; [exact H1|]. split; [exact H2|]. split; [exact H3|].
  exact (dataset_edit_changes_only_name_and_description
           Examples.env Examples.datasetEditor Examples.scenarioServer
           Examples.dataset H1 H2 Examples.renameRequest H3).
Defined.

(** The steady store is what creating the three templates, the first one
    active, leads to; the fresh store is what creating them inactive
    leads to. *)
Lemma steadyStore_reachable : Backend.reachable Examples.steadyStore.
Proof.
  change Examples.steadyStore
    with (Backend.perform (Backend.Create (Examples.template "t3" false))
            (Backend.perform (Backend.Create (Examples.template "t2" false))
               (Backend.perform
                  (Backend.Create (Examples.template "t1" true)) []))).
  repeat apply Backend.reachable_apply. apply Backend.reachable_empty.
Qed.

Lemma freshStore_reachable : Backend.reachable Examples.freshStore.
Proof.
  change Examples.freshStore
    with (Backend.perform (Backend.Create (Examples.template "t3" false))
            (Backend.perform (Backend.Create (Examples.template "t2" false))
               (Backend.perform
                  (Backend.Create (Examples.template "t1" false)) []))).
  repeat apply Backend.reachable_apply. apply Backend.reachable_empty.
Qed.



(** Constant predictions correlate with nothing. *)
Lemma pearson_zero_variance_witness :
  List.length Examples.constantPredictions
  = List.length Examples.someTruths
  /\ Examples.constantPredictions <> []
  /\ (Spec.variance Examples.constantPredictions == 0
      \/ Spec.variance Examples.someTruths == 0)
  /\ Metrics.pearson_r Examples.constantPredictions Examples.someTruths
     = Metrics.Metric (Metrics.Finite 0)
  /\ Metrics.coefficient Examples.constantPredictions Examples.someTruths
     = Metrics.NaN.
Proof.
  assert (H1 : List.length Examples.constantPredictions
               = List.length Examples.someTruths) by reflexivity.
  assert (H2 : Examples.constantPredictions <> []) by discriminate.
  assert (H3 : Spec.variance Examples.constantPredictions == 0
               \/ Spec.variance Examples.someTruths == 0)
    by (left; vm_compute; reflexivity).
  split; [exact H1|]. split; [exact H2|]. split; [exact H3|].
  exact (pearson_zero_variance_is_zero _ _ H1 H2 H3).
Defined.



Lemma example_dates_valid :
  Spec.validDates JSDate.isoUtc
    [Examples.firstAssessment; Examples.secondAssessment;
     Examples.thirdAssessment].
Proof.
  intros a [<-|[<-|[<-|[]]]]; vm_compute; discriminate.
Qed.

(** Of three assessments of one transcript the page displays the one
    created last, wherever it stands in the list. *)
Lemma displayed_assessment_witness :
  [Examples.firstAssessment; Examples.secondAssessment;
   Examples.thirdAssessment] <> []
  /\ Spec.validDates JSDate.isoUtc
       [Examples.firstAssessment; Examples.secondAssessment;
        Examples.thirdAssessment]
  /\ exists sorted a,
       Permutation sorted [Examples.firstAssessment;
                           Examples.secondAssessment;
                           Examples.thirdAssessment]
       /\ StronglySorted (Spec.notEarlier JSDate.isoUtc) sorted
       /\ nth_error sorted 0 = Some a
       /\ AssessmentDetailPage.displayedAssessment JSDate.isoUtc
            [Examples.firstAssessment; Examples.secondAssessment;
             Examples.thirdAssessment] = Some a
       /\ Spec.latestOf JSDate.isoUtc
            [Examples.firstAssessment; Examples.secondAssessment;
             Examples.thirdAssessment] a.
Proof.
  assert (H1 : [Examples.firstAssessment; Examples.secondAssessment;
                Examples.thirdAssessment] <> []) by discriminate.
  split; [exact H1|]. split; [exact example_dates_valid|].
  exact (displayed_assessment_is_latest JSDate.isoUtc _ H1
                                        example_dates_valid).
Defined.

Lemma displayed_assessment_example :
  AssessmentDetailPage.displayedAssessment JSDate.isoUtc
    [Examples.firstAssessment; Examples.secondAssessment;
     Examples.thirdAssessment]
  = Some Examples.secondAssessment.
Proof. vm_compute. reflexivity. Qed.

Lemma lowForRep_spec (r : Representative.t) (a : Assessment.t) :
  Examples.lowForRep r a = true
  <-> Spec.attached [Examples.call] r a
      /\ Spec.mean (Spec.dimensionScores (Assessment.scores a)) < 3.
Proof.
  unfold Examples.lowForRep, Spec.attached.
  rewrite !andb_true_iff, str_eqb_eq, Z.eqb_eq, Qltb_spec. split.
  - intros [[Hr Ht] Hlow]. split; trivial.
    exists Examples.call. simpl. rewrite Hr, Ht. auto.
  - intros [(t & [<-|[]] & Hr & Ht) Hlow]. simpl in Hr, Ht.
    repeat split; trivial; congruence.
Qed.

(** The queue count of the example representative: the two low
    assessments of its one transcript both count, although the latest
    assessment of that transcript is above the threshold. *)
Lemma queueCount_witness :
  (forall r a,
      Examples.lowForRep r a = true
      <-> Spec.attached [Examples.call] r a
          /\ Spec.mean (Spec.dimensionScores (Assessment.scores a)) < 3)
  /\ map RepresentativeRow.queueCount
         (RepresentativesPage.aggregatedData JSDate.isoUtc JSDate.toISOString
            [Examples.rep] [Examples.call]
            [Examples.firstAssessment; Examples.secondAssessment;
             Examples.thirdAssessment])
     = map (fun r => List.length
                       (filter (Examples.lowForRep r)
                               [Examples.firstAssessment;
                                Examples.secondAssessment;
                                Examples.thirdAssessment]))
           [Examples.rep].
Proof.
  split; [exact lowForRep_spec|].
  exact (queueCount_counts_every_low_assessment
           JSDate.isoUtc JSDate.toISOString [Examples.rep] [Examples.call]
           [Examples.firstAssessment; Examples.secondAssessment;
            Examples.thirdAssessment]
           Examples.lowForRep lowForRep_spec).
Defined.

Lemma queueCount_example :
  map RepresentativeRow.queueCount
      (RepresentativesPage.aggregatedData JSDate.isoUtc JSDate.toISOString
         [Examples.rep] [Examples.call]
         [Examples.firstAssessment; Examples.secondAssessment;
          Examples.thirdAssessment])
  = [2%nat]
  /\ AssessmentDetailPage.displayedAssessment JSDate.isoUtc
       [Examples.firstAssessment; Examples.secondAssessment;
        Examples.thirdAssessment]
     = Some Examples.secondAssessment
  /\ RepresentativesPage.Qltb
       (RepresentativesPage.calculateCompositeScore
          (Assessment.scores Examples.secondAssessment))
       RepresentativesPage.QUEUE_THRESHOLD = false.
Proof. repeat split; vm_compute; reflexivity. Qed.

(** The structured transcript of the examples gives one message for its
    one element. *)
Lemma parseTranscript_witness :
  JSON.parse Examples.jsonTranscript = Normal (VArr Examples.jsonItems)
  /\ forallb Spec.convertible Examples.jsonItems = true
  /\ exists messages,
       TranscriptViewer.parseTranscript Examples.jsonTranscript
       = Normal messages
       /\ mapM TranscriptViewer.itemToMessage Examples.jsonItems
          = Normal messages
       /\ List.length messages = List.length Examples.jsonItems.
Proof.
  assert (H1 : JSON.parse Examples.jsonTranscript
               = Normal (VArr Examples.jsonItems))
    by (vm_compute; reflexivity).
  assert (H2 : forallb Spec.convertible Examples.jsonItems = true)
    by (vm_compute; reflexivity).
  split; [exact H1|]. split; [exact H2|].
  exact (proj1 (proj2 parseTranscript_total)
               Examples.jsonTranscript Examples.jsonItems H1 H2).
Defined.

Lemma parseTranscript_examples :
  TranscriptViewer.parseTranscript Examples.jsonTranscript
  = Normal [TranscriptViewer.mkMessage (VStr (lit "Sales Rep"))
                                       (VStr (lit "Hi")) true]
  /\ TranscriptViewer.parseTranscript Examples.plainTranscript
     = Normal [TranscriptViewer.mkMessage (VStr (lit "Rep"))
                 (VStr (lit "Hi. How are you?")) true]
  /\ TranscriptViewer.parseTranscript (lit "Rep: Hi. Buyer: Hello.")
     = Normal [TranscriptViewer.mkMessage (VStr (lit "Rep"))
                 (VStr (lit "Hi. Buyer: Hello.")) true].
Proof. repeat split; vm_compute; reflexivity. Qed.

(** C10 as stated fails.  The text [[null,null]] parses as a JSON array
    of two elements and yields one message, not two: building a message
    from [null] throws inside the [try] block and the input is read as
    plain text.  The line [Rep:] has a speaker prefix and yields a message
    of the speaker [Unknown] whose flag is false.  And a first line without
    a tag has no preceding message to be appended to: it becomes a message
    of its own. *)
Lemma parseTranscript_null_elements :
  JSON.parse (lit "[null,null]") = Normal (VArr [VNull; VNull])
  /\ TranscriptViewer.parseTranscript (lit "[null,null]")
     = Normal [TranscriptViewer.mkMessage (VStr (lit "Unknown"))
                 (VStr (lit "[null,null]")) false]
  /\ TranscriptViewer.parseTranscript (lit "Rep:")
     = Normal [TranscriptViewer.mkMessage (VStr (lit "Unknown"))
                 (VStr (lit "Rep:")) false]
  /\ Spec.repLike (lit "Rep") = true
  /\ TranscriptViewer.parseTranscript (lit "Hello there")
     = Normal [TranscriptViewer.mkMessage (VStr (lit "Unknown"))
                 (VStr (lit "Hello there")) false].
Proof. repeat split; vm_compute; reflexivity. Qed.

End Instances.

(* ================================================================== *)
(** * Part II, continued.  The tables, cards and dialogs                *)
(* ================================================================== *)

(** ** Maps and sets *)

Lemma find_app {A} (p : A -> bool) (l l' : list A) :
  find p (l ++ l')
  = match find p l with
    | Some x => Some x
    | None => find p l'
    end.
Proof.
  induction l as [|x l IH]; simpl; trivial. now destruct (p x).
Qed.

Section MapFacts.
Context {V : Type}.
Local Open Scope Z_scope.

Lemma get_set (k k' : Z) (v : V) (m : list (Z * V)) :
  JSMap.get k (JSMap.set k' v m)
  = if k =? k' then Some v else JSMap.get k m.
Proof.
  induction m as [|[k0 v0] m IH]; simpl.
  - reflexivity.
  - destruct (k' =? k0) eqn:E; simpl.
    + apply Z.eqb_eq in E. subst k0. now destruct (k =? k').
    + rewrite IH. destruct (k =? k0) eqn:E0; trivial.
      apply Z.eqb_eq in E0. subst k0.
      now rewrite Z.eqb_sym, E.
Qed.

Lemma get_fold_set (k : Z) (entries : list (Z * V)) (m : list (Z * V)) :
  JSMap.get k (fold_left (fun m e => JSMap.set (fst e) (snd e) m) entries m)
  = match find (fun e => fst e =? k) (rev entries) with
    | Some e => Some (snd e)
    | None => JSMap.get k m
    end.
Proof.
  revert m. induction entries as [|[k0 v0] es IH]; intros m; simpl.
  - reflexivity.
  - rewrite IH, find_app.
    destruct (find (fun e => fst e =? k) (rev es)); trivial.
    simpl. rewrite get_set, (Z.eqb_sym k0 k). now destruct (k =? k0).
Qed.

(** [new Map(entries).get(k)] is the value of the last entry for [k]. *)
Lemma get_ofEntries (k : Z) (entries : list (Z * V)) :
  JSMap.get k (JSMap.ofEntries entries)
  = option_map snd (find (fun e => fst e =? k) (rev entries)).
Proof.
  unfold JSMap.ofEntries. rewrite get_fold_set.
  now destruct (find _ _).
Qed.

End MapFacts.

Section SetFacts.
Context {K : Type}.
Variable eqb : K -> K -> bool.
Hypothesis eqb_eq : forall a b, eqb a b = true <-> a = b.

Lemma has_add (k k' : K) (s : list K) :
  JSSet.has eqb k (JSSet.add eqb k' s) = eqb k k' || JSSet.has eqb k s.
Proof.
  unfold JSSet.add. destruct (JSSet.has eqb k' s) eqn:E.
  - destruct (eqb k k') eqn:Ek; trivial.
    apply eqb_eq in Ek. now subst.
  - unfold JSSet.has. rewrite existsb_app. simpl.
    now rewrite orb_false_r, orb_comm.
Qed.

Lemma has_fold_add (k : K) (l s : list K) :
  JSSet.has eqb k (fold_left (fun s k => JSSet.add eqb k s) l s)
  = existsb (eqb k) l || JSSet.has eqb k s.
Proof.
  revert s. induction l as [|x l IH]; intros s; simpl; trivial.
  rewrite IH, has_add. now rewrite orb_assoc, (orb_comm (existsb _ l)).
Qed.

(** [new Set(l).has(k)] holds exactly for the elements of [l]. *)
Lemma has_ofList (k : K) (l : list K) :
  JSSet.has eqb k (JSSet.ofList eqb l) = existsb (eqb k) l.
Proof.
  unfold JSSet.ofList. rewrite has_fold_add. simpl. apply orb_false_r.
Qed.

Lemma add_NoDup (k : K) (s : list K) : NoDup s -> NoDup (JSSet.add eqb k s).
Proof.
  intros H. unfold JSSet.add. destruct (JSSet.has eqb k s) eqn:E; trivial.
  apply NoDup_app; trivial.
  - repeat constructor. intros [].
  - intros x Hx [Hk|[]]. subst x.
    assert (JSSet.has eqb k s = true); [|congruence].
    apply existsb_exists. exists k. split; trivial. now apply eqb_eq.
Qed.

Lemma In_add (x k : K) (s : list K) :
  In x (JSSet.add eqb k s) <-> x = k \/ In x s.
Proof.
  unfold JSSet.add. destruct (JSSet.has eqb k s) eqn:E.
  - split; [auto|]. intros [->|H]; trivial.
    apply existsb_exists in E as (y & Hy & Ey). apply eqb_eq in Ey.
    now subst.
  - rewrite in_app_iff. simpl. intuition.
Qed.

End SetFacts.

(** ** The rows of the transcripts table *)

Section TableRows.
Import JS TranscriptsTableData.
Local Open Scope Z_scope.

Lemma get_assessmentMap (k : Z) (assessments : list Assessment.t) :
  JSMap.get k (JSMap.ofEntries
                 (map (fun a => (Assessment.transcript_id a, a)) assessments))
  = Notions.lastListed k assessments.
Proof.
  rewrite get_ofEntries. unfold Notions.lastListed.
  rewrite <- map_rev.
  induction (rev assessments) as [|a l IH]; simpl; trivial.
  destruct (Assessment.transcript_id a =? k); trivial.
Qed.

Lemma lastListed_assessed (k : Z) (assessments : list Assessment.t) :
  Notions.assessed assessments k
  = match Notions.lastListed k assessments with
    | Some _ => true
    | None => false
    end.
Proof.
  unfold Notions.assessed, Notions.lastListed.
  destruct (find _ (rev assessments)) as [a|] eqn:E.
  - apply find_some in E as [Hin Hk]. apply existsb_exists.
    exists a. split; trivial. now apply in_rev.
  - apply not_true_is_false. intros H.
    apply existsb_exists in H as (a & Hin & Hk).
    apply in_rev in Hin. pose proof (find_none _ _ E a Hin). congruence.
Qed.

(** Where the last assessment of a transcript sits in the list. *)
Lemma lastListed_split (k : Z) (assessments : list Assessment.t)
  (a : Assessment.t) :
  Notions.lastListed k assessments = Some a ->
  exists before after,
    assessments = before ++ a :: after
    /\ Assessment.transcript_id a = k
    /\ Forall (fun a' => Assessment.transcript_id a' <> k) after.
Proof.
  unfold Notions.lastListed.
  induction assessments as [|x l IH] using rev_ind; [discriminate|].
  rewrite rev_app_distr. simpl.
  destruct (Assessment.transcript_id x =? k) eqn:E.
  - intros H. injection H as ->. exists l, [].
    split; [reflexivity|]. split; [now apply Z.eqb_eq|constructor].
  - intros H. destruct (IH H) as (before & after & Hl & Hk & Hafter).
    exists before, (after ++ [x]). rewrite Hl, <- app_assoc. simpl.
    split; [reflexivity|]. split; trivial.
    apply Forall_app. split; trivial. repeat constructor.
    now apply Z.eqb_neq.
Qed.

(** X1.  The transcripts table has one row per transcript, in the order
    of the transcripts.  A row shows the assessment that comes last in the
    list of assessments among those of its transcript (whatever their
    dates), with the composite score of that assessment; it is completed
    exactly when the list holds an assessment of its transcript, and
    pending with no score otherwise. *)
Theorem tableData_shows_last_listed_assessment
  (transcripts : list Transcript.t) (assessments : list Assessment.t) :
  map TranscriptRow.transcript (tableData transcripts assessments)
  = transcripts
  /\ Forall (fun row =>
       TranscriptRow.id row = Transcript.id (TranscriptRow.transcript row)
       /\ TranscriptRow.assessment row
          = Notions.lastListed (TranscriptRow.id row) assessments
       /\ (forall a, TranscriptRow.assessment row = Some a ->
             TranscriptRow.status row = TranscriptRow.completed
             /\ TranscriptRow.spinScore row
                = Some (TranscriptsTable.calculateCompositeScore
                          (Assessment.scores a))
             /\ exists before after,
                  assessments = before ++ a :: after
                  /\ Assessment.transcript_id a = TranscriptRow.id row
                  /\ Forall (fun a' => Assessment.transcript_id a'
                                       <> TranscriptRow.id row) after)
       /\ (TranscriptRow.assessment row = None ->
             TranscriptRow.status row = TranscriptRow.pending
             /\ TranscriptRow.spinScore row = None
             /\ Forall (fun a' => Assessment.transcript_id a'
                                  <> TranscriptRow.id row) assessments))
       (tableData transcripts assessments).
Proof.
  unfold tableData. split.
  - rewrite map_map. simpl. apply map_id.
  - apply Forall_map, Forall_forall. intros t _. simpl.
    rewrite get_assessmentMap.
    split; [reflexivity|]. split; [reflexivity|]. split.
    + intros a Ha. rewrite Ha. split; [reflexivity|].
      split; [reflexivity|]. now apply lastListed_split.
    + intros Hnone. rewrite Hnone. split; [reflexivity|].
      split; [reflexivity|].
      pose proof (lastListed_assessed (Transcript.id t) assessments) as H.
      rewrite Hnone in H. apply Forall_forall. intros a' Hin Hk.
      assert (Notions.assessed assessments (Transcript.id t) = true);
        [|congruence].
      apply existsb_exists. exists a'. split; trivial. now apply Z.eqb_eq.
Qed.

End TableRows.

(** ** The counts of the representative's detail page *)

Section DetailCounts.
Import JS.
Local Open Scope nat_scope.

Lemma filter_none {A} (l : list A) : filter (fun _ => false) l = [].
Proof. induction l; simpl; trivial. Qed.

Lemma filter_all_false {A} (p : A -> bool) (l : list A) :
  (forall x, In x l -> p x = false) -> filter p l = [].
Proof.
  induction l as [|x l IH]; intros H; simpl; trivial.
  rewrite (H x) by now left. apply IH. intros y Hy. apply H. now right.
Qed.

Lemma filter_length_negb {A} (p : A -> bool) (l : list A) :
  List.length (filter p l) + List.length (filter (fun x => negb (p x)) l)
  = List.length l.
Proof.
  induction l as [|x l IH]; simpl; trivial.
  destruct (p x); simpl; lia.
Qed.

Lemma filter_length_orb {A} (p q : A -> bool) (l : list A) :
  (forall x, In x l -> p x = true -> q x = true -> False) ->
  List.length (filter (fun x => p x || q x) l)
  = List.length (filter p l) + List.length (filter q l).
Proof.
  induction l as [|x l IH]; intros H; simpl; trivial.
  assert (IH' := IH (fun y Hy => H y (or_intror Hy))).
  destruct (p x) eqn:Ep, (q x) eqn:Eq; simpl; try lia.
  exfalso. apply (H x); auto. now left.
Qed.

Lemma filter_map_length {A B} (f : A -> B) (p : B -> bool) (l : list A) :
  List.length (filter p (map f l))
  = List.length (filter (fun x => p (f x)) l).
Proof.
  induction l as [|x l IH]; simpl; trivial.
  destruct (p (f x)); simpl; now rewrite IH.
Qed.

(** With distinct ids, at most one transcript has a given id. *)
Lemma length_filter_id (k : Z) (transcripts : list Transcript.t) :
  NoDup (map Transcript.id transcripts) ->
  List.length (filter (fun t => Z.eqb k (Transcript.id t)) transcripts)
  = if existsb (Z.eqb k) (map Transcript.id transcripts) then 1 else 0.
Proof.
  induction transcripts as [|t l IH]; simpl; trivial.
  intros H. inversion H as [|? ? Hnotin Hl]; subst.
  destruct (Z.eqb k (Transcript.id t)) eqn:E; simpl.
  - apply Z.eqb_eq in E. subst k.
    rewrite (filter_all_false _ l); trivial.
    intros x Hx. apply Z.eqb_neq. intros Heq. apply Hnotin.
    rewrite Heq. now apply in_map.
  - now apply IH.
Qed.

Lemma repAssessments_filter (transcripts : list Transcript.t)
  (assessments : list Assessment.t) :
  RepDetailTabs.repAssessments transcripts assessments
  = filter (fun a => existsb (Z.eqb (Assessment.transcript_id a))
                             (map Transcript.id transcripts)) assessments.
Proof.
  unfold RepDetailTabs.repAssessments. apply filter_ext. intros a.
  apply (has_ofList Z.eqb Z.eqb_eq).
Qed.

(** As many assessments belong to the transcripts as transcripts have an
    assessment, when no two transcripts share an id and no two assessments
    a transcript. *)
Lemma assessed_count (transcripts : list Transcript.t)
  (assessments : list Assessment.t) :
  NoDup (map Transcript.id transcripts) ->
  NoDup (map Assessment.transcript_id assessments) ->
  List.length (RepDetailTabs.repAssessments transcripts assessments)
  = List.length (filter (fun t => Notions.assessed assessments
                                                   (Transcript.id t))
                        transcripts).
Proof.
  intros Hts. rewrite repAssessments_filter.
  induction assessments as [|a l IH]; intros Has.
  - simpl. now rewrite filter_none.
  - inversion Has as [|? ? Hnotin Hl]; subst. simpl.
    rewrite (filter_length_orb
               (fun t => Z.eqb (Assessment.transcript_id a) (Transcript.id t))
               (fun t => Notions.assessed l (Transcript.id t))).
    + rewrite (length_filter_id _ _ Hts), <- (IH Hl).
      now destruct (existsb _ (map Transcript.id transcripts)).
    + intros t _ Hp Hq. apply Hnotin. apply Z.eqb_eq in Hp. rewrite Hp.
      apply existsb_exists in Hq as (a' & Hin & Ha').
      apply Z.eqb_eq in Ha'. rewrite <- Ha'. now apply in_map.
Qed.

Lemma tableData_status_length (s : TranscriptRow.Status)
  (transcripts : list Transcript.t) (assessments : list Assessment.t) :
  List.length
    (TranscriptsTableData.filteredData (TranscriptRow.statusText s)
       (TranscriptsTableData.tableData transcripts assessments))
  = List.length
      (filter (fun t =>
                 match s with
                 | TranscriptRow.completed =>
                     Notions.assessed assessments (Transcript.id t)
                 | TranscriptRow.pending =>
                     negb (Notions.assessed assessments (Transcript.id t))
                 end) transcripts).
Proof.
  unfold TranscriptsTableData.filteredData, TranscriptsTableData.tableData.
  assert (Hall : str_eqb (TranscriptRow.statusText s) (lit "all") = false)
    by now destruct s.
  rewrite Hall, filter_map_length. f_equal. apply filter_ext. intros t.
  simpl. rewrite get_assessmentMap, lastListed_assessed.
  destruct (Notions.lastListed _ _), s; reflexivity.
Qed.

(** X2.  On the representative's detail page the completed and the pending
    count add up to the number of conversations.  When no two conversations
    share an id and no conversation has two assessments, the two counts are
    the numbers of rows the transcripts table shows under its
    [completed] and [pending] filters. *)
Theorem detail_counts_match_table_filters
  (getTime : JSDate.parser) (formatLong : option Z -> jsstring)
  (transcripts : list Transcript.t) (assessments : list Assessment.t)
  (Hids : NoDup (map Transcript.id transcripts))
  (Hone : NoDup (map Assessment.transcript_id assessments)) :
  let m := RepDetailTabs.metrics getTime formatLong transcripts
             (RepDetailTabs.repAssessments transcripts assessments) in
  let rows := TranscriptsTableData.tableData transcripts assessments in
  (Z.of_nat (RepDetailTabs.completedCount m) + RepDetailTabs.pendingCount m
   = Z.of_nat (RepDetailTabs.totalConversations m))%Z
  /\ RepDetailTabs.completedCount m
     = List.length (TranscriptsTableData.filteredData (lit "completed") rows)
  /\ RepDetailTabs.pendingCount m
     = Z.of_nat (List.length
                   (TranscriptsTableData.filteredData (lit "pending") rows)).
Proof.
  intros m rows. subst m rows. cbn [RepDetailTabs.completedCount
    RepDetailTabs.pendingCount RepDetailTabs.totalConversations
    RepDetailTabs.metrics].
  pose proof (assessed_count _ _ Hids Hone) as Hc.
  pose proof (tableData_status_length TranscriptRow.completed
                transcripts assessments) as H1.
  pose proof (tableData_status_length TranscriptRow.pending
                transcripts assessments) as H2.
  pose proof (filter_length_negb
                (fun t => Notions.assessed assessments (Transcript.id t))
                transcripts) as Hsum.
  cbn [TranscriptRow.statusText] in H1, H2.
  split; [lia|]. split; [lia|]. lia.
Qed.

End DetailCounts.

(** ** The score column and the score bands *)

Section ScoreBands.
Import JS.

Ltac qbool :=
  repeat match goal with
         | |- context [Qle_bool ?a ?b] =>
             let E := fresh "E" in
             destruct (Qle_bool a b) eqn:E;
             [apply Qle_bool_iff in E
             |apply not_true_iff_false in E; rewrite Qle_bool_iff in E]
         end.

(** X3.  The comparator of the score column is a consistent one: it is
    antisymmetric and transitive, it orders two scores by their values,
    and a row without a score comes after every row with one (two rows
    without a score compare equal). *)
Theorem sortingFn_orders_scores_before_pending :
  (forall a b, TranscriptsTableData.sortingFn a b
               == - TranscriptsTableData.sortingFn b a)
  /\ (forall a b c,
        TranscriptsTableData.sortingFn a b <= 0 ->
        TranscriptsTableData.sortingFn b c <= 0 ->
        TranscriptsTableData.sortingFn a c <= 0)
  /\ (forall x y, TranscriptsTableData.sortingFn (Some x) (Some y) < 0
                  <-> x < y)
  /\ (forall x, TranscriptsTableData.sortingFn (Some x) None < 0)
  /\ (forall a b, TranscriptsTableData.sortingFn a b == 0 <->
                  match a, b with
                  | Some x, Some y => x == y
                  | None, None => True
                  | _, _ => False
                  end).
Proof.
  unfold TranscriptsTableData.sortingFn.
  split; [|split; [|split; [|split]]].
  - intros [x|] [y|]; Lqa.lra.
  - intros [x|] [y|] [z|]; Lqa.lra.
  - intros x y. split; Lqa.lra.
  - intros x. Lqa.lra.
  - intros [x|] [y|]; split; try Lqa.lra; intros H; try easy.
Qed.

Ltac bands :=
  qbool; repeat split; intros;
  repeat match goal with
         | H : _ /\ _ |- _ => destruct H
         end;
  try reflexivity; try Lqa.lra;
  try match goal with
      | H : @eq jsstring _ _ |- _ => cbv in H; discriminate H
      | H : @eq jsstring _ _, H' : @eq jsstring _ _ |- _ =>
          first [cbv in H; discriminate H | cbv in H'; discriminate H']
      end.

(** X4.  The transcripts table and the overall score card colour the
    same composite score in different bands between 3.5 and 4: the table
    turns green from 3.5 on, the card from 4 on.  Both are red exactly
    below 3, and in each component the background follows the text
    colour. *)
Theorem table_and_card_disagree_between_3_5_and_4 (s : Q) :
  let table := TranscriptsTableData.getScoreColor (Some s) in
  let card := OverallScoreCard.getScoreColor s in
  (table = lit "text-emerald-400" <-> (7 # 2) <= s)
  /\ (card = lit "text-emerald-400" <-> 4 <= s)
  /\ (table = lit "text-emerald-400" /\ card = lit "text-amber-400"
      <-> (7 # 2) <= s /\ s < 4)
  /\ (table = lit "text-rose-400" <-> s < 3)
  /\ (card = lit "text-rose-400" <-> s < 3)
  /\ (TranscriptsTableData.getScoreBgColor (Some s) = lit "bg-emerald-900/40"
      <-> table = lit "text-emerald-400")
  /\ (TranscriptsTableData.getScoreBgColor (Some s) = lit "bg-rose-900/40"
      <-> table = lit "text-rose-400")
  /\ (OverallScoreCard.getScoreBgColor s = lit "bg-emerald-500/20"
      <-> card = lit "text-emerald-400")
  /\ (OverallScoreCard.getScoreBgColor s = lit "bg-rose-500/20"
      <-> card = lit "text-rose-400").
Proof.
  intros table card. subst table card.
  unfold TranscriptsTableData.getScoreColor, OverallScoreCard.getScoreColor,
    TranscriptsTableData.getScoreBgColor, OverallScoreCard.getScoreBgColor.
  bands.
Qed.

(** X5.  On the assessment page the bar colour, the label colour and the
    semantic label of a score always name the same band: [Good] is green,
    [Average] is amber, [Below average] and [Poor] are red; the quality
    row uses the same bands as the SPIN chart. *)
Theorem labels_and_colours_name_the_same_band (s : Q) :
  (SpinScoresChart.getSemanticLabel s = lit "Good"
   <-> SpinScoresChart.getBarColor s = lit "#34d399")
  /\ (SpinScoresChart.getSemanticLabel s = lit "Good"
      <-> SpinScoresChart.getLabelColor s = lit "text-emerald-400")
  /\ (SpinScoresChart.getSemanticLabel s = lit "Average"
      <-> SpinScoresChart.getBarColor s = lit "#fbbf24")
  /\ (SpinScoresChart.getSemanticLabel s = lit "Average"
      <-> SpinScoresChart.getLabelColor s = lit "text-amber-400")
  /\ (SpinScoresChart.getSemanticLabel s = lit "Below average"
      \/ SpinScoresChart.getSemanticLabel s = lit "Poor"
      <-> SpinScoresChart.getBarColor s = lit "#f87171")
  /\ (SpinScoresChart.getBarColor s = lit "#f87171"
      <-> SpinScoresChart.getLabelColor s = lit "text-rose-400")
  /\ QualityScoresRow.getSemanticLabel s = SpinScoresChart.getSemanticLabel s
  /\ QualityScoresRow.getScoreColor s = SpinScoresChart.getLabelColor s
  /\ (QualityScoresRow.getScoreBgColor s
      = lit "bg-emerald-500/10 border-emerald-500/20"
      <-> QualityScoresRow.getSemanticLabel s = lit "Good")
  /\ (QualityScoresRow.getScoreBgColor s
      = lit "bg-rose-500/10 border-rose-500/20"
      <-> s < 3).
Proof.
  unfold SpinScoresChart.getSemanticLabel, SpinScoresChart.getBarColor,
    SpinScoresChart.getLabelColor, QualityScoresRow.getSemanticLabel,
    QualityScoresRow.getScoreColor, QualityScoresRow.getScoreBgColor.
  bands; try (left; reflexivity); try (right; reflexivity);
    try match goal with
        | H : _ \/ _ |- _ => destruct H as [H|H]; cbv in H; discriminate H
        end.
Qed.

End ScoreBands.

(** ** Sorting by a date *)

Section KeySort.
Context {A : Type}.
Variable cmp : A -> A -> option Z.
Variable key : A -> Z.
Local Open Scope Z_scope.

Lemma insert_by_key (x : A) (l : list A) :
  (forall a b, In a (x :: l) -> In b (x :: l) ->
               JSArray.sortCompare cmp a b = key a - key b) ->
  StronglySorted (fun a b => key a <= key b) l ->
  StronglySorted (fun a b => key a <= key b) (JSArray.insert cmp x l).
Proof.
  intros Hcmp Hsorted.
  induction Hsorted as [|y l Hs IH Hall]; simpl.
  - constructor; constructor.
  - rewrite Hcmp by (simpl; auto).
    destruct (key x - key y <=? 0) eqn:E.
    + apply Z.leb_le in E. constructor; [now constructor|].
      constructor; [lia|].
      rewrite Forall_forall in *. intros b Hb. specialize (Hall b Hb). lia.
    + apply Z.leb_gt in E. constructor.
      * apply IH. intros a b Ha Hb. apply Hcmp; simpl in *; intuition.
      * rewrite Forall_forall in *. intros b Hb.
        apply (Permutation_in _ (insert_perm cmp x l)) in Hb.
        destruct Hb as [<-|Hb]; [lia|now apply Hall].
Qed.

(** A comparator that is the difference of a key sorts by the key. *)
Lemma sort_by_key (l : list A) :
  (forall a b, In a l -> In b l ->
               JSArray.sortCompare cmp a b = key a - key b) ->
  StronglySorted (fun a b => key a <= key b) (JSArray.sort cmp l).
Proof.
  induction l as [|x l IH]; intros Hcmp; simpl; [constructor|].
  apply insert_by_key.
  - intros a b Ha Hb. apply Hcmp.
    + destruct Ha as [<-|Ha]; [now left|right].
      now apply (Permutation_in _ (sort_perm cmp l)).
    + destruct Hb as [<-|Hb]; [now left|right].
      now apply (Permutation_in _ (sort_perm cmp l)).
  - apply IH. intros a b Ha Hb. apply Hcmp; now right.
Qed.

End KeySort.

Lemma StronglySorted_app_inv {A} (R : A -> A -> Prop) (l1 l2 : list A) :
  StronglySorted R (l1 ++ l2) ->
  StronglySorted R l1
  /\ forall a b, In a l1 -> In b l2 -> R a b.
Proof.
  induction l1 as [|x l1 IH]; simpl; intros H.
  - split; [constructor|intros a b []].
  - apply StronglySorted_inv in H as [Hs Hall].
    destruct (IH Hs) as [H1 H2]. split.
    + constructor; trivial. rewrite Forall_forall in *.
      intros b Hb. apply Hall. apply in_or_app. now left.
    + intros a b [<-|Ha] Hb; [|now apply H2].
      rewrite Forall_forall in Hall. apply Hall. apply in_or_app. now right.
Qed.

Lemma StronglySorted_weaken {A} (R R' : A -> A -> Prop) (l : list A) :
  (forall a b, In a l -> In b l -> R a b -> R' a b) ->
  StronglySorted R l -> StronglySorted R' l.
Proof.
  intros H Hs. induction Hs as [|x l Hs IH Hall]; constructor.
  - apply IH. intros a b Ha Hb. apply H; now right.
  - rewrite Forall_forall in *. intros b Hb.
    apply H; [now left|now right|now apply Hall].
Qed.

(** ** The chart and the recent conversations of the detail page *)

Section DetailLists.
Import JS RepDetailTabs.
Variable getTime : JSDate.parser.
Variable formatLong formatShort formatWithTime : option Z -> jsstring.

Local Abbreviation timeKey := (Notions.timeKey getTime).

Lemma dated_time (l : list Transcript.t) (t : Transcript.t) :
  Notions.datedTranscripts getTime l -> In t l ->
  Notions.time getTime t = Some (timeKey t).
Proof.
  intros Hd Hin. unfold Notions.datedTranscripts in Hd.
  rewrite Forall_forall in Hd. specialize (Hd t Hin). unfold Notions.timeKey.
  now destruct (Notions.time getTime t).
Qed.

Lemma sort_ascending (l : list Transcript.t) :
  Notions.datedTranscripts getTime l ->
  StronglySorted (Notions.notLater getTime)
                 (JSArray.sort (byCreatedAtAsc getTime) l).
Proof.
  intros Hd.
  apply (StronglySorted_weaken (fun a b => (timeKey a <= timeKey b)%Z)).
  - intros a b Ha Hb Hle.
    apply (Permutation_in _ (sort_perm _ l)) in Ha, Hb.
    unfold Notions.notLater.
    now rewrite (dated_time l a Hd Ha), (dated_time l b Hd Hb).
  - apply sort_by_key. intros a b Ha Hb.
    unfold JSArray.sortCompare, byCreatedAtAsc.
    fold (Notions.time getTime a). fold (Notions.time getTime b).
    now rewrite (dated_time l a Hd Ha), (dated_time l b Hd Hb).
Qed.

Lemma sort_descending_transcripts (l : list Transcript.t) :
  Notions.datedTranscripts getTime l ->
  StronglySorted (fun a b => Notions.notLater getTime b a)
                 (JSArray.sort (byCreatedAtDesc getTime) l).
Proof.
  intros Hd.
  apply (StronglySorted_weaken (fun a b => (- timeKey a <= - timeKey b)%Z)).
  - intros a b Ha Hb Hle.
    apply (Permutation_in _ (sort_perm _ l)) in Ha, Hb.
    unfold Notions.notLater.
    rewrite (dated_time l a Hd Ha), (dated_time l b Hd Hb). lia.
  - apply sort_by_key. intros a b Ha Hb.
    unfold JSArray.sortCompare, byCreatedAtDesc.
    fold (Notions.time getTime a). fold (Notions.time getTime b).
    rewrite (dated_time l a Hd Ha), (dated_time l b Hd Hb). simpl. lia.
Qed.

(** Rounding to two decimals moves a number by at most half a
    hundredth. *)
Lemma parseFloatToFixed2_close (x : Q) :
  Qabs (JSNumber.parseFloatToFixed2 x - x) <= 1 # 200.
Proof.
  unfold JSNumber.parseFloatToFixed2, JSNumber.nearestHundredths.
  destruct (Qle_bool (inject_Z (10 ^ 21)) (Qabs x)).
  - setoid_replace (x - x) with 0 by ring. discriminate.
  - apply Qabs_Qle_condition. unfold Qdiv. change (/ 100) with (1 # 100).
    destruct (Qle_bool 0 x).
    + pose proof (Qfloor_le (x * 100 + (1 # 2))) as H1.
      pose proof (Qlt_floor (x * 100 + (1 # 2))) as H2.
      rewrite inject_Z_plus in H2. change (inject_Z 1) with 1 in H2.
      split; Lqa.lra.
    + pose proof (Qfloor_le (- x * 100 + (1 # 2))) as H1.
      pose proof (Qlt_floor (- x * 100 + (1 # 2))) as H2.
      rewrite inject_Z_plus in H2. change (inject_Z 1) with 1 in H2.
      split; Lqa.lra.
Qed.

Lemma mapM_normal {A B} (f : A -> completion B) (g : A -> B) (l : list A) :
  (forall x, In x l -> f x = Normal (g x)) ->
  mapM f l = Normal (map g l).
Proof.
  induction l as [|x l IH]; intros H; simpl; trivial.
  rewrite (H x) by now left. simpl.
  rewrite IH by (intros y Hy; apply H; now right). reflexivity.
Qed.

Lemma Forall2_map_r {A B} (R : A -> B -> Prop) (g : A -> B) (l : list A) :
  (forall x, In x l -> R x (g x)) -> Forall2 R l (map g l).
Proof.
  induction l as [|x l IH]; intros H; simpl; constructor.
  - apply H. now left.
  - apply IH. intros y Hy. apply H. now right.
Qed.

(** X6.  The chart of the detail page never fails on conversations with
    valid dates.  It has one point per conversation that has an assessment,
    in ascending order of the conversations' dates, and the score of a
    point is the composite score of the last listed assessment of its
    conversation rounded to two decimals, at most 0.005 away from it. *)
Theorem chartData_one_point_per_assessed_conversation
  (transcripts : list Transcript.t) (assessments : list Assessment.t)
  (Hdated : Notions.datedTranscripts getTime transcripts) :
  exists sorted points,
    chartData getTime formatLong formatShort transcripts assessments
    = Normal points
    /\ Permutation sorted
         (filter (fun t => Notions.assessed assessments (Transcript.id t))
                 transcripts)
    /\ StronglySorted (Notions.notLater getTime) sorted
    /\ Forall2
         (fun t p =>
            formattedDate p = formatLong (Notions.time getTime t)
            /\ date p = formatShort (Notions.time getTime t)
            /\ exists a,
                 Notions.lastListed (Transcript.id t) assessments = Some a
                 /\ spinScore p
                    = JSNumber.parseFloatToFixed2
                        (calculateCompositeScore (Assessment.scores a))
                 /\ Qabs (spinScore p
                          - calculateCompositeScore (Assessment.scores a))
                    <= 1 # 200)
         sorted points.
Proof.
  unfold chartData.
  set (m := JSMap.ofEntries _).
  assert (Hfilter :
    filter (fun t => JSMap.has (Transcript.id t) m) transcripts
    = filter (fun t => Notions.assessed assessments (Transcript.id t))
             transcripts).
  { apply filter_ext. intros t. unfold JSMap.has, m.
    now rewrite get_assessmentMap, lastListed_assessed. }
  rewrite Hfilter.
  set (kept := filter _ transcripts).
  set (sorted := JSArray.sort (byCreatedAtAsc getTime) kept).
  assert (Hperm : Permutation sorted kept) by apply sort_perm.
  assert (Hkept : forall t, In t sorted ->
            exists a, Notions.lastListed (Transcript.id t) assessments
                      = Some a).
  { intros t Ht. apply (Permutation_in _ Hperm) in Ht.
    apply filter_In in Ht as [_ Ht].
    rewrite lastListed_assessed in Ht.
    destruct (Notions.lastListed _ _) as [a|]; [eauto|discriminate]. }
  set (point := fun t =>
    match Notions.lastListed (Transcript.id t) assessments with
    | Some a =>
        {| date := formatShort (Notions.time getTime t);
           title := lit "Conversation with "
                    ++ TranscriptViewer.orStr (Transcript.buyer_id t)
                                              (lit "Unknown");
           formattedDate := formatLong (Notions.time getTime t);
           spinScore := JSNumber.parseFloatToFixed2
                          (calculateCompositeScore (Assessment.scores a)) |}
    | None => mkPoint [] [] [] 0
    end).
  exists sorted, (map point sorted).
  split; [|split; [exact Hperm|split]].
  - apply mapM_normal. intros t Ht. unfold chartPoint, point, m.
    rewrite get_assessmentMap. destruct (Hkept t Ht) as [a ->].
    reflexivity.
  - apply sort_ascending. unfold Notions.datedTranscripts in *.
    rewrite Forall_forall in *. intros t Ht. apply Hdated.
    now apply filter_In in Ht as [Ht _].
  - apply Forall2_map_r. intros t Ht. unfold point.
    destruct (Hkept t Ht) as [a Ha]. rewrite Ha. simpl.
    split; [reflexivity|]. split; [reflexivity|].
    exists a. split; [reflexivity|]. split; [reflexivity|].
    apply parseFloatToFixed2_close.
Qed.

(** X7.  The detail page lists at most five recent conversations: the
    first five of the conversations in descending order of their dates.
    With valid dates none of the conversations left out is later than a
    listed one; a listed conversation carries the composite score of the
    last listed assessment of its transcript, or is pending. *)
Theorem recentConversations_are_the_latest_five
  (transcripts : list Transcript.t) (assessments : list Assessment.t)
  (Hdated : Notions.datedTranscripts getTime transcripts) :
  let recent := recentTranscripts getTime transcripts in
  List.length recent = Nat.min 5 (List.length transcripts)
  /\ StronglySorted (fun a b => Notions.notLater getTime b a) recent
  /\ (exists rest,
        Permutation (recent ++ rest) transcripts
        /\ forall a b, In a recent -> In b rest ->
                       Notions.notLater getTime b a)
  /\ Forall2
       (fun t c =>
          id c = Transcript.id t
          /\ score c
             = option_map (fun a => calculateCompositeScore
                                      (Assessment.scores a))
                 (Notions.lastListed (Transcript.id t) assessments)
          /\ (status c = TranscriptRow.completed
              <-> Notions.assessed assessments (Transcript.id t) = true))
       recent
       (recentConversations getTime formatWithTime transcripts assessments).
Proof.
  intros recent. subst recent. unfold recentTranscripts.
  set (sorted := JSArray.sort (byCreatedAtDesc getTime) transcripts).
  assert (Hperm : Permutation sorted transcripts) by apply sort_perm.
  assert (Hs : StronglySorted (fun a b => Notions.notLater getTime b a)
                              sorted)
    by now apply sort_descending_transcripts.
  rewrite <- (firstn_skipn 5 sorted) in Hs.
  apply StronglySorted_app_inv in Hs as [Hs1 Hs2].
  split; [|split; [exact Hs1|split]].
  - rewrite length_firstn, (Permutation_length Hperm). reflexivity.
  - exists (skipn 5 sorted). rewrite firstn_skipn. split; trivial.
  - unfold recentConversations, recentTranscripts. fold sorted.
    apply Forall2_map_r. intros t _. simpl.
    rewrite get_assessmentMap, lastListed_assessed.
    destruct (Notions.lastListed _ _); simpl; repeat split; trivial;
      discriminate.
Qed.

End DetailLists.

(** ** The rows of the representatives page *)

Section RepresentativeRows.
Import JS RepresentativesPage.
Variable getTime : JSDate.parser.
Variable toISOString : Z -> jsstring.

Lemma inject_length_succ {A} (a : A) (l : list A) :
  inject_Z (Z.of_nat (List.length (a :: l)))
  == inject_Z (Z.of_nat (List.length l)) + 1.
Proof.
  simpl List.length. rewrite Nat2Z.inj_succ, <- Z.add_1_r, inject_Z_plus.
  reflexivity.
Qed.

Lemma total_lower_bound {A} (f : A -> Q) (c : Q) (l : list A) (acc : Q) :
  (forall a, In a l -> c <= f a) ->
  acc + c * inject_Z (Z.of_nat (List.length l))
  <= fold_left (fun sum a => sum + f a) l acc.
Proof.
  revert acc. induction l as [|a l IH]; intros acc H.
  - simpl. change (inject_Z 0) with 0. Lqa.lra.
  - rewrite inject_length_succ. simpl fold_left.
    specialize (IH (acc + f a) (fun b Hb => H b (or_intror Hb))).
    specialize (H a (or_introl eq_refl)). Lqa.lra.
Qed.

Lemma total_upper_bound {A} (f : A -> Q) (c : Q) (l : list A) (acc : Q) :
  (forall a, In a l -> f a < c) -> l <> [] ->
  fold_left (fun sum a => sum + f a) l acc
  < acc + c * inject_Z (Z.of_nat (List.length l)).
Proof.
  revert acc. induction l as [|a l IH]; intros acc H Hne; [congruence|].
  rewrite inject_length_succ. simpl fold_left.
  pose proof (H a (or_introl eq_refl)) as Ha.
  destruct l as [|b l].
  - simpl. change (inject_Z 0) with 0. Lqa.lra.
  - specialize (IH (acc + f a) (fun b Hb => H b (or_intror Hb))).
    assert (Hne' : b :: l <> []) by discriminate.
    specialize (IH Hne'). Lqa.lra.
Qed.

Lemma length_pos_Q {A} (a : A) (l : list A) :
  0 < inject_Z (Z.of_nat (List.length (a :: l))).
Proof.
  rewrite inject_length_succ.
  assert (0 <= inject_Z (Z.of_nat (List.length l))); [|Lqa.lra].
  change 0 with (inject_Z 0). rewrite <- Zle_Qle. lia.
Qed.

Lemma div_lt_iff (t n c : Q) : 0 < n -> (t / n < c <-> t < c * n).
Proof.
  intros Hn. split; intros H.
  - assert (Heq : t == t / n * n)
      by (field; intros Hz; rewrite Hz in Hn; discriminate).
    rewrite Heq. now apply Qmult_lt_compat_r.
  - now apply Qlt_shift_div_r.
Qed.

Lemma filter_all_true {A} (p : A -> bool) (l : list A) :
  List.length (filter p l) = List.length l -> forall x, In x l -> p x = true.
Proof.
  induction l as [|a l IH]; simpl; intros H x; [intros []|].
  pose proof (filter_length_le p l) as Hle.
  destruct (p a) eqn:E; simpl in H; [|lia].
  intros [<-|Hx]; trivial. apply IH; trivial. lia.
Qed.

(** X8.  A representative's average score is missing exactly when no
    assessment belongs to the representative's conversations, and then the
    coaching queue is empty.  An average below the queue threshold of 3
    means at least one conversation is in the queue; when every assessment
    is in the queue the average is below the threshold. *)
Theorem low_average_means_queued_conversations
  (transcripts : list Transcript.t) (assessments : list Assessment.t)
  (rep : Representative.t) :
  let row := aggregateRow getTime toISOString transcripts assessments rep in
  let counted :=
    repAssessmentsOf (repTranscriptsOf transcripts rep) assessments in
  (RepresentativeRow.avgSpinScore row = None <-> counted = [])
  /\ (counted = [] -> RepresentativeRow.queueCount row = 0%nat)
  /\ (RepresentativeRow.queueCount row <= List.length counted)%nat
  /\ (forall avg, RepresentativeRow.avgSpinScore row = Some avg ->
                  avg < QUEUE_THRESHOLD ->
                  (1 <= RepresentativeRow.queueCount row)%nat)
  /\ (forall avg, RepresentativeRow.avgSpinScore row = Some avg ->
                  RepresentativeRow.queueCount row = List.length counted ->
                  avg < QUEUE_THRESHOLD).
Proof.
  intros row counted. subst row. unfold aggregateRow.
  cbn [RepresentativeRow.avgSpinScore RepresentativeRow.queueCount].
  fold counted.
  pose (score := fun a => calculateCompositeScore (Assessment.scores a)).
  pose (low := fun a => Qltb (score a) QUEUE_THRESHOLD).
  change (filter _ counted) with (filter low counted).
  change (fold_left _ counted 0)
    with (fold_left (fun sum a => sum + score a) counted 0).
  clearbody counted.
  split; [|split; [|split; [|split]]].
  - destruct counted; split; intros H; congruence.
  - intros ->. reflexivity.
  - apply filter_length_le.
  - intros avg Havg Hlow.
    destruct counted as [|a l]; [discriminate|].
    injection Havg as <-.
    destruct (filter low (a :: l)) as [|b k] eqn:Ef;
      [|simpl List.length; lia].
    exfalso.
    assert (Hall : forall x, In x (a :: l) -> QUEUE_THRESHOLD <= score x).
    { intros x Hx. apply Qnot_lt_le. intros Hlt.
      assert (Hin : In x (filter low (a :: l))).
      { apply filter_In. split; trivial. now apply Qltb_spec. }
      rewrite Ef in Hin. destruct Hin. }
    pose proof (total_lower_bound score QUEUE_THRESHOLD (a :: l) 0 Hall)
      as Hb.
    apply div_lt_iff in Hlow; [|apply (length_pos_Q a l)].
    rewrite Qplus_0_l in Hb.
    apply (Qlt_irrefl (QUEUE_THRESHOLD
                       * inject_Z (Z.of_nat (List.length (a :: l))))).
    eapply Qle_lt_trans; [exact Hb|exact Hlow].
  - intros avg Havg Hall.
    destruct counted as [|a l]; [discriminate|].
    injection Havg as <-.
    assert (Hlow : forall x, In x (a :: l) -> score x < QUEUE_THRESHOLD).
    { intros x Hx. apply Qltb_spec.
      now apply (filter_all_true low (a :: l) Hall). }
    assert (Hne : a :: l <> []) by discriminate.
    pose proof (total_upper_bound score QUEUE_THRESHOLD (a :: l) 0 Hlow Hne)
      as Hb.
    apply div_lt_iff; [apply (length_pos_Q a l)|].
    rewrite Qplus_0_l in Hb. exact Hb.
Qed.

End RepresentativeRows.

Section RepresentativeRows2.
Import JS RepresentativesPage.
Variable getTime : JSDate.parser.
Variable toISOString : Z -> jsstring.
Local Open Scope Z_scope.

Lemma fold_max_none (times : list (option Z)) :
  fold_left JSDate.max times None = None.
Proof. induction times as [|t l IH]; simpl; trivial. Qed.

Lemma fold_max_invalid (times : list (option Z)) (acc : option Z) :
  In None times -> fold_left JSDate.max times acc = None.
Proof.
  revert acc. induction times as [|t l IH]; intros acc; [intros []|].
  intros [->|H]; simpl.
  - destruct acc; apply fold_max_none.
  - now apply IH.
Qed.

Lemma fold_max_valid (times : list (option Z)) (m0 : Z) :
  Forall (fun o => o <> None) times ->
  exists m,
    fold_left JSDate.max times (Some m0) = Some m
    /\ m0 <= m
    /\ (forall x, In (Some x) times -> x <= m)
    /\ (m = m0 \/ In (Some m) times).
Proof.
  revert m0. induction times as [|t l IH]; intros m0 H.
  - exists m0. simpl. repeat split; [lia|intros x []|now left].
  - inversion H as [|? ? Ht Hl]; subst.
    destruct t as [x|]; [|congruence]. simpl.
    destruct (IH (Z.max m0 x) Hl) as (m & Hm & Hle & Hall & Hin).
    exists m. split; trivial. split; [lia|]. split.
    + intros y [Hy|Hy]; [injection Hy as ->; lia|now apply Hall].
    + destruct Hin as [->|Hin]; [|right; now right].
      destruct (Z.max_spec m0 x) as [[_ ->]|[_ ->]];
        [right; now left|now left].
Qed.

(** X9.  The last upload of a row is the ISO text of the latest date
    among the representative's conversations when all of them have valid
    dates and one of them is after the epoch.  It is missing when the
    representative has no conversation, when one of the conversations has
    a date the engine cannot parse, and when none is after the epoch. *)
Theorem lastTranscriptAt_is_latest_upload
  (transcripts : list Transcript.t) (assessments : list Assessment.t)
  (rep : Representative.t) :
  let row := aggregateRow getTime toISOString transcripts assessments rep in
  let own := repTranscriptsOf transcripts rep in
  ((exists t, In t own /\ Notions.time getTime t = None) ->
   RepresentativeRow.lastTranscriptAt row = None)
  /\ (Notions.datedTranscripts getTime own ->
      (forall t, In t own -> Notions.timeKey getTime t <= 0) ->
      RepresentativeRow.lastTranscriptAt row = None)
  /\ (Notions.datedTranscripts getTime own ->
      forall t, In t own -> 0 < Notions.timeKey getTime t ->
      exists latest,
        In latest own
        /\ (forall t', In t' own -> Notions.notLater getTime t' latest)
        /\ RepresentativeRow.lastTranscriptAt row
           = Some (toISOString (Notions.timeKey getTime latest))).
Proof.
  intros row own. subst row. unfold aggregateRow.
  cbn [RepresentativeRow.lastTranscriptAt]. fold own. clearbody own.
  set (times := map (fun t => getTime (Transcript.created_at t)) own).
  assert (Htimes : forall t, In t own ->
            In (Notions.time getTime t) times).
  { intros t Ht. unfold times.
    now apply (in_map (fun t => getTime (Transcript.created_at t))). }
  assert (Hvalid : Notions.datedTranscripts getTime own ->
            Forall (fun o => o <> None) times).
  { intros Hd. unfold times. apply Forall_map. exact Hd. }
  split; [|split].
  - intros (t & Ht & Hnone). destruct own as [|t0 l]; [destruct Ht|].
    rewrite fold_max_invalid; trivial. rewrite <- Hnone. now apply Htimes.
  - intros Hd Hold. destruct own as [|t0 l]; trivial.
    destruct (fold_max_valid times 0 (Hvalid Hd))
      as (m & -> & Hle & Hall & Hin).
    destruct Hin as [->|Hin]; trivial.
    apply in_map_iff in Hin as (t & Ht & Hin).
    specialize (Hold t Hin). unfold Notions.timeKey, Notions.time in Hold.
    rewrite Ht in Hold. assert (m = 0) by lia. now subst.
  - intros Hd t Ht Hpos. destruct own as [|t0 l]; [destruct Ht|].
    destruct (fold_max_valid times 0 (Hvalid Hd))
      as (m & -> & Hle & Hall & Hin).
    pose proof (dated_time getTime _ t Hd Ht) as Htime.
    assert (Hm : 0 < m).
    { specialize (Hall _ (eq_ind _ (fun o => In o times) (Htimes t Ht)
                            _ Htime)). lia. }
    destruct Hin as [->|Hin]; [lia|].
    apply in_map_iff in Hin as (latest & Hl & Hin).
    exists latest. split; trivial.
    assert (Hkey : Notions.timeKey getTime latest = m).
    { unfold Notions.timeKey, Notions.time. now rewrite Hl. }
    split.
    + intros t' Ht'. unfold Notions.notLater.
      pose proof (dated_time getTime _ t' Hd Ht') as Ht''.
      rewrite Ht''. unfold Notions.time at 1. rewrite Hl.
      apply Hall. rewrite <- Ht''. now apply Htimes.
    + rewrite Hkey. destruct (m =? 0) eqn:E; trivial.
      apply Z.eqb_eq in E. lia.
Qed.

Lemma sameRep_true (t : Transcript.t) (id : jsstring) :
  sameRep (Transcript.representative_id t) id = true ->
  Transcript.representative_id t = Some id.
Proof.
  unfold sameRep. destruct (Transcript.representative_id t) as [r|];
    [|discriminate].
  intros H. apply str_eqb_eq in H. now subst.
Qed.

(** X10.  With distinct representative ids every conversation that names
    one of the representatives is counted in exactly one row: the
    conversation counts of the rows add up to the number of such
    conversations. *)
Theorem every_assigned_conversation_counts_once
  (representatives : list Representative.t)
  (transcripts : list Transcript.t) (assessments : list Assessment.t)
  (Hids : NoDup (map Representative.id representatives)) :
  list_sum (map RepresentativeRow.transcriptCount
              (aggregatedData getTime toISOString representatives
                 transcripts assessments))
  = List.length (filter (Notions.assigned representatives) transcripts).
Proof.
  unfold aggregatedData. rewrite map_map.
  cbn [aggregateRow RepresentativeRow.transcriptCount].
  induction representatives as [|rep reps IH]; simpl.
  - now rewrite filter_all_false.
  - inversion Hids as [|? ? Hnotin Hreps]; subst.
    rewrite (IH Hreps). unfold repTranscriptsOf.
    symmetry. apply filter_length_orb.
    intros t _ Hp Hq. apply Hnotin.
    apply sameRep_true in Hp.
    apply existsb_exists in Hq as (rep' & Hin & Hq).
    apply sameRep_true in Hq.
    assert (Heq : Representative.id rep = Representative.id rep')
      by congruence.
    rewrite Heq. now apply in_map.
Qed.

Lemma existsb_pointwise {A} (p q : A -> bool) (l : list A) :
  (forall x, p x = q x) -> existsb p l = existsb q l.
Proof.
  intros H. induction l as [|x l IH]; simpl; trivial. now rewrite H, IH.
Qed.

Lemma existsb_map {A B} (f : A -> B) (p : B -> bool) (l : list A) :
  existsb p (map f l) = existsb (fun x => p (f x)) l.
Proof. induction l as [|x l IH]; simpl; trivial. now rewrite IH. Qed.

(** X11.  Given a representative's conversations and the assessments, the
    detail page computes the same figures as the representative's row of
    the list: the same number of conversations, the same assessments and
    the same average score. *)
Theorem detail_page_agrees_with_list_row
  (formatLong : option Z -> jsstring)
  (transcripts : list Transcript.t) (assessments : list Assessment.t)
  (rep : Representative.t) :
  let own := repTranscriptsOf transcripts rep in
  let row := aggregateRow getTime toISOString transcripts assessments rep in
  let m := RepDetailTabs.metrics getTime formatLong own
             (RepDetailTabs.repAssessments own assessments) in
  RepDetailTabs.repAssessments own assessments
  = repAssessmentsOf own assessments
  /\ RepDetailTabs.totalConversations m
     = RepresentativeRow.transcriptCount row
  /\ RepDetailTabs.avgSpinScore m = RepresentativeRow.avgSpinScore row
  /\ (RepresentativeRow.queueCount row
      <= RepDetailTabs.completedCount m)%nat.
Proof.
  intros own row m. subst row m.
  assert (Heq : RepDetailTabs.repAssessments own assessments
                = repAssessmentsOf own assessments).
  { rewrite repAssessments_filter. unfold repAssessmentsOf.
    apply filter_ext. intros a. rewrite existsb_map.
    apply existsb_pointwise. intros t. apply Z.eqb_sym. }
  split; [exact Heq|]. rewrite Heq. unfold aggregateRow.
  cbn [RepDetailTabs.metrics RepDetailTabs.totalConversations
       RepDetailTabs.avgSpinScore RepDetailTabs.completedCount
       RepresentativeRow.transcriptCount RepresentativeRow.avgSpinScore
       RepresentativeRow.queueCount].
  fold own. split; [reflexivity|]. split; [reflexivity|].
  apply filter_length_le.
Qed.

End RepresentativeRows2.

(** ** The department list *)

Section TotalOrderSort.
Context {A : Type}.
Variable cmp : A -> A -> option Z.
Local Open Scope Z_scope.
Local Abbreviation le := (fun a b => JSArray.sortCompare cmp a b <= 0).

Hypothesis le_total : forall a b, le a b \/ le b a.
Hypothesis le_trans : forall a b c, le a b -> le b c -> le a c.

Lemma insert_sorted (x : A) (l : list A) :
  StronglySorted le l -> StronglySorted le (JSArray.insert cmp x l).
Proof.
  intros Hs. induction Hs as [|y l Hs IH Hall]; simpl.
  - constructor; constructor.
  - destruct (JSArray.sortCompare cmp x y <=? 0) eqn:E.
    + apply Z.leb_le in E. constructor; [now constructor|].
      constructor; trivial. rewrite Forall_forall in *.
      intros b Hb. apply (le_trans _ y); trivial. now apply Hall.
    + apply Z.leb_gt in E. constructor; trivial.
      rewrite Forall_forall in *. intros b Hb.
      apply (Permutation_in _ (insert_perm cmp x l)) in Hb.
      destruct Hb as [<-|Hb]; [|now apply Hall].
      destruct (le_total x y) as [H|H]; trivial. lia.
Qed.

(** A total and transitive comparator sorts. *)
Lemma sort_sorted (l : list A) : StronglySorted le (JSArray.sort cmp l).
Proof.
  induction l as [|x l IH]; simpl; [constructor|].
  now apply insert_sorted.
Qed.

End TotalOrderSort.

Section Departments.
Import JS RepresentativesFilters.

Lemma strLt_irrefl (a : jsstring) : strLt a a = false.
Proof.
  induction a as [|x a IH]; simpl; trivial. now rewrite N.ltb_irrefl.
Qed.

Lemma strLt_trans (a b c : jsstring) :
  strLt a b = true -> strLt b c = true -> strLt a c = true.
Proof.
  revert b c. induction a as [|x a IH]; intros [|y b] [|z c]; simpl;
    trivial; try discriminate.
  destruct (N.ltb x y) eqn:Exy, (N.ltb y z) eqn:Eyz;
    try apply N.ltb_lt in Exy; try apply N.ltb_lt in Eyz;
    try apply N.ltb_ge in Exy; try apply N.ltb_ge in Eyz.
  - intros _ _. assert (H : (x < z)%N) by lia.
    apply N.ltb_lt in H. now rewrite H.
  - destruct (N.ltb z y) eqn:Ezy; [discriminate|].
    apply N.ltb_ge in Ezy. intros _ _.
    assert (H : (x < z)%N) by lia. apply N.ltb_lt in H. now rewrite H.
  - destruct (N.ltb y x) eqn:Eyx; [discriminate|].
    apply N.ltb_ge in Eyx. intros _ _.
    assert (H : (x < z)%N) by lia. apply N.ltb_lt in H. now rewrite H.
  - destruct (N.ltb y x) eqn:Eyx; [discriminate|].
    destruct (N.ltb z y) eqn:Ezy; [discriminate|].
    apply N.ltb_ge in Eyx, Ezy.
    assert (x = y) by lia. assert (y = z) by lia. subst y z.
    rewrite N.ltb_irrefl. apply IH.
Qed.

Lemma strLt_connected (a b : jsstring) :
  strLt a b = false -> strLt b a = false -> a = b.
Proof.
  revert b. induction a as [|x a IH]; intros [|y b]; simpl; trivial;
    try discriminate.
  destruct (N.ltb x y) eqn:Exy; [discriminate|].
  destruct (N.ltb y x) eqn:Eyx; [discriminate|].
  apply N.ltb_ge in Exy, Eyx. assert (x = y) by lia. subst y.
  intros H1 H2. f_equal. now apply IH.
Qed.

Lemma defaultCompare_le (a b : jsstring) :
  (JSArray.sortCompare defaultCompare a b <= 0)%Z <-> strLt b a = false.
Proof.
  unfold JSArray.sortCompare, defaultCompare.
  destruct (strLt a b) eqn:Eab.
  - split; [|lia]. intros _. apply not_true_is_false. intros Hba.
    pose proof (strLt_trans _ _ _ Eab Hba) as H.
    rewrite strLt_irrefl in H. discriminate.
  - destruct (strLt b a); split; trivial; try lia; discriminate.
Qed.

Lemma deptSet_spec (representatives : list Representative.t)
  (s : list jsstring) :
  NoDup s ->
  let s' := fold_left (fun s rep =>
                         match Representative.department rep with
                         | Some (c :: d) => JSSet.add str_eqb (c :: d) s
                         | _ => s
                         end) representatives s in
  NoDup s'
  /\ forall d, In d s' <->
               In d s
               \/ (d <> [] /\ exists rep, In rep representatives
                     /\ Representative.department rep = Some d).
Proof.
  revert s. induction representatives as [|rep reps IH]; intros s Hs; simpl.
  - split; trivial. intros d. split; [auto|].
    intros [H|(_ & rep & [] & _)]; trivial.
  - set (s1 := match Representative.department rep with
               | Some (c :: d) => JSSet.add str_eqb (c :: d) s
               | _ => s
               end).
    assert (Hs1 : NoDup s1).
    { unfold s1. destruct (Representative.department rep) as [[|c d]|];
        trivial. now apply (add_NoDup str_eqb str_eqb_eq). }
    destruct (IH s1 Hs1) as [Hnd Hin]. split; trivial.
    intros d. rewrite Hin. unfold s1.
    destruct (Representative.department rep) as [[|c e]|] eqn:Ed.
    + split.
      * intros [H|(Hne & r & Hr & Hd)]; [auto|right].
        split; trivial. exists r. auto.
      * intros [H|(Hne & r & [<-|Hr] & Hd)]; [auto| |].
        -- rewrite Ed in Hd. injection Hd as <-. congruence.
        -- right. split; trivial. exists r. auto.
    + rewrite (In_add str_eqb str_eqb_eq). split.
      * intros [[->|H]|(Hne & r & Hr & Hd)]; [right|auto|right].
        -- split; [discriminate|]. exists rep. auto.
        -- split; trivial. exists r. auto.
      * intros [H|(Hne & r & [<-|Hr] & Hd)]; [auto| |].
        -- rewrite Ed in Hd. injection Hd as <-. auto.
        -- right. split; trivial. exists r. auto.
    + split.
      * intros [H|(Hne & r & Hr & Hd)]; [auto|right].
        split; trivial. exists r. auto.
      * intros [H|(Hne & r & [<-|Hr] & Hd)]; [auto| |].
        -- rewrite Ed in Hd. discriminate.
        -- right. split; trivial. exists r. auto.
Qed.

(** X12.  The department list of the filter holds exactly the non-empty
    departments of the representatives, each once, in ascending order of
    their code units. *)
Theorem departments_are_distinct_and_sorted
  (representatives : list Representative.t) :
  StronglySorted (fun a b => strLt a b = true)
                 (departments representatives)
  /\ NoDup (departments representatives)
  /\ forall d, In d (departments representatives) <->
               d <> [] /\ exists rep, In rep representatives
                            /\ Representative.department rep = Some d.
Proof.
  unfold departments.
  set (deptSet := fold_left _ representatives []).
  destruct (deptSet_spec representatives [] (NoDup_nil _)) as [Hnd Hin].
  fold deptSet in Hnd, Hin.
  pose proof (sort_perm defaultCompare deptSet) as Hperm.
  assert (Hnd' : NoDup (JSArray.sort defaultCompare deptSet))
    by (apply (Permutation_NoDup (Permutation_sym Hperm) Hnd)).
  split; [|split; trivial].
  - assert (Hs : StronglySorted
                   (fun a b => (JSArray.sortCompare defaultCompare a b <= 0)%Z)
                   (JSArray.sort defaultCompare deptSet)).
    { apply sort_sorted.
      - intros a b. rewrite !defaultCompare_le.
        destruct (strLt b a) eqn:E; [right|now left].
        apply not_true_is_false. intros H.
        pose proof (strLt_trans _ _ _ E H) as H'.
        rewrite strLt_irrefl in H'. discriminate.
      - intros a b c. rewrite !defaultCompare_le. intros Hab Hbc.
        apply not_true_is_false. intros Hca.
        destruct (strLt a b) eqn:Eab.
        + pose proof (strLt_trans _ _ _ Hca Eab) as H. congruence.
        + assert (a = b) by now apply strLt_connected. subst b.
          congruence. }
    revert Hnd' Hs. generalize (JSArray.sort defaultCompare deptSet).
    intros l Hl Hs. induction Hs as [|x l Hs IH Hall]; constructor.
    + apply IH. now inversion Hl.
    + inversion Hl as [|? ? Hnotin _]; subst.
      rewrite Forall_forall in *. intros b Hb.
      specialize (Hall b Hb). apply defaultCompare_le in Hall.
      destruct (strLt x b) eqn:E; trivial.
      assert (x = b) by now apply strLt_connected. subst b. contradiction.
  - intros d. split.
    + intros H. apply (Permutation_in _ Hperm) in H.
      apply Hin in H as [[]|H]. exact H.
    + intros H. apply (Permutation_in _ (Permutation_sym Hperm)).
      apply Hin. now right.
Qed.

End Departments.

(** ** The filters of the representatives page *)

Section RepresentativeFilters.
Import JS RepresentativesFilters.
Variable getTime : JSDate.parser.
Variable endOfDay : option Z -> option Z.

Lemma keeps_status (filters : FilterState) (row : RepresentativeRow.t) :
  keeps getTime endOfDay (withStatus (lit "active") filters) row
  = keeps getTime endOfDay (withStatus (lit "all") filters) row
    && RepresentativeRow.isActive row
  /\ keeps getTime endOfDay (withStatus (lit "inactive") filters) row
     = keeps getTime endOfDay (withStatus (lit "all") filters) row
       && negb (RepresentativeRow.isActive row).
Proof.
  unfold keeps, withStatus.
  cbn [search department status hireDateRange].
  change (str_eqb (lit "active") (lit "active")) with true.
  change (str_eqb (lit "active") (lit "inactive")) with false.
  change (str_eqb (lit "inactive") (lit "active")) with false.
  change (str_eqb (lit "inactive") (lit "inactive")) with true.
  change (str_eqb (lit "all") (lit "active")) with false.
  change (str_eqb (lit "all") (lit "inactive")) with false.
  destruct (match search filters with [] => false | _ :: _ => _ end);
    [split; reflexivity|].
  destruct (match department filters with Some (_ :: _) => _ | _ => false end);
    [split; reflexivity|].
  destruct (RepresentativeRow.isActive row); simpl;
    destruct (match hireDateRange filters with Some _ => _ | None => false
              end);
    try (split; reflexivity);
    destruct (match hireDateRange filters with Some _ => _ | None => false
              end); split; reflexivity.
Qed.

(** X13.  With the filters the page starts with every row is shown.
    Whatever the other filters are, the status filter splits the rows
    shown under [all] into the active ones, shown under [active], and the
    inactive ones, shown under [inactive].  A row without a hire date, or
    with a hire date the engine cannot parse, is never removed by the
    hire-date range. *)
Theorem status_filter_splits_the_rows (rows : list RepresentativeRow.t) :
  filteredData getTime endOfDay initialFilters rows = rows
  /\ (forall filters,
        let shown s :=
          filteredData getTime endOfDay (withStatus s filters) rows in
        shown (lit "active")
        = filter (fun row => RepresentativeRow.isActive row)
                 (shown (lit "all"))
        /\ shown (lit "inactive")
           = filter (fun row => negb (RepresentativeRow.isActive row))
                    (shown (lit "all"))
        /\ (List.length (shown (lit "active"))
            + List.length (shown (lit "inactive"))
            = List.length (shown (lit "all")))%nat)
  /\ (forall s d st range row,
        match RepresentativeRow.hireDate row with
        | Some h => getTime h = None
        | None => True
        end ->
        keeps getTime endOfDay
              {| search := s; department := d; status := st;
                 hireDateRange := Some range |} row
        = keeps getTime endOfDay
                {| search := s; department := d; status := st;
                   hireDateRange := None |} row).
Proof.
  split; [|split].
  - unfold filteredData. induction rows as [|row l IH]; simpl; trivial.
    now rewrite IH.
  - intros filters shown. subst shown. unfold filteredData. cbv beta.
    assert (Ha : filter (keeps getTime endOfDay
                           (withStatus (lit "active") filters)) rows
                 = filter (fun row => RepresentativeRow.isActive row)
                     (filter (keeps getTime endOfDay
                                (withStatus (lit "all") filters)) rows)).
    { rewrite filter_filter. apply filter_ext. intros row.
      apply (proj1 (keeps_status filters row)). }
    assert (Hi : filter (keeps getTime endOfDay
                           (withStatus (lit "inactive") filters)) rows
                 = filter (fun row => negb (RepresentativeRow.isActive row))
                     (filter (keeps getTime endOfDay
                                (withStatus (lit "all") filters)) rows)).
    { rewrite filter_filter. apply filter_ext. intros row.
      apply (proj2 (keeps_status filters row)). }
    split; [exact Ha|]. split; [exact Hi|].
    rewrite Ha, Hi. apply filter_length_negb.
  - intros s d st range row Hhire. unfold keeps.
    cbn [search department status hireDateRange].
    destruct (RepresentativeRow.hireDate row) as [[|c h]|].
    + now destruct (from range), (to range).
    + rewrite Hhire. unfold dateLt.
      destruct (from range) as [[f|]|], (to range) as [t|];
        try reflexivity; now destruct (endOfDay t).
    + now destruct (from range), (to range).
Qed.

End RepresentativeFilters.

(** ** Searching a transcript *)

Section TranscriptSearching.
Import JS TranscriptViewer TranscriptSearch.
Variable toLowerCase : jsstring -> jsstring.

Lemma filter_partition {A} (p : A -> bool) (l : list A) :
  Permutation (filter p l ++ filter (fun x => negb (p x)) l) l.
Proof.
  induction l as [|x l IH]; simpl; trivial.
  destruct (p x); simpl.
  - now constructor.
  - apply Permutation_sym, Permutation_cons_app. now apply Permutation_sym.
Qed.

Lemma filterM_strings (query : jsstring)
  (messages : list (ParsedMessage value)) :
  Forall (fun m => exists s, text m = VStr s) messages ->
  filterM (fun m => lower <- lowerCased toLowerCase (text m) ;;
                    Normal (includes lower query)) messages
  = Normal (filter (fun m =>
                      match text m with
                      | VStr s => includes (toLowerCase s) query
                      | _ => false
                      end) messages).
Proof.
  induction 1 as [|m l [s Hs] _ IH]; simpl; trivial.
  rewrite Hs, IH. simpl. reflexivity.
Qed.

Lemma filterM_not_string (query : jsstring)
  (messages : list (ParsedMessage value)) (m : ParsedMessage value) :
  In m messages -> (forall s, text m <> VStr s) ->
  exists e,
    filterM (fun m => lower <- lowerCased toLowerCase (text m) ;;
                      Normal (includes lower query)) messages
    = Throw (TypeError e).
Proof.
  intros Hin Hm. induction messages as [|x l IH]; [destruct Hin|].
  simpl. destruct (text x) as [| | | |s| |] eqn:Ex; simpl; eauto.
  destruct Hin as [->|Hin]; [now destruct (Hm s)|].
  destruct (IH Hin) as [e ->]. simpl. eauto.
Qed.

(** X14.  Without a search text the viewer shows all messages under
    [all] and splits them into the representative's and the customer's
    under the two other filters.  A search never fails on messages whose
    texts are strings, which is what the plain-text format yields, and it
    then shows the filtered messages whose lower-cased text contains the
    lower-cased query, both lower-cased by the engine; a message from a
    JSON transcript whose text is not a string makes a search under [all]
    throw a [TypeError]. *)
Theorem transcript_search_fails_only_on_non_string_text
  (messages : list (ParsedMessage value)) :
  (forall searchQuery, trim searchQuery = [] ->
     filteredMessages toLowerCase all searchQuery messages = Normal messages
     /\ exists reps customers,
          filteredMessages toLowerCase rep searchQuery messages = Normal reps
          /\ filteredMessages toLowerCase customer searchQuery messages
             = Normal customers
          /\ Permutation (reps ++ customers) messages
          /\ Forall (fun m => isRep m = true) reps
          /\ Forall (fun m => isRep m = false) customers)
  /\ (forall searchQuery,
        Forall (fun m => exists s, text m = VStr s) messages ->
        trim searchQuery <> [] ->
        filteredMessages toLowerCase all searchQuery messages
        = Normal (filter (fun m =>
                            match text m with
                            | VStr s => includes (toLowerCase s)
                                                 (toLowerCase searchQuery)
                            | _ => false
                            end) messages))
  /\ (forall filter searchQuery raw,
        exists shown,
          filteredMessages toLowerCase filter searchQuery (map asValues (parseLines raw))
          = Normal shown)
  /\ (forall searchQuery m,
        trim searchQuery <> [] -> In m messages ->
        (forall s, text m <> VStr s) ->
        exists e, filteredMessages toLowerCase all searchQuery messages
                  = Throw (TypeError e)).
Proof.
  split; [|split; [|split]].
  - intros q Hq. unfold filteredMessages. rewrite Hq.
    split; [reflexivity|].
    exists (filter (fun m => isRep m) messages),
           (filter (fun m => negb (isRep m)) messages).
    split; [reflexivity|]. split; [reflexivity|].
    split; [apply filter_partition|].
    split; apply Forall_forall; intros m Hm;
      apply filter_In in Hm as [_ Hm]; trivial.
    now apply negb_true_iff.
  - intros q Hstr Hq. unfold filteredMessages.
    destruct (trim q); [congruence|]. now apply filterM_strings.
  - intros f q raw. unfold filteredMessages.
    set (msgs := map asValues (parseLines raw)).
    assert (Hall : forall p, Forall (fun m => exists s, text m = VStr s)
                               (filter p msgs)).
    { intros p. apply Forall_forall. intros m Hm.
      apply filter_In in Hm as [Hm _]. unfold msgs in Hm.
      apply in_map_iff in Hm as (x & <- & _). simpl. eauto. }
    assert (Hall' : Forall (fun m => exists s, text m = VStr s) msgs).
    { apply Forall_forall. intros m Hm. unfold msgs in Hm.
      apply in_map_iff in Hm as (x & <- & _). simpl. eauto. }
    destruct (trim q); [eauto|].
    destruct f; rewrite filterM_strings; eauto.
  - intros q m Hq Hin Hm. unfold filteredMessages.
    destruct (trim q); [congruence|]. now apply (filterM_not_string _ _ m).
Qed.

End TranscriptSearching.

(** ** The overview transformations of the API client *)

Section OverviewShape.
Import JS OverviewTransforms.

Lemma get_member (v : value) (k : jsstring) :
  v <> VNull -> v <> VUndefined -> get v k = Normal (Notions.member v k).
Proof.
  intros Hn Hu. destruct v; try congruence; try reflexivity.
  unfold get, Notions.member. now destruct (lookup k props).
Qed.

Lemma or_zero_defined (v : value) :
  TS.isUndefined (or_else v (VNum 0 0)) = false.
Proof.
  unfold or_else. destruct (truthy v) eqn:E; [|reflexivity].
  destruct v; try reflexivity. discriminate E.
Qed.

Lemma or_zero_truthy (v : value) :
  truthy (or_else v (VNum 0 0)) = true \/ or_else v (VNum 0 0) = VNum 0 0.
Proof.
  unfold or_else. destruct (truthy v) eqn:E; auto.
Qed.

Lemma formatDimensionAverages_points (averages : value) :
  averages <> VNull -> averages <> VUndefined ->
  formatDimensionAverages averages
  = Normal (map (fun entry =>
                   radarPoint (snd entry)
                     (or_else (Notions.member averages (fst entry))
                              (VNum 0 0)))
                dimensionOrder).
Proof.
  intros Hn Hu. unfold formatDimensionAverages, dimensionOrder.
  cbn [mapM fst snd map].
  rewrite !(get_member averages) by trivial. cbn [bind].
  cbn [filter pointValue radarPoint].
  rewrite !or_zero_defined. reflexivity.
Qed.

Lemma truthy_not_null (v : value) :
  truthy v = true -> v <> VNull /\ v <> VUndefined.
Proof. destruct v; simpl; intros H; split; congruence. Qed.

(** X15.  [formatDimensionAverages] always yields the seven dimensions in
    the order of the radar chart, a dimension that is missing or zero in
    the response with the value [0]: its final filter removes nothing.
    [transformOverviewStatistics] fails only on a response that is [null]
    or [undefined]; the [dimensionAverages] of its result are absent or
    these seven points, and a delta is part of the result exactly when
    the response holds a truthy one. *)
Theorem overview_transform_keeps_seven_dimensions :
  (forall averages,
     averages <> VNull -> averages <> VUndefined ->
     exists points,
       formatDimensionAverages averages = Normal points
       /\ map (fun d => TS.field d "dimension") points
          = map (fun entry => Some (VStr (snd entry))) dimensionOrder
       /\ Forall2 (fun entry d =>
                     exists v,
                       TS.field d "value" = Some v
                       /\ v = or_else (Notions.member averages (fst entry))
                                      (VNum 0 0)
                       /\ (truthy v = true \/ v = VNum 0 0))
                  dimensionOrder points)
  /\ (forall data,
        (exists e, transformOverviewStatistics data = Throw e)
        <-> data = VNull \/ data = VUndefined)
  /\ (forall data result,
        transformOverviewStatistics data = Normal result ->
        (TS.field result "dimensionAverages" = Some VUndefined
         \/ exists points,
              TS.field result "dimensionAverages" = Some (VArr points)
              /\ formatDimensionAverages
                   (Notions.member data (lit "dimension_averages"))
                 = Normal points
              /\ List.length points = 7%nat)
        /\ TS.field result "totalConversations"
           = Some (Notions.member data (lit "total_conversations"))
        /\ TS.field result "deltaConversations"
           = (if truthy (Notions.member data (lit "delta_conversations"))
              then Some (Notions.member data (lit "delta_conversations"))
              else None)
        /\ TS.field result "deltaScore"
           = (if truthy (Notions.member data (lit "delta_score"))
              then Some (Notions.member data (lit "delta_score"))
              else None)
        /\ TS.field result "deltaPercentage"
           = (if truthy (Notions.member data (lit "delta_percentage"))
              then Some (Notions.member data (lit "delta_percentage"))
              else None)).
Proof.
  split; [|split].
  - intros averages Hn Hu. eexists. split.
    + now apply formatDimensionAverages_points.
    + split; [reflexivity|]. unfold dimensionOrder. cbn [map fst snd].
      repeat constructor; eexists; (split; [reflexivity|]);
        (split; [reflexivity|apply or_zero_truthy]).
  - intros data. split.
    + intros [e He]. destruct (value_null_dec data) as [[H|H]|[Hn Hu]];
        auto.
      exfalso. unfold transformOverviewStatistics in He.
      rewrite !(get_member data) in He by trivial. cbn [bind] in He.
      destruct (truthy (Notions.member data (lit "dimension_averages"))
                && hasKeys (Notions.member data (lit "dimension_averages")))
        eqn:E; [|discriminate].
      apply andb_prop in E as [E _]. apply truthy_not_null in E as [H1 H2].
      rewrite (formatDimensionAverages_points _ H1 H2) in He.
      discriminate.
    + intros [->| ->]; eexists; reflexivity.
  - intros data result Hr.
    destruct (value_null_dec data) as [[H|H]|[Hn Hu]];
      [subst; discriminate|subst; discriminate|].
    unfold transformOverviewStatistics in Hr.
    rewrite !(get_member data) in Hr by trivial. cbn [bind] in Hr.
    set (avgs := Notions.member data (lit "dimension_averages")) in *.
    assert (Hdim : exists dim,
              (if truthy avgs && hasKeys avgs
               then points <- formatDimensionAverages avgs ;;
                    Normal (VArr points)
               else Normal VUndefined) = Normal dim
              /\ (dim = VUndefined
                  \/ exists points, dim = VArr points
                       /\ formatDimensionAverages avgs = Normal points
                       /\ List.length points = 7%nat)).
    { destruct (truthy avgs && hasKeys avgs) eqn:E; [|eauto].
      apply andb_prop in E as [E _]. apply truthy_not_null in E as [H1 H2].
      rewrite (formatDimensionAverages_points _ H1 H2). cbn [bind].
      eexists. split; [reflexivity|]. right. eexists.
      split; [reflexivity|]. split; reflexivity. }
    destruct Hdim as (dim & Hdim & Hshape). rewrite Hdim in Hr.
    cbn [bind] in Hr. injection Hr as <-.
    unfold TS.field, spreadIfTruthy.
    destruct (truthy (Notions.member data (lit "delta_conversations")));
      destruct (truthy (Notions.member data (lit "delta_score")));
      destruct (truthy (Notions.member data (lit "delta_percentage")));
      (split; [|repeat split; reflexivity]);
      (destruct Hshape as [->|(points & -> & Hf & Hl)];
       [left; reflexivity|right; exists points; repeat split; trivial]).
Qed.

End OverviewShape.

(** ** The calls of the API client *)

Section ClientCalls.
Import JS Http Api ApiCalls Calls.

Lemma apiFetch_authorized env path opts token srv log :
  exists r,
    apiFetch env path opts token srv log = (srv log r, log ++ [r])
    /\ authorized token r
    /\ header (lit "Content-Type") (headers r)
       = Some (lit "application/json")
    /\ payload r = initBody opts
    /\ verb r = match initMethod opts with Some m => m | None => GET end
    /\ url r = (if startsWith (lit "http") path
                   || startsWith (lit "/api") path
                then path else API_BASE env ++ path).
Proof.
  unfold apiFetch, fetch. eexists. split; [reflexivity|].
  cbn [headers payload verb url credentials]. unfold authorized.
  cbn [headers credentials].
  destruct token as [[|c t]|]; repeat split; reflexivity.
Qed.

Lemma ending_jsonOrThrow : ending jsonOrThrow.
Proof.
  unfold ending. intros response srv log. unfold jsonOrThrow.
  destruct (ok response); split; trivial; simpl; intros v; split;
    try tauto; try discriminate; intros [H _]; discriminate.
Qed.

Lemma ending_json_or (e : Response -> error) :
  ending (fun response =>
            if ok response then readJson response else throw (e response)).
Proof.
  unfold ending. intros response srv log.
  destruct (ok response); split; trivial; simpl; intros v; split;
    try tauto; try discriminate; intros [H _]; discriminate.
Qed.

Lemma oneCall_request m target token (r : Request)
  (k : Response -> io value) :
  verb r = m -> url r = target -> authorized token r -> ending k ->
  oneCall m target token (iobind (fetch r) k).
Proof.
  intros Hv Hu Hauth Hk. unfold oneCall. intros srv log.
  unfold iobind, fetch. exists r.
  destruct (srv log r) as [response|e].
  - destruct (Hk response srv (log ++ [r])) as [Hlog Hres].
    split; [exact Hlog|]. split; [exact Hv|]. split; [exact Hu|].
    split; [exact Hauth|].
    intros v. rewrite Hres. split.
    + intros [Hok Hj]. exists response. auto.
    + intros (response' & E & Hok & Hj). injection E as <-. auto.
  - split; [reflexivity|]. split; [exact Hv|]. split; [exact Hu|].
    split; [exact Hauth|]. intros v. split; [discriminate|].
    intros (response & E & _). discriminate.
Qed.

Lemma oneCall_apiFetch env m path opts token (k : Response -> io value) :
  startsWith (lit "http") path || startsWith (lit "/api") path = false ->
  match initMethod opts with Some m' => m' | None => GET end = m ->
  ending k ->
  oneCall m (API_BASE env ++ path) token
          (iobind (apiFetch env path opts token) k).
Proof.
  intros Hpath Hm Hk. unfold oneCall. intros srv log.
  destruct (apiFetch_authorized env path opts token srv log)
    as (r & Hrun & Hauth & _ & _ & Hv & Hu).
  rewrite Hpath in Hu.
  destruct (oneCall_request m (API_BASE env ++ path) token r k
              ltac:(congruence) Hu Hauth Hk srv log)
    as (r' & Hlog & Hrest).
  unfold iobind, fetch in Hlog, Hrest.
  assert (Hr : r' = r).
  { destruct (srv log r) as [response|e].
    - destruct (Hk response srv (log ++ [r])) as [Hk1 _].
      rewrite Hk1 in Hlog. now apply app_inj_tail in Hlog as [_ ->].
    - cbn in Hlog. now apply app_inj_tail in Hlog as [_ ->]. }
  subst r'. exists r. unfold iobind. rewrite Hrun. split; [exact Hlog|].
  exact Hrest.
Qed.

Lemma oneCommand_delete env path token :
  startsWith (lit "http") path || startsWith (lit "/api") path = false ->
  oneCommand DELETE (API_BASE env ++ path) token
    (response <~ apiFetch env path
                   {| initMethod := Some DELETE; initBody := NoBody |}
                   token ;;
     if ok response then ret tt else throw (Error (textOrStatus response))).
Proof.
  intros Hpath. unfold oneCommand. intros srv log. unfold iobind.
  destruct (apiFetch_authorized env path
              {| initMethod := Some DELETE; initBody := NoBody |}
              token srv log)
    as (r & Hrun & Hauth & _ & _ & Hv & Hu).
  rewrite Hpath in Hu. exists r. rewrite Hrun.
  destruct (srv log r) as [response|e].
  - destruct (ok response) eqn:Hok; cbn.
    + split; [reflexivity|]. split; [exact Hv|]. split; [exact Hu|].
      split; [exact Hauth|]. split; [|reflexivity].
      intros _. exists response. auto.
    + split; [reflexivity|]. split; [exact Hv|]. split; [exact Hu|].
      split; [exact Hauth|]. split; [discriminate|].
      intros (response' & E & Hok'). injection E as <-. congruence.
  - split; [reflexivity|]. split; [exact Hv|]. split; [exact Hu|].
    split; [exact Hauth|]. split; [discriminate|].
    intros (response & E & _). discriminate.
Qed.

Lemma scalarValues_plain (s : jsstring) :
  forallb UrlEncoded.isPlain s = true -> UrlEncoded.scalarValues s = s.
Proof.
  induction s as [|c s IH]; simpl; trivial.
  intros H. apply andb_prop in H as [Hc Hs].
  assert (Hsmall : (c < 128)%N).
  { unfold UrlEncoded.isPlain in Hc.
    repeat (apply orb_prop in Hc as [Hc|Hc]);
      repeat match goal with
             | H : _ && _ = true |- _ => apply andb_prop in H as [? ?]
             | H : N.eqb _ _ = true |- _ => apply N.eqb_eq in H
             | H : N.leb _ _ = true |- _ => apply N.leb_le in H
             end; lia. }
  unfold UrlEncoded.isHighSurrogate, UrlEncoded.isLowSurrogate.
  assert (H1 : N.leb 55296 c = false) by (apply N.leb_gt; lia).
  assert (H2 : N.leb 56320 c = false) by (apply N.leb_gt; lia).
  rewrite H1, H2. simpl. now rewrite IH.
Qed.

(** An id of letters, digits, [-], [_], [.] and [*] goes into a query as
    it is. *)
Lemma encode_plain (s : jsstring) :
  forallb UrlEncoded.isPlain s = true -> UrlEncoded.encode s = s.
Proof.
  intros H. unfold UrlEncoded.encode. rewrite (scalarValues_plain s H).
  induction s as [|c s IH]; trivial.
  cbn [forallb] in H. apply andb_prop in H as [Hc Hs].
  assert (Hsmall : (c < 128)%N).
  { unfold UrlEncoded.isPlain in Hc.
    repeat (apply orb_prop in Hc as [Hc|Hc]);
      repeat match goal with
             | H : _ && _ = true |- _ => apply andb_prop in H as [? ?]
             | H : N.eqb _ _ = true |- _ => apply N.eqb_eq in H
             | H : N.leb _ _ = true |- _ => apply N.leb_le in H
             end; lia. }
  cbn [flat_map]. rewrite (IH Hs). unfold UrlEncoded.utf8.
  apply N.ltb_lt in Hsmall. rewrite Hsmall.
  cbn [flat_map]. unfold UrlEncoded.encodeByte. rewrite Hc. reflexivity.
Qed.

Ltac one_call :=
  first [ apply oneCall_apiFetch;
          [ reflexivity | reflexivity
          | first [ apply ending_jsonOrThrow | apply ending_json_or ] ] ].

(** X16.  Each of these calls of the API client makes exactly one
    request, to the backend's base URL followed by the path of the call,
    whatever the server answers: [assessTranscript]; the listing, the
    defaults, the creation, the update, the activation, the preview and
    the deletion of prompt templates; the listing, the creation, the
    update and the deletion of evaluation datasets, [runEvaluation] and
    [fetchTemplateEvaluations]; the reads of representatives, transcripts
    and assessments.  The request includes the cookies and carries
    [Authorization: Bearer <token>] exactly when a token that is not empty
    is given.  A call that returns data completes normally exactly when
    the answer is [ok] and has a JSON body, with that body; a deletion
    exactly when the answer is [ok].  An id of letters, digits and hyphens
    enters the query of [fetchTranscripts] unchanged. *)
Theorem client_calls_make_one_authorized_request
  (env : Env) (token : option jsstring) :
  (forall data,
     oneCall POST (API_BASE env ++ lit "/assess") token
             (assessTranscript env data token))
  /\ oneCall GET (API_BASE env ++ lit "/prompt-templates") token
             (fetchPromptTemplates env token)
  /\ oneCall GET (API_BASE env ++ lit "/prompt-templates/defaults") token
             (fetchPromptTemplateDefaults env token)
  /\ (forall data,
        oneCall POST (API_BASE env ++ lit "/prompt-templates") token
                (createPromptTemplate env data token))
  /\ (forall id data,
        oneCall PATCH (API_BASE env ++ lit "/prompt-templates/" ++ id) token
                (updatePromptTemplate env id data token))
  /\ (forall id,
        oneCall POST (API_BASE env ++ lit "/prompt-templates/" ++ id
                      ++ lit "/activate") token
                (activatePromptTemplate env id token))
  /\ (forall data,
        oneCall POST (API_BASE env ++ lit "/prompt-templates/preview") token
                (previewPromptTemplate env data token))
  /\ oneCall GET (API_BASE env ++ lit "/evaluations/datasets") token
             (fetchEvaluationDatasets env token)
  /\ (forall id data,
        oneCall PATCH (API_BASE env ++ lit "/evaluations/datasets/" ++ id)
                token (updateEvaluationDataset env id data token))
  /\ (forall data,
        oneCall POST (API_BASE env ++ lit "/evaluations/run") token
                (runEvaluation env data token))
  /\ (forall id,
        oneCall GET (API_BASE env ++ lit "/evaluations/templates/" ++ id
                     ++ lit "/runs") token
                (fetchTemplateEvaluations env id token))
  /\ oneCall GET (API_BASE env ++ lit "/representatives") token
             (fetchRepresentatives env token)
  /\ (forall id,
        oneCall GET (API_BASE env ++ lit "/representatives/" ++ id) token
                (fetchRepresentativeById env id token))
  /\ oneCall GET (API_BASE env ++ lit "/transcripts") token
             (fetchTranscripts env None token)
  /\ (forall id,
        id <> [] -> forallb UrlEncoded.isPlain id = true ->
        oneCall GET (API_BASE env ++ lit "/transcripts?representative_id="
                     ++ id) token
                (fetchTranscripts env (Some id) token))
  /\ oneCall GET (API_BASE env ++ lit "/assess") token
             (fetchAssessments env None token)
  /\ (forall id,
        oneCall GET (API_BASE env ++ lit "/transcripts/" ++ id) token
                (fetchTranscriptById env id token))
  /\ (forall id,
        oneCall GET (API_BASE env ++ lit "/assess/by-transcript/" ++ id)
                token (fetchAssessmentsByTranscript env id token))
  /\ (forall data,
        oneCall POST (API_BASE env ++ lit "/evaluations/datasets") token
                (createEvaluationDataset env data token))
  /\ (forall id,
        oneCommand DELETE (API_BASE env ++ lit "/prompt-templates/" ++ id)
                   token (deletePromptTemplate env id token))
  /\ (forall id,
        oneCommand DELETE
                   (API_BASE env ++ lit "/evaluations/datasets/" ++ id)
                   token (deleteEvaluationDataset env id token)).
Proof.
  repeat match goal with |- _ /\ _ => split end; intros;
    try (unfold assessTranscript, fetchPromptTemplates,
           fetchPromptTemplateDefaults, createPromptTemplate,
           updatePromptTemplate, activatePromptTemplate,
           previewPromptTemplate, fetchEvaluationDatasets,
           updateEvaluationDataset, runEvaluation, fetchTemplateEvaluations,
           fetchRepresentatives, fetchRepresentativeById, fetchAssessments,
           fetchTranscriptById, fetchAssessmentsByTranscript, getJson,
           withQuery;
         cbn [UrlEncoded.serialize]; one_call);
    try (unfold deletePromptTemplate, deleteEvaluationDataset;
         apply oneCommand_delete; reflexivity).
  2: { unfold createEvaluationDataset.
       apply oneCall_request; [reflexivity|reflexivity| |
                               apply ending_jsonOrThrow].
       unfold authorized. cbn [headers credentials].
       split; [reflexivity|].
       destruct token as [[|c t]|]; reflexivity. }
  unfold fetchTranscripts, getJson, withQuery.
  destruct id as [|c id]; [congruence|].
  cbn [UrlEncoded.serialize].
  rewrite (encode_plain (c :: id)) by trivial.
  change (UrlEncoded.encode (lit "representative_id"))
    with (lit "representative_id").
  change (lit "/transcripts" ++ lit "?"
          ++ lit "representative_id" ++ [61%N] ++ c :: id)
    with (lit "/transcripts?representative_id=" ++ c :: id).
  one_call.
Qed.

End ClientCalls.

(** ** The upload dialog *)

Section UploadOutcome.
Import JS Http UploadTranscriptDialog.

(** X17.  Submitting the upload dialog never throws and sends at most one
    request.  With no file selected or without a token it only sets an
    error message; an empty file ends in the error state without a
    request.  Otherwise the dialog sends the one request to the
    assessment service, and the answer decides the outcome: an [ok]
    response with a JSON body ends in the success state, with that body
    as the result and no error message; every other answer (a response
    that is not [ok], a body that is not JSON, no response) ends in the
    error state with the message of the failure, and the result is left
    as it was.  So the dialog ends without an error message exactly when
    the service answered [ok] with a JSON body. *)
Theorem upload_dialog_reports_every_failure
  (env : Api.Env) (st : State) (srv : server) :
  exists st' log,
    run (handleSubmit env st) srv = (Normal st', log)
    /\ (List.length log <= 1)%nat
    /\ (file st = None ->
        log = [] /\ state st' = state st
        /\ errorText st' = Some (lit "Please select a file to upload"))
    /\ (file st <> None -> Api.tokenTruthy (accessToken st) = false ->
        log = [] /\ state st' = state st
        /\ errorText st'
           = Some (lit "You must be signed in to upload transcripts"))
    /\ (forall f, file st = Some f ->
                  Api.tokenTruthy (accessToken st) = true ->
                  trim (fileText f) = [] ->
                  log = [] /\ state st' = error
                  /\ errorText st' = Some (lit "File is empty"))
    /\ (forall f, file st = Some f ->
                  Api.tokenTruthy (accessToken st) = true ->
                  trim (fileText f) <> [] ->
                  exists r,
                    log = [r] /\ verb r = POST
                    /\ url r = Api.API_BASE env ++ lit "/assess"
                    /\ match srv [] r with
                       | Normal response =>
                           if ok response
                           then match json response with
                                | Normal v =>
                                    state st' = success
                                    /\ assessmentResult st' = Some v
                                    /\ errorText st' = None
                                | Throw e =>
                                    state st' = error
                                    /\ assessmentResult st'
                                       = assessmentResult st
                                    /\ errorText st' = Some (message e)
                                end
                           else state st' = error
                                /\ assessmentResult st' = assessmentResult st
                                /\ errorText st'
                                   = Some (lit "Failed to assess transcript: "
                                           ++ Api.textOrStatus response)
                       | Throw e =>
                           state st' = error
                           /\ assessmentResult st' = assessmentResult st
                           /\ errorText st' = Some (message e)
                       end)
    /\ (errorText st' = None <->
        exists r response v,
          log = [r] /\ srv [] r = Normal response
          /\ ok response = true /\ json response = Normal v
          /\ state st' = success /\ assessmentResult st' = Some v)
    /\ (log <> [] -> errorText st' <> None -> state st' = error).
Proof.
  unfold run, handleSubmit. cbn [file setError accessToken].
  destruct (file st) as [f|] eqn:Ef.
  2:{ do 2 eexists. split; [reflexivity|]. cbn.
      repeat split; try congruence; try lia; try discriminate.
      intros (r & response & v & H & _). discriminate. }
  destruct (Api.tokenTruthy (accessToken st)) eqn:Et; cbn [negb].
  2:{ do 2 eexists. split; [reflexivity|]. cbn.
      repeat split; try congruence; try lia; try discriminate.
      intros (r & response & v & H & _). discriminate. }
  unfold tryCatch.
  destruct (trim (fileText f)) as [|c t] eqn:Etrim.
  { do 2 eexists. split; [reflexivity|]. cbn.
    repeat split; try congruence; try lia; try discriminate.
    intros (r & response & v & H & _). discriminate. }
  unfold iobind.
  set (st1 := setState uploading (setError None st)).
  destruct (assessTranscript_run env (requestData st1 (fileText f))
              (accessToken st1) srv []) as (r & Hv & Hu & _ & Hrun).
  rewrite Hrun. cbn [app].
  destruct (srv [] r) as [response|e] eqn:Hsrv.
  - destruct (ok response) eqn:Hok.
    + destruct (json response) as [v|e] eqn:Hjson.
      * do 2 eexists. split; [reflexivity|]. cbn.
        split; [lia|]. split; [congruence|]. split; [congruence|].
        split; [intros f' Hf' _ Hblank; congruence|].
        split.
        { intros f' _ _ _. exists r. split; [reflexivity|].
          split; [exact Hv|]. split; [exact Hu|].
          rewrite Hsrv, Hok, Hjson. repeat split. }
        split; [|congruence].
        split; [|reflexivity]. intros _. exists r, response, v. auto 10.
      * do 2 eexists. split; [reflexivity|]. cbn.
        split; [lia|]. split; [congruence|]. split; [congruence|].
        split; [intros f' Hf' _ Hblank; congruence|].
        split.
        { intros f' _ _ _. exists r. split; [reflexivity|].
          split; [exact Hv|]. split; [exact Hu|].
          rewrite Hsrv, Hok, Hjson. repeat split. }
        split; [|reflexivity].
        split; [discriminate|].
        intros (r' & response' & v & Hl & Hs & _ & Hj & _).
        injection Hl as <-. congruence.
    + do 2 eexists. split; [reflexivity|]. cbn.
      split; [lia|]. split; [congruence|]. split; [congruence|].
      split; [intros f' Hf' _ Hblank; congruence|].
      split.
      { intros f' _ _ _. exists r. split; [reflexivity|].
        split; [exact Hv|]. split; [exact Hu|].
        rewrite Hsrv, Hok. repeat split. }
      split; [|reflexivity].
      split; [discriminate|].
      intros (r' & response' & v & Hl & Hs & Ho & _).
      injection Hl as <-. congruence.
  - do 2 eexists. split; [reflexivity|]. cbn.
    split; [lia|]. split; [congruence|]. split; [congruence|].
    split; [intros f' Hf' _ Hblank; congruence|].
    split.
    { intros f' _ _ _. exists r. split; [reflexivity|].
      split; [exact Hv|]. split; [exact Hu|].
      rewrite Hsrv. repeat split. }
    split; [|reflexivity].
    split; [discriminate|].
    intros (r' & response' & v & Hl & Hs & _).
    injection Hl as <-. congruence.
Qed.

End UploadOutcome.

(** ** Loading and saving prompt templates *)

Section TemplatePage.
Import JS Http Api Calls PromptTemplatesPage.

Lemma getJson_run env path (e : Response -> JS.error) token srv log :
  startsWith (lit "http") path || startsWith (lit "/api") path = false ->
  exists r,
    verb r = GET /\ payload r = NoBody /\ url r = API_BASE env ++ path
    /\ authorized token r
    /\ (response <~ apiFetch env path noInit token ;;
        if ok response then readJson response else throw (e response))
         srv log
       = (match srv log r with
          | Normal response =>
              if ok response then json response else Throw (e response)
          | Throw err => Throw err
          end, log ++ [r]).
Proof.
  intros Hpath. unfold iobind.
  destruct (apiFetch_authorized env path noInit token srv log)
    as (r & Hrun & Hauth & _ & Hp & Hv & Hu).
  exists r. rewrite Hrun. rewrite Hpath in Hu.
  split; [exact Hv|]. split; [exact Hp|]. split; [exact Hu|].
  split; [exact Hauth|].
  destruct (srv log r) as [response|err]; [|reflexivity].
  unfold readJson, throw. now destruct (ok response).
Qed.

(** [loadTemplates] from any point of a handler. *)
Lemma loadTemplates_from (env : Env) (st : State) (srv : server)
  (log : list Request) :
  exists st' new,
    loadTemplates env st srv log = (Normal st', log ++ new)
    /\ isEditorOpen st' = isEditorOpen st /\ error st' = error st
    /\ isLoading st' = isLoading st
    /\ (tokenTruthy (accessToken st) = false -> st' = st /\ new = [])
    /\ (tokenTruthy (accessToken st) = true ->
        exists r1 r2,
          new = [r1; r2]
          /\ HttpLog.isRead r1 /\ HttpLog.isRead r2
          /\ url r1 = API_BASE env ++ lit "/prompt-templates"
          /\ url r2 = API_BASE env ++ lit "/prompt-templates/defaults"
          /\ authorized (accessToken st) r1
          /\ authorized (accessToken st) r2
          /\ pageLoading st' = false
          /\ (pageError st' = None ->
              exists a1 a2 v1 v2,
                srv log r1 = Normal a1 /\ ok a1 = true
                /\ json a1 = Normal v1
                /\ srv (log ++ [r1]) r2 = Normal a2 /\ ok a2 = true
                /\ json a2 = Normal v2
                /\ templates st' = asArray v1 /\ defaults st' = Some v2)
          /\ (pageError st' <> None ->
              templates st' = templates st /\ defaults st' = defaults st)
          /\ (forall a1 a2 v1 v2,
                srv log r1 = Normal a1 -> ok a1 = true ->
                json a1 = Normal v1 ->
                srv (log ++ [r1]) r2 = Normal a2 -> ok a2 = true ->
                json a2 = Normal v2 ->
                pageError st' = None
                /\ templates st' = asArray v1 /\ defaults st' = Some v2)).
Proof.
  unfold loadTemplates.
  destruct (tokenTruthy (accessToken st)) eqn:Et; cbn [negb].
  2:{ exists st, []. rewrite app_nil_r. split; [reflexivity|].
      repeat split; discriminate. }
  unfold iobind at 1. unfold tryCatch. unfold iobind at 1.
  unfold promiseAll2, fetchPromptTemplates, fetchPromptTemplateDefaults.
  cbn [accessToken setPage].
  destruct (getJson_run env (lit "/prompt-templates")
              (fun response => Error (lit "Failed to fetch prompt templates: "
                                      ++ statusText response))
              (accessToken st) srv log eq_refl)
    as (r1 & Hv1 & Hp1 & Hu1 & Ha1 & Hrun1).
  rewrite Hrun1.
  destruct (getJson_run env (lit "/prompt-templates/defaults")
              (fun response => Error (lit "Failed to fetch defaults: "
                                      ++ statusText response))
              (accessToken st) srv (log ++ [r1]) eq_refl)
    as (r2 & Hv2 & Hp2 & Hu2 & Ha2 & Hrun2).
  rewrite Hrun2. rewrite <- app_assoc. cbn [app].
  assert (Hreads : HttpLog.isRead r1 /\ HttpLog.isRead r2)
    by (unfold HttpLog.isRead; auto).
  destruct Hreads as [Hr1 Hr2].
  destruct (srv log r1) as [a1|e1] eqn:Hs1;
    [destruct (ok a1) eqn:Ho1; [destruct (json a1) as [v1|e1] eqn:Hj1|]|];
    (destruct (srv (log ++ [r1]) r2) as [a2|e2] eqn:Hs2;
     [destruct (ok a2) eqn:Ho2; [destruct (json a2) as [v2|e2] eqn:Hj2|]|]);
    cbn [ret];
    (do 2 eexists; split; [reflexivity|]; cbn;
     split; [reflexivity|]; split; [reflexivity|]; split; [reflexivity|];
     split; [discriminate|];
     intros _; exists r1, r2;
     split; [reflexivity|]; split; [exact Hr1|]; split; [exact Hr2|];
     split; [exact Hu1|]; split; [exact Hu2|];
     split; [exact Ha1|]; split; [exact Ha2|]; split; [reflexivity|];
     split; [intros Hnone; try discriminate Hnone
            |split; [intros Hsome; try congruence; auto
                    |intros a1' a2' v1' v2' H1 H2 H3 H4 H5 H6;
                     try congruence; repeat split; congruence]]).
  exists a1, a2, v1, v2. auto 10.
Qed.


Lemma write_run env path opts token srv log :
  startsWith (lit "http") path || startsWith (lit "/api") path = false ->
  exists r,
    verb r = match initMethod opts with Some m => m | None => GET end
    /\ payload r = initBody opts /\ url r = API_BASE env ++ path
    /\ authorized token r
    /\ (response <~ apiFetch env path opts token ;; jsonOrThrow response)
         srv log
       = (match srv log r with
          | Normal response =>
              if ok response then json response
              else Throw (Error (textOrStatus response))
          | Throw err => Throw err
          end, log ++ [r]).
Proof.
  intros Hpath. unfold iobind.
  destruct (apiFetch_authorized env path opts token srv log)
    as (r & Hrun & Hauth & _ & Hp & Hv & Hu).
  exists r. rewrite Hrun. rewrite Hpath in Hu.
  split; [exact Hv|]. split; [exact Hp|]. split; [exact Hu|].
  split; [exact Hauth|].
  destruct (srv log r) as [response|err]; [|reflexivity].
  unfold jsonOrThrow, readJson, throw. now destruct (ok response).
Qed.

(** X19.  Saving a template that passes the checks of the editor never
    throws and ends with the dialog's loading flag cleared.  With a token
    the first request is the write, a PATCH of the edited template or a
    POST of a new one, carrying the editor's data.  When the write is
    answered with an [ok] response and a JSON body, the two reads of the
    reload follow and the dialog closes without an error, also when a
    read fails; otherwise nothing else is sent, the dialog stays as it
    was and shows an error, and the list of templates is unchanged.
    Without a token nothing is sent and the dialog closes all the same. *)
Theorem template_save_reloads_only_after_the_write
  (env : Env) (st : State) (srv : server)
  (Hname : isBlank (name st) = false)
  (Hsystem : isBlank (systemPrompt st) = false)
  (Huser : isBlank (userTemplate st) = false)
  (Hplaceholder : includes (userTemplate st) (lit "{transcript}") = true) :
  exists st' log,
    run (handleSave env st) srv = (Normal st', log)
    /\ isLoading st' = false
    /\ (tokenTruthy (accessToken st) = false ->
        log = [] /\ isEditorOpen st' = false /\ error st' = None)
    /\ (tokenTruthy (accessToken st) = true ->
        exists w rest,
          log = w :: rest
          /\ payload w = JsonBody (JSON.stringify (templateData st))
          /\ authorized (accessToken st) w
          /\ match option_map PromptTemplate.id (editingTemplate st) with
             | Some (c :: i) =>
                 verb w = PATCH
                 /\ url w = API_BASE env ++ lit "/prompt-templates/" ++ c :: i
             | _ =>
                 verb w = POST
                 /\ url w = API_BASE env ++ lit "/prompt-templates"
             end
          /\ ((exists a v, srv [] w = Normal a /\ ok a = true
                           /\ json a = Normal v) ->
              exists g1 g2,
                rest = [g1; g2] /\ HttpLog.isRead g1 /\ HttpLog.isRead g2
                /\ isEditorOpen st' = false /\ error st' = None)
          /\ (~ (exists a v, srv [] w = Normal a /\ ok a = true
                             /\ json a = Normal v) ->
              rest = [] /\ isEditorOpen st' = isEditorOpen st
              /\ error st' <> None /\ templates st' = templates st)).
Proof.
  unfold run, handleSave. rewrite Hname, Hsystem, Huser, Hplaceholder.
  cbn [negb]. unfold iobind at 1. unfold tryCatch. unfold iobind at 1.
  unfold pageHandleSave. cbn [accessToken setDialog editingTemplate].
  destruct (tokenTruthy (accessToken st)) eqn:Et; cbn [negb].
  2:{ do 2 eexists. split; [reflexivity|]. cbn.
      split; [reflexivity|]. split; [auto|discriminate]. }
  unfold iobind at 1.
  set (st1 := setDialog true None st).
  assert (Hdata : templateData st1 = templateData st) by reflexivity.
  assert (Hwrite : exists w,
    payload w = JsonBody (JSON.stringify (templateData st))
    /\ authorized (accessToken st) w
    /\ match option_map PromptTemplate.id (editingTemplate st) with
       | Some (c :: i) =>
           verb w = PATCH
           /\ url w = API_BASE env ++ lit "/prompt-templates/" ++ c :: i
       | _ => verb w = POST
              /\ url w = API_BASE env ++ lit "/prompt-templates"
       end
    /\ match option_map PromptTemplate.id (editingTemplate st) with
       | Some (c :: i) =>
           updatePromptTemplate env (c :: i) (templateData st1)
                                (accessToken st)
       | _ => createPromptTemplate env (templateData st1) (accessToken st)
       end srv []
       = (match srv [] w with
          | Normal response =>
              if ok response then json response
              else Throw (Error (textOrStatus response))
          | Throw err => Throw err
          end, [w])).
  { destruct (option_map PromptTemplate.id (editingTemplate st))
      as [[|c i]|].
    - destruct (write_run env (lit "/prompt-templates")
                  {| initMethod := Some POST;
                     initBody := JsonBody (JSON.stringify (templateData st1))
                  |} (accessToken st) srv [] eq_refl)
        as (w & Hv & Hp & Hu & Ha & Hrun).
      exists w. rewrite Hdata in Hp. auto.
    - destruct (write_run env (lit "/prompt-templates/" ++ c :: i)
                  {| initMethod := Some PATCH;
                     initBody := JsonBody (JSON.stringify (templateData st1))
                  |} (accessToken st) srv [] eq_refl)
        as (w & Hv & Hp & Hu & Ha & Hrun).
      exists w. rewrite Hdata in Hp. auto.
    - destruct (write_run env (lit "/prompt-templates")
                  {| initMethod := Some POST;
                     initBody := JsonBody (JSON.stringify (templateData st1))
                  |} (accessToken st) srv [] eq_refl)
        as (w & Hv & Hp & Hu & Ha & Hrun).
      exists w. rewrite Hdata in Hp. auto. }
  destruct Hwrite as (w & Hp & Ha & Hroute & Hrun). rewrite Hrun.
  destruct (srv [] w) as [a|e] eqn:Hs;
    [destruct (ok a) eqn:Ho; [destruct (json a) as [v|e] eqn:Hj|]|].
  - destruct (loadTemplates_from env st1 srv [w])
      as (st2 & new & Hload & Hopen & Herr & _ & _ & Hyes).
    rewrite Hload. cbn [ret].
    destruct (Hyes Et) as (g1 & g2 & -> & Hg1 & Hg2 & _).
    do 2 eexists. split; [reflexivity|]. cbn.
    split; [reflexivity|]. split; [discriminate|]. intros _.
    exists w, [g1; g2]. split; [reflexivity|]. split; [exact Hp|].
    split; [exact Ha|]. split; [exact Hroute|]. split.
    + intros _. exists g1, g2. rewrite Herr. auto.
    + intros Hno. exfalso. apply Hno. eauto.
  - do 2 eexists. split; [reflexivity|]. cbn.
    split; [reflexivity|]. split; [discriminate|]. intros _.
    exists w, []. split; [reflexivity|]. split; [exact Hp|].
    split; [exact Ha|]. split; [exact Hroute|]. split.
    + intros (a' & v & Ha' & _ & Hj'). congruence.
    + intros _. repeat split; discriminate.
  - do 2 eexists. split; [reflexivity|]. cbn.
    split; [reflexivity|]. split; [discriminate|]. intros _.
    exists w, []. split; [reflexivity|]. split; [exact Hp|].
    split; [exact Ha|]. split; [exact Hroute|]. split.
    + intros (a' & v & Ha' & Ho' & _). congruence.
    + intros _. repeat split; discriminate.
  - do 2 eexists. split; [reflexivity|]. cbn.
    split; [reflexivity|]. split; [discriminate|]. intros _.
    exists w, []. split; [reflexivity|]. split; [exact Hp|].
    split; [exact Ha|]. split; [exact Hroute|]. split.
    + intros (a' & v & Ha' & _). congruence.
    + intros _. repeat split; discriminate.
Qed.

End TemplatePage.

(** ** Creating an evaluation dataset *)

Section DatasetUpload.
Import JS Http HttpLog Api EvaluationsPage DatasetEditor.

Lemma edit_keeps (st : State) (e : Edit) :
  csvOnly st ->
  csvOnly (edit st e)
  /\ editingDataset (edit st e) = editingDataset st
  /\ accessToken (edit st e) = accessToken st.
Proof.
  intros H. destruct e as [n|d|[f|]]; simpl; auto.
  unfold handleFileChange.
  destruct (endsWith (lit ".csv") (fileName f)) eqn:E; simpl; auto.
  unfold csvOnly. simpl. auto.
Qed.

Lemma edits_keep (edits : list Edit) (st : State) :
  csvOnly st ->
  csvOnly (fold_left edit edits st)
  /\ editingDataset (fold_left edit edits st) = editingDataset st
  /\ accessToken (fold_left edit edits st) = accessToken st.
Proof.
  revert st. induction edits as [|e l IH]; intros st H; simpl; auto.
  destruct (edit_keeps st e H) as (H1 & H2 & H3).
  destruct (IH _ H1) as (H4 & H5 & H6). repeat split; congruence.
Qed.

Lemma emits_createEvaluationDataset env n descr f token :
  emits (fun r => isRead r \/ uploads env n f r)
        (createEvaluationDataset env
           {| createName := n; createDescription := descr;
              createFile := Some f |} token).
Proof.
  unfold createEvaluationDataset. cbn [createName createDescription createFile].
  apply emits_bind; [|intros; apply emits_jsonOrThrow].
  apply emits_fetch. right. unfold uploads.
  cbn [verb url headers payload].
  split; [reflexivity|]. split; [reflexivity|]. split.
  - intros v. destruct token as [[|c t]|]; simpl; intuition discriminate.
  - eexists. split; [reflexivity|].
    destruct descr as [[|c d]|]; simpl; auto.
Qed.

(** X20.  Whatever the user types and whichever files the user chooses
    after opening the editor for a new dataset, a save sends, besides the
    reads of the reload, only the upload of a file whose name ends in
    [.csv], under the trimmed name of the editor, which is not blank.  The
    upload is a multipart request without a [Content-Type] header of its
    own. *)
Theorem new_dataset_uploads_only_a_csv_file
  (env : Env) (st0 : State) (edits : list Edit) (srv : server) :
  let st := fold_left edit edits (onOpen None st0) in
  csvOnly st
  /\ forall r, In r (requests (handleSave env st) srv) ->
       isRead r
       \/ exists f,
            file st = Some f
            /\ endsWith (lit ".csv") (fileName f) = true
            /\ trim (name st) <> []
            /\ uploads env (trim (name st)) f r.
Proof.
  intros st.
  assert (Hopen : csvOnly (onOpen None st0)) by exact I.
  destruct (edits_keep edits _ Hopen) as (Hcsv & Hedit & _).
  fold st in Hcsv, Hedit. cbn [onOpen editingDataset] in Hedit.
  split; [exact Hcsv|]. intros r.
  apply (emits_requests
           (fun r => isRead r
                     \/ exists f, file st = Some f
                          /\ endsWith (lit ".csv") (fileName f) = true
                          /\ trim (name st) <> []
                          /\ uploads env (trim (name st)) f r)).
  unfold handleSave. rewrite Hedit.
  unfold PromptTemplatesPage.isBlank.
  destruct (trim (name st)) as [|c n] eqn:En; [apply emits_ret|].
  destruct (file st) as [f|] eqn:Ef; cbn [negb andb]; [|apply emits_ret].
  apply emits_bind; [|intros; apply emits_ret].
  apply emits_tryCatch; [|intros; apply emits_ret].
  apply emits_bind; [|intros; apply emits_ret].
  unfold pageHandleSave.
  apply emits_if; [apply emits_ret|].
  apply emits_bind; [|intros; apply emits_loadData; auto].
  cbn [name description file setDialog editingDataset accessToken].
  rewrite Hedit, En, Ef. cbn [option_map].
  apply (emits_weaken (fun r => isRead r \/ uploads env (c :: n) f r)).
  - intros r' [H|H]; [now left|right].
    exists f. unfold csvOnly in Hcsv. rewrite Ef in Hcsv.
    split; [reflexivity|]. split; [exact Hcsv|].
    split; [discriminate|exact H].
  - apply emits_createEvaluationDataset.
Qed.

End DatasetUpload.

(** ** The runs of a dataset *)

Section DatasetRuns.
Import JS Http HttpLog Api ApiCalls Calls EvaluationRunsDialog.
Variable timeOfValue : value -> option Z.

Lemma caught_read_run env path (e : Response -> JS.error) token srv log :
  startsWith (lit "http") path || startsWith (lit "/api") path = false ->
  exists r,
    isRead r /\ url r = API_BASE env ++ path /\ authorized token r
    /\ tryCatch (response <~ apiFetch env path noInit token ;;
                 if ok response then readJson response
                 else throw (e response))
                (fun _ => ret (VArr [])) srv log
       = (Normal (settled (srv log r)), log ++ [r]).
Proof.
  intros Hpath.
  destruct (getJson_run env path e token srv log Hpath)
    as (r & Hv & Hp & Hu & Ha & Hrun).
  exists r. split; [now split|]. split; [exact Hu|]. split; [exact Ha|].
  unfold tryCatch. rewrite Hrun. unfold settled.
  destruct (srv log r) as [response|err]; [|reflexivity].
  destruct (ok response); [|reflexivity].
  now destruct (json response).
Qed.

Lemma promiseAll_reads env token (templates : list PromptTemplate.t)
  srv log :
  exists new,
    promiseAll (map (fun t =>
                       tryCatch (fetchTemplateEvaluations env
                                   (PromptTemplate.id t) token)
                                (fun _ => ret (VArr [])))
                    templates) srv log
    = (Normal (collected srv log new), log ++ new)
    /\ map url new
       = map (fun t => API_BASE env ++ lit "/evaluations/templates/"
                       ++ PromptTemplate.id t ++ lit "/runs") templates
    /\ Forall isRead new
    /\ Forall (authorized token) new.
Proof.
  revert log. induction templates as [|t l IH]; intros log.
  - exists []. simpl. rewrite app_nil_r. auto.
  - cbn [map promiseAll]. unfold fetchTemplateEvaluations, getJson at 1.
    destruct (caught_read_run env
                (lit "/evaluations/templates/" ++ PromptTemplate.id t
                 ++ lit "/runs")
                (fun response => Error (lit "Failed to fetch evaluations: "
                                        ++ statusText response))
                token srv log eq_refl)
      as (r & Hr & Hu & Ha & Hrun).
    rewrite Hrun.
    destruct (IH (log ++ [r])) as (new & Hall & Hurls & Hreads & Hauth).
    unfold fetchTemplateEvaluations in Hall. rewrite Hall.
    exists (r :: new). rewrite <- app_assoc. cbn [app collected map].
    split; [reflexivity|]. split; [now rewrite Hu, Hurls|].
    split; constructor; trivial.
Qed.

Lemma filterM_ofDataset (id : jsstring) (l : list value) :
  Forall (fun run => run <> VNull /\ run <> VUndefined) l ->
  TranscriptSearch.filterM (ofDataset id) l
  = Normal (filter (inDataset id) l).
Proof.
  induction 1 as [|run l [Hn Hu] _ IH]; simpl; trivial.
  unfold ofDataset at 1. rewrite (get_member run _ Hn Hu). cbn [bind].
  rewrite IH. cbn [bind]. reflexivity.
Qed.

Lemma filterM_ofDataset_null (id : jsstring) (l : list value) :
  Exists (fun run => run = VNull \/ run = VUndefined) l ->
  exists e, TranscriptSearch.filterM (ofDataset id) l = Throw e.
Proof.
  induction 1 as [run l [->| ->]|run l _ IH].
  - eexists. reflexivity.
  - eexists. reflexivity.
  - cbn [TranscriptSearch.filterM].
    destruct (ofDataset id run) as [b|e]; [|eexists; reflexivity].
    destruct IH as [e ->]. eexists. reflexivity.
Qed.

(** X21.  Loading the runs of a dataset never throws and ends with the
    loading flag cleared.  It sends one read per template, in the order of
    the templates, and a read that fails counts as an empty list of runs.
    When none of the received elements is [null] the dialog shows exactly
    the received runs that name the dataset, and no error; a [null] among
    the received elements makes the dialog show an error and keep the
    runs it had. *)
Theorem loadRuns_shows_the_runs_of_the_dataset
  (env : Env) (d : EvaluationDataset.t) (templates : list PromptTemplate.t)
  (token : option jsstring) (st : State) (srv : server)
  (Htoken : tokenTruthy token = true) :
  exists st' log,
    run (loadRuns timeOfValue env (Some d) templates token st) srv
    = (Normal st', log)
    /\ isLoading st' = false
    /\ map url log
       = map (fun t => API_BASE env ++ lit "/evaluations/templates/"
                       ++ PromptTemplate.id t ++ lit "/runs") templates
    /\ Forall isRead log
    /\ Forall (authorized token) log
    /\ let received := flat (collected srv [] log) in
       (Forall (fun run => run <> VNull /\ run <> VUndefined) received ->
        error st' = None
        /\ Permutation (runs st')
             (filter (inDataset (EvaluationDataset.id d)) received)
        /\ Forall (fun run =>
                     Notions.member run (lit "dataset_id")
                     = VStr (EvaluationDataset.id d)) (runs st'))
       /\ (Exists (fun run => run = VNull \/ run = VUndefined) received ->
           error st' <> None /\ runs st' = runs st).
Proof.
  unfold run, loadRuns. rewrite Htoken. cbn [negb].
  unfold iobind at 1. unfold tryCatch at 1. unfold iobind at 1.
  destruct (promiseAll_reads env token templates srv [])
    as (new & Hall & Hurls & Hreads & Hauth).
  rewrite Hall. cbn [app].
  set (received := flat (collected srv [] new)).
  destruct (TranscriptSearch.filterM (ofDataset (EvaluationDataset.id d))
                                     received) as [kept|e] eqn:Hf.
  - do 2 eexists. split; [reflexivity|]. cbn.
    split; [reflexivity|]. split; [exact Hurls|]. split; [exact Hreads|].
    split; [exact Hauth|]. fold received. split.
    + intros Hok. rewrite (filterM_ofDataset _ _ Hok) in Hf.
      injection Hf as <-. split; [reflexivity|].
      assert (Hperm := sort_perm (byCreatedAtDesc timeOfValue)
                         (filter (inDataset (EvaluationDataset.id d))
                                 received)).
      split; [exact Hperm|].
      apply Forall_forall. intros run Hrun.
      apply (Permutation_in _ Hperm) in Hrun.
      apply filter_In in Hrun as [_ Hrun]. unfold inDataset in Hrun.
      change (Notions.member run (lit "dataset_id")
              = VStr (EvaluationDataset.id d)).
      destruct (Notions.member run (lit "dataset_id")) as [| | | |s| |];
        try discriminate Hrun.
      apply str_eqb_eq in Hrun. congruence.
    + intros Hnull.
      destruct (filterM_ofDataset_null (EvaluationDataset.id d) _ Hnull)
        as [e He]. congruence.
  - do 2 eexists. split; [reflexivity|]. cbn.
    split; [reflexivity|]. split; [exact Hurls|]. split; [exact Hreads|].
    split; [exact Hauth|]. fold received. split.
    + intros Hok. rewrite (filterM_ofDataset _ _ Hok) in Hf. discriminate.
    + intros _. split; [discriminate|reflexivity].
Qed.

End DatasetRuns.

(** ** The session of the provider *)

Section Session.
Import JS Http HttpLog Api Calls AuthContext.

Lemma cookieGet_removed name jar :
  cookieGet name (cookieRemove name jar) = None.
Proof.
  unfold cookieGet, cookieRemove.
  destruct (find _ (filter _ jar)) as [entry|] eqn:E; [|reflexivity].
  apply find_some in E. destruct E as [Hin Hname].
  apply filter_In in Hin. destruct Hin as [_ Hneg].
  rewrite Hname in Hneg. discriminate.
Qed.

Lemma cookieGet_other name other jar :
  str_eqb other name = false ->
  cookieGet name (cookieRemove other jar) = cookieGet name jar.
Proof.
  intros Hne. unfold cookieGet, cookieRemove.
  induction jar as [|[k c] jar IH]; [reflexivity|].
  cbn [filter find fst snd].
  destruct (str_eqb k other) eqn:Ek; cbn [negb].
  - destruct (str_eqb k name) eqn:En.
    + apply str_eqb_eq in Ek. apply str_eqb_eq in En. subst.
      rewrite (proj2 (str_eqb_eq name name) eq_refl) in Hne. discriminate.
    + exact IH.
  - cbn [find fst snd]. destruct (str_eqb k name); [reflexivity|exact IH].
Qed.

Lemma cookieGet_set name c jar :
  cookieGet name (cookieSet name c jar) = Some (content c).
Proof.
  unfold cookieSet, cookieGet. rewrite find_app.
  pose proof (cookieGet_removed name jar) as H. unfold cookieGet in H.
  destruct (find _ (cookieRemove name jar)); [discriminate|].
  cbn [find fst snd]. rewrite (proj2 (str_eqb_eq name name) eq_refl).
  reflexivity.
Qed.

Lemma cookieGet_set_other name other c jar :
  str_eqb other name = false ->
  cookieGet name (cookieSet other c jar) = cookieGet name jar.
Proof.
  intros Hne. unfold cookieSet.
  pose proof (cookieGet_other name other jar Hne) as H.
  unfold cookieGet in *. rewrite find_app.
  destruct (find _ (cookieRemove other jar)); [exact H|].
  cbn [find fst snd]. rewrite Hne. exact H.
Qed.

Lemma apiFetchAs_string toText env path opts s :
  apiFetchAs toText env path opts (VStr s) = apiFetch env path opts (Some s).
Proof. unfold apiFetchAs, apiFetch. destruct s; reflexivity. Qed.

Lemma session_call env path opts srv log :
  startsWith (lit "/api") path = true ->
  exists r,
    apiFetch env path opts None srv log = (srv log r, log ++ [r])
    /\ verb r = match initMethod opts with Some m => m | None => GET end
    /\ url r = path /\ authorized None r.
Proof.
  intros Hpath.
  destruct (apiFetch_authorized env path opts None srv log)
    as (r & Hrun & Hauth & _ & _ & Hv & Hu).
  exists r. rewrite Hpath, orb_true_r in Hu.
  split; [exact Hrun|]. split; [exact Hv|]. split; [exact Hu|exact Hauth].
Qed.

(** [fetchUser] makes one request and only ever changes the user. *)
Lemma fetchUser_run toText env token st srv log :
  exists r u st',
    fetchUser toText env token st srv log = (Normal (u, st'), log ++ [r])
    /\ verb r = GET /\ url r = API_BASE env ++ lit "/auth/me"
    /\ credentials r = lit "include"
    /\ header (lit "Authorization") (headers r)
       = (if truthy token
          then Some (lit "Bearer " ++ textOf toText token) else None)
    /\ accessToken st' = accessToken st /\ email st' = email st
    /\ isLoading st' = isLoading st /\ cookies st' = cookies st.
Proof.
  unfold fetchUser, tryCatch, iobind, apiFetchAs, fetch, readJson, ret.
  eexists.
  change (startsWith (lit "http") (lit "/auth/me")
          || startsWith (lit "/api") (lit "/auth/me")) with false.
  cbv iota.
  match goal with |- context [srv log ?r] => destruct (srv log r) as [response|e] end.
  - destruct (ok response).
    + destruct (json response) as [v|e].
      * exists v, (setUser v st). split; [reflexivity|].
        cbn [verb url credentials headers initMethod noInit].
        split; [reflexivity|]. split; [reflexivity|]. split; [reflexivity|].
        split; [destruct (truthy token); reflexivity|].
        repeat split.
      * exists VNull, st. split; [reflexivity|].
        cbn [verb url credentials headers initMethod noInit].
        split; [reflexivity|]. split; [reflexivity|]. split; [reflexivity|].
        split; [destruct (truthy token); reflexivity|].
        repeat split.
    + exists VNull, st. split; [reflexivity|].
      cbn [verb url credentials headers initMethod noInit].
      split; [reflexivity|]. split; [reflexivity|]. split; [reflexivity|].
      split; [destruct (truthy token); reflexivity|].
      repeat split.
  - exists VNull, st. split; [reflexivity|].
    cbn [verb url credentials headers initMethod noInit].
    split; [reflexivity|]. split; [reflexivity|]. split; [reflexivity|].
    split; [destruct (truthy token); reflexivity|].
    repeat split.
Qed.

Lemma clearAuth_signed_out st :
  isAuthenticated (clearAuth st) = false
  /\ cookieGet ACCESS_TOKEN_COOKIE (cookies (clearAuth st)) = None
  /\ cookieGet EMAIL_COOKIE (cookies (clearAuth st)) = None
  /\ forall name,
       name <> ACCESS_TOKEN_COOKIE -> name <> EMAIL_COOKIE ->
       cookieGet name (cookies (clearAuth st)) = cookieGet name (cookies st).
Proof.
  unfold clearAuth. cbn [cookies]. split; [reflexivity|].
  split.
  - rewrite cookieGet_other by reflexivity. apply cookieGet_removed.
  - split; [apply cookieGet_removed|].
    intros name Ha He.
    assert (Hne : forall other, name <> other -> str_eqb other name = false).
    { intros other Hn. destruct (str_eqb other name) eqn:E; [|reflexivity].
      apply str_eqb_eq in E. congruence. }
    rewrite !cookieGet_other by (apply Hne; assumption). reflexivity.
Qed.

(** X22.  [logout] makes one POST to the logout route, without a token,
    and then the session is cleared whatever the server answers, also
    when the request fails: the token, the email and the user are null,
    both cookies of the session are gone and no other cookie changed. *)
Theorem logout_clears_the_session_whatever_the_server_answers
  (env : Env) (st : State) (srv : server) :
  exists r st',
    run (logout env st) srv = (Normal st', [r])
    /\ verb r = POST /\ url r = lit "/api/auth/logout"
    /\ authorized None r
    /\ accessToken st' = VNull /\ email st' = None /\ user st' = VNull
    /\ isAuthenticated st' = false
    /\ cookieGet ACCESS_TOKEN_COOKIE (cookies st') = None
    /\ cookieGet EMAIL_COOKIE (cookies st') = None
    /\ forall name,
         name <> ACCESS_TOKEN_COOKIE -> name <> EMAIL_COOKIE ->
         cookieGet name (cookies st') = cookieGet name (cookies st).
Proof.
  destruct (session_call env (lit "/api/auth/logout")
              {| initMethod := Some POST; initBody := NoBody |} srv []
              eq_refl) as (r & Hrun & Hv & Hu & Hauth).
  exists r, (clearAuth st).
  split.
  - unfold run, logout, tryCatch, iobind. rewrite Hrun.
    destruct (srv [] r); reflexivity.
  - split; [exact Hv|]. split; [exact Hu|]. split; [exact Hauth|].
    split; [reflexivity|]. split; [reflexivity|]. split; [reflexivity|].
    apply clearAuth_signed_out.
Qed.

(** X23.  [refresh] never throws and makes first one POST to the refresh
    route, without a token.  It answers [true] exactly when the server
    answers [ok] with a JSON body other than [null]; otherwise the session
    is cleared and nothing else is requested.  On [true] the token of the
    state and of the cookie is the field [access_token] of the body,
    whatever it holds, the email is unchanged, and the user is requested
    exactly when the email is not empty. *)
Theorem refresh_succeeds_exactly_on_an_ok_answer_with_a_body
  (toText : value -> jsstring) (production : bool)
  (env : Env) (st : State) (srv : server) :
  exists r b st' log,
    run (refresh toText production env st) srv = (Normal (b, st'), log)
    /\ verb r = POST /\ url r = lit "/api/auth/refresh"
    /\ authorized None r
    /\ (b = true <->
        exists response data,
          srv [] r = Normal response /\ ok response = true
          /\ json response = Normal data
          /\ data <> VNull /\ data <> VUndefined)
    /\ (b = false -> st' = clearAuth st /\ log = [r])
    /\ (b = true ->
        exists response data token,
          srv [] r = Normal response /\ json response = Normal data
          /\ get data (lit "access_token") = Normal token
          /\ accessToken st' = token
          /\ email st' = email st
          /\ cookieGet ACCESS_TOKEN_COOKIE (cookies st')
             = Some (textOf toText token)
          /\ match email st with
             | Some (_ :: _) =>
                 exists r',
                   log = [r; r'] /\ verb r' = GET
                   /\ url r' = API_BASE env ++ lit "/auth/me"
                   /\ header (lit "Authorization") (headers r')
                      = (if truthy token
                         then Some (lit "Bearer " ++ textOf toText token)
                         else None)
             | _ => log = [r]
             end).
Proof.
  destruct (session_call env (lit "/api/auth/refresh")
              {| initMethod := Some POST; initBody := NoBody |} srv []
              eq_refl) as (r & Hrun & Hv & Hu & Hauth).
  exists r.
  cbn [initMethod] in Hv.
  unfold run, refresh, tryCatch, iobind. rewrite Hrun.
  change ([] ++ [r]) with [r].
  destruct (srv [] r) as [response|e] eqn:Hsrv.
  - destruct (ok response) eqn:Hok; cbn [negb].
    + unfold readJson.
      destruct (json response) as [data|e] eqn:Hjson.
      * destruct (get data (lit "access_token")) as [token|e] eqn:Hget.
        -- assert (Hdata : data <> VNull /\ data <> VUndefined).
           { split; intros ->; discriminate. }
           destruct (email st) as [[|c e]|] eqn:Hemail.
           ++ eexists true, _, [r]. split; [reflexivity|].
              split; [exact Hv|]. split; [exact Hu|]. split; [exact Hauth|].
              split; [split; [intros _; exists response, data; tauto
                             |reflexivity]|].
              split; [discriminate|]. intros _.
              exists response, data, token. cbn [accessToken email cookies].
              split; [reflexivity|]. split; [exact Hjson|].
              split; [exact Hget|]. split; [reflexivity|].
              split; [reflexivity|].
              split; [apply cookieGet_set|reflexivity].
           ++ unfold setAuth, iobind.
              match goal with
              | |- context [fetchUser toText env token ?s srv [r]] =>
                  destruct (fetchUser_run toText env token s srv [r])
                    as (r' & u & st' & Hf & Hv' & Hu' & _ & Hh & Ha & He & _ & Hc);
                  rewrite Hf
              end.
              cbn [snd ret accessToken email cookies] in *.
              eexists true, st', [r; r']. split; [reflexivity|].
              split; [exact Hv|]. split; [exact Hu|]. split; [exact Hauth|].
              split; [split; [intros _; exists response, data; tauto
                             |reflexivity]|].
              split; [discriminate|]. intros _.
              exists response, data, token.
              split; [reflexivity|]. split; [exact Hjson|].
              split; [exact Hget|]. split; [exact Ha|].
              split; [exact He|].
              split.
              ** rewrite Hc, cookieGet_set_other by reflexivity.
                 apply cookieGet_set.
              ** exists r'. split; [reflexivity|]. split; [exact Hv'|].
                 split; [exact Hu'|exact Hh].
           ++ eexists true, _, [r]. split; [reflexivity|].
              split; [exact Hv|]. split; [exact Hu|]. split; [exact Hauth|].
              split; [split; [intros _; exists response, data; tauto
                             |reflexivity]|].
              split; [discriminate|]. intros _.
              exists response, data, token. cbn [accessToken email cookies].
              split; [reflexivity|]. split; [exact Hjson|].
              split; [exact Hget|]. split; [reflexivity|].
              split; [reflexivity|].
              split; [apply cookieGet_set|reflexivity].
        -- exists false, (clearAuth st), [r]. split; [reflexivity|].
           split; [exact Hv|]. split; [exact Hu|]. split; [exact Hauth|].
           split.
           ++ split; [discriminate|].
              intros (response' & data' & Hr & _ & Hj & Hn & Hun).
              assert (response' = response) by congruence. subst response'.
              assert (data' = data) by congruence. subst data'.
              destruct data as [| | | | | |props]; cbn in Hget;
                try discriminate; try congruence.
              destruct (lookup _ props); discriminate.
           ++ split; [intros _; split; reflexivity|discriminate].
      * exists false, (clearAuth st), [r]. split; [reflexivity|].
        split; [exact Hv|]. split; [exact Hu|]. split; [exact Hauth|].
        split.
        -- split; [discriminate|].
           intros (response' & data' & Hr & _ & Hj & _).
           assert (response' = response) by congruence. subst response'.
           congruence.
        -- split; [intros _; split; reflexivity|discriminate].
    + exists false, (clearAuth st), [r]. split; [reflexivity|].
      split; [exact Hv|]. split; [exact Hu|]. split; [exact Hauth|].
      split.
      * split; [discriminate|].
        intros (response' & data' & Hr & Hok' & _).
        assert (response' = response) by congruence. subst response'.
        congruence.
      * split; [intros _; split; reflexivity|discriminate].
  - exists false, (clearAuth st), [r]. split; [reflexivity|].
    split; [exact Hv|]. split; [exact Hu|]. split; [exact Hauth|].
    split.
    + split; [discriminate|].
      intros (response' & data' & Hr & _). discriminate.
    + split; [intros _; split; reflexivity|discriminate].
Qed.

Lemma refresh_without_email toText production env st srv :
  email st = None ->
  exists r b st',
    refresh toText production env st srv [] = (Normal (b, st'), [r])
    /\ verb r = POST /\ url r = lit "/api/auth/refresh"
    /\ authorized None r /\ email st' = None.
Proof.
  intros Hemail.
  destruct (session_call env (lit "/api/auth/refresh")
              {| initMethod := Some POST; initBody := NoBody |} srv []
              eq_refl) as (r & Hrun & Hv & Hu & Hauth).
  exists r. unfold refresh, tryCatch, iobind, readJson. rewrite Hrun, Hemail.
  change ([] ++ [r]) with [r].
  destruct (srv [] r) as [response|e].
  - destruct (ok response); cbn [negb].
    + destruct (json response) as [data|e].
      * destruct (get data (lit "access_token")) as [token|e].
        -- eexists true, _. split; [reflexivity|]. cbn [email]. tauto.
        -- exists false, (clearAuth st). split; [reflexivity|]. tauto.
      * exists false, (clearAuth st). split; [reflexivity|]. tauto.
    + exists false, (clearAuth st). split; [reflexivity|]. tauto.
  - exists false, (clearAuth st). split; [reflexivity|]. tauto.
Qed.

(** X24.  When the provider mounts, loading always ends after exactly one
    request.  With both cookies present the session is the stored one and
    the request reads the user with the stored token; otherwise the
    request is a refresh, and the provider is not authenticated afterwards
    even when the refresh succeeds, because the email stays null. *)
Theorem mount_restores_the_session_only_from_both_cookies
  (toText : value -> jsstring) (production : bool)
  (env : Env) (jar : list (jsstring * Cookie)) (srv : server) :
  exists r st',
    run (onMount toText production env jar) srv = (Normal st', [r])
    /\ isLoading st' = false
    /\ match cookieGet ACCESS_TOKEN_COOKIE jar,
             cookieGet EMAIL_COOKIE jar with
       | Some (c :: storedToken), Some (c' :: storedEmail) =>
           accessToken st' = VStr (c :: storedToken)
           /\ email st' = Some (c' :: storedEmail)
           /\ isAuthenticated st' = true
           /\ verb r = GET /\ url r = API_BASE env ++ lit "/auth/me"
           /\ authorized (Some (c :: storedToken)) r
       | _, _ =>
           email st' = None /\ isAuthenticated st' = false
           /\ verb r = POST /\ url r = lit "/api/auth/refresh"
           /\ authorized None r
       end.
Proof.
  unfold run, onMount.
  assert (Hrefresh :
    exists r st',
      (settled <~ refresh toText production env (initial jar) ;;
       ret (setIsLoading false (snd settled))) srv [] = (Normal st', [r])
      /\ isLoading st' = false
      /\ email st' = None /\ isAuthenticated st' = false
      /\ verb r = POST /\ url r = lit "/api/auth/refresh"
      /\ authorized None r).
  { destruct (refresh_without_email toText production env (initial jar) srv
                eq_refl) as (r & b & st' & Hrun & Hv & Hu & Hauth & He).
    exists r, (setIsLoading false st'). unfold iobind. rewrite Hrun.
    split; [reflexivity|]. split; [reflexivity|].
    unfold isAuthenticated. cbn [setIsLoading email accessToken].
    rewrite He, andb_false_r. tauto. }
  destruct (cookieGet ACCESS_TOKEN_COOKIE jar) as [[|c storedToken]|];
    [exact Hrefresh| |exact Hrefresh].
  destruct (cookieGet EMAIL_COOKIE jar) as [[|c' storedEmail]|];
    [exact Hrefresh| |exact Hrefresh].
  clear Hrefresh. unfold iobind.
  match goal with
  | |- context [fetchUser toText env ?t ?s srv []] =>
      destruct (fetchUser_run toText env t s srv [])
        as (r & u & st' & Hf & Hv & Hu & Hcred & Hh & Ha & He & _ & _);
      rewrite Hf
  end.
  cbn [accessToken email truthy textOf] in *.
  exists r, (setIsLoading false st'). split; [reflexivity|].
  split; [reflexivity|].
  unfold isAuthenticated. cbn [setIsLoading email accessToken].
  rewrite Ha, He. cbn [truthy andb].
  split; [reflexivity|]. split; [reflexivity|]. split; [reflexivity|].
  split; [exact Hv|]. split; [exact Hu|].
  split; [exact Hcred|exact Hh].
Qed.

End Session.

(** ** The hypotheses of the properties hold on the samples *)

Section OnSamples.
Import JS Http HttpLog.

Lemma detail_counts_match_table_filters_witness :
  NoDup (map Transcript.id Samples.calls)
  /\ NoDup (map Assessment.transcript_id Samples.assessments)
  /\ RepDetailTabs.completedCount
       (RepDetailTabs.metrics JSDate.isoUtc Samples.printDate Samples.calls
          (RepDetailTabs.repAssessments Samples.calls Samples.assessments))
     = List.length
         (TranscriptsTableData.filteredData (lit "completed")
            (TranscriptsTableData.tableData Samples.calls
               Samples.assessments)).
Proof.
  assert (H1 : NoDup (map Transcript.id Samples.calls)).
  { cbn. repeat constructor; cbn; intuition discriminate. }
  assert (H2 : NoDup (map Assessment.transcript_id Samples.assessments)).
  { cbn. repeat constructor; cbn; intuition discriminate. }
  split; [exact H1|]. split; [exact H2|].
  exact (proj1 (proj2 (detail_counts_match_table_filters
                         JSDate.isoUtc Samples.printDate
                         Samples.calls Samples.assessments H1 H2))).
Defined.

Lemma chartData_one_point_per_assessed_conversation_witness :
  Notions.datedTranscripts JSDate.isoUtc Samples.calls
  /\ exists points,
       RepDetailTabs.chartData JSDate.isoUtc Samples.printDate
         Samples.printDate Samples.calls Samples.assessments
       = Normal points.
Proof.
  assert (H : Notions.datedTranscripts JSDate.isoUtc Samples.calls).
  { repeat constructor; vm_compute; discriminate. }
  split; [exact H|].
  destruct (chartData_one_point_per_assessed_conversation
              JSDate.isoUtc Samples.printDate Samples.printDate
              Samples.calls Samples.assessments H)
    as (sorted & points & Hpoints & _).
  exists points. exact Hpoints.
Defined.

Lemma recentConversations_are_the_latest_five_witness :
  Notions.datedTranscripts JSDate.isoUtc Samples.calls
  /\ List.length (RepDetailTabs.recentTranscripts JSDate.isoUtc Samples.calls)
     = Nat.min 5 (List.length Samples.calls).
Proof.
  assert (H : Notions.datedTranscripts JSDate.isoUtc Samples.calls).
  { repeat constructor; vm_compute; discriminate. }
  split; [exact H|].
  exact (proj1 (recentConversations_are_the_latest_five
                  JSDate.isoUtc Samples.printDate
                  Samples.calls Samples.assessments H)).
Defined.

Lemma every_assigned_conversation_counts_once_witness :
  NoDup (map Representative.id Samples.team)
  /\ map RepresentativeRow.transcriptCount
         (RepresentativesPage.aggregatedData JSDate.isoUtc
            JSDate.toISOString Samples.team Samples.teamCalls
            Samples.assessments)
     = [3; 1]%nat
  /\ List.length Samples.teamCalls = 5%nat
  /\ list_sum
       (map RepresentativeRow.transcriptCount
          (RepresentativesPage.aggregatedData JSDate.isoUtc
             JSDate.toISOString Samples.team Samples.teamCalls
             Samples.assessments))
     = List.length
         (filter (Notions.assigned Samples.team) Samples.teamCalls).
Proof.
  assert (H : NoDup (map Representative.id Samples.team)).
  { cbn. repeat constructor; cbn; intuition discriminate. }
  split; [exact H|].
  split; [vm_compute; reflexivity|].
  split; [reflexivity|].
  exact (every_assigned_conversation_counts_once
           JSDate.isoUtc JSDate.toISOString Samples.team
           Samples.teamCalls Samples.assessments H).
Defined.

Lemma template_save_reloads_only_after_the_write_witness :
  PromptTemplatesPage.isBlank
    (PromptTemplatesPage.name Examples.editorWithPlaceholder) = false
  /\ PromptTemplatesPage.isBlank
       (PromptTemplatesPage.systemPrompt Examples.editorWithPlaceholder)
     = false
  /\ PromptTemplatesPage.isBlank
       (PromptTemplatesPage.userTemplate Examples.editorWithPlaceholder)
     = false
  /\ includes (PromptTemplatesPage.userTemplate
                 Examples.editorWithPlaceholder) (lit "{transcript}") = true
  /\ exists st' log,
       run (PromptTemplatesPage.handleSave Examples.env
              Examples.editorWithPlaceholder) Examples.scenarioServer
       = (Normal st', log)
       /\ PromptTemplatesPage.isLoading st' = false.
Proof.
  assert (H1 : PromptTemplatesPage.isBlank
                 (PromptTemplatesPage.name Examples.editorWithPlaceholder)
               = false) by (vm_compute; reflexivity).
  assert (H2 : PromptTemplatesPage.isBlank
                 (PromptTemplatesPage.systemPrompt
                    Examples.editorWithPlaceholder) = false)
    by (vm_compute; reflexivity).
  assert (H3 : PromptTemplatesPage.isBlank
                 (PromptTemplatesPage.userTemplate
                    Examples.editorWithPlaceholder) = false)
    by (vm_compute; reflexivity).
  assert (H4 : includes (PromptTemplatesPage.userTemplate
                           Examples.editorWithPlaceholder)
                        (lit "{transcript}") = true)
    by (vm_compute; reflexivity).
  split; [exact H1|]. split; [exact H2|]. split; [exact H3|].
  split; [exact H4|].
  destruct (template_save_reloads_only_after_the_write
              Examples.env Examples.editorWithPlaceholder
              Examples.scenarioServer H1 H2 H3 H4)
    as (st' & log & Hrun & Hloading & _).
  exists st', log. split; [exact Hrun|exact Hloading].
Defined.

Lemma loadRuns_shows_the_runs_of_the_dataset_witness :
  Api.tokenTruthy (Some (lit "token")) = true
  /\ exists st' log,
       run (EvaluationRunsDialog.loadRuns
              (fun v => match v with
                        | VStr s => JSDate.isoUtc s
                        | _ => None
                        end)
              Examples.env (Some Examples.dataset) Examples.freshStore
              (Some (lit "token"))
              {| EvaluationRunsDialog.runs := [];
                 EvaluationRunsDialog.isLoading := false;
                 EvaluationRunsDialog.error := None |})
           Examples.scenarioServer
       = (Normal st', log)
       /\ EvaluationRunsDialog.isLoading st' = false.
Proof.
  assert (H : Api.tokenTruthy (Some (lit "token")) = true) by reflexivity.
  split; [exact H|].
  destruct (loadRuns_shows_the_runs_of_the_dataset
              (fun v => match v with
                        | VStr s => JSDate.isoUtc s
                        | _ => None
                        end)
              Examples.env Examples.dataset Examples.freshStore
              (Some (lit "token"))
              {| EvaluationRunsDialog.runs := [];
                 EvaluationRunsDialog.isLoading := false;
                 EvaluationRunsDialog.error := None |}
              Examples.scenarioServer H)
    as (st' & log & Hrun & Hloading & _).
  exists st', log. split; [exact Hrun|exact Hloading].
Defined.

End OnSamples.

(** ** The initials of the user *)

Section UserInitials.
Import JS UserProfile.
Variable toUpperCase : jsstring -> jsstring.

Lemma trimStart_head s c r :
  trimStart s = c :: r -> isWhiteSpace c = false.
Proof.
  induction s as [|x s IH]; cbn [trimStart]; [discriminate|].
  destruct (isWhiteSpace x) eqn:E; [exact IH|].
  intros H. injection H as -> _. exact E.
Qed.

Lemma trimStart_suffix s : exists p, s = p ++ trimStart s.
Proof.
  induction s as [|x s [p IH]]; cbn [trimStart]; [exists []; reflexivity|].
  destruct (isWhiteSpace x).
  - exists (x :: p). cbn. now rewrite <- IH.
  - exists []. reflexivity.
Qed.

Lemma trimStart_fixed c s :
  isWhiteSpace c = false -> trimStart (c :: s) = c :: s.
Proof. intros H. cbn [trimStart]. now rewrite H. Qed.

(** A trimmed text that is not empty starts and ends with a unit that is
    not white space, and starts like the text without its leading white
    space. *)
Lemma trim_ends s c r :
  trim s = c :: r ->
  isWhiteSpace c = false
  /\ isWhiteSpace (last (c :: r) c) = false
  /\ exists r', trimStart s = c :: r'.
Proof.
  unfold trim, trimEnd. intros H.
  destruct (trimStart (rev (trimStart s))) as [|d u] eqn:Eu;
    [discriminate|].
  pose proof (trimStart_head _ _ _ Eu) as Hd.
  assert (Hlast : last (c :: r) c = d).
  { rewrite <- H. cbn [rev]. apply last_last. }
  destruct (trimStart_suffix (rev (trimStart s))) as [p Hp].
  rewrite Eu in Hp.
  assert (Hs : trimStart s = rev (d :: u) ++ rev p).
  { rewrite <- rev_app_distr, <- Hp, rev_involutive. reflexivity. }
  rewrite H in Hs.
  split.
  - apply (trimStart_head s c (r ++ rev p)). exact Hs.
  - split; [now rewrite Hlast|]. exists (r ++ rev p). exact Hs.
Qed.

(** The parts of a text that ends with a unit that is not white space,
    read from inside a part that is not empty or from inside a
    separator. *)
Lemma splitOn_parts s : forall cur inSeparator,
  (inSeparator = false -> cur <> []) ->
  (s = [] -> inSeparator = false) ->
  (forall d, isWhiteSpace (last s d) = true -> s = []) ->
  Forall (fun p => p <> []) (splitOn s cur inSeparator).
Proof.
  induction s as [|c s IH]; intros cur inSeparator Hcur Hend Hlast;
    cbn [splitOn].
  - constructor; [|constructor].
    intros H. apply (f_equal (@rev N)) in H. rewrite rev_involutive in H.
    exact (Hcur (Hend eq_refl) H).
  - assert (Hlast' : forall d, isWhiteSpace (last s d) = true -> s = []).
    { intros d H. destruct s as [|x s']; [reflexivity|].
      specialize (Hlast d). cbn [last] in Hlast. cbn [last] in H.
      specialize (Hlast H). discriminate. }
    destruct (isWhiteSpace c) eqn:Ec.
    + assert (Hs : s <> []).
      { intros ->. specialize (Hlast c). cbn [last] in Hlast.
        specialize (Hlast Ec). discriminate. }
      destruct inSeparator.
      * apply IH; [discriminate|intros H; contradiction|exact Hlast'].
      * constructor.
        -- intros H. apply (f_equal (@rev N)) in H.
           rewrite rev_involutive in H. exact (Hcur eq_refl H).
        -- apply IH; [discriminate|intros H; contradiction|exact Hlast'].
    + apply IH; [discriminate|reflexivity|exact Hlast'].
Qed.

Lemma splitOn_first s : forall cur inSeparator,
  exists more rest,
    splitOn s cur inSeparator = (rev cur ++ more) :: rest.
Proof.
  induction s as [|c s IH]; intros cur inSeparator; cbn [splitOn].
  - exists [], []. now rewrite app_nil_r.
  - destruct (isWhiteSpace c).
    + destruct inSeparator.
      * apply IH.
      * eexists [], _. now rewrite app_nil_r.
    + destruct (IH (c :: cur) false) as (more & rest & H).
      exists (c :: more), rest. rewrite H. cbn [rev].
      now rewrite <- app_assoc.
Qed.

Lemma last_default (l : jsstring) (d d' : N) :
  l <> [] -> last l d = last l d'.
Proof.
  induction l as [|x l IH]; [congruence|]. intros _.
  destruct l as [|y l]; [reflexivity|].
  change (last (y :: l) d = last (y :: l) d'). apply IH. discriminate.
Qed.

Lemma splitOn_no_space s : forall cur inSeparator,
  forallb (fun c => negb (isWhiteSpace c)) cur = true ->
  Forall (fun p => forallb (fun c => negb (isWhiteSpace c)) p = true)
         (splitOn s cur inSeparator).
Proof.
  assert (Hrev : forall cur,
            forallb (fun c => negb (isWhiteSpace c)) cur = true ->
            forallb (fun c => negb (isWhiteSpace c)) (rev cur) = true).
  { intros cur H. rewrite forallb_forall in *. intros x Hx.
    apply H. now apply in_rev. }
  induction s as [|c s IH]; intros cur inSeparator Hcur; cbn [splitOn].
  - constructor; [now apply Hrev|constructor].
  - destruct (isWhiteSpace c) eqn:Ec.
    + destruct inSeparator.
      * now apply IH.
      * constructor; [now apply Hrev|]. now apply IH.
    + apply IH. cbn [forallb]. now rewrite Ec, Hcur.
Qed.

(** X25.  The initials never fail and are the upper case of at most two
    units.  Without a name, or with a blank one, they are cut from the
    email and the email is displayed.  Otherwise the name is displayed
    as typed; with two words or more the initials are the first units of
    the first and of the last word, and with a single word they are the
    first two units of the name as typed, leading white space
    included. *)
Theorem initials_of_a_single_name_are_cut_from_the_untrimmed_text
  (fullName : option jsstring) (email : jsstring) :
  exists s,
    getUserInitials toUpperCase fullName email = Normal (toUpperCase s)
    /\ (List.length s <= 2)%nat
    /\ match fullName with
       | Some name =>
           match trim name with
           | [] =>
               s = firstn 2 email
               /\ getDisplayName fullName email = email
           | c :: _ =>
               let parts := splitWhiteSpace (trim name) in
               getDisplayName fullName email = name
               /\ Forall (fun p =>
                    p <> []
                    /\ forallb (fun u => negb (isWhiteSpace u)) p = true)
                    parts
               /\ ((List.length parts < 2)%nat -> s = firstn 2 name)
               /\ ((2 <= List.length parts)%nat ->
                   exists d,
                     hd_error (last parts []) = Some d
                     /\ s = [c; d])
           end
       | None =>
           s = firstn 2 email /\ getDisplayName fullName email = email
       end.
Proof.
  assert (Hcut : forall t : jsstring, (List.length (firstn 2 t) <= 2)%nat).
  { intros t. apply firstn_le_length. }
  destruct fullName as [[|c n]|]; cbn [getUserInitials getDisplayName].
  - exists (firstn 2 email). cbn. repeat split; apply Hcut.
  - destruct (trim (c :: n)) as [|t r] eqn:Et.
    + exists (firstn 2 email). repeat split; apply Hcut.
    + destruct (trim_ends _ _ _ Et) as (Ht & Hlast & _).
      cbv zeta.
      assert (Hparts : splitWhiteSpace (t :: r) = splitOn r [t] false).
      { unfold splitWhiteSpace. cbn [splitOn]. now rewrite Ht. }
      rewrite Hparts.
      assert (Hlast' : forall d, isWhiteSpace (last r d) = true -> r = []).
      { intros d H. destruct r as [|x r']; [reflexivity|].
        assert (Hsame : last (t :: x :: r') t = last (x :: r') d).
        { change (last (t :: x :: r') t) with (last (x :: r') t).
          apply last_default. discriminate. }
        congruence. }
      pose proof (splitOn_parts r [t] false
                    (fun _ => ltac:(discriminate)) (fun _ => eq_refl)
                    Hlast') as Hne.
      pose proof (splitOn_no_space r [t] false
                    ltac:(cbn [forallb]; now rewrite Ht)) as Hns.
      destruct (splitOn_first r [t] false) as (more & rest & Hfirst).
      cbn [rev app] in Hfirst.
      assert (Hall : Forall (fun p =>
                       p <> []
                       /\ forallb (fun u => negb (isWhiteSpace u)) p = true)
                       (splitOn r [t] false)).
      { rewrite Forall_forall in *. intros p Hp.
        split; [now apply Hne|now apply Hns]. }
      destruct (2 <=? List.length (splitOn r [t] false))%nat eqn:E2.
      * apply Nat.leb_le in E2.
        assert (Hin : In (last (splitOn r [t] false) [])
                         (splitOn r [t] false)).
        { rewrite Hfirst.
          destruct (exists_last (l := (t :: more) :: rest)
                      ltac:(discriminate)) as (l' & a & Hl).
          rewrite Hl, last_last. apply in_or_app. right. left. reflexivity. }
        rewrite Forall_forall in Hne. pose proof (Hne _ Hin) as Hd.
        destruct (last (splitOn r [t] false) []) as [|d w] eqn:El;
          [contradiction|].
        rewrite Hfirst in *. cbn [nth hd_error plus bind].
        exists [t; d]. split; [reflexivity|]. split; [cbn; lia|].
        split; [reflexivity|]. split; [exact Hall|].
        split; [intros Hlt; cbn [List.length] in *; lia|].
        intros _. exists d. split; reflexivity.
      * apply Nat.leb_gt in E2.
        exists (firstn 2 (c :: n)). split; [reflexivity|].
        split; [apply Hcut|]. split; [reflexivity|].
        split; [exact Hall|]. split; [reflexivity|].
        intros Hge. lia.
  - exists (firstn 2 email). repeat split; apply Hcut.
Qed.

End UserInitials.
